(* ===== verification/_CoqProject ===== *)
-Q . S2P
Prelude.v
Types.v
Machine.v
Wp.v
StringOps.v
StringFacts.v
StringMore.v
EscapeFacts.v
RegexOps.v
RegexFacts.v
ListOps.v
HashOps.v
PasswdOps.v
FileOps.v
UidMapOps.v
LogOps.v
InetOps.v
TimeOps.v
DnsOps.v
SocketOps.v
SessionOps.v
ProcessOps.v
ServerOps.v
ListRep.v
ListFacts.v
ListEdit.v
ListSort.v
ListText.v
ListRefine.v
HashRep.v
HashFacts.v
HashPairs.v
HashRefine.v
FileFacts.v
NumberFacts.v
NetFacts.v
FileRead.v
LineFacts.v
SessionFacts.v
DnsFacts.v
PacketFacts.v
Traces.v
PidFacts.v
StringRefine.v
StringOom.v
Samples.v
ListTheorems.v
HashTheorems.v
StringTheorems.v
FileTheorems.v
TestOps.v
SelfTest.v
RegexTheorems.v
SelfTheorems.v
NetTheorems.v
TraceTheorems.v
