(* ===== verification/Prelude.v ===== *)
(** * Natural C: a model of the library in Rocq

    The library (libnc) is written in a dialect of C that the Perl program
    [ncc] translates.  The dialect has exceptions ([throw], [catch],
    [finally]), automatic objects ([string_t *x;] is created when a function
    starts and destroyed when it ends) and checked calls (a call that is a
    statement is wrapped in [try]).  The library has strings, lists and hash
    tables; over these files, users, names of the network, sockets, sessions
    of clients, and a server.  The development translates the functions of
    src/*.c one by one, with the control flow that [ncc] and nc_exception.h
    give them, into executable functions on an explicit memory, and proves
    what they do.

    ** The machine

    - [Prelude]: characters and lists of characters.
    - [Types]: the structures of nc_string.h, nc_list.h, nc_hash.h, nc_file.h,
      nc_socket.h, nc_session.h and nc_server.h as records, and [world], the
      memory of a program: a finite map from locations to objects for each
      kind of structure, blocks of characters, the state of the allocator (it
      may fail at any call), and the system.  Integers are in Z; where a C type
      wraps around or truncates, the definition says so.
    - [Machine]: computations, [M A].  A computation ends normally, leaves
      early by one of the three ways the translator produces ([Leave], a C
      return, which skips labels and destructors; [Finally]; [Catch]), has
      undefined behaviour ([Crash]), or exhausts its fuel.  A system call takes
      the next of the replies that the world holds, and is added to a trace;
      theorems quantify over the replies.
    - [Wp]: weakest preconditions, and frames: which strings, entries and
      lists a call leaves alone.
    - [Traces]: what a call asks of the system, whatever the replies and
      whichever allocations fail: relations between memories that every
      primitive keeps ([keeps]), and runs taken apart into their steps.

    ** The components

    - string.c, memory.c, nc_string.h: [StringOps], [RegexOps], [InetOps],
      [TimeOps].  A [string_t] is a location; [str_rep w p t] of
      [StringFacts] says that it holds the text [t] with room for the NUL and
      consistent [len] and [size].  [StringFacts], [StringMore],
      [EscapeFacts], [NumberFacts] and [RegexFacts] specify the operations.
    - list.c, nc_list.h: [ListOps].  [list_rep k w l es ss] of [ListRep] says
      that [l] is a list with the entries [es] of the texts [ss]; with [k] its
      backward pointers are right too.  [ListFacts], [ListEdit], [ListSort] and
      [ListText] specify the operations.
    - hash.c, nc_hash.h: [HashOps].  [hash_rep] of [HashRep] relates a table of
      256 lists to a finite map; [HashFacts] and [HashPairs] specify the operations.
    - file.c, nc_file.h: [FileOps]; passwd.c: [PasswdOps] (the lookups) and
      [UidMapOps] (the map of /etc/passwd).  [FileFacts] and [FileRead] specify
      operations by what they ask of the system and what they answer.
    - host.c, dns.c: [DnsOps]; socket.c: [SocketOps]; session.c: [SessionOps];
      process.c, signal.c, thread.c: [ProcessOps]; server.c: [ServerOps].
      [NetFacts] specifies addresses, writing, accepting and fork(2),
      [LineFacts] the line reader of a socket, [SessionFacts] the controllers
      and the life of a session, [DnsFacts] the block lists, [PacketFacts] the
      records of mail exchangers, [PidFacts] pidfiles.
    - log.c, exception.c: [LogOps].  The destination of the messages is a state
      of its own; calls that only log are left out of the other components.
    - test.c, selftest.c: [TestOps], [SelfTest].  The tests of the library,
      as programs that use the other components.

    The components call each other as in the code: a list stores copies of
    strings made by [str_copy], a table is an array of lists, a session reads
    lines from a socket whose buffer is a list, and the server creates
    sessions.  Code outside the library is a parameter: regular expressions
    ([Regex], with the laws [RegexLaws]), the clock ([Clock]), name
    compression in packets ([Resolver]), the hooks of a session controller
    ([Hooks]) and the directory of pidfiles ([Site]).

    ** The theorems

    - [ListRefine], [HashRefine] and [StringRefine] define an abstract machine
      each, on sequences of texts, finite maps and environments of texts, and
      [ListTheorems], [HashTheorems] and [StringTheorems] prove that any
      program of calls simulates it: no undefined behaviour, no error but
      those of the abstract machine, and the same results.
    - [StringOom] transfers what is proved for an allocator that does not fail
      to runs of any allocator ([same_at], [calm]), and shows which operations
      keep strings well formed when it fails.
    - Round trips: escaping, serialization, joining and splitting, numbers,
      IPv4 addresses, pidfiles.
    - [FileTheorems]: replacing a file, listing a directory, attributes, locks
      and the lookups of users, for every sequence of replies.
    - [NetTheorems]: the line reader, writing, accepting, block lists, mail
      exchangers, sessions and their controllers, fork(2) with retries,
      the life of a pidfile and the loop of the server.
    - [TraceTheorems]: giving up privileges, for all replies and failures.
    - [RegexTheorems]: substitution, for every matcher that obeys [RegexLaws].
    - [SelfTheorems]: the tests of selftest.c pass, and end with an error
      whichever allocation fails.
    - Where the code does not do what its comments say, a theorem states what
      it does.  [Samples] has the memory of the witnesses.

    ** Fuel

    Loops that are not structural take fuel from the world they start in, and
    the theorems show that it is enough, by stating that calls end: traversals
    of lists run at most once for each entry of the store; loops over
    characters once for each character; loops that retry a system call at most
    once for each reply left.  A program that waits for a reply that never
    comes is the value [NoFuel].  The two endless loops, [session_handler] and
    [serve], take their fuel as an argument.

    ** Not modelled

    The translator [ncc] as a program on text: the definitions follow the
    code that it produces.  Code that is not compiled (OpenSSL, and what stands
    under FIXME or DEADWOOD).  The concurrent execution of threads (a thread
    that is created is a call of the system), and a signal that arrives inside
    a function: a handler is a function of its own, on the flags it sets.  The
    texts of most messages of the log, on which nothing depends. *)

From Stdlib Require Export Ascii String.
From stdpp Require Export base gmap strings list fin_maps.
From Stdlib Require Export ZArith Lia.

(** * Bytes *)

Abbreviation bytes := (list ascii).

(** The NUL byte. *)
Definition NUL : ascii := Ascii.zero.

(** Text literals of the source, as bytes. *)
Definition B (s : string) : bytes := String.list_ascii_of_string s.

(** [nonul bs]: no NUL inside, so [bs] is what a C string denotes. *)
Definition nonul (bs : bytes) : Prop := Forall (λ c, c ≠ NUL) bs.

#[export] Instance nonul_dec bs : Decision (nonul bs).
Proof. unfold nonul. refine (Forall_dec _ _). Defined.

(** The prefix of an array of characters up to its first NUL. *)
Fixpoint upto_nul (bs : bytes) : bytes :=
  match bs with
  | [] => []
  | c :: r => if decide (c = NUL) then [] else c :: upto_nul r
  end.

Lemma nonul_nil : nonul [].
Proof. constructor. Qed.

Lemma nonul_cons c bs : nonul (c :: bs) ↔ c ≠ NUL ∧ nonul bs.
Proof. exact (Forall_cons _ c bs). Qed.

Lemma nonul_app l k : nonul (l ++ k) ↔ nonul l ∧ nonul k.
Proof. exact (Forall_app _ l k). Qed.

Lemma nonul_singleton c : c ≠ NUL → nonul [c].
Proof. repeat constructor; done. Qed.

Lemma nonul_take n l : nonul l → nonul (take n l).
Proof. apply Forall_take. Qed.

Lemma nonul_drop n l : nonul l → nonul (drop n l).
Proof. apply Forall_drop. Qed.

Lemma upto_nul_nonul l : nonul l → upto_nul l = l.
Proof.
  induction 1 as [|c l Hc Hl IH]; [done|]. simpl.
  by rewrite decide_False, IH.
Qed.

Lemma upto_nul_is_nonul l : nonul (upto_nul l).
Proof.
  induction l as [|c l IH]; simpl; [constructor|].
  case_decide; [constructor|]. by constructor.
Qed.
