(* ===== verification/Types.v ===== *)
(** The data of the library: the structures of nc_string.h, nc_list.h,
    nc_hash.h and nc_file.h, pointers, and the memory they live in.  A pointer to an object
    is an optional location ([None] is NULL); a [char *] is a position in a
    block of characters or in a literal of the program text. *)

From S2P Require Import Prelude.

Open Scope Z_scope.

(** * Pointers and memory blocks *)

Abbreviation loc := positive.
Abbreviation ptr := (option positive).

(** Where a [char *] points: offset [coff] of a block, or of a constant array
    of the program text (a literal, or a local [char buf[]] that the callee
    only reads). *)
Inductive cptr :=
| CBlk (cblk : loc) (coff : Z)
| CLit (ctext : bytes) (coff : Z).

#[export] Instance cptr_eq_dec : EqDecision cptr.
Proof. solve_decision. Defined.

(** A cell is [None] until it is written. *)
Abbreviation cell := (option ascii).

(** A block of characters; [bheap] tells if malloc(3) returned it. *)
Record block := Block { bdata : list cell; bheap : bool }.

(** * nc_string.h *)

Definition STRING_MAX : Z := 536870912.

Record string_t := mk_string_t {
  str_value : option cptr;
  str_size : Z;
  str_len : Z;
  str_owner : bool
}.

Definition set_str_value v s := mk_string_t v (str_size s) (str_len s) (str_owner s).
Definition set_str_size n s := mk_string_t (str_value s) n (str_len s) (str_owner s).
Definition set_str_len n s := mk_string_t (str_value s) (str_size s) n (str_owner s).
Definition set_str_owner b s := mk_string_t (str_value s) (str_size s) (str_len s) b.

(** [const string_t EMPTY_STRING = { "", 0, 0, true }] *)
Definition EMPTY_STRING : string_t := mk_string_t (Some (CLit [] 0)) 0 0 true.

(** [CSTRING(x)]: the initialiser is positional, so [sizeof(x) - 1] lands in
    [size] and [sizeof(x)] in [len]. *)
Definition CSTRING (x : bytes) : string_t :=
  mk_string_t (Some (CLit x 0)) (Z.of_nat (length x)) (Z.of_nat (length x) + 1) false.

(** * nc_list.h *)

Record list_entry_t := mk_list_entry_t {
  ent_value : ptr;
  ent_next : ptr;
  ent_prev : ptr
}.

#[export] Instance list_entry_eq_dec : EqDecision list_entry_t.
Proof. solve_decision. Defined.

Definition set_ent_value v e := mk_list_entry_t v (ent_next e) (ent_prev e).
Definition set_ent_next n e := mk_list_entry_t (ent_value e) n (ent_prev e).
Definition set_ent_prev p e := mk_list_entry_t (ent_value e) (ent_next e) p.

Record list_t := mk_list_t {
  list_count : Z;
  list_head : ptr;
  list_tail : ptr
}.

#[export] Instance list_eq_dec_t : EqDecision list_t.
Proof. solve_decision. Defined.

(** * nc_hash.h *)

Record hash_t := mk_hash_t {
  hash_bucket : list ptr;
  hash_count : Z
}.

(** * The system *)

(** The fields of [struct stat] that the library reads. *)
Record stat_buf := mk_stat_buf {
  st_mode : Z;
  st_size : Z;
  st_uid : Z;
  st_gid : Z;
  st_mtime : Z
}.

Definition no_stat : stat_buf := mk_stat_buf 0 0 0 0 0.

(** Arguments of a system call, and what it gives back: its return value, the
    errno it sets when it fails, the data it writes into its buffer, the
    [struct stat] it fills, the strings of an array it makes, and the user or
    group number of an entry it finds. *)
Inductive sysarg := AInt (z : Z) | AStr (s : bytes).

Record sysret := mk_sysret {
  sys_ret : Z;
  sys_errno : Z;
  sys_data : bytes;
  sys_stat : stat_buf;
  sys_names : list bytes;
  sys_id : Z
}.

(** Replies that carry a value, an error, data, or a [struct stat]. *)
Definition reply (r : Z) : sysret := mk_sysret r 0 [] no_stat [] 0.
Definition reply_error (e : Z) : sysret := mk_sysret (-1) e [] no_stat [] 0.
Definition reply_data (r : Z) (d : bytes) : sysret := mk_sysret r 0 d no_stat [] 0.
Definition reply_stat (st : stat_buf) : sysret := mk_sysret 0 0 [] st [] 0.
Definition reply_names (r : Z) (ns : list bytes) (id : Z) : sysret :=
  mk_sysret r 0 [] no_stat ns id.

(** [answers] is what the system will reply to the calls to come, [trace] the
    calls made so far, latest first. *)
Record system := mk_system {
  answers : list sysret;
  trace : list (string * list sysarg);
  errno : Z
}.

(** * nc_file.h *)

Inductive file_type_t :=
| FILE_IS_NONEXISTENT
| FILE_IS_REGULAR
| FILE_IS_DIRECTORY
| FILE_IS_DEVICE
| FILE_IS_FIFO
| FILE_IS_SYMLINK
| FILE_IS_SOCKET.

#[export] Instance file_type_eq_dec : EqDecision file_type_t.
Proof. solve_decision. Defined.

Record stat_t := mk_stat_t {
  stat_uid : Z;
  stat_owner : ptr;
  stat_gid : Z;
  stat_group : ptr;
  stat_size : Z;
  stat_mode : Z;
  stat_type : file_type_t
}.

Definition zero_stat : stat_t := mk_stat_t 0 None 0 None 0 0 FILE_IS_NONEXISTENT.

Record file_t := mk_file_t {
  file_fd : Z;
  file_flags : Z;
  file_path : ptr;
  file_st : stat_t;
  file_locked : bool
}.

Definition set_file_fd n f := mk_file_t n (file_flags f) (file_path f) (file_st f) (file_locked f).
Definition set_file_flags n f := mk_file_t (file_fd f) n (file_path f) (file_st f) (file_locked f).
Definition set_file_path p f := mk_file_t (file_fd f) (file_flags f) p (file_st f) (file_locked f).
Definition set_file_st t f := mk_file_t (file_fd f) (file_flags f) (file_path f) t (file_locked f).
Definition set_file_locked b f := mk_file_t (file_fd f) (file_flags f) (file_path f) (file_st f) b.

(** * nc_socket.h *)

(** The members of the union [socket_addr_t] that the code uses.  A port is the
    16-bit number that [sin_port] holds, in network order, and an address the
    32-bit number that [s_addr] holds. *)
Record socket_addr_t := mk_addr {
  sa_family : Z;
  sin_port : Z;
  sin_addr : Z;
  sun_path : bytes
}.

Definition zero_addr : socket_addr_t := mk_addr 0 0 0 [].
Definition set_sa_family n a := mk_addr n (sin_port a) (sin_addr a) (sun_path a).
Definition set_sin_port n a := mk_addr (sa_family a) n (sin_addr a) (sun_path a).
Definition set_sin_addr n a := mk_addr (sa_family a) (sin_port a) n (sun_path a).
Definition set_sun_path t a := mk_addr (sa_family a) (sin_port a) (sin_addr a) t.

Inductive direction_t := UNKNOWN | LISTEN | CONNECT.

#[export] Instance direction_eq_dec : EqDecision direction_t.
Proof. solve_decision. Defined.

(** The bit-fields are one bit wide and signed: they hold 0 or -1. *)
Definition bit1 (z : Z) : Z := if Z.odd z then -1 else 0.

Record socket_t := mk_socket {
  sock_local : socket_addr_t;
  sock_remote : socket_addr_t;
  sock_direction : direction_t;
  sock_connected : Z;
  sock_non_blocking : Z;
  sock_fragmented : Z;
  sock_events : Z * Z * Z;   (* read, write, exception *)
  sock_timeout : Z;
  sock_fd : Z;
  sock_family : Z;
  sock_owner : Z * Z * Z;    (* uid, gid, mode *)
  sock_read_buf : ptr
}.

Definition zero_socket : socket_t :=
  mk_socket zero_addr zero_addr UNKNOWN 0 0 0 (0, 0, 0) 0 0 0 (0, 0, 0) None.

Section socket_setters.
Context (s : socket_t).
Let upd l r d c nb fr ev tm fd fam ow rb := mk_socket l r d c nb fr ev tm fd fam ow rb.
Definition set_sock_local a := upd a (sock_remote s) (sock_direction s) (sock_connected s)
  (sock_non_blocking s) (sock_fragmented s) (sock_events s) (sock_timeout s) (sock_fd s)
  (sock_family s) (sock_owner s) (sock_read_buf s).
Definition set_sock_remote a := upd (sock_local s) a (sock_direction s) (sock_connected s)
  (sock_non_blocking s) (sock_fragmented s) (sock_events s) (sock_timeout s) (sock_fd s)
  (sock_family s) (sock_owner s) (sock_read_buf s).
Definition set_sock_direction d := upd (sock_local s) (sock_remote s) d (sock_connected s)
  (sock_non_blocking s) (sock_fragmented s) (sock_events s) (sock_timeout s) (sock_fd s)
  (sock_family s) (sock_owner s) (sock_read_buf s).
Definition set_sock_connected z := upd (sock_local s) (sock_remote s) (sock_direction s) (bit1 z)
  (sock_non_blocking s) (sock_fragmented s) (sock_events s) (sock_timeout s) (sock_fd s)
  (sock_family s) (sock_owner s) (sock_read_buf s).
Definition set_sock_non_blocking z := upd (sock_local s) (sock_remote s) (sock_direction s)
  (sock_connected s) (bit1 z) (sock_fragmented s) (sock_events s) (sock_timeout s) (sock_fd s)
  (sock_family s) (sock_owner s) (sock_read_buf s).
Definition set_sock_fragmented z := upd (sock_local s) (sock_remote s) (sock_direction s)
  (sock_connected s) (sock_non_blocking s) (bit1 z) (sock_events s) (sock_timeout s) (sock_fd s)
  (sock_family s) (sock_owner s) (sock_read_buf s).
Definition set_sock_events e := upd (sock_local s) (sock_remote s) (sock_direction s)
  (sock_connected s) (sock_non_blocking s) (sock_fragmented s) e (sock_timeout s) (sock_fd s)
  (sock_family s) (sock_owner s) (sock_read_buf s).
Definition set_sock_timeout z := upd (sock_local s) (sock_remote s) (sock_direction s)
  (sock_connected s) (sock_non_blocking s) (sock_fragmented s) (sock_events s) (bit1 z) (sock_fd s)
  (sock_family s) (sock_owner s) (sock_read_buf s).
Definition set_sock_fd n := upd (sock_local s) (sock_remote s) (sock_direction s)
  (sock_connected s) (sock_non_blocking s) (sock_fragmented s) (sock_events s) (sock_timeout s) n
  (sock_family s) (sock_owner s) (sock_read_buf s).
Definition set_sock_family n := upd (sock_local s) (sock_remote s) (sock_direction s)
  (sock_connected s) (sock_non_blocking s) (sock_fragmented s) (sock_events s) (sock_timeout s)
  (sock_fd s) n (sock_owner s) (sock_read_buf s).
Definition set_sock_owner o := upd (sock_local s) (sock_remote s) (sock_direction s)
  (sock_connected s) (sock_non_blocking s) (sock_fragmented s) (sock_events s) (sock_timeout s)
  (sock_fd s) (sock_family s) o (sock_read_buf s).
Definition set_sock_read_buf p := upd (sock_local s) (sock_remote s) (sock_direction s)
  (sock_connected s) (sock_non_blocking s) (sock_fragmented s) (sock_events s) (sock_timeout s)
  (sock_fd s) (sock_family s) (sock_owner s) p.
End socket_setters.

(** * nc_session.h, nc_server.h *)

(** Function pointers are numbers; 0 is the null pointer. *)
Record session_controller_t := mk_controller {
  request_handler_func : Z;
  response_handler_func : Z;
  timeout_handler_func : Z;
  overload_handler_func : Z;
  session_init_func : Z;
  session_reset_func : Z;
  session_destroy_func : Z
}.

Definition zero_controller : session_controller_t := mk_controller 0 0 0 0 0 0 0.

Record session_t := mk_session {
  s_user : ptr;
  s_groups : ptr;
  s_srv : ptr;
  s_sock : ptr;
  s_start_time : Z;
  s_session_state : Z;
  s_error_count : Z;
  s_argv : ptr;
  s_context : ptr;
  s_code : Z;
  s_header : ptr;
  s_body : ptr;
  s_asis : bool;
  s_controller_handle : Z
}.

Definition zero_session : session_t :=
  mk_session None None None None 0 0 0 None None 0 None None false 0.

Record server_t := mk_server {
  srv_uid : ptr;
  srv_gid : ptr;
  srv_service : ptr;
  srv_family : Z;
  srv_address : ptr;
  srv_port : Z;
  srv_mode : Z;
  srv_timeout : Z;
  srv_sock : ptr;
  srv_controller : ptr;
  srv_controller_handle : Z
}.

Definition zero_server : server_t := mk_server None None None 0 None 0 0 0 None None 0.

(** The objects of these kinds, the scalar variables whose address is taken,
    and the static variables of session.c and dns.c. *)
Record net_state := mk_net {
  vars : gmap loc Z;
  socks : gmap loc socket_t;
  sessions : gmap loc session_t;
  servers : gmap loc server_t;
  controllers : gmap loc session_controller_t;
  CONTROLLER_COUNT : Z;
  CONTROLLER : list session_controller_t;
  DNS_LIB_INIT : bool
}.

Definition upd_vars f n := mk_net (f (vars n)) (socks n) (sessions n) (servers n) (controllers n)
  (CONTROLLER_COUNT n) (CONTROLLER n) (DNS_LIB_INIT n).
Definition upd_socks f n := mk_net (vars n) (f (socks n)) (sessions n) (servers n) (controllers n)
  (CONTROLLER_COUNT n) (CONTROLLER n) (DNS_LIB_INIT n).
Definition upd_sessions f n := mk_net (vars n) (socks n) (f (sessions n)) (servers n) (controllers n)
  (CONTROLLER_COUNT n) (CONTROLLER n) (DNS_LIB_INIT n).
Definition upd_servers f n := mk_net (vars n) (socks n) (sessions n) (f (servers n)) (controllers n)
  (CONTROLLER_COUNT n) (CONTROLLER n) (DNS_LIB_INIT n).
Definition upd_controllers f n := mk_net (vars n) (socks n) (sessions n) (servers n)
  (f (controllers n)) (CONTROLLER_COUNT n) (CONTROLLER n) (DNS_LIB_INIT n).
Definition upd_table c t n := mk_net (vars n) (socks n) (sessions n) (servers n) (controllers n)
  c t (DNS_LIB_INIT n).
Definition set_dns_init b n := mk_net (vars n) (socks n) (sessions n) (servers n) (controllers n)
  (CONTROLLER_COUNT n) (CONTROLLER n) b.

(** CONTROLLER_MAX entries. *)
Definition initial_net : net_state := mk_net ∅ ∅ ∅ ∅ ∅ 1 (replicate 10 zero_controller) false.

(** * The state of a program *)

Record world := mk_world {
  blocks : gmap loc block;
  strs : gmap loc string_t;
  ents : gmap loc list_entry_t;
  lists : gmap loc list_t;
  hashes : gmap loc hash_t;
  files : gmap loc file_t;
  next_loc : loc;          (* locations from here on were never handed out *)
  allocs : nat;            (* calls of the allocator so far *)
  oom : nat → bool;        (* does the n-th call of the allocator fail? *)
  sys : system;
  net : net_state
}.

Definition upd_blocks f w := mk_world (f (blocks w)) (strs w) (ents w) (lists w) (hashes w)
  (files w) (next_loc w) (allocs w) (oom w) (sys w) (net w).
Definition upd_strs f w := mk_world (blocks w) (f (strs w)) (ents w) (lists w) (hashes w)
  (files w) (next_loc w) (allocs w) (oom w) (sys w) (net w).
Definition upd_ents f w := mk_world (blocks w) (strs w) (f (ents w)) (lists w) (hashes w)
  (files w) (next_loc w) (allocs w) (oom w) (sys w) (net w).
Definition upd_lists f w := mk_world (blocks w) (strs w) (ents w) (f (lists w)) (hashes w)
  (files w) (next_loc w) (allocs w) (oom w) (sys w) (net w).
Definition upd_hashes f w := mk_world (blocks w) (strs w) (ents w) (lists w) (f (hashes w))
  (files w) (next_loc w) (allocs w) (oom w) (sys w) (net w).
Definition upd_files f w := mk_world (blocks w) (strs w) (ents w) (lists w) (hashes w)
  (f (files w)) (next_loc w) (allocs w) (oom w) (sys w) (net w).
Definition upd_next f w := mk_world (blocks w) (strs w) (ents w) (lists w) (hashes w)
  (files w) (f (next_loc w)) (allocs w) (oom w) (sys w) (net w).
Definition upd_allocs f w := mk_world (blocks w) (strs w) (ents w) (lists w) (hashes w)
  (files w) (next_loc w) (f (allocs w)) (oom w) (sys w) (net w).
Definition upd_sys f w := mk_world (blocks w) (strs w) (ents w) (lists w) (hashes w)
  (files w) (next_loc w) (allocs w) (oom w) (f (sys w)) (net w).
Definition upd_net f w := mk_world (blocks w) (strs w) (ents w) (lists w) (hashes w)
  (files w) (next_loc w) (allocs w) (oom w) (sys w) (f (net w)).

(** Updates of one kind of these objects in a world. *)
Definition in_net {A} (upd : (gmap loc A → gmap loc A) → net_state → net_state)
    (f : gmap loc A → gmap loc A) : world → world := upd_net (upd f).

(** A program that starts with an empty memory and an allocator that never
    fails. *)
Definition empty_world : world :=
  mk_world ∅ ∅ ∅ ∅ ∅ ∅ 1 0 (λ _, false) (mk_system [] [] 0) initial_net.
