(* ===== verification/Machine.v ===== *)
(** The machine the library runs on, and the functions the ncc translator
    makes of the sources.

    A computation is a state transformer over [world] that may leave early.
    The three ways out of a function body are those the translator and the
    macros of nc_exception.h produce: a plain C [return] (the macros [throw],
    [throwf], [require] and [try]), a [return] statement of the source, which
    the translator rewrites to "set __retval and go to finally", and
    [goto catch] (the macros [throw_silent] and [throw_errno]).  Undefined
    behaviour, abort(3) and exit(3) are values of [res], so a theorem can say
    that a call has none, or that it has one. *)

From S2P Require Import Prelude Types.

Declare Scope nc_scope.
Delimit Scope nc_scope with nc.
Open Scope Z_scope.

(** * Computations *)

Inductive crash :=
| NullDeref   (* a null pointer is dereferenced *)
| BadAccess   (* access outside an object, after free, or to an unset cell *)
| BadFree     (* free(3) of what malloc(3) did not return *)
| Aborted     (* abort(3) *)
| Exited (status : Z). (* exit(3): the process ends here *)

Inductive exit :=
| Leave (z : Z)    (* C return: neither labels nor destructors run *)
| Finally (z : Z)  (* __retval = z; goto finally *)
| Catch.           (* goto catch *)

Inductive res (A : Type) :=
| Ok (a : A) (w : world)
| Exit (x : exit) (w : world)
| Crash (c : crash)
| NoFuel.
Arguments Ok {A}.
Arguments Exit {A}.
Arguments Crash {A}.
Arguments NoFuel {A}.

Definition M (A : Type) : Type := world → res A.

#[export] Instance M_ret : MRet M := λ A a w, Ok a w.
#[export] Instance M_bind : MBind M := λ A B k c w,
  match c w with
  | Ok a w' => k a w'
  | Exit x w' => Exit x w'
  | Crash e => Crash e
  | NoFuel => NoFuel
  end.

Definition leave {A} (x : exit) : M A := λ w, Exit x w.
Definition crash_with {A} (e : crash) : M A := λ _, Crash e.
Definition out_of_fuel {A} : M A := λ _, NoFuel.
Definition get_world : M world := λ w, Ok w w.
Definition modify (f : world → world) : M unit := λ w, Ok tt (f w).
Definition when (b : bool) (c : M unit) : M unit := if b then c else mret tt.

(** [loop fuel f a] repeats [f] until it answers [inr]. *)
Fixpoint loop {A B} (fuel : nat) (f : A → M (A + B)) (a : A) : M B :=
  match fuel with
  | O => out_of_fuel
  | S n => r ← f a; match r with inl a' => loop n f a' | inr b => mret b end
  end.
Arguments loop : simpl never.

(** * The macros of nc_exception.h *)

(** The message goes to the log. *)
Definition throw {A} (msg : string) : M A := leave (Leave (-1)).

Definition throw_silent {A} : M A := leave Catch.
Definition throw_errno {A} (syscall : string) : M A := leave Catch.
Definition throw_fatal {A} (msg : string) : M A := crash_with Aborted.

Definition require (b : bool) : M unit :=
  if b then mret tt else throw "invalid argument(s)".

(** [try (f(...))], which ncc wraps around every statement that is a call. *)
Definition try_ (c : M Z) : M unit :=
  r ← c; if r =? 0 then mret tt else throw "".

(** * What ncc makes of a function *)

(** The source's [return z;]. *)
Definition return_ {A} (z : Z) : M A := leave (Finally z).

(** The end of every function: [catch: __retval = -1; ... finally: ...].  The
    result is __retval at the point where the destructors of the automatic
    objects follow. *)
Definition labels (body catch_code finally_code : M unit) : M Z := λ w,
  let to_finally z w1 :=
    match finally_code w1 with
    | Ok _ w2 => Ok z w2
    | Exit x w2 => Exit x w2
    | Crash e => Crash e
    | NoFuel => NoFuel
    end in
  match body w with
  | Ok _ w1 => to_finally 0 w1
  | Exit (Leave z) w1 => Exit (Leave z) w1
  | Exit (Finally z) w1 => to_finally z w1
  | Exit Catch w1 =>
      match catch_code w1 with
      | Ok _ w2 => to_finally (-1) w2
      | Exit (Finally z) w2 => to_finally z w2
      | Exit x w2 => Exit x w2
      | Crash e => Crash e
      | NoFuel => NoFuel
      end
  | Crash e => Crash e
  | NoFuel => NoFuel
  end.

Definition body (b : M unit) : M Z := labels b (mret tt) (mret tt).

(** The call of a function: a C [return] inside it ends it. *)
Definition func (m : M Z) : M Z := λ w,
  match m w with
  | Exit (Leave z) w' => Ok z w'
  | r => r
  end.

(** An automatic object: ncc emits [try (T_new(&x));] after the declarations
    and [destroy(T, &x);] before the final return. *)
Definition auto_ (new destroy : ptr → M (Z * ptr)) (k : ptr → M Z) : M Z :=
  '(rc, x) ← new None;
  if negb (rc =? 0) then throw "" else
  z ← k x;
  '(rc', _) ← destroy x;
  if negb (rc' =? 0) then leave (Leave (-1)) else
  mret z.

(** * Objects *)

Definition deref_obj {A} (sel : world → gmap loc A) (p : ptr) : M A := λ w,
  match p with
  | None => Crash NullDeref
  | Some l => match sel w !! l with Some a => Ok a w | None => Crash BadAccess end
  end.

Definition get_str : ptr → M string_t := deref_obj strs.
Definition get_ent : ptr → M list_entry_t := deref_obj ents.
Definition get_list : ptr → M list_t := deref_obj lists.
Definition get_hash : ptr → M hash_t := deref_obj hashes.

Definition get_file : ptr → M file_t := deref_obj files.

Definition set_obj {A} (sel : world → gmap loc A)
    (upd : (gmap loc A → gmap loc A) → world → world)
    (p : ptr) (f : A → A) : M unit := λ w,
  match p with
  | None => Crash NullDeref
  | Some l =>
      match sel w !! l with
      | Some a => Ok tt (upd <[l := f a]> w)
      | None => Crash BadAccess
      end
  end.

Definition mod_str : ptr → (string_t → string_t) → M unit := set_obj strs upd_strs.
Definition mod_ent : ptr → (list_entry_t → list_entry_t) → M unit :=
  set_obj ents upd_ents.
Definition mod_list : ptr → (list_t → list_t) → M unit := set_obj lists upd_lists.
Definition mod_hash : ptr → (hash_t → hash_t) → M unit := set_obj hashes upd_hashes.

Definition mod_file : ptr → (file_t → file_t) → M unit := set_obj files upd_files.

Definition get_sock : ptr → M socket_t := deref_obj (λ w, socks (net w)).
Definition get_session : ptr → M session_t := deref_obj (λ w, sessions (net w)).
Definition get_server : ptr → M server_t := deref_obj (λ w, servers (net w)).
Definition get_controller : ptr → M session_controller_t := deref_obj (λ w, controllers (net w)).
Definition get_var : ptr → M Z := deref_obj (λ w, vars (net w)).

Definition mod_sock : ptr → (socket_t → socket_t) → M unit :=
  set_obj (λ w, socks (net w)) (in_net upd_socks).
Definition mod_session : ptr → (session_t → session_t) → M unit :=
  set_obj (λ w, sessions (net w)) (in_net upd_sessions).
Definition mod_server : ptr → (server_t → server_t) → M unit :=
  set_obj (λ w, servers (net w)) (in_net upd_servers).
Definition set_var (p : ptr) (z : Z) : M unit :=
  set_obj (λ w, vars (net w)) (in_net upd_vars) p (λ _, z).

(** A location never used before. *)
Definition fresh_loc : M loc := λ w, Ok (next_loc w) (upd_next Pos.succ w).

(** One call of the allocator: does it succeed? *)
Definition allocator : M bool := λ w,
  Ok (negb (oom w (allocs w))) (upd_allocs S w).

(** [calloc(1, sizeof( *ptr))] of an object whose zeroed value is [z]. *)
Definition calloc_obj {A} (upd : (gmap loc A → gmap loc A) → world → world) (z : A) :
    M ptr :=
  ok ← allocator;
  if negb ok then mret None else
  l ← fresh_loc;
  modify (upd <[l := z]>);;
  mret (Some l).

Definition free_obj {A} (sel : world → gmap loc A)
    (upd : (gmap loc A → gmap loc A) → world → world) (p : ptr) : M unit := λ w,
  match p with
  | None => Ok tt w
  | Some l =>
      match sel w !! l with
      | Some _ => Ok tt (upd (delete l) w)
      | None => Crash BadFree
      end
  end.

(** A scalar variable of a function whose address is taken.  It lives in the
    frame of the function, however that ends. *)
Definition pop_var (l : loc) (c : M Z) : M Z := λ w,
  match c w with
  | Ok z w' => Ok z (in_net upd_vars (delete l) w')
  | Exit x w' => Exit x (in_net upd_vars (delete l) w')
  | r => r
  end.

Definition local_var (k : ptr → M Z) : M Z :=
  l ← fresh_loc;
  modify (in_net upd_vars <[l := 0]>);;
  pop_var l (k (Some l)).

(** * Characters in memory *)

Definition cells_of (s : bytes) : list cell := (Some <$> s) ++ [Some NUL].

(** The cells from where [c] points to the end of its block. *)
Definition cells_at (w : world) (c : cptr) : option (list cell) :=
  match c with
  | CBlk b o =>
      if o <? 0 then None else
      blk ← blocks w !! b; Some (drop (Z.to_nat o) (bdata blk))
  | CLit s o => if o <? 0 then None else Some (drop (Z.to_nat o) (cells_of s))
  end.

Definition ptr_add (c : cptr) (n : Z) : cptr :=
  match c with CBlk b o => CBlk b (o + n) | CLit s o => CLit s (o + n) end.

Definition non_null {A} (c : option A) : M A :=
  match c with Some c => mret c | None => crash_with NullDeref end.

Definition cells (c : cptr) : M (list cell) := λ w,
  match cells_at w c with Some l => Ok l w | None => Crash BadAccess end.

(** [*(c + i)] *)
Definition load (c : option cptr) (i : Z) : M ascii :=
  c ← non_null c;
  l ← cells (ptr_add c i);
  match head l with
  | Some (Some a) => mret a
  | _ => crash_with BadAccess
  end.

(** The [n] cells from [c] on, for memcpy(3). *)
Definition read_cells (c : option cptr) (n : Z) : M (list cell) :=
  c ← non_null c;
  l ← cells c;
  if bool_decide (Z.to_nat n ≤ length l)%nat then mret (take (Z.to_nat n) l)
  else crash_with BadAccess.

(** Overwrite part of a list of cells. *)
Definition splice (cs : list cell) (off : nat) (new : list cell) : list cell :=
  take off cs ++ new ++ drop (off + length new) cs.

(** Write cells at [c + i], for memcpy(3) and memset(3).  A literal is
    read-only. *)
Definition store (c : option cptr) (i : Z) (new : list cell) : M unit := λ w,
  match c with
  | None => Crash NullDeref
  | Some (CLit _ _) => Crash BadAccess
  | Some (CBlk b o) =>
      match blocks w !! b with
      | None => Crash BadAccess
      | Some blk =>
          if bool_decide (0 ≤ o + i ∧
               o + i + Z.of_nat (length new) ≤ Z.of_nat (length (bdata blk)))
          then Ok tt (upd_blocks
                 <[b := Block (splice (bdata blk) (Z.to_nat (o + i)) new) (bheap blk)]> w)
          else Crash BadAccess
      end
  end.

(** [memset(c + i, a, 1)] *)
Definition memset1 (c : option cptr) (i : Z) (a : ascii) : M unit :=
  store c i [Some a].

(** The characters before the first NUL; [None] if it is not found inside the
    block, or if an unset cell comes first. *)
Fixpoint scan_nul (cs : list cell) : option bytes :=
  match cs with
  | Some a :: r => if decide (a = NUL) then Some [] else cons a <$> scan_nul r
  | _ => None
  end.

Definition cstr_at (w : world) (c : cptr) : option bytes :=
  l ← cells_at w c; scan_nul l.

(** What a NUL-terminated [const char *] denotes. *)
Definition c_str (c : option cptr) : M bytes := λ w,
  match c with
  | None => Crash NullDeref
  | Some c => match cstr_at w c with Some s => Ok s w | None => Crash BadAccess end
  end.

Definition strlen (c : option cptr) : M Z := s ← c_str c; mret (Z.of_nat (length s)).

(** * malloc(3), free(3), realloc(3) *)

Definition malloc (n : Z) : M (option cptr) :=
  ok ← allocator;
  if negb ok then mret None else
  b ← fresh_loc;
  modify (upd_blocks <[b := Block (replicate (Z.to_nat n) None) true]>);;
  mret (Some (CBlk b 0)).

Definition free (c : option cptr) : M unit := λ w,
  match c with
  | None => Ok tt w
  | Some (CBlk b o) =>
      match blocks w !! b with
      | Some (Block _ true) =>
          if o =? 0 then Ok tt (upd_blocks (delete b) w) else Crash BadFree
      | _ => Crash BadFree
      end
  | Some (CLit _ _) => Crash BadFree
  end.

(** Always moves the block, so that a stale pointer is seen. *)
Definition realloc (c : option cptr) (n : Z) : M (option cptr) :=
  match c with
  | None => malloc n
  | Some c =>
      old ← cells c;
      new ← malloc n;
      match new with
      | None => mret None
      | Some _ =>
          free (Some c);;
          store new 0 (take (Z.to_nat n) old);;
          mret new
      end
  end.

(** memory.c: the new part is cleared through [*dest], which still holds the
    pointer that realloc(3) was given. *)
Definition mem_realloc (dest : option cptr) (old_size new_size : Z) :
    M (Z * option cptr) :=
  p ← realloc dest new_size;
  match p with
  | None => mret (-1, dest)
  | Some _ =>
      when ((0 <? old_size) && (old_size <? new_size))
        (store dest old_size (replicate (Z.to_nat (new_size - old_size)) (Some NUL)));;
      mret (0, p)
  end.

(** * Conversions between [char] and [int] (two's complement, 8-bit char) *)

Definition char_of_int (z : Z) : ascii := ascii_of_N (Z.to_N (z mod 256)).
Definition uchar (a : ascii) : Z := Z.of_N (N_of_ascii a).
Definition int_of_char (a : ascii) : Z :=
  if uchar a <? 128 then uchar a else uchar a - 256.

(** size_t is 64 bits wide. *)
Definition size_t (z : Z) : Z := z mod 2 ^ 64.

(** * System calls *)

(** The next reply of the system; it sets errno when it is negative. *)
Definition syscall (name : string) (args : list sysarg) : M sysret := λ w,
  match answers (sys w) with
  | [] => NoFuel
  | r :: rest =>
      Ok r (upd_sys (λ s, mk_system rest ((name, args) :: trace s)
              (if sys_ret r <? 0 then sys_errno r else errno s)) w)
  end.

Definition get_errno : M Z := λ w, Ok (errno (sys w)) w.
Definition set_errno (z : Z) : M unit :=
  modify (upd_sys (λ s, mk_system (answers s) (trace s) z)).
