(* ===== verification/Wp.v ===== *)
(** Weakest preconditions for the computations of [Machine], and the frame
    relation by which the specifications say what a call leaves alone. *)

From S2P Require Import Prelude Types Machine.

Open Scope Z_scope.

(** * Weakest preconditions *)

(** [wp c Q E w]: run from [w], [c] has no undefined behaviour and ends, with
    [Q] when it reaches its end and [E] when it leaves early. *)
Definition wp {A} (c : M A) (Q : A → world → Prop) (E : exit → world → Prop)
    (w : world) : Prop :=
  match c w with
  | Ok a w' => Q a w'
  | Exit x w' => E x w'
  | Crash _ | NoFuel => False
  end.

(** No early exit. *)
Definition no_exit : exit → world → Prop := λ _ _, False.

Section rules.
Context {A : Type}.
Implicit Types (Q : A → world → Prop) (E : exit → world → Prop) (w : world).

Lemma wp_ret (a : A) Q E w : Q a w → wp (mret a) Q E w.
Proof. done. Qed.

Lemma wp_bind {A'} (c : M A') (k : A' → M A) Q E w :
  wp c (λ a w', wp (k a) Q E w') E w → wp (c ≫= k) Q E w.
Proof. unfold wp, mbind, M_bind. by destruct (c w). Qed.

Lemma wp_mono (c : M A) Q Q' E E' w :
  wp c Q E w → (∀ a w', Q a w' → Q' a w') → (∀ x w', E x w' → E' x w') →
  wp c Q' E' w.
Proof. unfold wp. destruct (c w); auto. Qed.

Lemma wp_conseq (c : M A) Q Q' E w :
  wp c Q E w → (∀ a w', Q a w' → Q' a w') → wp c Q' E w.
Proof. intros H HQ. by eapply wp_mono. Qed.

Lemma wp_leave x Q E w : E x w → wp (leave x) Q E w.
Proof. done. Qed.

Lemma wp_throw s Q E w : E (Leave (-1)) w → wp (throw s) Q E w.
Proof. done. Qed.

Lemma wp_when (b : bool) (c : M unit) (Q : unit → world → Prop) E w :
  (b = true → wp c Q E w) → (b = false → Q tt w) → wp (when b c) Q E w.
Proof. destruct b; simpl; intros H1 H2; [exact (H1 eq_refl)|exact (H2 eq_refl)]. Qed.

Lemma wp_ok (c : M A) Q w :
  wp c Q no_exit w → ∃ a w', c w = Ok a w' ∧ Q a w'.
Proof. unfold wp. destruct (c w); try done. eauto. Qed.
End rules.

Lemma wp_require b (Q : unit → world → Prop) E w :
  b = true → Q tt w → wp (require b) Q E w.
Proof. by intros ->. Qed.

Lemma wp_try c (Q : unit → world → Prop) E w :
  wp c (λ r w', if r =? 0 then Q tt w' else E (Leave (-1)) w') E w →
  wp (try_ c) Q E w.
Proof.
  intros H. unfold try_. apply wp_bind. eapply wp_mono; [exact H| |done].
  intros r w'. cbn beta. destruct (r =? 0); intros Hr; exact Hr.
Qed.

(** Two steps taken together. *)
Lemma wp_two {A B C} (c : M A) (d : M B) (k : M C) Q E w :
  wp (c;; d) (λ _ w', wp k Q E w') E w → wp (c;; d;; k) Q E w.
Proof.
  unfold wp, mbind, M_bind. destruct (c w) as [a w1| | |]; try done. by destruct (d w1).
Qed.

Lemma wp_two_steps {A B C D} (c : M A) (d : M B) (f : B → M C) (k : M D) Q E w :
  wp (c;; x ← d; f x) (λ _ w', wp k Q E w') E w → wp (c;; x ← d; f x;; k) Q E w.
Proof.
  unfold wp, mbind, M_bind. destruct (c w) as [a w1| | |]; try done. destruct (d w1) as [b w2| | |]; try done.
  by destruct (f b w2).
Qed.

Lemma wp_loop_then {A B C D} (c : M A) (d : M B) (f : A → B → M C) (k : M D) Q E w :
  wp (a ← c; x ← d; f a x) (λ _ w', wp k Q E w') E w → wp (a ← c; x ← d; f a x;; k) Q E w.
Proof.
  unfold wp, mbind, M_bind. destruct (c w) as [a w1| | |]; try done. destruct (d w1) as [b w2| | |]; try done.
  by destruct (f a b w2).
Qed.

(** What [func] and [labels] ask of the exits of a body. *)
Definition fexit (Q : Z → world → Prop) : exit → world → Prop := λ x w,
  match x with Leave z => Q z w | _ => False end.

Definition bexit (Q : Z → world → Prop) (E : exit → world → Prop) :
    exit → world → Prop := λ x w,
  match x with Leave z => E (Leave z) w | Finally z => Q z w | Catch => Q (-1) w end.

Lemma wp_func (m : M Z) Q E w : wp m Q (fexit Q) w → wp (func m) Q E w.
Proof. unfold wp, func. by destruct (m w) as [?|[] ?| |]. Qed.

Lemma wp_body (b : M unit) Q E w :
  wp b (λ _ w', Q 0 w') (bexit Q E) w → wp (body b) Q E w.
Proof.
  unfold wp, body, labels. by destruct (b w) as [?|[] ?| |].
Qed.

(** A function whose body is [b]. *)
Lemma wp_func_body (b : M unit) Q E w :
  wp b (λ _ w', Q 0 w')
     (λ x w', match x with Leave z | Finally z => Q z w' | Catch => Q (-1) w' end) w →
  wp (func (body b)) Q E w.
Proof.
  intros H. apply wp_func, wp_body. eapply wp_mono; [exact H|done|].
  by intros [].
Qed.

(** An automatic object: the body is run with a new object, and the object is
    destroyed unless the body left by a C return. *)
Lemma wp_auto new destroy k Q E w :
  wp (new None) (λ '(rc, p) w1,
      if rc =? 0 then
        wp (k p) (λ z w2,
            wp (destroy p) (λ '(rc', _) w3,
                if rc' =? 0 then Q z w3 else E (Leave (-1)) w3) E w2) E w1
      else E (Leave (-1)) w1) E w →
  wp (auto_ new destroy k) Q E w.
Proof.
  intros H. unfold auto_. apply wp_bind. eapply wp_mono; [exact H| |done].
  intros [rc p] w1. simpl. destruct (rc =? 0); simpl; [|intros Hr; exact Hr].
  intros Hk. apply wp_bind. eapply wp_mono; [exact Hk| |done].
  intros z w2 Hd. apply wp_bind. eapply wp_mono; [exact Hd| |done].
  intros [rc' p'] w3. simpl. destruct (rc' =? 0); intros Hr; exact Hr.
Qed.

(** A loop with an invariant and a variant: [n] bounds the iterations left. *)
Lemma wp_loop {A B} (I : nat → A → world → Prop) (f : A → M (A + B))
    (Q : B → world → Prop) E fuel a w :
  (∀ n a w, I n a w →
     wp (f a) (λ r w', match r with
                        | inl a' => ∃ n', (n' < n)%nat ∧ I n' a' w'
                        | inr b => Q b w' end) E w) →
  ∀ n, I n a w → (n < fuel)%nat → wp (loop fuel f a) Q E w.
Proof.
  intros Hstep. revert a w. induction fuel as [|fuel IH]; intros a w n HI Hlt; [lia|].
  cbn [loop]. apply wp_bind. eapply wp_mono; [by apply Hstep| |done].
  intros [a'|b] w'; simpl; [|intros Hr; exact Hr].
  intros (n' & Hn' & HI'). apply (IH _ _ n'); [done|lia].
Qed.

(** * Objects *)

Section objects.
Context {A : Type} (sel : world → gmap loc A).

Lemma wp_deref l (a : A) (Q : A → world → Prop) E w :
  sel w !! l = Some a → Q a w → wp (deref_obj sel (Some l)) Q E w.
Proof. unfold wp, deref_obj. intros ->. done. Qed.

Lemma wp_set_obj upd l f (a : A) (Q : unit → world → Prop) E w :
  sel w !! l = Some a → Q tt (upd <[l := f a]> w) →
  wp (set_obj sel upd (Some l) f) Q E w.
Proof. unfold wp, set_obj. intros ->. done. Qed.
End objects.

Lemma wp_non_null {A} (a : A) (Q : A → world → Prop) E w :
  Q a w → wp (non_null (Some a)) Q E w.
Proof. done. Qed.

(** * Ownership and frames *)

(** String [p] owns the block [b]. *)
Definition owns (w : world) (p b : loc) : Prop :=
  ∃ s o, strs w !! p = Some s ∧ str_owner s = true ∧ str_value s = Some (CBlk b o).

(** The memory is well formed: nothing lives beyond [next_loc], and no block
    has two owners. *)
Record wf (w : world) : Prop := {
  wf_strs l : (next_loc w ≤ l)%positive → strs w !! l = None;
  wf_blocks l : (next_loc w ≤ l)%positive → blocks w !! l = None;
  wf_ents l : (next_loc w ≤ l)%positive → ents w !! l = None;
  wf_lists l : (next_loc w ≤ l)%positive → lists w !! l = None;
  wf_hashes l : (next_loc w ≤ l)%positive → hashes w !! l = None;
  wf_own p1 p2 b : owns w p1 b → owns w p2 b → p1 = p2;
  wf_own_bound p b : owns w p b → (b < next_loc w)%positive;
}.

(** Well formed, and the allocator never fails. *)
Definition ready (w : world) : Prop := wf w ∧ ∀ n, oom w n = false.

(** [frame X w w']: from [w] to [w'], of the strings and blocks that exist in
    [w] only the strings of [X] and the blocks they own may differ. *)
Record frame (X : gset loc) (w w' : world) : Prop := {
  fr_next : (next_loc w ≤ next_loc w')%positive;
  fr_strs q : (q < next_loc w)%positive → q ∉ X → strs w' !! q = strs w !! q;
  fr_blocks b : (b < next_loc w)%positive → (∀ p, p ∈ X → ¬ owns w p b) →
    blocks w' !! b = blocks w !! b;
  fr_owns p b : owns w' p b → owns w p b ∨ (next_loc w ≤ b)%positive;
}.

(** What string operations never touch. *)
Record same_rest (w w' : world) : Prop := {
  sr_ents : ents w' = ents w;
  sr_lists : lists w' = lists w;
  sr_hashes : hashes w' = hashes w;
  sr_files : files w' = files w;
  sr_sys : sys w' = sys w;
  sr_net : net w' = net w;
}.

(** A string operation that may modify the strings of [X]. *)
Definition sstep (X : gset loc) (w w' : world) : Prop :=
  ready w' ∧ frame X w w' ∧ same_rest w w'.

Lemma frame_refl X w : frame X w w.
Proof. split; intros; [lia|done|done|by left]. Qed.

Lemma frame_mono X Y w w' : X ⊆ Y → frame X w w' → frame Y w w'.
Proof.
  intros HXY [H1 H2 H3 H4]. split; [done| | |done].
  - intros q Hq HY. apply H2; set_solver.
  - intros b Hb HY. apply H3; [done|]. intros p Hp. apply HY. set_solver.
Qed.

Lemma frame_trans X w1 w2 w3 :
  frame X w1 w2 → frame X w2 w3 → frame X w1 w3.
Proof.
  intros [A1 A2 A3 A4] [B1 B2 B3 B4]. split; [lia| | |].
  - intros q Hq HX. rewrite B2; [by apply A2|lia|done].
  - intros b Hb HX. rewrite B3; [by apply A3|lia|].
    intros p Hp Ho. destruct (A4 _ _ Ho) as [Ho'|]; [by eapply HX|lia].
  - intros p b Ho. destruct (B4 _ _ Ho) as [Ho'|]; [|right; lia].
    by apply A4.
Qed.

(** An object that did not exist in [w] need not be mentioned. *)
Lemma frame_fresh X l w w' :
  wf w → (next_loc w ≤ l)%positive → frame ({[l]} ∪ X) w w' → frame X w w'.
Proof.
  intros Hwf Hl [H1 H2 H3 H4]. split; [done| | |done].
  - intros q Hq HX. apply H2; [done|]. rewrite elem_of_union, elem_of_singleton.
    intros [->|]; [lia|done].
  - intros b Hb HX. apply H3; [done|]. intros p Hp Ho.
    apply elem_of_union in Hp as [->%elem_of_singleton|Hp]; [|by eapply HX].
    destruct Ho as (s & o & Hs & _). by rewrite (wf_strs w Hwf l) in Hs.
Qed.

#[export] Instance same_rest_refl : Reflexive same_rest.
Proof. by split. Qed.

#[export] Instance same_rest_trans : Transitive same_rest.
Proof. intros w1 w2 w3 [] []. split; congruence. Qed.

Lemma sstep_refl X w : ready w → sstep X w w.
Proof. intros H. split; [done|]. split; [apply frame_refl|reflexivity]. Qed.

Lemma sstep_ready X w w' : sstep X w w' → ready w'.
Proof. by intros (? & _). Qed.

Lemma sstep_mono X Y w w' : X ⊆ Y → sstep X w w' → sstep Y w w'.
Proof. intros ? (? & ? & ?). split; [done|]. split; [by eapply frame_mono|done]. Qed.

Lemma sstep_trans X w1 w2 w3 : sstep X w1 w2 → sstep X w2 w3 → sstep X w1 w3.
Proof.
  intros (_ & F1 & R1) (R & F2 & R2). split; [done|].
  split; [by eapply frame_trans|by etrans].
Qed.

Lemma sstep_fresh X l w w' :
  ready w → (next_loc w ≤ l)%positive → sstep ({[l]} ∪ X) w w' → sstep X w w'.
Proof.
  intros [? _] ? (? & ? & ?). split; [done|]. split; [|done]. by eapply frame_fresh.
Qed.

(** A C string whose block is not owned by the strings of [X] is preserved. *)
Definition not_in (w : world) (X : gset loc) (c : cptr) : Prop :=
  match c with
  | CLit _ _ => True
  | CBlk b _ => (b < next_loc w)%positive ∧ ∀ p, p ∈ X → ¬ owns w p b
  end.

Lemma frame_cells X w w' c :
  frame X w w' → not_in w X c → cells_at w' c = cells_at w c.
Proof.
  intros F. destruct c as [b o|s o]; [|done]. intros [Hb Hn]. simpl.
  by rewrite (fr_blocks X w w' F b Hb Hn).
Qed.

Lemma frame_cstr X w w' c :
  frame X w w' → not_in w X c → cstr_at w' c = cstr_at w c.
Proof. intros F Hn. unfold cstr_at. by rewrite (frame_cells X w w'). Qed.
