(* ===== verification/StringOps.v ===== *)
(** string.c: the string library.

    A [string_t] is an object of the store; its buffer is a block of cells.
    Each definition follows the function of the same name statement by
    statement.  An out-parameter that the function may leave unwritten is
    returned beside the return code. *)

From S2P Require Import Prelude Types Machine.

Open Scope Z_scope.

Definition LF : ascii := "010"%char.
Definition CR : ascii := "013"%char.

(** A call whose out-parameter is used afterwards, as a statement. *)
Definition try_out {A} (c : M (Z * A)) : M A :=
  '(r, a) ← c; if r =? 0 then mret a else throw "".

(** * C library functions on characters *)

Definition in_range (lo hi : ascii) (c : ascii) : bool :=
  (uchar lo <=? uchar c) && (uchar c <=? uchar hi).
Definition isdigit := in_range "0" "9".
Definition isupper := in_range "A" "Z".
Definition islower := in_range "a" "z".
Definition isalnum (c : ascii) : bool := isdigit c || isupper c || islower c.
Definition isspace (c : ascii) : bool :=
  bool_decide (c = " "%char) || in_range "009" "013" c.
Definition toupper (c : ascii) : ascii :=
  if islower c then char_of_int (uchar c - 32) else c.
Definition tolower (c : ascii) : ascii :=
  if isupper c then char_of_int (uchar c + 32) else c.

(** strcmp(3): the sign of the first difference, as unsigned characters. *)
Fixpoint strcmp (s1 s2 : bytes) : Z :=
  match s1, s2 with
  | [], [] => 0
  | [], _ :: _ => -1
  | _ :: _, [] => 1
  | a :: r1, b :: r2 =>
      if decide (a = b) then strcmp r1 r2 else if uchar a <? uchar b then -1 else 1
  end.

Definition strcasecmp (s1 s2 : bytes) : Z := strcmp (tolower <$> s1) (tolower <$> s2).
Definition strncmp (s1 s2 : bytes) (n : Z) : Z :=
  strcmp (take (Z.to_nat n) s1) (take (Z.to_nat n) s2).

Fixpoint is_prefix (p s : bytes) : bool :=
  match p, s with
  | [], _ => true
  | a :: p', b :: s' => if decide (a = b) then is_prefix p' s' else false
  | _ :: _, [] => false
  end.

(** strstr(3) ≠ NULL *)
Fixpoint strstr (hay needle : bytes) : bool :=
  is_prefix needle hay ||
  match hay with [] => false | _ :: r => strstr r needle end.

(** strchr(s, c) ≠ NULL: the terminating NUL is part of the string. *)
Definition strchr (s : bytes) (c : ascii) : bool := bool_decide (c ∈ s ++ [NUL]).

(** * Construction and destruction *)

(** [mem_calloc( *dest)], then the rest of a constructor. *)
Definition mem_calloc {A} (upd : (gmap loc A → gmap loc A) → world → world) (z : A)
    (dest : ptr) (rest : ptr → M (Z * ptr)) : M (Z * ptr) :=
  match dest with
  | Some _ => mret (-1, dest)
  | None =>
      p ← calloc_obj upd z;
      match p with None => mret (-1, None) | Some _ => rest p end
  end.

Definition str_new (dest : ptr) : M (Z * ptr) :=
  let initial_size := 16 in
  mem_calloc upd_strs (mk_string_t None 0 0 false) dest (λ str,
    v ← malloc initial_size;
    mod_str str (set_str_value v);;
    match v with
    | None => mret (-1, str)
    | Some _ =>
        (* sizeof(str->value) is the size of a pointer *)
        store v 0 (replicate 8 (Some NUL));;
        mod_str str (set_str_size initial_size);;
        mod_str str (set_str_owner true);;
        mret (0, str)
    end).

Definition str_destroy (str : ptr) : M (Z * ptr) :=
  match str with
  | None => mret (0, None)
  | Some _ =>
      s ← get_str str;
      free (str_value s);;
      free_obj strs upd_strs str;;
      mret (0, None)
  end.

(** [string_t *buf;] in a declaration list. *)
Definition auto_str : (ptr → M Z) → M Z := auto_ str_new str_destroy.

(** Run [c], then drop the string object [l]. *)
Definition pop_str (l : loc) (c : M Z) : M Z := λ w,
  match c w with
  | Ok z w' => Ok z (upd_strs (delete l) w')
  | Exit x w' => Exit x (upd_strs (delete l) w')
  | r => r
  end.

(** A variable of type [string_t], not a pointer: it lives in the frame of the
    function, however that ends. *)
Definition local_str (init : string_t) (k : ptr → M Z) : M Z :=
  l ← fresh_loc;
  modify (upd_strs <[l := init]>);;
  pop_str l (k (Some l)).

(** * Length and size *)

(** The loop reads at most one cell more than the block has. *)
Definition cbuf_len (s : option cptr) : M (Z * Z) :=
  p ← non_null s;
  l ← cells p;
  loop (S (S (length l))) (λ i,
    if i <? STRING_MAX then
      c ← load s i;
      if decide (c = NUL) then mret (inr (0, i)) else mret (inl (i + 1))
    else mret (inr (-1, 0))) 0.

Definition str_truncate (dest : ptr) : M Z := func (body (
  mod_str dest (set_str_len 0);;
  d ← get_str dest;
  when (0 <? str_size d) (memset1 (str_value d) 0 NUL))).

Definition str_resize (str : ptr) (new_size : Z) : M Z := func (body (
  when (new_size =? 0) (throw "strings cannot have zero size");;
  when (STRING_MAX <? new_size) (throw "string too large");;
  s ← get_str str;
  when (str_size s <? new_size) (
    c ← realloc (str_value s) new_size;
    when (bool_decide (c = None)) (throw "malloc error");;
    mod_str str (set_str_value c);;
    memset1 c (new_size - 1) NUL;;
    mod_str str (set_str_size new_size)))).

Definition str_set_len (dest : ptr) (new_len : Z) : M Z := func (body (
  when (STRING_MAX <? new_len) (throw "string exceeds STRING_MAX");;
  d ← get_str dest;
  when (str_size d <=? new_len) (throw "string would exceed the size of it's buffer");;
  mod_str dest (set_str_len new_len);;
  memset1 (str_value d) new_len NUL)).

Definition str_truncate_at (src : ptr) (position : Z) : M Z := func (body (
  s ← get_str src;
  when (str_len s <? position) (throw "invalid request: position exceeds length of string");;
  memset1 (str_value s) position NUL;;
  mod_str src (set_str_len position))).

(** * Copying *)

Definition str_ncpy (dest : ptr) (src : option cptr) (len : Z) : M Z := func (body (
  d ← get_str dest;
  when (bool_decide (src = str_value d)) (throw "src and dest cannot be equal");;
  when (STRING_MAX <? len) (throw "string too long");;
  when (len =? 0) (r ← str_truncate dest; return_ r);;
  try_ (str_truncate dest);;
  try_ (str_resize dest (len + 1));;
  cs ← read_cells src len;
  d ← get_str dest;
  store (str_value d) 0 cs;;
  memset1 (str_value d) len NUL;;
  mod_str dest (set_str_owner true);;
  mod_str dest (set_str_len len))).

Definition str_cpy (dest : ptr) (src : option cptr) : M Z := func (body (
  d ← get_str dest;
  require (bool_decide (src ≠ str_value d));;
  src_len ← try_out (cbuf_len src);
  try_ (str_ncpy dest src src_len))).

Definition str_copy (dest src : ptr) : M Z := func (body (
  when (bool_decide (src = dest)) (throw "src and dest cannot be equal");;
  s ← get_str src;
  when ((str_len s =? 0) || (str_size s =? 0)) (r ← str_truncate dest; return_ r);;
  d ← get_str dest;
  when (str_owner d) (free (str_value d));;
  mod_str dest (set_str_size 0);;
  v ← malloc (str_size s);
  mod_str dest (set_str_value v);;
  when (bool_decide (v = None)) (throw "malloc error");;
  cs ← read_cells (str_value s) (str_len s + 1);
  store v 0 cs;;
  mod_str dest (set_str_size (str_size s));;
  mod_str dest (set_str_len (str_len s));;
  mod_str dest (set_str_owner true))).

Definition str_move (dest src : ptr) : M Z := func (body (
  require (bool_decide (src ≠ dest));;
  when (bool_decide (src = dest)) (throw "src and dest cannot be equal");;
  try_ (str_copy dest src);;
  try_ (str_truncate src))).

Definition str_alias (dest : ptr) (src : option cptr) : M Z := func (body (
  mod_str dest (set_str_owner false);;
  mod_str dest (set_str_value src);;
  '(rc, n) ← cbuf_len src;
  mod_str dest (set_str_len n);;
  when (negb (rc =? 0)) (throw "");;
  mod_str dest (set_str_size (n + 1)))).

Definition str_swap (s1 s2 : ptr) : M Z := func (body (
  a ← get_str s1;
  b ← get_str s2;
  mod_str s1 (λ _, b);;
  mod_str s2 (λ _, a))).

(** * Appending *)

Definition str_cat (dest : ptr) (src : option cptr) : M Z := func (body (
  src_len ← strlen src;
  when (src_len =? 0) (return_ 0);;
  when (STRING_MAX <=? src_len) (throw "input string is too long");;
  d ← get_str dest;
  let new_size := size_t (str_len d + src_len + 1) in
  when (new_size <=? str_len d) (throw "operation would overflow");;
  when (str_size d <? new_size) (try_ (str_resize dest new_size));;
  cs ← read_cells src src_len;
  d ← get_str dest;
  store (str_value d) (str_len d) cs;;
  memset1 (str_value d) (str_len d + src_len) NUL;;
  try_ (str_set_len dest (new_size - 1)))).

Definition str_putc (dest : ptr) (c : Z) : M Z := func (body (
  (* char buf[2] = { (char) c, '\0' } *)
  let buf := CLit [char_of_int c] 0 in
  try_ (str_cat dest (Some buf)))).

Definition str_append (dest src : ptr) : M Z := func (body (
  when (bool_decide (src = dest)) (throw "src and dest cannot be equal");;
  s ← get_str src;
  try_ (str_cat dest (str_value s)))).

Definition str_prepend (dest src : ptr) : M Z := func (auto_str (λ buf, body (
  when (bool_decide (src = dest)) (throw "src and dest cannot be equal");;
  try_ (str_copy buf dest);;
  try_ (str_copy dest src);;
  try_ (str_append dest buf)))).

(** * Formatting *)

(** The formatted text is computed by [render] when vasprintf(3) runs, that is
    after the previous buffer of [dest] was freed. *)
Definition str_vprintf (dest : ptr) (render : M bytes) : M Z := func (body (
  d ← get_str dest;
  when (0 <? str_size d) (
    free (str_value d);;
    mod_str dest (set_str_value None);;
    mod_str dest (set_str_size 0);;
    mod_str dest (set_str_len 0));;
  out ← render;
  v ← malloc (Z.of_nat (length out) + 1);
  mod_str dest (set_str_value v);;
  when (bool_decide (v = None)) (throw_errno "vasprintf(3)");;
  store v 0 (cells_of out);;
  n ← strlen v;
  mod_str dest (set_str_len n);;
  when (STRING_MAX <? n) (
    free v;;
    mod_str dest (set_str_value None);;
    mod_str dest (set_str_size 0);;
    mod_str dest (set_str_len 0);;
    throw "result too large");;
  mod_str dest (set_str_size (n + 1)))).

Definition str_sprintf (dest : ptr) (render : M bytes) : M Z :=
  func (body (try_ (str_vprintf dest render))).

Definition str_set_path (path prefix : ptr) (filename : option cptr) : M Z := func (body (
  p ← get_str prefix;
  try_ (str_sprintf path (
    a ← c_str (str_value p); b ← c_str filename; mret (a ++ B "/" ++ b))))).

(** * Characters of a string *)

Definition str_get_char (str : ptr) (position : Z) : M (Z * option ascii) :=
  s ← get_str str;
  if str_len s <=? position then mret (-1, None) else
  c ← load (str_value s) position;
  mret (0, Some c).

Definition str_divide (left right src : ptr) (position : Z) : M Z := func (body (
  s ← get_str src;
  when (str_len s <=? position) (throw "invalid position: is greater than string length");;
  when (position =? 0) (
    try_ (str_truncate left);;
    try_ (str_copy right src);;
    return_ 0);;
  try_ (str_ncpy left (str_value s) position);;
  s ← get_str src;
  v ← non_null (str_value s);
  try_ (str_cpy right (Some (ptr_add v (position + 1)))))).

Definition str_get_terminator (str : ptr) : M (option cptr) :=
  s ← get_str str;
  if 0 <? str_len s then
    v ← non_null (str_value s); mret (Some (ptr_add v (str_len s - 1)))
  else mret (str_value s).

Definition str_cmp_terminator (str : ptr) (terminator : Z) : M Z := func (body (
  s ← get_str str;
  when (0 <? str_len s) (
    c ← load (str_value s) (str_len s - 1);
    when (negb (int_of_char c =? terminator)) throw_silent))).

Definition str_set_terminator (str : ptr) (terminator : Z) : M Z := func (body (
  s ← get_str str;
  if 0 <? str_len s then
    memset1 (str_value s) (str_len s - 1) (char_of_int terminator);;
    when (terminator =? 0) (mod_str str (set_str_len (str_len s - 1)))
  else try_ (str_putc str terminator))).

Definition str_chomp (str : ptr) : M Z := func (body (
  s ← get_str str;
  when (str_len s =? 0) (return_ 0);;
  cp ← str_get_terminator str;
  c ← load cp 0;
  cp ← (if decide (c = LF) then
          memset1 cp 0 NUL;;
          mod_str str (λ s, set_str_len (str_len s - 1) s);;
          p ← non_null cp; mret (Some (ptr_add p (-1)))
        else mret cp);
  s ← get_str str;
  when (0 <? str_len s) (
    c ← load cp 0;
    when (bool_decide (c = CR)) (
      memset1 cp 0 NUL;;
      mod_str str (λ s, set_str_len (str_len s - 1) s))))).

Definition str_to_upper (s : ptr) : M Z := func (body (
  st ← get_str s;
  loop (S (Z.to_nat (str_len st))) (λ i,
    if i <? str_len st then
      c ← load (str_value st) i;
      memset1 (str_value st) i (toupper c);;
      mret (inl (i + 1))
    else mret (inr tt)) 0)).

(** [while ( *(cp++) != '\0') { if ( *cp == old) *cp = new; }] *)
Definition str_translate (s : ptr) (old new : Z) : M Z := func (body (
  st ← get_str s;
  v ← non_null (str_value st);
  l ← cells v;
  loop (S (length l)) (λ i,
    c ← load (str_value st) i;
    if decide (c = NUL) then mret (inr tt) else
    c' ← load (str_value st) (i + 1);
    when (bool_decide (c' = char_of_int old))
      (memset1 (str_value st) (i + 1) (char_of_int new));;
    mret (inl (i + 1))) 0)).

Definition str_count (s : ptr) (c : Z) : M (Z * Z) :=
  st ← get_str s;
  v ← non_null (str_value st);
  l ← cells v;
  loop (S (length l)) (λ '(i, n),
    a ← load (str_value st) i;
    if decide (a = NUL) then mret (inr (0, n)) else
    mret (inl (i + 1, if decide (a = char_of_int c) then n + 1 else n))) (0, 0).

(** * Comparison and search *)

Definition str_contains (haystack : ptr) (needle : option cptr) : M (Z * bool) :=
  s ← get_str haystack;
  h ← c_str (str_value s);
  n ← c_str needle;
  mret (0, strstr h n).

Definition str_cmp (s1 : ptr) (s2 : option cptr) : M Z := func (body (
  s ← get_str s1;
  a ← c_str (str_value s);
  b ← c_str s2;
  return_ (strcmp a b))).

Definition str_casecmp (s1 : ptr) (s2 : option cptr) : M Z := func (body (
  s ← get_str s1;
  a ← c_str (str_value s);
  b ← c_str s2;
  return_ (if strcasecmp a b =? 0 then 0 else -1))).

Definition str_ncmp (s : ptr) (c : option cptr) (len : Z) : M Z := func (body (
  require ((0 <? len) && (len <? STRING_MAX));;
  st ← get_str s;
  a ← c_str (str_value st);
  b ← c_str c;
  return_ (strncmp a b len))).

(** [s1 != s2 && s1->value != s2->value] *)
Definition distinct_strings (s1 s2 : ptr) : M bool :=
  if decide (s1 = s2) then mret false else
  a ← get_str s1;
  b ← get_str s2;
  mret (bool_decide (str_value a ≠ str_value b)).

Definition str_compare (s1 s2 : ptr) : M Z := func (body (
  d ← distinct_strings s1 s2;
  require d;;
  a ← get_str s1;
  b ← get_str s2;
  v ← non_null (str_value a);
  l ← cells v;
  i ← loop (S (length l)) (λ i,
    c1 ← load (str_value a) i;
    if decide (c1 = NUL) then mret (inr i) else
    c2 ← load (str_value b) i;
    if decide (c2 = NUL) then mret (inr i) else
    if decide (c1 = c2) then mret (inl (i + 1)) else return_ (-1)) 0;
  c1 ← load (str_value a) i;
  c2 ← load (str_value b) i;
  when (bool_decide (c1 ≠ c2)) (return_ (-1)))).

Definition str_case_compare (s1 s2 : ptr) : M Z := func (body (
  d ← distinct_strings s1 s2;
  require d;;
  a ← get_str s1;
  b ← get_str s2;
  x ← c_str (str_value a);
  y ← c_str (str_value b);
  when (negb (strcasecmp x y =? 0)) (return_ (-1)))).

(** * Reading a file descriptor *)

Definition EAGAIN : Z := 11.

Definition str_read (dest : ptr) (fd size : Z) : M Z := func (body (
  when (STRING_MAX <? size) (throw "requested size is too large to read into a buffer");;
  try_ (str_truncate dest);;
  try_ (str_resize dest (size + 1));;
  r ← syscall "read" [AInt fd; AInt size];
  d ← get_str dest;
  let bytes_read := sys_ret r in
  if bytes_read <? 0 then
    e ← get_errno;
    if e =? EAGAIN then return_ 1 else throw_errno "read(2)"
  else
    store (str_value d) 0 (Some <$> take (Z.to_nat bytes_read) (sys_data r));;
    try_ (str_set_len dest bytes_read))).

(** * Numbers *)

Definition INT_MAX : Z := 2 ^ 31 - 1.
Definition UINT_MAX : Z := 2 ^ 32 - 1.
Definition LONG_MAX : Z := 2 ^ 63 - 1.
Definition LONG_MIN : Z := - 2 ^ 63.
Definition ULONG_MAX : Z := 2 ^ 64 - 1.

(** Conversion of a long to a signed type of [n] bits. *)
Definition to_signed (n z : Z) : Z :=
  let m := z mod 2 ^ n in if m <? 2 ^ (n - 1) then m else m - 2 ^ n.

Fixpoint skip_space (s : bytes) : bytes :=
  match s with c :: r => if isspace c then skip_space r else s | [] => [] end.

(** The sign, and what follows it. *)
Definition opt_sign (s : bytes) : bool * bytes :=
  match s with
  | c :: r =>
      if decide (c = "-"%char) then (true, r)
      else if decide (c = "+"%char) then (false, r) else (false, s)
  | [] => (false, [])
  end.

Definition digit_val (c : ascii) : Z := uchar c - 48.

(** Decimal digits from the left: their value, how many, and the rest. *)
Fixpoint digits (acc : Z) (n : nat) (s : bytes) : Z * nat * bytes :=
  match s with
  | c :: r => if isdigit c then digits (acc * 10 + digit_val c) (S n) r else (acc, n, s)
  | [] => (acc, n, [])
  end.

(** strtol(3) and strtoul(3) in base 10: the number read (0 if there is none),
    its sign, and the text after it (all of the text if there is no number). *)
Definition strto (s : bytes) : bool * Z * bytes :=
  let '(neg, r) := opt_sign (skip_space s) in
  let '(v, n, rest) := digits 0 0 r in
  match n with O => (false, 0, s) | _ => (neg, v, rest) end.

(** The value, and whether errno is set to ERANGE. *)
Definition strtol (s : bytes) : Z * bool :=
  let '(neg, v, _) := strto s in
  let z := if neg then - v else v in
  if LONG_MAX <? z then (LONG_MAX, true)
  else if z <? LONG_MIN then (LONG_MIN, true) else (z, false).

Definition strtoul (s : bytes) : Z * bool * bytes :=
  let '(neg, v, rest) := strto s in
  if ULONG_MAX <? v then (ULONG_MAX, true, rest)
  else ((if neg then - v else v) mod 2 ^ 64, false, rest).

Definition ERANGE : Z := 34.

(** Both conversions set [errno] to 0 first, and strtol(3) sets it only on
    overflow. *)
Definition str_to_long (bits max : Z) (src : ptr) : M (Z * option Z) :=
  set_errno 0;;
  s ← get_str src;
  text ← c_str (str_value s);
  let '(l, erange) := strtol text in
  when erange (set_errno ERANGE);;
  e ← get_errno;
  if negb (e =? 0) then mret (-1, None)
  else if max <? l then mret (-1, None)
  else mret (0, Some (to_signed bits l)).

Definition str_to_int (src : ptr) : M (Z * option Z) := str_to_long 32 INT_MAX src.

Definition INT32_MAX : Z := 2147483647.

Definition str_to_int32 (src : ptr) : M (Z * option Z) := str_to_long 32 INT32_MAX src.

Definition str_to_ulong (src : ptr) : M (Z * Z) :=
  set_errno 0;;
  s ← get_str src;
  text ← c_str (str_value s);
  let '(v, erange, rest) := strtoul text in
  when erange (set_errno ERANGE);;
  c0 ← load (str_value s) 0;
  if bool_decide (c0 = NUL) || bool_decide (rest ≠ []) then mret (-1, v) else
  e ← get_errno;
  if (e =? ERANGE) && (v =? ULONG_MAX) then mret (-1, v) else
  mret (0, v).

Definition str_to_uint32 (src : ptr) : M (Z * option Z) :=
  '(rc, ul) ← str_to_ulong src;
  if rc <? 0 then mret (-1, None)
  else if UINT_MAX <? ul then mret (-1, None)
  else mret (0, Some (ul mod 2 ^ 32)).

(** * URI encoding *)

Definition hexdigit (n : Z) : ascii :=
  char_of_int (if n <? 10 then 48 + n else 87 + n).

(** [snprintf(code, 4, "%%%02x", c & 0xff)] *)
Definition percent_code (c : ascii) : bytes :=
  ["%"%char; hexdigit (uchar c / 16); hexdigit (uchar c mod 16)].

Definition unreserved (c : ascii) : bool := isalnum c || strchr (B "/_.-~") c.

Definition str_escape (dest src : ptr) : M Z := func (auto_str (λ buf, body (
  try_ (str_truncate dest);;
  s ← get_str src;
  when (str_len s =? 0) (return_ 0);;
  let len := str_len s in
  loop (S (Z.to_nat len)) (λ i,
    if i <? len then
      c ← load (str_value s) i;
      (if unreserved c then try_ (str_putc buf (int_of_char c))
       else try_ (str_cat buf (Some (CLit (percent_code c) 0))));;
      mret (inl (i + 1))
    else mret (inr tt)) 0;;
  try_ (str_move dest buf)))).

Definition hexval (c : ascii) : option Z :=
  if isdigit c then Some (uchar c - 48)
  else if in_range "a" "f" c then Some (uchar c - 87)
  else if in_range "A" "F" c then Some (uchar c - 55) else None.

(** At most [n] hexadecimal digits. *)
Fixpoint hexdigits (n : nat) (acc : Z) (got : bool) (s : bytes) : option Z :=
  match n, s with
  | S n', c :: r =>
      match hexval c with
      | Some d => hexdigits n' (acc * 16 + d) true r
      | None => if got then Some acc else None
      end
  | _, _ => if got then Some acc else None
  end.

(** [sscanf(s, "%%%02x", &code)]: a percent sign, then an unsigned
    hexadecimal integer of at most two characters; like strtoul(3), %x skips
    white space first and accepts a sign, and the field "0x" holds no
    number. *)
Definition sscanf_percent (s : bytes) : option Z :=
  match s with
  | p :: r =>
      if decide (p = "%"%char) then
        match skip_space r with
        | [] => None
        | c :: r' =>
            if decide (c = "-"%char) then
              (λ v, (- v) mod 2 ^ 32) <$> hexdigits 1 0 false r'
            else if decide (c = "+"%char) then hexdigits 1 0 false r'
            else if bool_decide (c = "0"%char) &&
                    match r' with x :: _ => bool_decide (tolower x = "x"%char) | [] => false end
            then None
            else hexdigits 2 0 false (c :: r')
        end
      else None
  | [] => None
  end.

Definition str_unescape (dest src : ptr) : M Z := func (auto_str (λ buf, body (
  s ← get_str src;
  when (str_len s =? 0) (return_ 0);;
  v ← non_null (str_value s);
  l ← cells v;
  loop (S (length l)) (λ i,
    c ← load (str_value s) i;
    if decide (c = NUL) then mret (inr tt) else
    code ← (if decide (c = "%"%char) then
              text ← c_str (Some (ptr_add v i));
              mret (sscanf_percent text)
            else mret None);
    match code with
    | Some code => try_ (str_putc buf code);; mret (inl (i + 3))
    | None => try_ (str_putc buf (int_of_char c));; mret (inl (i + 1))
    end) 0;;
  try_ (str_move dest buf)))).
