(* ===== verification/StringFacts.v ===== *)
(** The specification of the string library: the text a string object holds
    ([str_rep]), and for every operation what it makes of that text. *)

From S2P Require Import Prelude Types Machine Wp StringOps.

Open Scope Z_scope.

(** * Abstraction *)

(** String [p] owns block [b], whose cells are [cs], and its length field
    is [L]. *)
Definition str_cells (w : world) (p b : loc) (cs : list cell) (L : Z) : Prop :=
  strs w !! p = Some (mk_string_t (Some (CBlk b 0)) (Z.of_nat (length cs)) L true) ∧
  blocks w !! b = Some (Block cs true).

(** String [p] is well formed and holds the text [bs]. *)
Definition str_rep (w : world) (p : loc) (bs : bytes) : Prop :=
  ∃ b junk, str_cells w p b (cells_of bs ++ junk) (Z.of_nat (length bs)) ∧
    nonul bs ∧ Z.of_nat (length bs) ≤ STRING_MAX.

(** * Cells *)

Lemma length_cells_of bs : length (cells_of bs) = S (length bs).
Proof. unfold cells_of. rewrite length_app, length_fmap. simpl. lia. Qed.

Lemma scan_cells_of bs junk : nonul bs → scan_nul (cells_of bs ++ junk) = Some bs.
Proof.
  induction 1 as [|c bs Hc Hbs IH]; [done|].
  change (cells_of (c :: bs) ++ junk) with (Some c :: (cells_of bs ++ junk)).
  simpl. by rewrite decide_False, IH.
Qed.

Lemma scan_nul_nonul cs bs : scan_nul cs = Some bs → nonul bs.
Proof.
  revert bs. induction cs as [|[a|] cs IH]; intros bs; simpl; try done.
  case_decide as Ha; [intros [= <-]; constructor|].
  destruct (scan_nul cs) as [r|]; simpl; [|done]. intros [= <-].
  constructor; [done|]. by apply IH.
Qed.

(** A string found in memory is followed by its NUL. *)
Lemma scan_nul_spec cs bs :
  scan_nul cs = Some bs → ∃ junk, cs = cells_of bs ++ junk.
Proof.
  revert bs. induction cs as [|[a|] cs IH]; intros bs; simpl; try done.
  case_decide as Ha.
  - intros [= <-]. subst. by exists cs.
  - destruct (scan_nul cs) as [r|]; simpl; [|done]. intros [= <-].
    destruct (IH r eq_refl) as [junk ->]. by exists junk.
Qed.

Lemma cstr_at_nonul w c bs : cstr_at w c = Some bs → nonul bs.
Proof.
  unfold cstr_at. destruct (cells_at w c) as [l|]; simpl; [|done]. apply scan_nul_nonul.
Qed.

Lemma cstr_at_cells w c bs :
  cstr_at w c = Some bs → ∃ junk, cells_at w c = Some (cells_of bs ++ junk).
Proof.
  unfold cstr_at. destruct (cells_at w c) as [l|]; simpl; [|done].
  intros [junk ->]%scan_nul_spec. by exists junk.
Qed.

Lemma cstr_at_lit w bs : nonul bs → cstr_at w (CLit bs 0) = Some bs.
Proof.
  intros H. unfold cstr_at. simpl. rewrite drop_0, <- (app_nil_r (cells_of bs)).
  by apply scan_cells_of.
Qed.

Lemma length_splice cs off new :
  (off + length new ≤ length cs)%nat → length (splice cs off new) = length cs.
Proof.
  intros H. unfold splice. rewrite !length_app, length_take, length_drop. lia.
Qed.

Lemma splice_app_r l1 l2 off new :
  splice (l1 ++ l2) (length l1 + off) new = l1 ++ splice l2 off new.
Proof.
  unfold splice. rewrite take_app_add, <- Nat.add_assoc, drop_app_add.
  by rewrite <- app_assoc.
Qed.

Lemma splice_0 l1 l2 new : length new = length l1 → splice (l1 ++ l2) 0 new = new ++ l2.
Proof. intros H. unfold splice. simpl. by rewrite H, drop_app_length. Qed.

(** * Reading *)

Lemma str_cells_owns w p b cs L : str_cells w p b cs L → owns w p b.
Proof. intros [H _]. eexists _, 0. by rewrite H. Qed.

Lemma str_cells_lt w p b cs L :
  wf w → str_cells w p b cs L → (p < next_loc w)%positive ∧ (b < next_loc w)%positive.
Proof.
  intros Hwf [Hp Hb]. split.
  - destruct (decide (next_loc w ≤ p)%positive) as [H|]; [|lia].
    by rewrite (wf_strs w Hwf p H) in Hp.
  - destruct (decide (next_loc w ≤ b)%positive) as [H|]; [|lia].
    by rewrite (wf_blocks w Hwf b H) in Hb.
Qed.

Lemma str_rep_lt w p bs : wf w → str_rep w p bs → (p < next_loc w)%positive.
Proof. intros Hwf (b & junk & H & _). by apply (str_cells_lt w p b _ _ Hwf) in H as []. Qed.

Lemma str_rep_nonul w p bs : str_rep w p bs → nonul bs.
Proof. by intros (? & ? & ? & ? & ?). Qed.

(** The string object and its text, as the operations see them. *)
Lemma str_rep_get w p bs :
  str_rep w p bs → ∃ b sz, strs w !! p =
    Some (mk_string_t (Some (CBlk b 0)) sz (Z.of_nat (length bs)) true) ∧
    cstr_at w (CBlk b 0) = Some bs ∧ Z.of_nat (length bs) < sz.
Proof.
  intros (b & junk & [Hs Hb] & Hn & _). eexists b, _. split; [done|]. split.
  - unfold cstr_at. simpl. rewrite Hb. simpl. rewrite drop_0. by apply scan_cells_of.
  - rewrite length_app, length_cells_of. lia.
Qed.

(** What [str_rep] needs is kept by a step that does not modify [p]. *)
Lemma str_rep_frame X w w' p bs :
  wf w → frame X w w' → p ∉ X → str_rep w p bs → str_rep w' p bs.
Proof.
  intros Hwf F HX (b & junk & Hc & Hn & Hl).
  destruct (str_cells_lt _ _ _ _ _ Hwf Hc) as [Hp Hb].
  exists b, junk. split; [|done]. pose proof Hc as [Hs Hbl]. split.
  - by rewrite (fr_strs X w w' F p Hp HX).
  - rewrite (fr_blocks X w w' F b Hb); [done|]. intros q Hq Ho.
    assert (q = p) as -> by (eapply (wf_own w Hwf); [done|by eapply str_cells_owns]).
    done.
Qed.

Lemma sstep_rep X w w' p bs :
  wf w → sstep X w w' → p ∉ X → str_rep w p bs → str_rep w' p bs.
Proof. intros ? (_ & F & _). by apply str_rep_frame. Qed.

(** The value of another string is not in a block that [X] owns. *)
Lemma str_rep_not_in w p b sz bs X :
  wf w → str_rep w p bs → p ∉ X →
  strs w !! p = Some (mk_string_t (Some (CBlk b 0)) sz (Z.of_nat (length bs)) true) →
  not_in w X (CBlk b 0).
Proof.
  intros Hwf Hr HX Hs. assert (owns w p b) as Ho by (by eexists _, 0; rewrite Hs).
  split; [by eapply (wf_own_bound w Hwf)|]. intros q Hq Ho'.
  by rewrite (wf_own w Hwf q p b Ho' Ho) in Hq.
Qed.

(** * Steps *)

(** A write to the header of string [p] that keeps its buffer. *)
Lemma sstep_set_str w p s s' :
  ready w → strs w !! p = Some s → str_value s' = str_value s →
  str_owner s' = str_owner s → sstep {[p]} w (upd_strs <[p := s']> w).
Proof.
  intros [Hwf Hoom] Hs Hv Ho.
  assert (∀ q b, owns (upd_strs <[p := s']> w) q b → owns w q b) as Hown.
  { intros q b (s0 & o & H & H1 & H2). simpl in H.
    destruct (decide (q = p)) as [->|Hne].
    - rewrite lookup_insert_eq in H. injection H as <-.
      exists s, o. by rewrite <- Ho, <- Hv.
    - rewrite lookup_insert_ne in H by done. by exists s0, o. }
  assert (p < next_loc w)%positive as Hlt.
  { destruct (decide (next_loc w ≤ p)%positive) as [H|]; [|lia].
    by rewrite (wf_strs w Hwf p H) in Hs. }
  split; [split; [split|done]|split; [split|by split]]; simpl; try apply Hwf.
  - intros l Hl. rewrite lookup_insert_ne by lia. by apply Hwf.
  - intros p1 p2 b H1%Hown H2%Hown. by eapply (wf_own w Hwf).
  - intros q b H%Hown. by eapply (wf_own_bound w Hwf).
  - reflexivity.
  - intros q _ Hq. apply lookup_insert_ne. set_solver.
  - done.
  - intros q b H%Hown. by left.
Qed.

(** A write to a block that [p] owns, or its release. *)
Lemma sstep_set_block w p b f :
  ready w → owns w p b → (∀ l, l ≠ b → f (blocks w) !! l = blocks w !! l) →
  sstep {[p]} w (upd_blocks f w).
Proof.
  intros [Hwf Hoom] Ho Hf.
  assert (b < next_loc w)%positive as Hlt by (by eapply (wf_own_bound w Hwf)).
  split; [split; [split|done]|split; [split|by split]]; simpl; try apply Hwf.
  - intros l Hl. rewrite Hf by lia. by apply Hwf.
  - reflexivity.
  - done.
  - intros l _ H. apply Hf. intros ->. eapply H; [by apply elem_of_singleton|done].
  - intros q c H. by left.
Qed.

(** String [p] gets a new block [b], and its old block may be released. *)
Lemma sstep_replace w w' p b s' :
  ready w → (p < next_loc w')%positive → strs w' !! p = Some s' →
  str_value s' = Some (CBlk b 0) →
  (next_loc w ≤ b)%positive → (b < next_loc w')%positive →
  (∀ q, q ≠ p → strs w' !! q = strs w !! q) →
  (∀ l, l ≠ b → ¬ owns w p l → blocks w' !! l = blocks w !! l) →
  oom w' = oom w → same_rest w w' → sstep {[p]} w w'.
Proof.
  intros [Hwf Hoom] Hp Hs' Hv Hb Hb' Hstrs Hblk Hoom' Hrest.
  assert (∀ q l, owns w' q l → (q = p ∧ l = b) ∨ (q ≠ p ∧ owns w q l)) as Hown.
  { intros q l (s0 & o & H & H1 & H2). destruct (decide (q = p)) as [->|Hne].
    - rewrite Hs' in H. injection H as <-. rewrite Hv in H2. left. split; congruence.
    - right. split; [done|]. rewrite Hstrs in H by done. by exists s0, o. }
  assert (∀ q l, owns w q l → (l < b)%positive) as Hob.
  { intros q l H. apply (wf_own_bound w Hwf) in H. lia. }
  split; [split; [split|by rewrite Hoom']|split; [split|done]];
    rewrite ?(sr_ents _ _ Hrest), ?(sr_lists _ _ Hrest), ?(sr_hashes _ _ Hrest).
  - intros l Hl. rewrite Hstrs by lia. apply Hwf. lia.
  - intros l Hl. rewrite Hblk by (lia || (intros H%Hob; lia)). apply Hwf. lia.
  - intros l Hl. apply Hwf. lia.
  - intros l Hl. apply Hwf. lia.
  - intros l Hl. apply Hwf. lia.
  - intros p1 p2 l [[-> ->]|[? H1]]%Hown [[-> Hl]|[? H2]]%Hown; try done.
    + apply Hob in H2. lia.
    + subst. apply Hob in H1. lia.
    + by eapply (wf_own w Hwf).
  - intros q l [[-> ->]|[? H]]%Hown; [done|]. apply Hob in H. lia.
  - lia.
  - intros q _ Hq. apply Hstrs. set_solver.
  - intros l Hl Hn. apply Hblk; [lia|]. apply Hn. by apply elem_of_singleton.
  - intros q l [[-> ->]|[? H]]%Hown; [by right|by left].
Qed.

(** * Rules for the primitives on an owned string *)

Ltac wp_next := apply wp_bind.

(** Use a specification for the first call of a sequence, or for a call inside
    [try]; what is left is the rest of the sequence after the call. *)
Tactic Notation "wp_call" uconstr(H) :=
  eapply wp_conseq; [eapply H; eauto|].
Tactic Notation "wp_try_call" uconstr(H) :=
  apply wp_try; eapply wp_conseq; [eapply H; eauto|].

Section own.
Context (w : world) (p b : loc) (cs : list cell) (L : Z).
Context (Hc : str_cells w p b cs L).

Lemma wp_get_str (Q : string_t → world → Prop) E :
  Q (mk_string_t (Some (CBlk b 0)) (Z.of_nat (length cs)) L true) w →
  wp (get_str (Some p)) Q E w.
Proof. intros H. eapply wp_deref; [apply Hc|done]. Qed.

Context (Hr : ready w).

Lemma wp_set_len L' (Q : unit → world → Prop) E :
  (∀ w', str_cells w' p b cs L' → sstep {[p]} w w' → Q tt w') →
  wp (mod_str (Some p) (set_str_len L')) Q E w.
Proof.
  intros H. destruct Hc as [Hs Hb]. eapply wp_set_obj; [done|]. apply H.
  - split; simpl; [by rewrite lookup_insert_eq|done].
  - by eapply sstep_set_str.
Qed.

(** Setting the owner flag of a string that owns its buffer. *)
Lemma wp_set_owner (Q : unit → world → Prop) E :
  (∀ w', str_cells w' p b cs L → sstep {[p]} w w' → Q tt w') →
  wp (mod_str (Some p) (set_str_owner true)) Q E w.
Proof.
  intros H. destruct Hc as [Hs Hb]. eapply wp_set_obj; [done|]. apply H.
  - split; simpl; [by rewrite lookup_insert_eq|done].
  - by eapply sstep_set_str.
Qed.

Lemma wp_store i new (Q : unit → world → Prop) E :
  0 ≤ i → i + Z.of_nat (length new) ≤ Z.of_nat (length cs) →
  (∀ w', str_cells w' p b (splice cs (Z.to_nat i) new) L → sstep {[p]} w w' → Q tt w') →
  wp (store (Some (CBlk b 0)) i new) Q E w.
Proof.
  intros Hi Hn H. destruct Hc as [Hs Hb]. unfold wp, store. rewrite Hb. simpl.
  rewrite bool_decide_true by lia. apply H.
  - split; simpl; [|by rewrite lookup_insert_eq].
    rewrite length_splice by lia. done.
  - eapply sstep_set_block; [done|by eapply str_cells_owns|].
    intros l Hl. by apply lookup_insert_ne.
Qed.
End own.

Lemma wp_c_str w c s (Q : bytes → world → Prop) E :
  cstr_at w c = Some s → Q s w → wp (c_str (Some c)) Q E w.
Proof. unfold wp, c_str. by intros ->. Qed.

Lemma wp_strlen w c s (Q : Z → world → Prop) E :
  cstr_at w c = Some s → Q (Z.of_nat (length s)) w → wp (strlen (Some c)) Q E w.
Proof. intros Hc HQ. wp_next. eapply wp_c_str; [done|]. done. Qed.

Lemma wp_cells w c l (Q : list cell → world → Prop) E :
  cells_at w c = Some l → Q l w → wp (cells c) Q E w.
Proof. unfold wp, cells. by intros ->. Qed.

Lemma wp_read_cells w c l n (Q : list cell → world → Prop) E :
  cells_at w c = Some l → (Z.to_nat n ≤ length l)%nat →
  Q (take (Z.to_nat n) l) w → wp (read_cells (Some c) n) Q E w.
Proof.
  intros Hl Hn HQ. wp_next. apply wp_non_null. wp_next.
  eapply wp_cells; [done|]. rewrite bool_decide_true by done. done.
Qed.

(** memcpy(3) from a C string: its characters, or all of them and the NUL. *)
Lemma wp_read_cstr w c s n (Q : list cell → world → Prop) E :
  cstr_at w c = Some s → n ≤ Z.of_nat (length s) →
  Q (Some <$> take (Z.to_nat n) s) w → wp (read_cells (Some c) n) Q E w.
Proof.
  intros [junk Hl]%cstr_at_cells Hn HQ. eapply wp_read_cells; [done| |].
  - rewrite length_app, length_cells_of. lia.
  - unfold cells_of. rewrite <- app_assoc, take_app_le by (rewrite length_fmap; lia).
    by rewrite <- fmap_take.
Qed.

Lemma wp_read_cstr_nul w c s (Q : list cell → world → Prop) E :
  cstr_at w c = Some s → Q (cells_of s) w →
  wp (read_cells (Some c) (Z.of_nat (length s) + 1)) Q E w.
Proof.
  intros [junk Hl]%cstr_at_cells HQ. eapply wp_read_cells; [done| |].
  - rewrite length_app, length_cells_of. lia.
  - rewrite take_app_length'; [done|]. rewrite length_cells_of. lia.
Qed.

(** * str_truncate, str_resize, str_set_len *)

Lemma str_truncate_cells w p b c cs L :
  ready w → str_cells w p b (c :: cs) L → ∀ E,
  wp (str_truncate (Some p))
    (λ r w', r = 0 ∧ str_cells w' p b (Some NUL :: cs) 0 ∧ sstep {[p]} w w') E w.
Proof.
  intros Hr Hc E. apply wp_func_body. wp_next. eapply wp_set_len; [done|done|].
  intros w1 Hc1 S1. wp_next. eapply wp_get_str; [done|]. simpl.
  eapply (wp_store w1 p b (c :: cs) 0); [done|apply S1|done|simpl; lia|].
  intros w2 Hc2 S2. split; [done|]. split; [done|by eapply sstep_trans].
Qed.

(** The buffer of a string that is too small is extended; the last cell of the
    extension is NUL. *)
Definition resized (cs : list cell) (n : Z) : list cell :=
  if Z.of_nat (length cs) <? n then
    cs ++ replicate (Z.to_nat n - length cs - 1) None ++ [Some NUL]
  else cs.

Lemma length_resized cs n :
  Z.of_nat (length (resized cs n)) = Z.max (Z.of_nat (length cs)) n.
Proof.
  unfold resized. destruct (Z.ltb_spec (Z.of_nat (length cs)) n); [|lia].
  rewrite !length_app, length_replicate. simpl. lia.
Qed.

Lemma resized_prefix cs n : ∃ rest, resized cs n = cs ++ rest.
Proof. unfold resized. case_match; [by eexists|]. exists []. by rewrite app_nil_r. Qed.

Lemma wp_allocator w (Q : bool → world → Prop) E :
  ready w → Q true (upd_allocs S w) → wp allocator Q E w.
Proof. intros [_ H] HQ. unfold wp, allocator. by rewrite H. Qed.

Lemma wp_malloc w n (Q : option cptr → world → Prop) E :
  ready w →
  Q (Some (CBlk (next_loc w) 0))
    (upd_blocks <[next_loc w := Block (replicate (Z.to_nat n) None) true]>
      (upd_next Pos.succ (upd_allocs S w))) →
  wp (malloc n) Q E w.
Proof. intros Hr HQ. wp_next. by apply wp_allocator. Qed.

Lemma wp_realloc_own w p b cs L n (Q : option cptr → world → Prop) E :
  ready w → str_cells w p b cs L → Z.of_nat (length cs) < n →
  Q (Some (CBlk (next_loc w) 0))
    (upd_blocks (λ m, <[next_loc w :=
         Block (cs ++ replicate (Z.to_nat n - length cs) None) true]> (delete b m))
      (upd_next Pos.succ (upd_allocs S w))) →
  wp (realloc (Some (CBlk b 0)) n) Q E w.
Proof.
  intros Hr Hc Hn HQ. pose proof Hc as [Hs Hb].
  destruct (str_cells_lt _ _ _ _ _ (proj1 Hr) Hc) as [_ Hlt].
  wp_next. eapply (wp_cells _ _ cs); [simpl; rewrite Hb; simpl; by rewrite drop_0|].
  wp_next. apply wp_malloc; [done|]. wp_next.
  unfold wp at 1, free. simpl. rewrite lookup_insert_ne, Hb by lia. simpl.
  wp_next. unfold wp at 1, store. simpl.
  rewrite lookup_delete_ne, lookup_insert_eq by lia. simpl.
  rewrite length_replicate, length_take, bool_decide_true by lia. simpl.
  match goal with |- ?P => enough (P = Q (Some (CBlk (next_loc w) 0))
    (upd_blocks (λ m, <[next_loc w :=
         Block (cs ++ replicate (Z.to_nat n - length cs) None) true]> (delete b m))
      (upd_next Pos.succ (upd_allocs S w)))) as -> by done end.
  unfold wp. simpl. f_equal. unfold upd_blocks. simpl. f_equal.
  rewrite delete_insert_ne, insert_insert_eq by lia. f_equal. f_equal.
  unfold splice. simpl. rewrite !take_ge by lia. f_equal.
  rewrite drop_replicate. done.
Qed.

Lemma str_resize_cells w p b cs L n :
  ready w → str_cells w p b cs L → 0 < n ≤ STRING_MAX → ∀ E,
  wp (str_resize (Some p) n)
    (λ r w', r = 0 ∧ ∃ b', str_cells w' p b' (resized cs n) L ∧ sstep {[p]} w w') E w.
Proof.
  intros Hr Hc Hn E. apply wp_func_body. wp_next. apply wp_when; [lia|intros _].
  wp_next. apply wp_when; [lia|intros _]. wp_next. eapply wp_get_str; [done|]. simpl.
  unfold resized. destruct (Z.ltb_spec (Z.of_nat (length cs)) n) as [Hlt|]; simpl.
  2: { split; [done|]. exists b. split; [done|by apply sstep_refl]. }
  destruct (str_cells_lt _ _ _ _ _ (proj1 Hr) Hc) as [Hp Hb]. pose proof Hc as [Hs Hbl].
  wp_next. eapply wp_realloc_own; [done|done|lia|]. wp_next.
  rewrite bool_decide_false by done. simpl. apply wp_ret. wp_next.
  eapply wp_set_obj; [done|]. wp_next. unfold memset1, wp at 1, store. simpl.
  rewrite lookup_insert_eq. simpl.
  assert (Z.of_nat (length (cs ++ replicate (Z.to_nat n - length cs) (@None ascii))) = n)
    as Hlen by (rewrite length_app, length_replicate; lia).
  rewrite bool_decide_true by lia.
  eapply wp_set_obj; [simpl; by rewrite lookup_insert_eq|].
  unfold set_str_size, set_str_value. simpl.
  split; [done|]. exists (next_loc w). split.
  - split; simpl; rewrite !lookup_insert_eq.
    + do 2 f_equal. rewrite !length_app, length_replicate. simpl. lia.
    + do 2 f_equal.
      replace (Z.to_nat (0 + (n - 1))) with (length cs + (Z.to_nat n - length cs - 1))%nat by lia.
      rewrite splice_app_r. f_equal. unfold splice.
      rewrite take_replicate, drop_replicate. simpl.
      replace (_ - (_ + 1))%nat with 0%nat by lia.
      by replace (_ `min` _)%nat with (Z.to_nat n - length cs - 1)%nat by lia.
  - eapply (sstep_replace _ _ p (next_loc w)); simpl; rewrite ?insert_insert_eq;
      [done|lia|by rewrite lookup_insert_eq|done|lia|lia| | |done|done].
    + intros q Hq. by rewrite lookup_insert_ne.
    + intros l Hl Ho. rewrite lookup_insert_ne by done. apply lookup_delete_ne.
      intros ->. apply Ho. by eapply str_cells_owns.
Qed.

(** * Text in cells *)

Lemma cells_of_split bs junk : cells_of bs ++ junk = (Some <$> bs) ++ Some NUL :: junk.
Proof. unfold cells_of. by rewrite <- app_assoc. Qed.

Lemma nul_cells bs rest :
  (0 < length rest)%nat →
  splice ((Some <$> bs) ++ rest) (length bs) [Some NUL] = cells_of bs ++ drop 1 rest.
Proof.
  intros H. rewrite <- (length_fmap Some bs) at 1.
  rewrite <- (Nat.add_0_r (length (Some <$> bs))), splice_app_r, cells_of_split.
  unfold splice. done.
Qed.

Lemma append_cells bs s rest :
  (length s < length rest)%nat →
  splice (splice ((Some <$> bs) ++ rest) (length bs) (Some <$> s))
    (length bs + length s) [Some NUL] = cells_of (bs ++ s) ++ drop (S (length s)) rest.
Proof.
  intros H. rewrite <- (length_fmap Some bs) at 1.
  rewrite <- (Nat.add_0_r (length (Some <$> bs))), splice_app_r.
  replace (splice rest 0 (Some <$> s)) with ((Some <$> s) ++ drop (length s) rest)
    by (unfold splice; simpl; by rewrite length_fmap).
  rewrite app_assoc, <- fmap_app, <- length_app, nul_cells by (rewrite length_drop; lia).
  by rewrite drop_drop, Nat.add_1_r.
Qed.

Lemma renul_cells bs junk :
  splice (cells_of bs ++ junk) (length bs) [Some NUL] = cells_of bs ++ junk.
Proof. rewrite cells_of_split, nul_cells by (simpl; lia). by rewrite cells_of_split. Qed.

Lemma str_rep_of_cells w p b bs junk :
  str_cells w p b (cells_of bs ++ junk) (Z.of_nat (length bs)) → nonul bs →
  Z.of_nat (length bs) ≤ STRING_MAX → str_rep w p bs.
Proof. intros. by exists b, junk. Qed.

(** * str_truncate, str_set_len, str_truncate_at *)

Lemma str_truncate_ok w p bs E :
  ready w → str_rep w p bs →
  wp (str_truncate (Some p))
    (λ r w', r = 0 ∧ str_rep w' p [] ∧ sstep {[p]} w w') E w.
Proof.
  intros Hr (b & junk & Hc & Hn & Hl). rewrite cells_of_split in Hc.
  assert (∃ c cs, (Some <$> bs) ++ Some NUL :: junk = c :: cs) as (c & cs & Heq)
    by (destruct bs; eexists _, _; done).
  rewrite Heq in Hc. eapply wp_conseq; [by eapply str_truncate_cells|].
  intros r w' (-> & Hc' & S). split; [done|]. split; [|done].
  exists b, cs. split; [done|]. split; [constructor|done].
Qed.

Lemma str_set_len_cells w p b cs L n E :
  ready w → str_cells w p b cs L → 0 ≤ n < Z.of_nat (length cs) → n ≤ STRING_MAX →
  wp (str_set_len (Some p) n)
    (λ r w', r = 0 ∧ str_cells w' p b (splice cs (Z.to_nat n) [Some NUL]) n ∧
       sstep {[p]} w w') E w.
Proof.
  intros Hr Hc Hn Hm. apply wp_func_body. wp_next. apply wp_when; [lia|intros _].
  wp_next. eapply wp_get_str; [done|]. wp_next. apply wp_when; simpl; [lia|intros _].
  wp_next. eapply wp_set_len; [done|done|]. intros w1 Hc1 S1.
  eapply wp_store; [done|apply S1|lia|simpl; lia|]. intros w2 Hc2 S2.
  split; [done|]. split; [done|by eapply sstep_trans].
Qed.

Lemma str_truncate_at_ok w p bs n E :
  ready w → str_rep w p bs → 0 ≤ n ≤ Z.of_nat (length bs) →
  wp (str_truncate_at (Some p) n)
    (λ r w', r = 0 ∧ str_rep w' p (take (Z.to_nat n) bs) ∧ sstep {[p]} w w') E w.
Proof.
  intros Hr (b & junk & Hc & Hn & Hl) Hle. apply wp_func_body.
  wp_next. eapply wp_get_str; [done|]. wp_next. apply wp_when; simpl; [lia|intros _].
  wp_next. eapply wp_store; [done|done|lia| |].
  { rewrite length_app, length_cells_of. simpl. lia. }
  intros w1 Hc1 S1. eapply wp_set_len; [done|apply S1|]. intros w2 Hc2 S2.
  split; [done|]. split; [|by eapply sstep_trans].
  rewrite cells_of_split, <- (take_drop (Z.to_nat n) bs), fmap_app, <- app_assoc in Hc2.
  set (l := take (Z.to_nat n) bs) in *.
  assert (Z.to_nat n = length l) as Hln by (unfold l; rewrite length_take; lia).
  rewrite Hln, nul_cells in Hc2 by (rewrite length_app; simpl; lia).
  replace n with (Z.of_nat (length l)) in Hc2 by lia.
  eapply str_rep_of_cells; [done|by apply nonul_take|unfold l; rewrite length_take; lia].
Qed.

(** Past the end it fails and changes nothing. *)
Lemma str_truncate_at_error w p bs n :
  str_rep w p bs → Z.of_nat (length bs) < n →
  str_truncate_at (Some p) n w = Ok (-1) w.
Proof.
  intros (b & junk & [Hs Hb] & _) Hlt. unfold str_truncate_at, func, body, labels.
  unfold mbind, M_bind, get_str, deref_obj. rewrite Hs. simpl.
  by rewrite (proj2 (Z.ltb_lt _ _) Hlt).
Qed.

(** * str_cat and the functions built on it *)

Lemma size_t_small z : 0 ≤ z < 2 ^ 64 → size_t z = z.
Proof. apply Z.mod_small. Qed.

Lemma str_cat_ok w p bs c s E :
  ready w → str_rep w p bs → cstr_at w c = Some s → not_in w {[p]} c →
  Z.of_nat (length bs + length s) < STRING_MAX →
  wp (str_cat (Some p) (Some c))
    (λ r w', r = 0 ∧ str_rep w' p (bs ++ s) ∧ sstep {[p]} w w') E w.
Proof.
  intros Hr Hrep Hs Hnot Hlen. pose proof Hrep as (b & junk & Hc & Hn & Hl).
  unfold STRING_MAX in *.
  apply wp_func_body. wp_next. eapply wp_strlen; [done|].
  wp_next. apply wp_when.
  { intros H. assert (s = []) as -> by (destruct s; [done|simpl in H; lia]).
    apply wp_leave. rewrite app_nil_r. split; [done|]. split; [done|by apply sstep_refl]. }
  intros Hne. wp_next. apply wp_when; [unfold STRING_MAX; lia|intros _].
  wp_next. eapply wp_get_str; [done|]. cbn [str_len str_size].
  rewrite size_t_small by lia. wp_next. apply wp_when; [lia|intros _].
  set (cs := cells_of bs ++ junk) in *.
  set (n := Z.of_nat (length bs) + Z.of_nat (length s) + 1).
  assert (∃ rest, resized cs n = (Some <$> bs) ++ rest) as [rest Hrest].
  { destruct (resized_prefix cs n) as [rest ->]. unfold cs. rewrite cells_of_split.
    rewrite <- app_assoc. by eexists. }
  pose proof (length_resized cs n) as Hrl. rewrite Hrest, length_app, length_fmap in Hrl.
  wp_next. eapply (wp_conseq _ (λ _ w', ∃ b', str_cells w' p b' ((Some <$> bs) ++ rest)
    (Z.of_nat (length bs)) ∧ sstep {[p]} w w')).
  { apply wp_when; intros Hcmp.
    - apply wp_try. eapply wp_conseq; [eapply (str_resize_cells w p b cs _ n)|];
        [done|done|unfold n, STRING_MAX; lia|].
      intros r w' (-> & b' & Hb' & ?). simpl. exists b'. by rewrite <- Hrest.
    - exists b. rewrite <- Hrest. unfold resized.
      rewrite Hcmp. split; [done|by apply sstep_refl]. }
  intros _ w1 (b1 & Hc1 & S1).
  assert (cstr_at w1 c = Some s) as Hs1 by (rewrite <- Hs; eapply frame_cstr; [apply S1|done]).
  wp_next. eapply wp_read_cstr; [done|lia|]. rewrite Nat2Z.id, take_ge by lia.
  wp_next. eapply wp_get_str; [done|]. cbn [str_len str_value].
  wp_next. eapply wp_store; [done|apply S1|lia|rewrite length_app, !length_fmap; lia|].
  intros w2 Hc2 S2. wp_next.
  eapply wp_store; [done|apply S2|lia|rewrite length_splice, length_app, ?length_fmap;
    simpl; rewrite ?length_app, ?length_fmap; lia|].
  intros w3 Hc3 S3. rewrite Nat2Z.id in Hc3.
  replace (Z.to_nat (_ + _)) with (length bs + length s)%nat in Hc3 by lia.
  rewrite append_cells in Hc3 by lia. apply wp_try.
  eapply wp_conseq; [eapply (str_set_len_cells w3); [apply S3|done| |unfold STRING_MAX; lia]|].
  { rewrite length_app, length_cells_of, length_app. lia. }
  intros r w4 (-> & Hc4 & S4). simpl. split; [done|]. split.
  - replace (n - 1) with (Z.of_nat (length (bs ++ s))) in Hc4
      by (unfold n; rewrite length_app; lia).
    rewrite Nat2Z.id, renul_cells in Hc4. eapply str_rep_of_cells; [done| |].
    + apply nonul_app. split; [done|]. by eapply cstr_at_nonul.
    + rewrite length_app. unfold STRING_MAX. lia.
  - by eapply sstep_trans, sstep_trans, sstep_trans.
Qed.

Lemma cstr_at_char w a : cstr_at w (CLit [a] 0) = Some (if decide (a = NUL) then [] else [a]).
Proof. unfold cstr_at. simpl. by repeat case_decide. Qed.

Lemma str_putc_ok w p bs c E :
  ready w → str_rep w p bs → Z.of_nat (S (length bs)) < STRING_MAX →
  wp (str_putc (Some p) c)
    (λ r w', r = 0 ∧
       str_rep w' p (bs ++ if decide (char_of_int c = NUL) then [] else [char_of_int c]) ∧
       sstep {[p]} w w') E w.
Proof.
  intros Hr Hrep Hl. apply wp_func_body, wp_try.
  eapply wp_conseq; [eapply (str_cat_ok w p bs _ _ _ Hr Hrep (cstr_at_char w _)); [done|]|].
  { case_decide; simpl; lia. }
  intros r w' (-> & ?). done.
Qed.

Lemma str_append_ok w p q bs s E :
  ready w → str_rep w p bs → str_rep w q s → p ≠ q →
  Z.of_nat (length bs + length s) < STRING_MAX →
  wp (str_append (Some p) (Some q))
    (λ r w', r = 0 ∧ str_rep w' p (bs ++ s) ∧ sstep {[p]} w w') E w.
Proof.
  intros Hr Hp Hq Hne Hl. apply wp_func_body. wp_next. apply wp_when.
  { rewrite bool_decide_eq_true. congruence. }
  intros _. destruct (str_rep_get _ _ _ Hq) as (b & sz & Hs & Hc & _).
  wp_next. eapply wp_deref; [done|]. apply wp_try. simpl.
  eapply wp_conseq; [eapply str_cat_ok; eauto|].
  - eapply str_rep_not_in; [apply Hr|done| |done]. set_solver.
  - intros r w' (-> & ?). done.
Qed.

(** * str_ncpy, str_cpy *)

Lemma not_in_neq w p b c : owns w p b → not_in w {[p]} c → Some c ≠ Some (CBlk b 0).
Proof. intros Ho Hn [= ->]. destruct Hn as [_ Hn]. eapply Hn; [by apply elem_of_singleton|done]. Qed.

Lemma str_ncpy_ok w p bs c s n E :
  ready w → str_rep w p bs → cstr_at w c = Some s → not_in w {[p]} c →
  0 ≤ n ≤ Z.of_nat (length s) → n < STRING_MAX →
  wp (str_ncpy (Some p) (Some c) n)
    (λ r w', r = 0 ∧ str_rep w' p (take (Z.to_nat n) s) ∧ sstep {[p]} w w') E w.
Proof.
  intros Hr Hrep Hs Hnot Hn Hm. pose proof Hrep as (b & junk & Hc & Hbs & Hl).
  apply wp_func_body. wp_next. eapply wp_get_str; [done|].
  wp_next. apply wp_when; [rewrite bool_decide_eq_true; intros H|intros _].
  { exfalso. eapply not_in_neq; eauto using str_cells_owns. }
  wp_next. apply wp_when; [lia|intros _].
  wp_next. apply wp_when.
  { intros H. assert (n = 0) as -> by lia. wp_next. wp_call str_truncate_ok.
    intros r w' (-> & ?). by apply wp_leave. }
  intros Hne. wp_next. apply wp_try. destruct (cells_of bs ++ junk) as [|x cs] eqn:Hcs.
  { apply (f_equal length) in Hcs. rewrite length_app, length_cells_of in Hcs. done. }
  wp_call str_truncate_cells. intros r w1 (-> & Hc1 & S1). simpl.
  wp_next. apply wp_try. wp_call (str_resize_cells w1); [apply S1|lia|].
  intros r w2 (-> & b2 & Hc2 & S2). simpl. set (cs2 := resized _ _) in *.
  assert (n + 1 ≤ Z.of_nat (length cs2)) as Hcs2.
  { unfold cs2. rewrite length_resized. lia. }
  assert (sstep {[p]} w w2) as S12 by (by eapply sstep_trans).
  wp_next. eapply (wp_read_cstr _ _ s).
  { rewrite <- Hs. eapply frame_cstr; [apply S12|done]. }
  { lia. }
  wp_next. eapply wp_get_str; [done|]. simpl.
  set (t := take (Z.to_nat n) s). assert (Z.of_nat (length t) = n) as Ht
    by (unfold t; rewrite length_take; lia).
  wp_next. eapply wp_store; [done|apply S2|lia|rewrite length_fmap; lia|].
  intros w3 Hc3 S3. wp_next. eapply wp_store; [done|apply S3|lia| |].
  { rewrite length_splice by (rewrite length_fmap; lia). simpl. lia. }
  intros w4 Hc4 S4. wp_next. eapply wp_set_owner; [done|apply S4|]. intros w5 Hc5 S5.
  eapply wp_set_len; [done|apply S5|]. intros w6 Hc6 S6. split; [done|]. split.
  - assert (splice (splice cs2 (Z.to_nat 0) (Some <$> t)) (Z.to_nat n) [Some NUL] =
      cells_of t ++ drop (S (length t)) cs2) as Heq.
    { etransitivity; [|apply (append_cells [] t cs2); lia]. simpl. f_equal. lia. }
    rewrite Heq, <- Ht in Hc6.
    eapply str_rep_of_cells; [done| |].
    + apply nonul_take. by eapply cstr_at_nonul.
    + unfold STRING_MAX in *. simpl. lia.
  - by eapply sstep_trans, sstep_trans, sstep_trans, sstep_trans.
Qed.

(** The characters of a C string, one by one. *)
Lemma wp_load w c s i (Q : ascii → world → Prop) E :
  cstr_at w c = Some s → 0 ≤ i ≤ Z.of_nat (length s) →
  (∀ a, (s ++ [NUL]) !! Z.to_nat i = Some a → Q a w) → wp (load (Some c) i) Q E w.
Proof.
  intros Hs Hi HQ. wp_next. apply wp_non_null. wp_next.
  assert (∃ junk, cells_at w (ptr_add c i) =
    Some (drop (Z.to_nat i) (cells_of s ++ junk))) as [junk Hl].
  { apply cstr_at_cells in Hs as [junk Hl]. exists junk.
    destruct c as [b o|t o]; simpl in *; destruct (Z.ltb_spec o 0); try done;
      rewrite (proj2 (Z.ltb_ge _ _)) by lia.
    - destruct (blocks w !! b); simpl in *; [|done]. injection Hl as Hl.
      by rewrite <- Hl, drop_drop, Z2Nat.inj_add by lia.
    - injection Hl as Hl. by rewrite <- Hl, drop_drop, Z2Nat.inj_add by lia. }
  eapply wp_cells; [done|]. rewrite head_lookup, lookup_drop, Nat.add_0_r.
  destruct (lookup_lt_is_Some_2 (s ++ [NUL]) (Z.to_nat i)) as [a Ha].
  { rewrite length_app. simpl. lia. }
  rewrite lookup_app_l by (rewrite length_cells_of; lia).
  assert (cells_of s = Some <$> (s ++ [NUL])) as -> by (by rewrite fmap_app).
  rewrite list_lookup_fmap, Ha. simpl. by apply HQ.
Qed.

Lemma cbuf_len_ok w c s E :
  cstr_at w c = Some s → Z.of_nat (length s) < STRING_MAX →
  wp (cbuf_len (Some c)) (λ '(r, n) w', r = 0 ∧ n = Z.of_nat (length s) ∧ w' = w) E w.
Proof.
  intros Hs Hm. wp_next. apply wp_non_null. wp_next.
  destruct (cstr_at_cells _ _ _ Hs) as [junk Hl]. eapply wp_cells; [done|].
  eapply wp_loop with (n := length s)
    (I := λ n i w', w' = w ∧ 0 ≤ i ∧ Z.of_nat n = Z.of_nat (length s) - i).
  2: { split; [done|]. lia. }
  2: { rewrite length_app, length_cells_of. lia. }
  intros n i w' (-> & Hi & Hn). rewrite (proj2 (Z.ltb_lt _ _)) by lia. wp_next.
  eapply wp_load; [done|lia|]. intros a Ha. case_decide as Hz; apply wp_ret.
  - split; [done|]. split; [|done]. subst a.
    destruct (decide (Z.to_nat i < length s)%nat); [|lia].
    rewrite lookup_app_l in Ha by done. apply cstr_at_nonul in Hs.
    by eapply Forall_lookup_1 in Hs.
  - destruct (decide (Z.to_nat i < length s)%nat).
    + exists (n - 1)%nat. split; [lia|]. split; [done|]. lia.
    + replace (Z.to_nat i) with (length s + 0)%nat in Ha by lia.
      rewrite lookup_app_r, Nat.add_0_r, Nat.sub_diag in Ha by lia. naive_solver.
Qed.

Lemma str_cpy_ok w p bs c s E :
  ready w → str_rep w p bs → cstr_at w c = Some s → not_in w {[p]} c →
  Z.of_nat (length s) < STRING_MAX →
  wp (str_cpy (Some p) (Some c))
    (λ r w', r = 0 ∧ str_rep w' p s ∧ sstep {[p]} w w') E w.
Proof.
  intros Hr Hrep Hs Hnot Hm. pose proof Hrep as (b & junk & Hc & Hbs & Hl).
  apply wp_func_body. wp_next. eapply wp_get_str; [done|].
  wp_next. apply wp_require.
  { apply bool_decide_eq_true. eapply not_in_neq; eauto using str_cells_owns. }
  wp_next. wp_next. wp_call cbuf_len_ok. intros [r n] w1 (-> & -> & ->). simpl.
  apply wp_ret. wp_try_call str_ncpy_ok; [lia|].
  intros r w' (-> & Hrep' & S). rewrite Nat2Z.id, take_ge in Hrep' by lia. done.
Qed.

(** * str_copy, str_move *)

(** What [str_copy] needs of its source: a text that [X] does not own. *)
Definition str_view (w : world) (X : gset loc) (q : loc) (t : bytes) : Prop :=
  ∃ c sz o, strs w !! q = Some (mk_string_t (Some c) sz (Z.of_nat (length t)) o) ∧
    cstr_at w c = Some t ∧ not_in w X c ∧ Z.of_nat (length t) < sz ∧
    Z.of_nat (length t) ≤ STRING_MAX.

Lemma str_rep_view w X q t : wf w → str_rep w q t → q ∉ X → str_view w X q t.
Proof.
  intros Hwf Hq HX. pose proof Hq as (b & junk & [Hs Hb] & Hn & Hl).
  exists (CBlk b 0), (Z.of_nat (length (cells_of t ++ junk))), true.
  split; [done|]. split; [|split; [by eapply str_rep_not_in|split; [|done]]].
  - unfold cstr_at. simpl. rewrite Hb. simpl. rewrite drop_0. by apply scan_cells_of.
  - rewrite length_app, length_cells_of. lia.
Qed.

Lemma str_copy_view w p q bs s E :
  ready w → str_rep w p bs → str_view w {[p]} q s → p ≠ q →
  wp (str_copy (Some p) (Some q))
    (λ r w', r = 0 ∧ str_rep w' p s ∧ sstep {[p]} w w') E w.
Proof.
  intros Hr Hp (c & szq & o & Hsq & Hcq & Hnot & Hszq & Hmax) Hne.
  pose proof Hp as (b & junk & Hc & Hbs & Hl). pose proof (cstr_at_nonul _ _ _ Hcq) as Hnq.
  apply wp_func_body. wp_next. apply wp_when; [rewrite bool_decide_eq_true; congruence|intros _].
  wp_next. eapply wp_deref; [done|]. wp_next. simpl. apply wp_when.
  { rewrite orb_true_iff, !Z.eqb_eq. intros Hz.
    assert (s = []) as -> by (destruct s; [done|simpl in Hz; lia]).
    wp_next. wp_call str_truncate_ok. intros r w' (-> & ?). by apply wp_leave. }
  intros _. wp_next. eapply wp_get_str; [done|]. simpl.
  pose proof Hc as [Hs Hb]. wp_next. unfold wp at 1, free. rewrite Hb. simpl.
  wp_next. eapply wp_set_obj; [done|]. wp_next.
  unfold wp at 1, malloc, mbind, M_bind, allocator. cbn -[replicate].
  rewrite (proj2 Hr). cbn -[replicate]. wp_next.
  eapply wp_set_obj; [simpl; by rewrite lookup_insert_eq|]. wp_next.
  destruct (str_cells_lt _ _ _ _ _ (proj1 Hr) Hc) as [Hp1 Hp2].
  eapply (wp_read_cstr_nul _ c s).
  { rewrite <- Hcq. unfold cstr_at. destruct c as [bq oq|]; [|done].
    destruct Hnot as [Hbq Hnot]. assert (bq ≠ b) as Hbb.
    { intros ->. eapply Hnot; [by apply elem_of_singleton|by eapply str_cells_owns]. }
    simpl. by rewrite lookup_insert_ne, lookup_delete_ne by (lia || done). }
  wp_next. unfold wp at 1, store. cbn -[replicate cells_of].
  rewrite lookup_insert_eq. cbn -[replicate cells_of].
  rewrite length_replicate, length_cells_of, bool_decide_true by lia.
  wp_next. eapply wp_set_obj; [simpl; by rewrite lookup_insert_eq|].
  wp_next. eapply wp_set_obj; [simpl; by rewrite lookup_insert_eq|].
  eapply wp_set_obj; [simpl; by rewrite lookup_insert_eq|].
  unfold set_str_size, set_str_value, set_str_len, set_str_owner. cbn -[replicate cells_of].
  split; [done|]. split.
  - eapply (str_rep_of_cells _ _ (next_loc w) _
      (replicate (Z.to_nat szq - length (cells_of s)) None)); [|done|done].
    split; cbn -[replicate cells_of]; rewrite !lookup_insert_eq.
    + do 2 f_equal. rewrite length_app, length_replicate, length_cells_of. lia.
    + do 2 f_equal. unfold splice. cbn -[replicate cells_of].
      by rewrite drop_replicate.
  - eapply (sstep_replace _ _ p (next_loc w)); cbn -[replicate cells_of];
      rewrite ?insert_insert_eq; [done|lia|by rewrite lookup_insert_eq|done|lia|lia| | |done|done].
    + intros q' Hq'. by rewrite lookup_insert_ne.
    + intros l Hl' Ho. rewrite lookup_insert_ne by done. apply lookup_delete_ne.
      intros ->. apply Ho. by eapply str_cells_owns.
Qed.

Lemma str_copy_ok w p q bs s E :
  ready w → str_rep w p bs → str_rep w q s → p ≠ q →
  wp (str_copy (Some p) (Some q))
    (λ r w', r = 0 ∧ str_rep w' p s ∧ sstep {[p]} w w') E w.
Proof.
  intros Hr Hp Hq Hne. eapply str_copy_view; [done|done| |done].
  apply str_rep_view; [apply Hr|done|set_solver].
Qed.

Lemma str_move_ok w p q bs s E :
  ready w → str_rep w p bs → str_rep w q s → p ≠ q →
  wp (str_move (Some p) (Some q))
    (λ r w', r = 0 ∧ str_rep w' p s ∧ str_rep w' q [] ∧ sstep {[p; q]} w w') E w.
Proof.
  intros Hr Hp Hq Hne. apply wp_func_body.
  wp_next. apply wp_require; [apply bool_decide_eq_true; congruence|].
  wp_next. apply wp_when; [rewrite bool_decide_eq_true; congruence|intros _].
  wp_next. wp_try_call str_copy_ok. intros r w1 (-> & Hp1 & S1). simpl.
  assert (str_rep w1 q s) as Hq1 by (eapply sstep_rep; [apply Hr|done|set_solver|done]).
  wp_try_call (str_truncate_ok w1 q s); [apply S1|]. intros r w2 (-> & Hq2 & S2). simpl.
  split; [done|]. split; [|split; [done|]].
  - eapply sstep_rep; [apply S1|done|set_solver|done].
  - eapply sstep_trans; (eapply sstep_mono; [|done]); set_solver.
Qed.

(** * Construction and destruction *)

Lemma str_new_ok w E :
  ready w →
  wp (str_new None) (λ '(r, p) w', r = 0 ∧ ∃ l, p = Some l ∧
    (next_loc w ≤ l)%positive ∧ str_rep w' l [] ∧ sstep ∅ w w') E w.
Proof.
  intros Hr. set (l := next_loc w). unfold str_new, mem_calloc. wp_next.
  unfold wp at 1, calloc_obj, mbind, M_bind, allocator. simpl.
  rewrite (proj2 Hr). simpl. wp_next.
  unfold wp at 1, malloc, mbind, M_bind, allocator. cbn -[replicate].
  rewrite (proj2 Hr). cbn -[replicate]. wp_next.
  eapply wp_set_obj; [simpl; by rewrite lookup_insert_eq|]. wp_next.
  unfold wp at 1, store. cbn -[replicate]. rewrite lookup_insert_eq.
  cbn -[replicate]. rewrite !length_replicate, bool_decide_true by done.
  wp_next. eapply wp_set_obj; [simpl; by rewrite lookup_insert_eq|].
  wp_next. eapply wp_set_obj; [simpl; by rewrite lookup_insert_eq|].
  apply wp_ret. split; [done|]. exists l. split; [done|]. split; [done|]. split.
  - exists (Pos.succ l), (replicate 7 (Some NUL) ++ replicate 8 None).
    split; [|split; [constructor|done]]. split; simpl; by rewrite lookup_insert_eq.
  - eapply (sstep_fresh _ l); [done|done|]. rewrite union_empty_r_L.
    eapply (sstep_replace _ _ l (Pos.succ l)); cbn -[replicate];
      rewrite ?insert_insert_eq; [done|lia|by rewrite lookup_insert_eq|done|lia|lia| | |done|done].
    + intros q Hq. by rewrite lookup_insert_ne.
    + intros q Hq _. by rewrite lookup_insert_ne.
Qed.

(** A string that owns its buffer, whatever that holds. *)
Definition str_live (w : world) (p : loc) : Prop := ∃ b cs L, str_cells w p b cs L.

Lemma str_rep_live w p bs : str_rep w p bs → str_live w p.
Proof. intros (b & junk & Hc & _). by eexists _, _, _. Qed.

Lemma str_destroy_live w p E :
  ready w → str_live w p →
  wp (str_destroy (Some p)) (λ '(r, p') w', r = 0 ∧ p' = None ∧
    strs w' !! p = None ∧ sstep {[p]} w w') E w.
Proof.
  intros Hr (b & cs & L & Hc). pose proof Hc as [Hs Hb].
  destruct (str_cells_lt _ _ _ _ _ (proj1 Hr) Hc) as [Hp Hb'].
  wp_next. eapply wp_get_str; [done|]. wp_next. simpl.
  unfold wp at 1, free. rewrite Hb. simpl. wp_next.
  unfold wp at 1, free_obj. simpl. rewrite Hs. simpl. apply wp_ret.
  split; [done|]. split; [done|]. simpl. split; [by rewrite lookup_delete_eq|].
  destruct Hr as [Hwf Hoom].
  assert (∀ q c, owns (upd_strs (delete p) (upd_blocks (delete b) w)) q c → owns w q c)
    as Hown.
  { intros q c (s & o & H & H1 & H2). simpl in H.
    apply lookup_delete_Some in H as [_ H]. by exists s, o. }
  split; [split; [split|done]|split; [split|by split]]; simpl; try apply Hwf.
  - intros l H. apply lookup_delete_None. right. by apply Hwf.
  - intros l H. apply lookup_delete_None. right. by apply Hwf.
  - intros p1 p2 c H1%Hown H2%Hown. by eapply (wf_own w Hwf).
  - intros q c H%Hown. by eapply (wf_own_bound w Hwf).
  - reflexivity.
  - intros q _ Hq. apply lookup_delete_ne. set_solver.
  - intros c _ H. apply lookup_delete_ne. intros <-.
    eapply H; [by apply elem_of_singleton|by eapply str_cells_owns].
  - intros q c H%Hown. by left.
Qed.

Lemma str_destroy_ok w p bs E :
  ready w → str_rep w p bs →
  wp (str_destroy (Some p)) (λ '(r, p') w', r = 0 ∧ p' = None ∧
    strs w' !! p = None ∧ sstep {[p]} w w') E w.
Proof. intros Hr Hp. by eapply str_destroy_live, str_rep_live. Qed.

(** The rule for [string_t *buf;]: the body gets an empty string that did not
    exist before, and must leave it a string; its release is not seen. *)
Lemma wp_auto_str w X k (R : Z → world → Prop) E :
  ready w →
  (∀ l w1, (next_loc w ≤ l)%positive → str_rep w1 l [] → sstep ∅ w w1 →
     wp (k (Some l)) (λ z w2, (∃ bs, str_rep w2 l bs) ∧ sstep ({[l]} ∪ X) w1 w2 ∧
       ∀ w3, sstep {[l]} w2 w3 → R z w3) E w1) →
  wp (auto_str k) (λ z w', R z w' ∧ sstep X w w') E w.
Proof.
  intros Hr Hk. apply wp_auto. wp_call str_new_ok.
  intros [r p] w1 (-> & l & -> & Hl & Hrep & S1). simpl.
  eapply wp_conseq; [by apply Hk|]. intros z w2 ((bs & Hrep2) & S2 & HR). cbn beta.
  wp_call (str_destroy_ok w2 l bs); [apply S2|].
  intros [r p'] w3 (-> & -> & _ & S3). simpl. split; [by apply HR|].
  eapply (sstep_fresh _ l); [done|done|].
  eapply sstep_trans; [eapply sstep_mono; [|exact S1]; set_solver|].
  eapply sstep_trans; [exact S2|]. eapply sstep_mono; [|exact S3]. set_solver.
Qed.

Lemma str_prepend_ok w p q bs s E :
  ready w → str_rep w p bs → str_rep w q s → p ≠ q →
  Z.of_nat (length bs + length s) < STRING_MAX →
  wp (str_prepend (Some p) (Some q))
    (λ r w', (r = 0 ∧ str_rep w' p (s ++ bs)) ∧ sstep {[p]} w w') E w.
Proof.
  intros Hr Hp Hq Hne Hm. apply wp_func, wp_auto_str; [done|].
  intros l w1 Hl Hl1 S1.
  pose proof (str_rep_lt _ _ _ (proj1 Hr) Hp). pose proof (str_rep_lt _ _ _ (proj1 Hr) Hq).
  assert (str_rep w1 p bs) as Hp1 by (eapply sstep_rep; [apply Hr|done|set_solver|done]).
  assert (str_rep w1 q s) as Hq1 by (eapply sstep_rep; [apply Hr|done|set_solver|done]).
  apply wp_body. wp_next. apply wp_when; [rewrite bool_decide_eq_true; congruence|intros _].
  wp_next. wp_try_call (str_copy_ok w1 l p); [apply S1|lia|].
  intros r w2 (-> & Hl2 & S2). simpl.
  assert (str_rep w2 p bs) as Hp2 by (eapply sstep_rep; [apply S1|done|set_solver by lia|done]).
  assert (str_rep w2 q s) as Hq2 by (eapply sstep_rep; [apply S1|done|set_solver by lia|done]).
  wp_next. wp_try_call (str_copy_ok w2 p q); [apply S2|].
  intros r w3 (-> & Hp3 & S3). simpl.
  assert (str_rep w3 l bs) as Hl3 by (eapply sstep_rep; [apply S2|done|set_solver by lia|done]).
  wp_try_call (str_append_ok w3 p l); [apply S3|lia|lia|].
  intros r w4 (-> & Hp4 & S4). simpl. split; [|split].
  - exists bs. eapply sstep_rep; [apply S3|done|set_solver by lia|done].
  - eapply sstep_trans; [eapply sstep_mono; [|exact S2]; set_solver|].
    eapply sstep_trans; (eapply sstep_mono; [|done]; set_solver).
  - intros w5 S5. split; [done|]. eapply sstep_rep; [apply S4|done|set_solver by lia|done].
Qed.
