(* ===== verification/StringMore.v ===== *)
(** More specifications of string operations: formatting, line ends. *)

From S2P Require Import Prelude Types Machine Wp StringOps StringFacts.

Open Scope Z_scope.

(** * str_vprintf, str_sprintf *)

(** The buffer of [p] is released, and its header cleared. *)
Lemma sstep_clear w p b cs L s' :
  ready w → str_cells w p b cs L → str_value s' = None →
  sstep {[p]} w (upd_strs <[p := s']> (upd_blocks (delete b) w)).
Proof.
  intros Hr Hc Hv. pose proof Hc as [Hs Hb].
  destruct (str_cells_lt _ _ _ _ _ (proj1 Hr) Hc) as [Hp Hb'].
  assert (sstep {[p]} w (upd_blocks (delete b) w)) as S1.
  { eapply sstep_set_block; [done|by eapply str_cells_owns|].
    intros l Hl. by apply lookup_delete_ne. }
  eapply sstep_trans; [exact S1|]. destruct S1 as ([Hwf Hoom] & _).
  set (w1 := upd_blocks (delete b) w) in *.
  assert (∀ q c, owns (upd_strs <[p := s']> w1) q c → owns w1 q c) as Hown.
  { intros q c (s0 & o & H & H1 & H2). simpl in H. destruct (decide (q = p)) as [->|Hne].
    - rewrite lookup_insert_eq in H. injection H as <-. congruence.
    - rewrite lookup_insert_ne in H by done. by exists s0, o. }
  split; [split; [split|done]|split; [split|by split]]; simpl; try apply Hwf.
  - intros l Hl. rewrite lookup_insert_ne by lia. by apply Hwf.
  - intros p1 p2 c H1%Hown H2%Hown. by eapply (wf_own w1 Hwf).
  - intros q c H%Hown. by eapply (wf_own_bound w1 Hwf).
  - reflexivity.
  - intros q _ Hq. apply lookup_insert_ne. set_solver.
  - done.
  - intros q c H%Hown. by left.
Qed.

(** [w'] differs from [w] only in the header of string [p], which is [s] in it. *)
Definition headed (w : world) (p : loc) (s : string_t) (w' : world) : Prop :=
  w' = upd_strs <[p := s]> w.

Lemma headed_get w p s w' : headed w p s w' → strs w' !! p = Some s.
Proof. intros ->. apply lookup_insert_eq. Qed.

Lemma headed_refl w p s : strs w !! p = Some s → headed w p s w.
Proof. intros H. unfold headed, upd_strs. rewrite insert_id by done. by destruct w. Qed.

Lemma wp_head w w0 p s f (Q : unit → world → Prop) E :
  headed w0 p s w → (∀ w', headed w0 p (f s) w' → Q tt w') → wp (mod_str (Some p) f) Q E w.
Proof.
  intros H HQ. eapply wp_set_obj; [by eapply headed_get|]. apply HQ. rewrite H.
  unfold headed, upd_strs. simpl. by rewrite insert_insert_eq.
Qed.

(** A released buffer: the header of [p] is empty. *)
Definition released (w : world) (p : loc) (w' : world) : Prop :=
  sstep {[p]} w w' ∧ strs w' !! p = Some (mk_string_t None 0 0 true) ∧
  (∀ b, ¬ owns w' p b).

Lemma release_ok w p b cs L (Q : unit → world → Prop) E :
  ready w → str_cells w p b cs L → (∀ w', released w p w' → Q tt w') →
  wp (free (Some (CBlk b 0));; mod_str (Some p) (set_str_value None);;
      mod_str (Some p) (set_str_size 0);; mod_str (Some p) (set_str_len 0)) Q E w.
Proof.
  intros Hr Hc HQ. pose proof Hc as [Hs Hb].
  pose proof (sstep_clear w p b cs L (mk_string_t None 0 0 true) Hr Hc eq_refl) as S.
  wp_next. unfold wp at 1, free. rewrite Hb. cbn [bheap Z.eqb].
  set (w1 := upd_blocks (delete b) w) in *.
  wp_next. eapply (wp_head w1 w1); [by apply headed_refl|]. intros w2 H2.
  wp_next. eapply wp_head; [exact H2|]. intros w3 H3.
  eapply wp_head; [exact H3|]. intros w4 H4. apply HQ. unfold headed in H4.
  split; [rewrite H4; exact S|]. rewrite H4. split; [apply lookup_insert_eq|].
  intros c (s0 & o & H & _ & Hv). simpl in H. rewrite lookup_insert_eq in H. by injection H as <-.
Qed.

(** A text that has been put into a new block becomes the string. *)
Lemma install_ok w p out (Q : Z → world → Prop) E :
  ready w → strs w !! p = Some (mk_string_t None 0 0 true) → (p < next_loc w)%positive →
  nonul out → Z.of_nat (length out) ≤ STRING_MAX →
  (∀ w', str_rep w' p out → sstep {[p]} w w' → Q 0 w') →
  wp (v ← malloc (Z.of_nat (length out) + 1);
      mod_str (Some p) (set_str_value v);;
      when (bool_decide (v = None)) (throw_errno "vasprintf(3)");;
      store v 0 (cells_of out);;
      n ← strlen v;
      mod_str (Some p) (set_str_len n);;
      when (STRING_MAX <? n) (
        free v;;
        mod_str (Some p) (set_str_value None);;
        mod_str (Some p) (set_str_size 0);;
        mod_str (Some p) (set_str_len 0);;
        throw "result too large");;
      mod_str (Some p) (set_str_size (n + 1))) (λ _, Q 0) E w.
Proof.
  intros Hr Hs Hp Hout Hmax HQ. wp_next. apply wp_malloc; [done|]. set (nb := next_loc w).
  set (w1 := upd_blocks _ _). wp_next.
  eapply (wp_head w1 w1); [by apply headed_refl|]. intros w2 H2. cbn [set_str_value] in H2.
  rewrite bool_decide_false by done. wp_next. apply wp_ret.
  assert (blocks w2 = blocks w1) as Hb2 by (by rewrite H2).
  wp_next. unfold wp at 1, store. rewrite Hb2. simpl (blocks w1).
  rewrite lookup_insert_eq. cbn -[replicate cells_of Z.of_nat].
  rewrite length_replicate, length_cells_of, bool_decide_true by lia.
  set (bk := Block _ _). set (w3 := upd_blocks <[nb := bk]> w2).
  assert (bk = Block (cells_of out) true) as Ebk.
  { unfold bk, splice. cbn [take app]. f_equal. rewrite drop_ge; [by rewrite app_nil_r|].
    rewrite length_replicate, length_cells_of. lia. }
  clearbody bk. subst bk.
  wp_next. eapply wp_strlen.
  { unfold cstr_at, cells_at. simpl. rewrite lookup_insert_eq. simpl. rewrite drop_0.
    rewrite <- (app_nil_r (cells_of out)). by apply scan_cells_of. }
  wp_next. eapply (wp_head w3 w3); [apply headed_refl; apply (headed_get _ _ _ _ H2)|].
  intros w4 H4. rewrite (proj2 (Z.ltb_ge _ _)) by lia. wp_next. apply wp_ret.
  eapply wp_head; [exact H4|]. intros w5 H5. pose proof (headed_get _ _ _ _ H5) as Hs5.
  unfold set_str_size, set_str_len, set_str_value in Hs5.
  cbn [str_value str_size str_len str_owner] in Hs5.
  assert (blocks w5 = <[nb := Block (cells_of out) true]> (blocks w)) as Hb5.
  { rewrite H5. simpl. rewrite Hb2. simpl. apply insert_insert_eq. }
  assert (next_loc w5 = Pos.succ (next_loc w)) as Hn5 by (rewrite H5; simpl; by rewrite H2).
  apply HQ.
  - eapply (str_rep_of_cells _ _ nb out []); [|done|done]. rewrite app_nil_r.
    split; [|by rewrite Hb5, lookup_insert_eq]. rewrite Hs5, length_cells_of. do 2 f_equal. lia.
  - eapply (sstep_replace w w5 p nb); [done|rewrite Hn5; lia|exact Hs5|done|unfold nb; lia|
      rewrite Hn5; unfold nb; lia| | |rewrite H5; simpl; by rewrite H2|].
    + intros q Hq. rewrite H5. simpl. rewrite H2. simpl. by rewrite !lookup_insert_ne.
    + intros l Hl _. rewrite Hb5. by rewrite lookup_insert_ne.
    + rewrite H5. split; simpl; by rewrite H2.
Qed.

Lemma str_vprintf_ok w p bs render out E :
  ready w → str_rep w p bs → nonul out → Z.of_nat (length out) ≤ STRING_MAX →
  (∀ w', sstep {[p]} w w' → wp render (λ o w'', o = out ∧ w'' = w') no_exit w') →
  wp (str_vprintf (Some p) render)
    (λ r w', r = 0 ∧ str_rep w' p out ∧ sstep {[p]} w w') E w.
Proof.
  intros Hr (b & junk & Hc & Hn & Hl) Hout Hmax Hrender. pose proof Hc as [Hs Hb].
  destruct (str_cells_lt _ _ _ _ _ (proj1 Hr) Hc) as [Hp _].
  apply wp_func_body. wp_next. eapply wp_get_str; [done|]. cbn [str_size].
  rewrite (proj2 (Z.ltb_lt _ _)) by (rewrite length_app, length_cells_of; lia).
  wp_next. cbn [when str_value]. eapply release_ok; [done|done|]. intros w1 (S1 & Hs1 & _).
  wp_next. eapply wp_mono; [by apply Hrender| |by intros]. intros o w' (-> & ->).
  apply (install_ok w1 p out (λ r w', r = 0 ∧ str_rep w' p out ∧ sstep {[p]} w w'));
    [apply S1|done| |done|done|].
  - pose proof (fr_next _ _ _ (proj1 (proj2 S1))). lia.
  - intros w2 Hrep S2. split; [done|]. split; [done|]. by eapply sstep_trans.
Qed.

Lemma str_sprintf_ok w p bs render out E :
  ready w → str_rep w p bs → nonul out → Z.of_nat (length out) ≤ STRING_MAX →
  (∀ w', sstep {[p]} w w' → wp render (λ o w'', o = out ∧ w'' = w') no_exit w') →
  wp (str_sprintf (Some p) render)
    (λ r w', r = 0 ∧ str_rep w' p out ∧ sstep {[p]} w w') E w.
Proof.
  intros. apply wp_func_body. wp_try_call str_vprintf_ok. intros r w' (-> & ?). done.
Qed.

(** * Line ends *)

(** Drop the last character of [s] if it is [c]. *)
Definition chomp1 (c : ascii) (s : bytes) : bytes :=
  if decide (last s = Some c) then take (length s - 1) s else s.

Definition chomp (s : bytes) : bytes := chomp1 CR (chomp1 LF s).

Lemma chomp1_snoc c s : chomp1 c (s ++ [c]) = s.
Proof.
  unfold chomp1. rewrite last_snoc, decide_True by done. rewrite length_app. simpl.
  by rewrite take_app_length' by lia.
Qed.

Lemma chomp1_other c s : last s ≠ Some c → chomp1 c s = s.
Proof. intros H. unfold chomp1. by rewrite decide_False. Qed.

Lemma chomp1_prefix c s : ∃ r, s = chomp1 c s ++ r.
Proof.
  unfold chomp1. case_decide; [|exists []; by rewrite app_nil_r].
  exists (drop (length s - 1) s). by rewrite take_drop.
Qed.

Lemma chomp_prefix s : ∃ r, s = chomp s ++ r.
Proof.
  unfold chomp. destruct (chomp1_prefix LF s) as [r1 H1].
  destruct (chomp1_prefix CR (chomp1 LF s)) as [r2 H2]. exists (r2 ++ r1).
  by rewrite app_assoc, <- H2.
Qed.

Lemma store_ptr b o i new : store (Some (CBlk b o)) i new = store (Some (CBlk b 0)) (o + i) new.
Proof. done. Qed.

(** Cut the last character off. *)
Lemma cut_last w p b s c junk E :
  ready w → str_cells w p b (cells_of (s ++ [c]) ++ junk) (Z.of_nat (length s) + 1) →
  wp (memset1 (Some (CBlk b (Z.of_nat (length s)))) 0 NUL;;
      mod_str (Some p) (λ s, set_str_len (str_len s - 1) s))
    (λ _ w', str_cells w' p b (cells_of s ++ Some NUL :: junk) (Z.of_nat (length s)) ∧
       sstep {[p]} w w') E w.
Proof.
  intros Hr Hc. unfold memset1. rewrite store_ptr. wp_next.
  eapply wp_store; [done|done|lia| |].
  { rewrite length_app, length_cells_of, length_app. simpl. lia. }
  intros w1 Hc1 S1.
  assert (cells_of (s ++ [c]) ++ junk = (Some <$> s) ++ Some c :: Some NUL :: junk) as Hcs.
  { by rewrite cells_of_split, fmap_app, <- app_assoc. }
  assert (splice (cells_of (s ++ [c]) ++ junk) (Z.to_nat (Z.of_nat (length s) + 0)) [Some NUL] =
    cells_of s ++ Some NUL :: junk) as Hcut.
  { rewrite Hcs. replace (Z.to_nat _) with (length s) by lia.
    by rewrite nul_cells by (simpl; lia). }
  rewrite Hcut in Hc1. pose proof Hc1 as [Hs1 Hb1]. eapply wp_set_obj; [done|]. split.
  - split; [|done]. simpl. rewrite lookup_insert_eq. unfold set_str_len. simpl.
    do 2 f_equal. lia.
  - eapply sstep_trans; [done|]. eapply sstep_set_str; [apply S1|done|done|done].
Qed.

(** The end of the text, as the operations find it. *)
Lemma str_rep_last w p s c :
  str_rep w p (s ++ [c]) → ∃ b junk,
    str_cells w p b (cells_of (s ++ [c]) ++ junk) (Z.of_nat (length s) + 1) ∧
    nonul s ∧ Z.of_nat (length s) < STRING_MAX.
Proof.
  intros (b & junk & Hc & [Hn _]%nonul_app & Hl). rewrite length_app in *. simpl in *.
  exists b, junk. split; [|split; [done|lia]].
  by replace (Z.of_nat (length s) + 1) with (Z.of_nat (length s + 1)) by lia.
Qed.

Lemma wp_load_last w p b s c junk (Q : ascii → world → Prop) E :
  str_cells w p b (cells_of (s ++ [c]) ++ junk) (Z.of_nat (length s) + 1) →
  nonul (s ++ [c]) → Q c w → wp (load (Some (CBlk b (Z.of_nat (length s)))) 0) Q E w.
Proof.
  intros [_ Hb] Hn HQ. wp_next. apply wp_non_null. wp_next.
  eapply (wp_cells _ _ (drop (length s) (cells_of (s ++ [c]) ++ junk))).
  { simpl. rewrite (proj2 (Z.ltb_ge _ _)) by lia. rewrite Hb. simpl. do 2 f_equal. lia. }
  rewrite cells_of_split, fmap_app, <- app_assoc.
  by rewrite drop_app_length' by (by rewrite length_fmap).
Qed.

Lemma str_chomp_ok w p s E :
  ready w → str_rep w p s →
  wp (str_chomp (Some p)) (λ r w', r = 0 ∧ str_rep w' p (chomp s) ∧ sstep {[p]} w w') E w.
Proof.
  intros Hr Hp. destruct s as [|c s _] using rev_ind.
  { destruct (str_rep_get _ _ _ Hp) as (b & sz & Hs & _). apply wp_func_body. wp_next.
    eapply wp_deref; [done|]. by apply wp_leave; split; [|split; [|apply sstep_refl]]. }
  pose proof (str_rep_nonul _ _ _ Hp) as Hn.
  destruct (str_rep_last _ _ _ _ Hp) as (b & junk & Hc & Hns & Hlen).
  apply wp_func_body. wp_next. eapply wp_get_str; [done|]. cbn [str_len].
  rewrite (proj2 (Z.eqb_neq _ _)) by lia. wp_next. apply wp_ret. wp_next.
  wp_next. eapply wp_get_str; [done|]. cbn [str_len str_value].
  rewrite (proj2 (Z.ltb_lt _ _)) by lia. wp_next. apply wp_non_null. apply wp_ret. cbn [ptr_add].
  replace (0 + (Z.of_nat (length s) + 1 - 1)) with (Z.of_nat (length s)) by lia.
  wp_next. eapply wp_load_last; [done|done|]. wp_next. unfold chomp.
  case_decide as HLF.
  - subst c. rewrite chomp1_snoc. apply wp_two.
    eapply wp_conseq; [by eapply cut_last|]. intros [] w1 [Hc1 S1].
    wp_next. apply wp_non_null. apply wp_ret. cbn [ptr_add].
    wp_next. eapply wp_get_str; [done|]. cbn [str_len].
    destruct s as [|c s _] using rev_ind; [split_and!; try done; by eapply str_rep_of_cells|].
    rewrite length_app in *. cbn [length] in *.
    replace (Z.of_nat (length s + 1) + -1) with (Z.of_nat (length s)) by lia.
    replace (Z.of_nat (length s + 1)) with (Z.of_nat (length s) + 1) in Hc1 by lia.
    apply nonul_app in Hns as Hns'. destruct Hns' as [Hns' _].
    apply wp_when; [intros _|intros ?%Z.ltb_ge; lia]. wp_next. eapply wp_load_last; [done|done|].
    apply wp_when; rewrite ?bool_decide_eq_true, ?bool_decide_eq_false; intros HCR.
    + subst c. rewrite chomp1_snoc.
      eapply wp_conseq; [eapply cut_last; [apply S1|done]|]. intros [] w2 [Hc2 S2]. split; [done|].
      split; [|by eapply sstep_trans]. eapply str_rep_of_cells; [done|done|lia].
    + rewrite chomp1_other by (rewrite last_snoc; congruence).
      split; [done|]. split; [|done]. eapply str_rep_of_cells; [|done|].
      * rewrite length_app. replace (Z.of_nat (length s + length [c]))
          with (Z.of_nat (length s) + 1) by (simpl; lia). done.
      * rewrite length_app. simpl. lia.
  - rewrite (chomp1_other LF) by (rewrite last_snoc; congruence). apply wp_ret.
    wp_next. eapply wp_get_str; [done|]. cbn [str_len].
    apply wp_when; [intros _|lia]. wp_next. eapply wp_load_last; [done|done|].
    apply wp_when; rewrite ?bool_decide_eq_true, ?bool_decide_eq_false; intros HCR.
    + subst c. rewrite chomp1_snoc.
      eapply wp_conseq; [by eapply cut_last|]. intros [] w1 [Hc1 S1]. split; [done|].
      split; [|done]. eapply str_rep_of_cells; [done|done|lia].
    + rewrite chomp1_other by (rewrite last_snoc; congruence).
      split; [done|]. split; [done|by apply sstep_refl].
Qed.

