(* ===== verification/EscapeFacts.v ===== *)
(** URI encoding: [str_escape] computes the percent-encoding of a string, and
    [str_unescape] inverts it. *)

From S2P Require Import Prelude Types Machine Wp StringOps StringFacts.

Open Scope Z_scope.

(** The percent-encoding of a text. *)
Definition escape1 (c : ascii) : bytes :=
  if unreserved c then [c] else percent_code c.
Definition escape (s : bytes) : bytes := s ≫= escape1.

(** * Characters *)

Ltac all_chars c := destruct c as [[] [] [] [] [] [] [] []].

Lemma char_of_uchar c : char_of_int (uchar c) = c.
Proof. all_chars c; reflexivity. Qed.

Lemma char_of_int_of_char c : char_of_int (int_of_char c) = c.
Proof. all_chars c; reflexivity. Qed.

Lemma percent_code_scan c rest :
  sscanf_percent (percent_code c ++ rest) = Some (uchar c).
Proof. all_chars c; reflexivity. Qed.

Lemma percent_code_nonul c : nonul (percent_code c).
Proof. apply (bool_decide_unpack _). all_chars c; exact I. Qed.

Lemma percent_code_ascii c :
  Forall (λ a, a ≠ " "%char ∧ a ≠ LF ∧ a ≠ CR) (percent_code c).
Proof. apply (bool_decide_unpack _). all_chars c; exact I. Qed.

(** A percent sign, and white space, are always encoded. *)
Lemma unreserved_not c :
  unreserved c = true → c ≠ "%"%char ∧ c ≠ " "%char ∧ c ≠ LF ∧ c ≠ CR.
Proof. all_chars c; done. Qed.

Lemma length_escape1 c : (0 < length (escape1 c) ≤ 3)%nat.
Proof. unfold escape1, percent_code. case_match; simpl; lia. Qed.

Lemma escape_cons c s : escape (c :: s) = escape1 c ++ escape s.
Proof. done. Qed.

Lemma length_escape s : (length s ≤ length (escape s) ≤ 3 * length s)%nat.
Proof.
  induction s as [|c s IH]; [done|]. rewrite escape_cons, length_app. simpl.
  pose proof (length_escape1 c). lia.
Qed.

Lemma escape_snoc s c : escape (s ++ [c]) = escape s ++ escape1 c.
Proof. unfold escape. by rewrite bind_app, bind_singleton. Qed.

Lemma escape1_nonul c : c ≠ NUL → nonul (escape1 c).
Proof.
  intros H. unfold escape1. case_match; [by apply nonul_singleton|apply percent_code_nonul].
Qed.

Lemma escape_nonul s : nonul s → nonul (escape s).
Proof.
  induction 1 as [|c s Hc Hs IH]; [constructor|]. rewrite escape_cons.
  apply nonul_app. split; [by apply escape1_nonul|done].
Qed.

(** No blank and no line end survives the encoding. *)
Lemma escape_blank s : Forall (λ a, a ≠ " "%char ∧ a ≠ LF ∧ a ≠ CR) (escape s).
Proof.
  induction s as [|c s IH]; [constructor|]. rewrite escape_cons.
  apply Forall_app. split; [|done]. unfold escape1.
  destruct (unreserved c) eqn:H; [|apply percent_code_ascii].
  apply unreserved_not in H. constructor; [|constructor]. tauto.
Qed.

(** * str_escape *)

(** A string modified by nobody in [X] can still be read. *)
Lemma sstep_cstr X w w' c s :
  sstep X w w' → not_in w X c → cstr_at w c = Some s → cstr_at w' c = Some s.
Proof. intros (_ & F & _) Hn <-. by eapply frame_cstr. Qed.

Lemma escape_step_ok w l c acc E :
  ready w → str_rep w l acc → c ≠ NUL → Z.of_nat (length acc) + 3 < STRING_MAX →
  wp (if unreserved c then try_ (str_putc (Some l) (int_of_char c))
      else try_ (str_cat (Some l) (Some (CLit (percent_code c) 0))))
    (λ _ w', str_rep w' l (acc ++ escape1 c) ∧ sstep {[l]} w w') E w.
Proof.
  intros Hr Hl Hc Hm. unfold escape1. destruct (unreserved c).
  - wp_try_call str_putc_ok; [lia|].
    intros r w' (-> & H & S). rewrite char_of_int_of_char, decide_False in H by done. done.
  - wp_try_call str_cat_ok; [apply cstr_at_lit, percent_code_nonul|done|unfold percent_code; simpl; lia|].
    by intros r w' (-> & H & S).
Qed.

Lemma str_rep_readable w p bs :
  ready w → str_rep w p bs → ∃ c sz,
    strs w !! p = Some (mk_string_t (Some c) sz (Z.of_nat (length bs)) true) ∧
    cstr_at w c = Some bs ∧ ∀ X, p ∉ X → not_in w X c.
Proof.
  intros Hr Hp. destruct (str_rep_get _ _ _ Hp) as (b & sz & Hs & Hc & _).
  exists (CBlk b 0), sz. split; [done|]. split; [done|]. intros X HX.
  eapply str_rep_not_in; eauto. apply Hr.
Qed.

Lemma str_escape_ok w p q bs s E :
  ready w → str_rep w p bs → str_rep w q s → p ≠ q →
  3 * Z.of_nat (length s) < STRING_MAX →
  wp (str_escape (Some p) (Some q))
    (λ r w', (r = 0 ∧ str_rep w' p (escape s)) ∧ sstep {[p]} w w') E w.
Proof.
  intros Hr Hp Hq Hne Hm. apply wp_func, wp_auto_str; [done|].
  intros l w1 Hl Hl1 S1.
  pose proof (str_rep_lt _ _ _ (proj1 Hr) Hp). pose proof (str_rep_lt _ _ _ (proj1 Hr) Hq).
  assert (str_rep w1 p bs) as Hp1 by (eapply sstep_rep; [apply Hr|done|set_solver|done]).
  assert (str_rep w1 q s) as Hq1 by (eapply sstep_rep; [apply Hr|done|set_solver|done]).
  apply wp_body. wp_next. wp_try_call (str_truncate_ok w1 p bs); [apply S1|].
  intros r w2 (-> & Hp2 & S2). simpl.
  assert (str_rep w2 q s) as Hq2 by (eapply sstep_rep; [apply S1|done|set_solver|done]).
  assert (str_rep w2 l []) as Hl2 by (eapply sstep_rep; [apply S1|done|set_solver by lia|done]).
  destruct (str_rep_readable w2 q s) as (c & sz & Hs & Hc & Hnot); [apply S2|done|].
  wp_next. eapply wp_deref; [done|]. wp_next. cbn [str_len str_value]. apply wp_when.
  { intros Hz. assert (s = []) as -> by (destruct s; [done|simpl in Hz; lia]).
    apply wp_leave. simpl. split; [by eexists|]. split; [eapply sstep_mono; [|done]; set_solver|].
    intros w3 S3. split; [done|]. eapply sstep_rep; [apply S2|done|set_solver by lia|done]. }
  intros _. wp_next.
  eapply wp_conseq with (Q := λ _ w', str_rep w' l (escape s) ∧ sstep {[l]} w2 w').
  { eapply wp_loop with (n := length s)
      (I := λ n i w', 0 ≤ i ∧ Z.of_nat n = Z.of_nat (length s) - i ∧
        str_rep w' l (escape (take (Z.to_nat i) s)) ∧ sstep {[l]} w2 w').
    2: { split; [lia|]. split; [lia|]. split; [done|]. apply sstep_refl, S2. }
    2: lia.
    intros n i w' (Hi & Hn & Hrep & Sw). destruct (Z.ltb_spec i (Z.of_nat (length s))).
    - wp_next. eapply wp_load; [eapply sstep_cstr; [exact Sw|apply Hnot; set_solver by lia|done]|lia|].
      intros a Ha. rewrite lookup_app_l in Ha by lia. wp_next.
      pose proof (length_escape (take (Z.to_nat i) s)) as Hlen. rewrite length_take in Hlen.
      wp_call escape_step_ok; [apply Sw| |lia|].
      { apply str_rep_nonul in Hq. by eapply Forall_lookup_1 in Hq. }
      intros _ w3 (Hl3 & S3). apply wp_ret. exists (n - 1)%nat. split; [lia|].
      split; [lia|]. split; [lia|]. split; [|by eapply sstep_trans].
      replace (Z.to_nat (i + 1)) with (S (Z.to_nat i)) by lia.
      by rewrite (take_S_r _ _ _ Ha), escape_snoc.
    - apply wp_ret. rewrite take_ge in Hrep by lia. done. }
  intros _ w3 (Hl3 & S3).
  assert (str_rep w3 p []) as Hp3 by (eapply sstep_rep; [apply S2|done|set_solver by lia|done]).
  wp_try_call (str_move_ok w3 p l); [apply S3|lia|].
  intros r w4 (-> & Hp4 & Hl4 & S4). simpl. split; [by eexists|]. split.
  - eapply sstep_trans; [eapply sstep_mono; [|exact S2]; set_solver|].
    eapply sstep_trans; (eapply sstep_mono; [|done]; set_solver).
  - intros w5 S5. split; [done|]. eapply sstep_rep; [apply S4|done|set_solver by lia|done].
Qed.

(** * str_unescape *)

(** What the decoder reads at position [i] of an encoded text. *)
Lemma lookup_mid (a b : bytes) : (a ++ b) !! length a = head b.
Proof. rewrite lookup_app_r, Nat.sub_diag by lia. by destruct b. Qed.

Lemma cstr_at_add w c a b :
  cstr_at w c = Some (a ++ b) → nonul a →
  cstr_at w (ptr_add c (Z.of_nat (length a))) = Some b.
Proof.
  intros Hc Ha. pose proof (cstr_at_nonul _ _ _ Hc) as [_ Hb]%nonul_app.
  apply cstr_at_cells in Hc as [junk Hc].
  assert (cells_at w (ptr_add c (Z.of_nat (length a))) = Some (cells_of b ++ junk)) as Heq.
  2: { unfold cstr_at. rewrite Heq. simpl. by apply scan_cells_of. }
  assert (cells_of (a ++ b) ++ junk = (Some <$> a) ++ cells_of b ++ junk) as Hs.
  { unfold cells_of. by rewrite fmap_app, <- !app_assoc. }
  rewrite Hs in Hc. destruct c as [k o|t o]; simpl in *; destruct (Z.ltb_spec o 0); try done;
    rewrite (proj2 (Z.ltb_ge _ _)) by lia.
  - destruct (blocks w !! k); simpl in *; [|done]. injection Hc as Hc.
    rewrite Z2Nat.inj_add, Nat2Z.id, <- drop_drop, Hc by lia.
    by rewrite drop_app_length' by (by rewrite length_fmap).
  - injection Hc as Hc. rewrite Z2Nat.inj_add, Nat2Z.id, <- drop_drop, Hc by lia.
    by rewrite drop_app_length' by (by rewrite length_fmap).
Qed.

(** One iteration of the decoder, at the encoding of [c]. *)
Definition unescape_step (v : cptr) (buf : ptr) (i : Z) : M (Z + unit) :=
  c ← load (Some v) i;
  if decide (c = NUL) then mret (inr tt) else
  code ← (if decide (c = "%"%char) then
            text ← c_str (Some (ptr_add v i));
            mret (sscanf_percent text)
          else mret None);
  match code with
  | Some code => try_ (str_putc buf code);; mret (inl (i + 3))
  | None => try_ (str_putc buf (int_of_char c));; mret (inl (i + 1))
  end.

Lemma unescape_step_ok w l v c done todo E :
  ready w → str_rep w l done → cstr_at w v = Some (escape (done ++ c :: todo)) →
  nonul (done ++ c :: todo) → Z.of_nat (length done) + 1 < STRING_MAX →
  wp (unescape_step v (Some l) (Z.of_nat (length (escape done))))
    (λ r w', r = inl (Z.of_nat (length (escape (done ++ [c])))) ∧
       str_rep w' l (done ++ [c]) ∧ sstep {[l]} w w') E w.
Proof.
  intros Hr Hl Hv Hn Hm. assert (c ≠ NUL) as Hc by
    (apply nonul_app in Hn as [_ [? _]%nonul_cons]; done).
  assert (nonul (escape done)) as Hd by (apply escape_nonul; by apply nonul_app in Hn as []).
  assert (escape (done ++ c :: todo) = escape done ++ escape1 c ++ escape todo) as He.
  { unfold escape. rewrite bind_app. done. }
  rewrite He in Hv. unfold unescape_step. wp_next. eapply wp_load; [done| |].
  { rewrite !length_app. lia. }
  intros a Ha. rewrite Nat2Z.id, <- !app_assoc, lookup_mid in Ha.
  rewrite escape_snoc, length_app. unfold escape1 in *. destruct (unreserved c) eqn:Hu; simpl in Ha.
  - injection Ha as <-. rewrite decide_False by done.
    rewrite decide_False by (apply unreserved_not in Hu as [? _]; done).
    wp_next. apply wp_ret. wp_next. wp_try_call str_putc_ok; [lia|].
    intros r w' (-> & H & Sw). rewrite char_of_int_of_char, decide_False in H by done.
    apply wp_ret. split; [f_equal; simpl; lia|done].
  - injection Ha as <-. rewrite decide_False, decide_True by done.
    wp_next. wp_next. eapply wp_c_str; [by apply cstr_at_add|]. apply wp_ret.
    rewrite percent_code_scan. wp_next. wp_try_call str_putc_ok; [lia|].
    intros r w' (-> & H & Sw). rewrite char_of_uchar, decide_False in H by done.
    apply wp_ret. split; [f_equal; unfold percent_code; simpl; lia|done].
Qed.

Lemma str_unescape_ok w p q bs s E :
  ready w → str_rep w p bs → str_rep w q (escape s) → nonul s → s ≠ [] → p ≠ q →
  Z.of_nat (length s) < STRING_MAX →
  wp (str_unescape (Some p) (Some q))
    (λ r w', (r = 0 ∧ str_rep w' p s) ∧ sstep {[p]} w w') E w.
Proof.
  intros Hr Hp Hq Hn Hs0 Hne Hm. apply wp_func, wp_auto_str; [done|].
  intros l w1 Hl Hl1 S1.
  pose proof (str_rep_lt _ _ _ (proj1 Hr) Hp). pose proof (str_rep_lt _ _ _ (proj1 Hr) Hq).
  assert (str_rep w1 p bs) as Hp1 by (eapply sstep_rep; [apply Hr|done|set_solver|done]).
  assert (str_rep w1 q (escape s)) as Hq1 by (eapply sstep_rep; [apply Hr|done|set_solver|done]).
  destruct (str_rep_readable w1 q (escape s)) as (v & sz & Hs & Hc & Hnot); [apply S1|done|].
  apply wp_body. wp_next. eapply wp_deref; [done|]. wp_next. simpl.
  pose proof (length_escape s) as Hle. apply wp_when.
  { intros Hz. destruct s; [done|]. simpl in *. lia. }
  intros _. wp_next. apply wp_non_null. wp_next.
  destruct (cstr_at_cells _ _ _ Hc) as [junk Hcells]. eapply wp_cells; [done|]. wp_next.
  eapply wp_conseq with (Q := λ _ w', str_rep w' l s ∧ sstep {[l]} w1 w').
  { eapply wp_loop with (n := length s)
      (I := λ n i w', ∃ done todo, s = done ++ todo ∧ length todo = n ∧
        i = Z.of_nat (length (escape done)) ∧ str_rep w' l done ∧ sstep {[l]} w1 w').
    2: { exists [], s. split; [done|]. split; [done|]. split; [done|]. split; [done|].
         apply sstep_refl, S1. }
    2: { rewrite length_app, length_cells_of. lia. }
    intros n i w' (dn & todo & -> & <- & -> & Hrep & Sw).
    assert (cstr_at w' v = Some (escape (dn ++ todo))) as Hv.
    { eapply sstep_cstr; [exact Sw|apply Hnot; set_solver by lia|done]. }
    destruct todo as [|c todo].
    - rewrite app_nil_r in *. wp_next. eapply wp_load; [done|lia|].
      intros a Ha. rewrite Nat2Z.id, lookup_mid in Ha. injection Ha as <-.
      rewrite decide_True by done. by apply wp_ret.
    - eapply wp_conseq; [eapply (unescape_step_ok w' l v c dn todo); try done; [apply Sw|]|].
      { rewrite length_app in Hm. simpl in Hm. lia. }
      intros r w2 (-> & Hl2 & S2). exists (length todo). split; [simpl; lia|].
      exists (dn ++ [c]), todo. rewrite <- app_assoc. split; [done|]. split; [done|].
      split; [done|]. split; [done|by eapply sstep_trans]. }
  intros _ w3 (Hl3 & S3).
  assert (str_rep w3 p bs) as Hp3 by (eapply sstep_rep; [apply S1|done|set_solver by lia|done]).
  wp_try_call (str_move_ok w3 p l); [apply S3|lia|].
  intros r w4 (-> & Hp4 & Hl4 & S4). simpl. split; [by eexists|]. split.
  - eapply sstep_trans; (eapply sstep_mono; [|done]; set_solver).
  - intros w5 S5. split; [done|]. eapply sstep_rep; [apply S4|done|set_solver by lia|done].
Qed.
