(* ===== verification/RegexOps.v ===== *)
(** The regular-expression functions of string.c.

    regcomp(3) and regexec(3) belong to the system's C library and are the
    parameters of the class [Regex]; what they promise is stated as the laws of
    [RegexLaws]. *)

From S2P Require Import Prelude Types Machine StringOps.

Open Scope Z_scope.

Definition REG_EXTENDED : Z := 1.
Definition REG_ICASE : Z := 2.
Definition REG_NOSUB : Z := 8.
Definition REG_NOMATCH : Z := 1.

(** [regcomp] gives an error number or a compiled expression, [regexec] an
    error number or the offsets [rm_so] and [rm_eo] of the match and of its
    sub-expressions. *)
Class Regex := {
  regex_t : Type;
  regcomp : bytes → Z → Z + regex_t;
  re_nsub : regex_t → Z;
  regexec : regex_t → bytes → Z + list (Z * Z);
}.

(** A failure has an error number other than 0.  regexec(3) fills the array
    that it is given, here of 16 pairs; the first pair delimits the match
    inside the text. *)
Class RegexLaws `{Regex} := {
  regcomp_error p f e : regcomp p f = inl e → e ≠ 0;
  regexec_length r s m : regexec r s = inr m → length m = 16%nat;
  regexec_bounds r s so eo m : regexec r s = inr ((so, eo) :: m) →
    0 ≤ so ≤ eo ∧ eo ≤ Z.of_nat (length s);
}.

Section regex.
Context `{Regex}.

Definition regex_error (regex_errno : Z) : M Z := func (body throw_silent).

Definition regex_compile (pattern : option cptr) (cflags : Z) : M (Z * option regex_t) :=
  p ← c_str pattern;
  match regcomp p (Z.lor (Z.lor REG_EXTENDED REG_ICASE) cflags) with
  | inl i =>
      if i =? 0 then mret (0, None) else
      rc ← regex_error i; mret (rc, None)
  | inr preg => mret (0, Some preg)
  end.

Definition the_regex (preg : option regex_t) : M regex_t :=
  match preg with Some r => mret r | None => crash_with BadAccess end.

Definition regex_replace_all (preg : regex_t) (buf : ptr) (replacement : option cptr) :
    M Z := func (auto_str (λ result, body (
  b ← get_str buf;
  text ← c_str (str_value b);
  match regexec preg text with
  | inl i =>
      if i =? REG_NOMATCH then return_ 0
      else r ← regex_error i; return_ r
  | inr pmatch =>
      match pmatch with
      | [] => crash_with BadAccess
      | (rm_so, rm_eo) :: _ =>
          try_ (str_ncpy result (str_value b) (size_t rm_so));;
          try_ (str_cat result replacement);;
          b ← get_str buf;
          v ← non_null (str_value b);
          try_ (str_cat result (Some (ptr_add v (size_t rm_eo))));;
          try_ (str_move buf result)
      end
  end))).

Definition str_match_regex (src : ptr) (pattern : option cptr) : M (Z * option bool) :=
  '(rc, preg) ← regex_compile pattern REG_NOSUB;
  if rc <? 0 then mret (-1, None) else
  preg ← the_regex preg;
  s ← get_str src;
  text ← c_str (str_value s);
  match regexec preg text with
  | inl i =>
      if i =? REG_NOMATCH then mret (0, Some false)
      else _ ← regex_error i; mret (-1, None)
  | inr _ => mret (0, Some true)
  end.

Definition str_subst_regex (src : ptr) (pattern replacement : option cptr) : M Z :=
  func (body (
    '(i, preg) ← regex_compile pattern 0;
    when (i <? 0) (_ ← regex_error i; throw "error compiling regular expression");;
    preg ← the_regex preg;
    try_ (regex_replace_all preg src replacement);;
    s ← get_str src;
    n ← strlen (str_value s);
    mod_str src (set_str_len n))).

(** [for (i = 1; i <= re_nsub; i++)]: the sub-expression [i] goes to the next
    variadic argument. *)
Fixpoint copy_groups (n : nat) (src : ptr) (i : nat) (pmatch : list (Z * Z))
    (args : list ptr) : M unit :=
  match n with
  | O => mret tt
  | S n' =>
      match args, pmatch !! i with
      | buf :: args', Some (rm_so, rm_eo) =>
          s ← get_str src;
          v ← non_null (str_value s);
          try_ (str_ncpy buf (Some (ptr_add v rm_so)) (size_t (size_t rm_eo - size_t rm_so)));;
          copy_groups n' src (S i) pmatch args'
      | _, _ => crash_with BadAccess
      end
  end.

Definition str_str_regex (src : ptr) (pattern : option cptr) (args : list ptr) : M Z :=
  func (body (
    '(i, preg) ← regex_compile pattern 0;
    when (negb (i =? 0)) (r ← regex_error i; return_ r);;
    preg ← the_regex preg;
    when (16 <? re_nsub preg) (throw "too many sub-expressions");;
    s ← get_str src;
    text ← c_str (str_value s);
    match regexec preg text with
    | inl i =>
        if i =? REG_NOMATCH then return_ (-1) else r ← regex_error i; return_ r
    | inr pmatch => copy_groups (Z.to_nat (re_nsub preg)) src 1 pmatch args
    end)).

End regex.
