(* ===== verification/RegexFacts.v ===== *)
(** Specifications of the functions on regular expressions, from the laws of
    regcomp(3) and regexec(3). *)

From S2P Require Import Prelude Types Machine Wp StringOps StringFacts StringMore EscapeFacts RegexOps.

Open Scope Z_scope.

(** A text with the part between two offsets replaced. *)
Definition replaced (text repl : bytes) (so eo : Z) : bytes :=
  take (Z.to_nat so) text ++ repl ++ drop (Z.to_nat eo) text.

Section regex.
Context `{RegexLaws}.

(** The flags that the library adds to all patterns. *)
Definition nc_flags (cflags : Z) : Z := Z.lor (Z.lor REG_EXTENDED REG_ICASE) cflags.

Lemma regex_error_ok w z (Q : Z → world → Prop) E : Q (-1) w → wp (regex_error z) Q E w.
Proof. intros HQ. apply wp_func_body. by apply wp_leave. Qed.

Lemma regex_compile_ok w pat cflags E :
  nonul pat →
  wp (regex_compile (Some (CLit pat 0)) cflags) (λ '(rc, preg) w', w' = w ∧
    match regcomp pat (nc_flags cflags) with
    | inl _ => rc = -1 ∧ preg = None
    | inr r => rc = 0 ∧ preg = Some r
    end) E w.
Proof.
  intros Hp. wp_next. eapply wp_c_str; [by apply cstr_at_lit|]. unfold nc_flags.
  destruct (regcomp pat _) as [e|r] eqn:He; [|done].
  rewrite (proj2 (Z.eqb_neq _ _)) by by eapply regcomp_error.
  wp_next. by apply regex_error_ok.
Qed.

Lemma str_match_regex_ok w q text pat E :
  str_rep w q text → nonul pat →
  wp (str_match_regex (Some q) (Some (CLit pat 0))) (λ r w', w' = w ∧ r =
    match regcomp pat (nc_flags REG_NOSUB) with
    | inl _ => (-1, None)
    | inr preg =>
        match regexec preg text with
        | inr _ => (0, Some true)
        | inl e => if e =? REG_NOMATCH then (0, Some false) else (-1, None)
        end
    end) E w.
Proof.
  intros Hq Hp. destruct (str_rep_get _ _ _ Hq) as (b & sz & Hs & Hc & _).
  wp_next. eapply wp_conseq; [by apply regex_compile_ok|]. intros [rc preg] w' [-> Hr].
  destruct (regcomp pat _) as [e|r]; destruct Hr as [-> ->]; [done|]. cbn -[Z.ltb].
  wp_next. apply wp_ret. wp_next. eapply wp_deref; [exact Hs|]. wp_next. eapply wp_c_str; [exact Hc|].
  destruct (regexec r text) as [e|m]; [|done]. destruct (e =? REG_NOMATCH); [done|].
  wp_next. by apply regex_error_ok.
Qed.

Lemma regex_replace_all_ok w q text preg repl so eo m E :
  ready w → str_rep w q text → nonul repl → regexec preg text = inr ((so, eo) :: m) →
  Z.of_nat (length (replaced text repl so eo)) < STRING_MAX →
  wp (regex_replace_all preg (Some q) (Some (CLit repl 0)))
    (λ r w', r = 0 ∧ str_rep w' q (replaced text repl so eo) ∧ sstep {[q]} w w') E w.
Proof.
  intros Hr Hq Hn Hx Hmax. destruct (regexec_bounds _ _ _ _ _ Hx) as [Hso Heo]. unfold replaced in *.
  assert (Z.of_nat (length text) ≤ STRING_MAX) as Hlt by (by destruct Hq as (? & ? & ? & ? & ?)).
  rewrite !length_app, length_take, length_drop in Hmax. unfold STRING_MAX in *.
  pose proof (str_rep_nonul _ _ _ Hq) as Hnt.
  apply wp_func. eapply wp_conseq; [apply (wp_auto_str w {[q]} _ (λ r w', r = 0 ∧
    str_rep w' q (take (Z.to_nat so) text ++ repl ++ drop (Z.to_nat eo) text))); [done|]|by intros r w' [[-> ?] ?]].
  intros l w1 Hl Hl1 S1. pose proof (sstep_ready _ _ _ S1) as R1.
  assert (q ≠ l) as Hql by (pose proof (str_rep_lt _ _ _ (proj1 Hr) Hq); intros ->; lia).
  assert (str_rep w1 q text) as Hq1 by (eapply sstep_rep; [apply Hr|exact S1|apply not_elem_of_empty|exact Hq]).
  destruct (str_rep_get _ _ _ Hq1) as (b & sz & Hs & Hc & _).
  apply wp_body. wp_next. eapply wp_deref; [exact Hs|]. cbn [str_value]. wp_next. eapply wp_c_str; [exact Hc|].
  rewrite Hx. unfold size_t. rewrite !(Z.mod_small _ (2 ^ 64)) by lia.
  wp_next. apply wp_try. eapply wp_conseq.
  { eapply (str_ncpy_ok w1 l [] _ text); [done|done|exact Hc| |lia|unfold STRING_MAX; lia].
    eapply str_rep_not_in; [apply R1|exact Hq1|by apply not_elem_of_singleton_2|exact Hs]. }
  intros r w2 (-> & Hl2 & S2). cbn [Z.eqb]. pose proof (sstep_ready _ _ _ S2) as R2.
  wp_next. apply wp_try. eapply wp_conseq.
  { apply (str_cat_ok w2 l (take (Z.to_nat so) text) (CLit repl 0) repl); [done|exact Hl2|by apply cstr_at_lit|done|].
    rewrite length_take. unfold STRING_MAX. lia. }
  intros r w3 (-> & Hl3 & S3). cbn [Z.eqb]. pose proof (sstep_ready _ _ _ S3) as R3.
  pose proof (sstep_trans _ _ _ _ S2 S3) as S13.
  assert (str_rep w3 q text) as Hq3
    by (eapply sstep_rep; [apply R1|exact S13|by apply not_elem_of_singleton_2|exact Hq1]).
  destruct (str_rep_get _ _ _ Hq3) as (b3 & sz3 & Hs3 & Hc3 & _).
  wp_next. eapply wp_deref; [exact Hs3|]. cbn [str_value]. wp_next. apply wp_non_null.
  rewrite <- (take_drop (Z.to_nat eo) text) in Hc3.
  apply cstr_at_add in Hc3; [|by apply nonul_take]. rewrite length_take, Nat.min_l, Z2Nat.id in Hc3 by lia.
  wp_next. apply wp_try. eapply wp_conseq.
  { eapply (str_cat_ok w3 l _ _ (drop (Z.to_nat eo) text)); [done|exact Hl3|exact Hc3| |].
    - change (not_in w3 {[l]} (CBlk b3 0)).
      eapply str_rep_not_in; [apply R3|exact Hq3|by apply not_elem_of_singleton_2|exact Hs3].
    - rewrite !length_app, length_take, length_drop. unfold STRING_MAX. lia. }
  intros r w4 (-> & Hl4 & S4). cbn [Z.eqb]. pose proof (sstep_ready _ _ _ S4) as R4.
  rewrite <- app_assoc in Hl4. pose proof (sstep_trans _ _ _ _ S13 S4) as S14.
  apply wp_try. eapply wp_conseq.
  { apply (str_move_ok w4 q l text); [done| |exact Hl4|done].
    eapply sstep_rep; [apply R1|exact S14|by apply not_elem_of_singleton_2|exact Hq1]. }
  intros r w5 (-> & Hq5 & Hl5 & S5). cbn [Z.eqb]. split; [by eexists|]. split.
  - eapply sstep_trans; [eapply sstep_mono; [apply union_subseteq_l|exact S14]|].
    eapply sstep_mono; [|exact S5]. by rewrite (union_comm_L {[l]}).
  - intros w6 S6. split; [done|].
    eapply sstep_rep; [apply (sstep_ready _ _ _ S5)|exact S6|by apply not_elem_of_singleton_2|exact Hq5].
Qed.

(** Without a match nothing is changed. *)
Lemma regex_replace_none_ok w q text preg c e E :
  ready w → str_rep w q text → regexec preg text = inl e →
  wp (regex_replace_all preg (Some q) c)
    (λ r w', r = (if e =? REG_NOMATCH then 0 else -1) ∧ str_rep w' q text ∧ sstep ∅ w w') E w.
Proof.
  intros Hr Hq Hx. apply wp_func. eapply wp_conseq; [apply (wp_auto_str w ∅ _ (λ r w',
    r = (if e =? REG_NOMATCH then 0 else -1) ∧ str_rep w' q text)); [done|]|by intros r w' [[-> ?] ?]].
  intros l w1 Hl Hl1 S1. pose proof (sstep_ready _ _ _ S1) as R1.
  assert (q ≠ l) as Hql by (pose proof (str_rep_lt _ _ _ (proj1 Hr) Hq); intros ->; lia).
  assert (str_rep w1 q text) as Hq1 by (eapply sstep_rep; [apply Hr|exact S1|apply not_elem_of_empty|exact Hq]).
  destruct (str_rep_get _ _ _ Hq1) as (b & sz & Hs & Hc & _).
  apply wp_body. wp_next. eapply wp_deref; [exact Hs|]. cbn [str_value]. wp_next. eapply wp_c_str; [exact Hc|].
  rewrite Hx.
  assert (∀ z, (∃ bs, str_rep w1 l bs) ∧ sstep ({[l]} ∪ ∅) w1 w1 ∧
    (∀ w3, sstep {[l]} w1 w3 → z = z :> Z ∧ str_rep w3 q text)) as Hend.
  { intros z. split; [by eexists|]. split; [by apply sstep_refl|]. intros w3 S3. split; [done|].
    eapply sstep_rep; [apply R1|exact S3|by apply not_elem_of_singleton_2|exact Hq1]. }
  destruct (e =? REG_NOMATCH); [by apply wp_leave, (Hend 0)|].
  wp_next. apply regex_error_ok, wp_leave, (Hend (-1)).
Qed.

(** What [str_subst_regex] answers, and the text that it leaves. *)
Definition subst_outcome (pat text repl : bytes) : Z * bytes :=
  match regcomp pat (nc_flags 0) with
  | inl _ => (-1, text)
  | inr preg =>
      match regexec preg text with
      | inl e => (if e =? REG_NOMATCH then 0 else -1, text)
      | inr ((so, eo) :: _) => (0, replaced text repl so eo)
      | inr [] => (0, text)
      end
  end.

Lemma replaced_length text repl so eo : 0 ≤ so ≤ eo → eo ≤ Z.of_nat (length text) →
  (length (replaced text repl so eo) ≤ length text + length repl)%nat.
Proof. intros. unfold replaced. rewrite !length_app, length_take, length_drop. lia. Qed.

(** The length is stored once more at the end. *)
Lemma store_len_ok w q text (Q : unit → world → Prop) E :
  ready w → str_rep w q text →
  (∀ w', str_rep w' q text → sstep {[q]} w w' → Q tt w') →
  wp (s ← get_str (Some q); n ← strlen (str_value s); mod_str (Some q) (set_str_len n)) Q E w.
Proof.
  intros Hr Hq HQ. destruct (str_rep_get _ _ _ Hq) as (b0 & sz0 & Hs0 & Hc0 & _).
  destruct Hq as (b & junk & Hc & Hn & Hl). wp_next. eapply wp_get_str; [exact Hc|]. cbn [str_value].
  pose proof (proj1 Hc) as Hs. rewrite Hs0 in Hs. injection Hs as -> _.
  wp_next. eapply wp_strlen; [exact Hc0|]. eapply wp_set_len; [exact Hc|exact Hr|].
  intros w1 Hc1 S1. apply HQ; [|exact S1]. by eapply str_rep_of_cells.
Qed.

Lemma str_subst_regex_ok w q text pat repl E :
  ready w → str_rep w q text → nonul pat → nonul repl →
  Z.of_nat (length text + length repl) < STRING_MAX →
  wp (str_subst_regex (Some q) (Some (CLit pat 0)) (Some (CLit repl 0))) (λ z w', ∃ t,
    (z, t) = subst_outcome pat text repl ∧ str_rep w' q t ∧ sstep {[q]} w w') E w.
Proof.
  intros Hr Hq Hp Hn Hmax. unfold subst_outcome. apply wp_func_body.
  wp_next. eapply wp_conseq; [by apply regex_compile_ok|]. intros [rc preg] w' [-> Hc].
  destruct (regcomp pat _) as [e|r]; destruct Hc as [-> ->].
  { wp_next. cbn [when Z.ltb Z.compare]. wp_next. apply regex_error_ok, wp_throw.
    exists text. split; [done|]. split; [done|by apply sstep_refl]. }
  wp_next. apply wp_ret. wp_next. apply wp_ret. wp_next. apply wp_try.
  destruct (regexec r text) as [e|[|[so eo] m]] eqn:Hx.
  - eapply wp_conseq; [by apply regex_replace_none_ok|]. intros z w1 (-> & Hq1 & S1).
    apply (sstep_mono _ {[q]}) in S1; [|apply empty_subseteq].
    destruct (e =? REG_NOMATCH); cbn [Z.eqb]; [|by exists text].
    apply (store_len_ok w1 q text); [apply S1|done|]. intros w2 Hq2 S2. exists text.
    split; [done|]. split; [done|by eapply sstep_trans].
  - by apply regexec_length in Hx.
  - destruct (regexec_bounds _ _ _ _ _ Hx) as [Hso Heo].
    pose proof (replaced_length text repl so eo Hso Heo).
    eapply wp_conseq; [apply (regex_replace_all_ok w q text r repl so eo m); try done; lia|].
    intros z w1 (-> & Hq1 & S1). cbn [Z.eqb].
    eapply store_len_ok; [apply S1|exact Hq1|]. intros w2 Hq2 S2. eexists.
    split; [done|]. split; [done|by eapply sstep_trans].
Qed.

End regex.
