(* ===== verification/ListOps.v ===== *)
(** list.c, [list_next] of nc_list.h, and [str_split] of string.c: doubly
    linked lists of strings.

    A list is a header and entries of the store, linked by [next] and [prev]
    pointers, and every definition follows the pointer assignments of the
    source.  A traversal has as fuel the number of entries of the store: an
    acyclic chain has no more. *)

From S2P Require Import Prelude Types Machine StringOps.

Open Scope Z_scope.

Definition SORT_ASCENDING : Z := 0.
Definition SORT_DESCENDING : Z := 1.
Definition SORT_LEXICOGRAPHIC : Z := 0.
Definition SORT_NUMERIC : Z := 16.

Definition ptr_eqb (p q : ptr) : bool := bool_decide (p = q).
Definition is_null (p : ptr) : bool := ptr_eqb p None.
Arguments is_null : simpl never.

Definition ents_fuel : M nat := w ← get_world; mret (S (size (ents w))).

(** [for (cur = head; cur; cur = cur->next) { f(cur) }]; [f] answers [true]
    for [break]. *)
Definition for_each (head : ptr) (f : ptr → M bool) : M unit :=
  fuel ← ents_fuel;
  loop fuel (λ cur,
    if is_null cur then mret (inr tt) else
    stop ← f cur;
    if (stop : bool) then mret (inr tt) else
    e ← get_ent cur; mret (inl (ent_next e))) head.

(** * Construction and destruction *)

Definition list_new (dest : ptr) : M (Z * ptr) :=
  mem_calloc upd_lists (mk_list_t 0 None None) dest (λ l, mret (0, l)).

Definition list_entry_destroy (ent : ptr) : M Z := func (body (
  e ← get_ent ent;
  '(rc, v) ← str_destroy (ent_value e);
  mod_ent ent (set_ent_value v);;
  if rc =? 0 then free_obj ents upd_ents ent
  else throw_fatal "str_destroy() failed")).

Definition list_entry_append (dest n : ptr) : M Z := func (body (
  mod_ent n (set_ent_next None);;
  d ← get_list dest;
  mod_ent n (set_ent_prev (list_tail d));;
  when (negb (is_null (list_tail d))) (mod_ent (list_tail d) (set_ent_next n));;
  when (is_null (list_head d))
    (mod_list dest (λ l, mk_list_t (list_count l) n (list_tail l)));;
  mod_list dest (λ l, mk_list_t (size_t (list_count l + 1)) (list_head l) n))).

Definition list_truncate (lst : ptr) : M Z := func (body (
  l ← get_list lst;
  fuel ← ents_fuel;
  loop fuel (λ x,
    if is_null x then mret (inr tt) else
    e ← get_ent x;
    try_ (list_entry_destroy x);;
    mret (inl (ent_next e))) (list_head l);;
  mod_list lst (λ _, mk_list_t 0 None None))).

Definition list_destroy (dest : ptr) : M (Z * ptr) :=
  if is_null dest then mret (0, None) else
  rc ← list_truncate dest;
  if negb (rc =? 0) then mret (-1, dest) else
  free_obj lists upd_lists dest;;
  mret (0, None).

Definition auto_list : (ptr → M Z) → M Z := auto_ list_new list_destroy.

Definition list_entry_new (dest value : ptr) : M (Z * ptr) :=
  mem_calloc upd_ents (mk_list_entry_t None None None) dest (λ n,
    rc ← func (labels (
      e ← get_ent n;
      '(rc, v) ← str_new (ent_value e);
      mod_ent n (set_ent_value v);;
      when (negb (rc =? 0)) (throw "");;
      try_ (str_copy v value);;
      mod_ent n (set_ent_next None);;
      mod_ent n (set_ent_prev None))
      (_ ← list_entry_destroy n; mret tt) (mret tt));
    mret (rc, n)).

(** * Adding and removing elements *)

Definition list_push (lst item : ptr) : M Z := func (body (
  n ← try_out (list_entry_new None item);
  try_ (list_entry_append lst n))).

Definition list_unshift (dest value : ptr) : M Z := func (body (
  n ← try_out (list_entry_new None value);
  d ← get_list dest;
  (if negb (list_count d =? 0) then mod_ent n (set_ent_next (list_head d))
   else mod_list dest (λ l, mk_list_t (list_count l) (list_head l) n));;
  mod_list dest (λ l, mk_list_t (size_t (list_count l + 1)) n (list_tail l)))).

Definition list_entry_delete (lst ent : ptr) : M Z := func (body (
  e ← get_ent ent;
  when (negb (is_null (ent_next e))) (mod_ent (ent_next e) (set_ent_prev (ent_prev e)));;
  when (negb (is_null (ent_prev e))) (mod_ent (ent_prev e) (set_ent_next (ent_next e)));;
  l ← get_list lst;
  when (ptr_eqb (list_head l) ent)
    (mod_list lst (λ l, mk_list_t (list_count l) (ent_next e) (list_tail l)));;
  when (ptr_eqb (list_tail l) ent)
    (mod_list lst (λ l, mk_list_t (list_count l) (list_head l) (ent_prev e)));;
  mod_list lst (λ l, mk_list_t (size_t (list_count l - 1)) (list_head l) (list_tail l));;
  try_ (list_entry_destroy ent))).

(** [uint32_t count] counts the entries passed. *)
Definition list_entry_get (src : ptr) (offset : Z) : M (Z * ptr) :=
  l ← get_list src;
  if list_count l <=? offset then mret (-1, None) else
  fuel ← ents_fuel;
  loop fuel (λ '(cur, count),
    if is_null cur then throw_fatal "entry not found" else
    if count =? offset then mret (inr (0, cur)) else
    e ← get_ent cur;
    mret (inl (ent_next e, (count + 1) mod 2 ^ 32))) (list_head l, 0).

Definition list_get (dest src : ptr) (offset : Z) : M Z := func (body (
  ent ← try_out (list_entry_get src offset);
  e ← get_ent ent;
  try_ (str_copy dest (ent_value e)))).

Definition list_pop (dest lst : ptr) : M Z := func (body (
  l ← get_list lst;
  when (is_null (list_tail l)) (throw "list is empty");;
  e ← get_ent (list_tail l);
  try_ (str_move dest (ent_value e));;
  l ← get_list lst;
  try_ (list_entry_delete lst (list_tail l)))).

Definition list_shift (dest lst : ptr) : M Z := func (body (
  l ← get_list lst;
  when (list_count l =? 0) throw_silent;;
  ent ← try_out (list_entry_get lst 0);
  e ← get_ent ent;
  try_ (str_move dest (ent_value e));;
  try_ (list_entry_delete lst ent))).

Definition list_delete (lst : ptr) (offset : Z) : M Z := func (body (
  l ← get_list lst;
  when (list_count l <? offset) (throw "invalid offset");;
  fuel ← ents_fuel;
  loop fuel (λ '(ent, n),
    if is_null ent then mret (inr tt) else
    if n =? offset then try_ (list_entry_delete lst ent);; mret (inr tt) else
    e ← get_ent ent;
    mret (inl (ent_next e, n + 1))) (list_head l, 0))).

Definition list_cat (dest : ptr) (value : option cptr) : M Z :=
  func (auto_str (λ str, body (
    try_ (str_cpy str value);;
    try_ (list_push dest str)))).

Definition list_putc (dest : ptr) (value : Z) : M Z :=
  func (auto_str (λ str, body (
    try_ (str_putc str value);;
    try_ (list_push dest str)))).

(** The variadic arguments before the sentinel. *)
Fixpoint cat_all (lst : ptr) (args : list cptr) : M unit :=
  match args with
  | [] => mret tt
  | cp :: rest => try_ (list_cat lst (Some cp));; cat_all lst rest
  end.

Definition list_from_char (lst : ptr) (args : list cptr) : M Z := func (body (
  try_ (list_truncate lst);;
  cat_all lst args)).

(** * Searching *)

Definition list_find_substr (lst : ptr) (substring : option cptr) : M Z := func (body (
  l ← get_list lst;
  fuel ← ents_fuel;
  found ← loop fuel (λ cur,
    if is_null cur then mret (inr false) else
    e ← get_ent cur;
    '(_, found) ← str_contains (ent_value e) substring;
    if (found : bool) then mret (inr true) else mret (inl (ent_next e))) (list_head l);
  when (negb found) throw_silent)).

Definition list_find (lst : ptr) (string : option cptr) : M (Z * bool) :=
  l ← get_list lst;
  fuel ← ents_fuel;
  loop fuel (λ cur,
    if is_null cur then mret (inr (0, false)) else
    e ← get_ent cur;
    rc ← str_cmp (ent_value e) string;
    if rc =? 0 then mret (inr (0, true)) else mret (inl (ent_next e))) (list_head l).

(** [list_next(cursor, list, cur)]: the new values of [*cursor] and [*cur]. *)
Definition list_next (cur : ptr) : M (Z * ptr * ptr) :=
  e ← get_ent cur;
  if is_null (ent_next e) then mret (-1, None, None) else
  n ← get_ent (ent_next e);
  mret (0, ent_value n, ent_next e).

(** The loop of [list_compare]: [s2] is the current argument, [args] those to
    come, [count] how many elements were fetched. *)
Fixpoint compare_loop (lst s1 : ptr) (count : Z) (s2 : cptr) (args : list cptr) : M Z :=
  rc ← str_cmp s1 (Some s2);
  when (negb (rc =? 0)) (return_ (-1));;
  match args with
  | [] => mret count
  | s2' :: rest =>
      try_ (list_get s1 lst count);;
      compare_loop lst s1 (count + 1) s2' rest
  end.

Definition list_compare (lst : ptr) (args : list cptr) : M Z :=
  func (auto_str (λ s1, body (
    l ← get_list lst;
    when (bool_decide (args = []) && negb (list_count l =? 0)) (return_ (-1));;
    try_ (list_get s1 lst 0);;
    count ← match args with
            | [] => mret 1
            | s2 :: rest => compare_loop lst s1 1 s2 rest
            end;
    when (negb (count =? list_count l)) (return_ (-1))))).

(** * Sorting *)

(** The comparison of one step; it reads [str1] and [str2], which are set once
    per pass. *)
Definition sort_compare (lexicographical : bool) (str1 str2 : ptr) : M Z :=
  if lexicographical then
    s1 ← get_str str1;
    s2 ← get_str str2;
    a ← c_str (str_value s1);
    b ← c_str (str_value s2);
    mret (strcmp a b)
  else
    i ← try_out (str_to_uint32 str1);
    j ← try_out (str_to_uint32 str2);
    match i, j with
    | Some i, Some j => mret (if j <? i then 1 else if i <? j then -1 else 0)
    | _, _ => mret 0
    end.

(** One pass over adjacent entries; the result tells if some were swapped. *)
Definition sort_pass (ascending lexicographical : bool) (head : ptr) : M bool :=
  h ← get_ent head;
  h2 ← get_ent (ent_next h);
  let str1 := ent_value h in
  let str2 := ent_value h2 in
  fuel ← ents_fuel;
  loop fuel (λ '(ent1, ent2, found),
    if is_null ent1 || is_null ent2 then mret (inr found) else
    rc ← sort_compare lexicographical str1 str2;
    found ← (if (ascending && (0 <? rc)) || (negb ascending && (rc <? 0)) then
               e1 ← get_ent ent1;
               e2 ← get_ent ent2;
               mod_ent ent1 (set_ent_value (ent_value e2));;
               mod_ent ent2 (set_ent_value (ent_value e1));;
               mret true
             else mret found);
    e1 ← get_ent ent1;
    e2 ← get_ent ent2;
    mret (inl (ent_next e1, ent_next e2, found))) (head, ent_next h, false).

Definition list_sort (lst : ptr) (flags : Z) : M Z := func (auto_str (λ _, body (
  let ascending := Z.land flags SORT_DESCENDING =? 0 in
  let lexicographical := Z.land flags SORT_NUMERIC =? 0 in
  l ← get_list lst;
  when (list_count l <? 2) (return_ 0);;
  loop (S (Z.to_nat (list_count l))) (λ _,
    l ← get_list lst;
    found ← sort_pass ascending lexicographical (list_head l);
    mret (if (found : bool) then inl tt else inr tt)) tt))).

(** * Whole lists *)

Definition str_join (dest src : ptr) (delimiter : Z) : M Z := func (body (
  try_ (str_truncate dest);;
  l ← get_list src;
  fuel ← ents_fuel;
  loop fuel (λ '(cur, i),
    if is_null cur then mret (inr tt) else
    e ← get_ent cur;
    try_ (str_append dest (ent_value e));;
    l ← get_list src;
    when (i + 1 <? list_count l) (try_ (str_putc dest delimiter));;
    e ← get_ent cur;
    mret (inl (ent_next e, i + 1))) (list_head l, 0);;
  when (delimiter =? int_of_char LF) (try_ (str_putc dest delimiter)))).

Definition list_copy (dest src : ptr) : M Z := func (body (
  try_ (list_truncate dest);;
  l ← get_list src;
  for_each (list_head l) (λ cur,
    e ← get_ent cur;
    try_ (list_push dest (ent_value e));;
    mret false))).

Definition list_merge (dest src : ptr) : M Z := func (body (
  d ← get_list dest;
  s ← get_list src;
  (if list_count d =? 0 then
     mod_list dest (λ l, mk_list_t (list_count l) (list_head s) (list_tail l))
   else mod_ent (list_tail d) (set_ent_next (list_head s)));;
  s ← get_list src;
  mod_list dest (λ l,
    mk_list_t (size_t (list_count l + list_count s)) (list_head l) (list_tail s));;
  mod_list src (λ _, mk_list_t 0 None None))).

Definition list_move (dest src : ptr) : M Z := func (body (
  try_ (list_truncate dest);;
  s ← get_list src;
  mod_list dest (λ _, mk_list_t (list_count s) (list_head s) (list_tail s));;
  mod_list src (λ _, mk_list_t 0 None None))).

Definition list_reverse (lst : ptr) : M Z := func (body (
  l ← get_list lst;
  mod_list lst (λ l, mk_list_t (list_count l) (list_tail l) (list_head l));;
  for_each (list_tail l) (λ p,
    e ← get_ent p;
    mod_ent p (set_ent_prev (ent_next e));;
    mod_ent p (set_ent_next (ent_prev e));;
    mret false))).

Definition list_write (fd : Z) (lst : ptr) (eol : option cptr) : M Z := func (body (
  len ← strlen eol;
  l ← get_list lst;
  for_each (list_head l) (λ cur,
    e ← get_ent cur;
    s ← get_str (ent_value e);
    text ← read_cells (str_value s) (str_len s);
    r ← syscall "write" [AInt fd; AStr (omap id text)];
    when (sys_ret r <? 0) (throw_errno "write(2)");;
    nl ← c_str eol;
    r ← syscall "write" [AInt fd; AStr nl];
    when (sys_ret r <? 0) (throw_errno "write(2)");;
    mret false))).

(** * Splitting a string *)

(** The length of the part of [s] before the first character of [delim]. *)
Fixpoint span_not (delim s : bytes) : nat :=
  match s with
  | c :: r => if decide (c ∈ delim) then O else S (span_not delim r)
  | [] => O
  end.

(** strsep(3): the token, and where the next one starts. *)
Definition strsep (cp : option cptr) (delim : bytes) :
    M (option cptr * option cptr) :=
  match cp with
  | None => mret (None, None)
  | Some c =>
      s ← c_str (Some c);
      let n := span_not delim s in
      if decide (n < length s)%nat then
        memset1 (Some c) (Z.of_nat n) NUL;;
        mret (Some c, Some (ptr_add c (Z.of_nat n + 1)))
      else mret (Some c, None)
  end.

Definition str_split (dest src : ptr) (delimiter : Z) : M Z :=
  func (auto_str (λ buf, auto_str (λ src_copy, auto_str (λ delim, body (
    s ← get_str src;
    when (str_len s =? 0) (return_ 0);;
    try_ (str_copy src_copy src);;
    try_ (str_sprintf delim (mret [char_of_int delimiter]));;
    try_ (list_truncate dest);;
    try_ (str_chomp src_copy);;
    sc ← get_str src_copy;
    text ← c_str (str_value sc);
    loop (S (S (length text))) (λ cp,
      d ← get_str delim;
      ds ← c_str (str_value d);
      '(tok, cp') ← strsep cp ds;
      match tok with
      | None => mret (inr tt)
      | Some tok =>
          try_ (list_cat dest (Some tok));;
          when (delimiter =? int_of_char LF) (
            l ← get_list dest;
            e ← get_ent (list_tail l);
            try_ (str_chomp (ent_value e)));;
          mret (inl cp')
      end) (str_value sc)))))).

(** * Serialization *)

Definition list_serialize (dest src : ptr) : M Z := func (auto_str (λ buf, body (
  try_ (str_truncate dest);;
  l ← get_list src;
  fuel ← ents_fuel;
  loop fuel (λ '(cur, i),
    if is_null cur then mret (inr tt) else
    e ← get_ent cur;
    try_ (str_escape buf (ent_value e));;
    when (negb (i =? 0)) (try_ (str_putc dest (int_of_char " ")));;
    try_ (str_append dest buf);;
    e ← get_ent cur;
    mret (inl (ent_next e, i + 1))) (list_head l, 0)))).

Definition list_deserialize (dest src : ptr) : M Z :=
  func (auto_list (λ tok, auto_str (λ buf, body (
    try_ (list_truncate dest);;
    try_ (str_split tok src (int_of_char " "));;
    l ← get_list tok;
    for_each (list_head l) (λ cur,
      e ← get_ent cur;
      try_ (str_unescape buf (ent_value e));;
      try_ (list_push dest buf);;
      mret false))))).

(** * Printing *)

Definition list_print (lst : ptr) : M Z := func (body (
  l ← get_list lst;
  _ ← syscall "printf" [AInt (list_count l)];
  for_each (list_head l) (λ ent,
    e ← get_ent ent;
    s ← get_str (ent_value e);
    text ← c_str (str_value s);
    _ ← syscall "printf" [AStr text];
    mret false);;
  _ ← syscall "printf" []; mret tt)).
