(* ===== verification/HashOps.v ===== *)
(** hash.c: hash tables of strings, as 256 lists in which keys and values
    alternate. *)

From S2P Require Import Prelude Types Machine StringOps RegexOps ListOps.

Open Scope Z_scope.

(** The exclusive or of the characters, in a [uint8_t]. *)
Definition hash_function (key : option cptr) : M Z :=
  k ← c_str key;
  mret (foldl (λ x c, Z.lxor x (int_of_char c) mod 256) 0 k).

(** [hash->bucket[slot]] *)
Definition bucket_at (h : hash_t) (slot : Z) : M ptr :=
  match hash_bucket h !! Z.to_nat slot with
  | Some b => mret b
  | None => crash_with BadAccess
  end.

Definition set_bucket (hash : ptr) (slot : Z) (b : ptr) : M unit :=
  mod_hash hash (λ h, mk_hash_t (<[Z.to_nat slot := b]> (hash_bucket h)) (hash_count h)).

(** The traversal that [hash_entry_search] and [hash_set] share: the first
    entry, key or value, whose text is [key]. *)
Definition bucket_search (b : ptr) (key : option cptr) : M ptr :=
  l ← get_list b;
  fuel ← ents_fuel;
  loop fuel (λ cur,
    if is_null cur then mret (inr None) else
    e ← get_ent cur;
    rc ← str_cmp (ent_value e) key;
    if rc =? 0 then mret (inr cur) else mret (inl (ent_next e))) (list_head l).

Definition hash_entry_search (hash : ptr) (key : option cptr) : M (Z * ptr * ptr) :=
  slot ← hash_function key;
  h ← get_hash hash;
  b ← bucket_at h slot;
  if is_null b then mret (-1, None, None) else
  ent ← bucket_search b key;
  if is_null ent then mret (-1, None, None) else mret (0, b, ent).

Definition hash_delete (hash : ptr) (key : option cptr) : M Z := func (body (
  '(rc, bucket, ent) ← hash_entry_search hash key;
  if rc =? 0 then
    e ← get_ent ent;
    try_ (list_entry_delete bucket (ent_next e));;
    try_ (list_entry_delete bucket ent);;
    mod_hash hash (λ h, mk_hash_t (hash_bucket h) (size_t (hash_count h - 1)))
  else throw_silent)).

Definition hash_get (dest hash : ptr) (key : option cptr) : M Z := func (body (
  '(rc, bucket, ent) ← hash_entry_search hash key;
  if rc =? 0 then
    e ← get_ent ent;
    v ← get_ent (ent_next e);
    try_ (str_copy dest (ent_value v))
  else throw_silent)).

Definition hash_set (hash : ptr) (key : option cptr) (value : ptr) : M Z :=
  func (local_str EMPTY_STRING (λ str, body (
    slot ← hash_function key;
    h ← get_hash hash;
    b ← bucket_at h slot;
    when (is_null b) (
      '(rc, b') ← list_new b;
      set_bucket hash slot b';;
      when (negb (rc =? 0)) (throw ""));;
    h ← get_hash hash;
    b ← bucket_at h slot;
    cur ← bucket_search b key;
    if negb (is_null cur) then
      e ← get_ent cur;
      v ← get_ent (ent_next e);
      try_ (str_copy (ent_value v) value);;
      return_ 0
    else
      try_ (str_alias str key);;
      try_ (list_push b str);;
      rc ← list_push b value;
      when (rc <? 0) (
        l ← get_list b;
        try_ (list_entry_delete b (list_tail l));;
        throw "error inserting a new entry into the hash table");;
      mod_hash hash (λ h, mk_hash_t (hash_bucket h) (size_t (hash_count h + 1)))))).

Definition hash_new (dest : ptr) : M (Z * ptr) :=
  mem_calloc upd_hashes (mk_hash_t (replicate 256 None) 0) dest (λ h, mret (0, h)).

(** [for (i = 0; i < 256; i++) f(i)] *)
Definition for_buckets (f : Z → M unit) : M unit :=
  loop 257 (λ i, if i <? 256 then f i;; mret (inl (i + 1)) else mret (inr tt)) 0.

Definition hash_truncate (hash : ptr) : M Z := func (body (
  for_buckets (λ i,
    h ← get_hash hash;
    b ← bucket_at h i;
    when (negb (is_null b)) (try_ (list_truncate b)));;
  mod_hash hash (λ h, mk_hash_t (hash_bucket h) 0))).

Definition hash_destroy (hash_ref : ptr) : M (Z * ptr) :=
  rc ← func (body (for_buckets (λ i,
    h ← get_hash hash_ref;
    b ← bucket_at h i;
    when (negb (is_null b)) (
      '(rc, b') ← list_destroy b;
      set_bucket hash_ref i b';;
      when (negb (rc =? 0)) (throw "")))));
  if negb (rc =? 0) then mret (rc, hash_ref) else
  free_obj hashes upd_hashes hash_ref;;
  mret (0, None).

Definition hash_copy (dest src : ptr) : M Z := func (body (
  mod_hash dest (λ h, mk_hash_t (replicate 256 None) (hash_count h));;
  for_buckets (λ i,
    s ← get_hash src;
    sb ← bucket_at s i;
    when (negb (is_null sb)) (
      d ← get_hash dest;
      db ← bucket_at d i;
      try_ (list_copy db sb)));;
  s ← get_hash src;
  mod_hash dest (λ h, mk_hash_t (hash_bucket h) (hash_count s)))).

(** The traversal of [hash_get_keys] and [hash_get_values]: every second entry
    of every bucket, with the entry after it. *)
Definition for_pairs (hash : ptr) (f : list_entry_t → list_entry_t → M unit) : M unit :=
  for_buckets (λ i,
    h ← get_hash hash;
    b ← bucket_at h i;
    when (negb (is_null b)) (
      l ← get_list b;
      fuel ← ents_fuel;
      loop fuel (λ ent,
        if is_null ent then mret (inr tt) else
        e ← get_ent ent;
        v ← get_ent (ent_next e);
        f e v;;
        mret (inl (ent_next v))) (list_head l))).

Definition hash_get_keys (dest hash : ptr) : M Z := func (body (
  try_ (list_truncate dest);;
  for_pairs hash (λ e v, try_ (list_push dest (ent_value e))))).

Definition hash_get_values (dest hash : ptr) : M Z := func (body (
  try_ (list_truncate dest);;
  for_pairs hash (λ e v, try_ (list_push dest (ent_value v))))).

(** The text goes to the log. *)
Definition hash_print (hash : ptr) : M Z :=
  func (auto_list (λ keys, auto_str (λ key, auto_str (λ item, body (
    try_ (hash_get_keys keys hash);;
    l ← get_list keys;
    loop (S (Z.to_nat (list_count l))) (λ i,
      l ← get_list keys;
      if negb (i <? list_count l) then mret (inr tt) else
      try_ (list_get key keys i);;
      k ← get_str key;
      try_ (hash_get item hash (str_value k));;
      mret (inl (i + 1))) 0))))).

(** The result is 1 or 0; nothing is written when the call fails. *)
Definition hash_key_exists (hash : ptr) (key : option cptr) : M (Z * option bool) :=
  '(rc, dest) ← str_new None;
  if negb (rc =? 0) then mret (-1, None) else
  r ← hash_get dest hash key;
  let result := negb (r <? 0) in
  '(rc, _) ← str_destroy dest;
  if negb (rc =? 0) then mret (-1, Some result) else mret (0, Some result).

Definition hash_value_exists (hash : ptr) (value : option cptr) : M (Z * option bool) :=
  '(rc, values) ← list_new None;
  if negb (rc =? 0) then mret (-1, None) else
  r ← hash_get_values values hash;
  if negb (r =? 0) then mret (-1, None) else
  '(_, result) ← list_find values value;
  '(rc, _) ← list_destroy values;
  if negb (rc =? 0) then mret (-1, Some result) else mret (0, Some result).

(** The variadic arguments of [hash_from_char] up to the sentinel: the source
    reads the first value before the loop, and again in it. *)
Fixpoint from_char_loop (hash str : ptr) (key : cptr) (args : list cptr) : M unit :=
  match args with
  | [] => throw "insufficient arguments"
  | val :: rest =>
      try_ (str_alias str (Some val));;
      try_ (hash_set hash (Some key) str);;
      match rest with
      | [] => mret tt
      | key' :: rest' => from_char_loop hash str key' rest'
      end
  end.

Definition hash_from_char (hash : ptr) (args : list cptr) : M Z :=
  func (local_str EMPTY_STRING (λ str, body (
    try_ (hash_truncate hash);;
    match args with
    | [] => throw "insufficient arguments"
    | [_] => throw "insufficient arguments"
    | key :: val :: rest => from_char_loop hash str key rest
    end))).

Definition hash_from_list (hash lst : ptr) : M Z := func (body (
  l ← get_list lst;
  when (negb (list_count l mod 2 =? 0)) (throw "odd number of elements in list");;
  fuel ← ents_fuel;
  loop fuel (λ cur,
    if is_null cur then mret (inr tt) else
    e ← get_ent cur;
    let key := ent_value e in
    let cur := ent_next e in
    when (is_null key || is_null cur) (throw "list error");;
    e ← get_ent cur;
    let val := ent_value e in
    when (is_null val) (throw "list error");;
    k ← get_str key;
    try_ (hash_set hash (str_value k) val);;
    e ← get_ent cur;
    mret (inl (ent_next e))) (list_head l))).

(** * Serialization *)

Section serialize.
Context `{Regex}.

Definition hash_serialize (str hash : ptr) : M Z :=
  func (auto_str (λ buf, auto_str (λ val, body (
    for_pairs hash (λ e v,
      k ← get_str (ent_value e);
      try_ (str_sprintf buf (a ← c_str (str_value k); mret (a ++ B ": ")));;
      d ← get_str (ent_value v);
      text ← c_str (str_value d);
      (if strchr text LF then
         try_ (str_copy val (ent_value v));;
         try_ (str_subst_regex val (Some (CLit [LF] 0)) (Some (CLit ["\"%char; LF] 0)));;
         try_ (str_append buf val)
       else try_ (str_append buf (ent_value v)));;
      try_ (str_putc buf (int_of_char LF));;
      try_ (str_append str buf)))))).

Definition hash_deserialize (hash str : ptr) : M Z :=
  func (auto_str (λ key, auto_str (λ val, auto_list (λ lines, body (
    try_ (str_split lines str (int_of_char LF));;
    l ← get_list lines;
    fuel ← ents_fuel;
    _ ← loop fuel (λ '(cur, multiline),
      if is_null cur then mret (inr tt) else
      e ← get_ent cur;
      let line := ent_value e in
      ln ← get_str line;
      multiline ← (if str_len ln =? 0 then mret (multiline : bool) else
        k ← get_str key;
        (if str_len k =? 0 then
           try_ (str_str_regex line (Some (CLit (B "([A-Za-z0-9._-]+): (.*)") 0)) [key; val])
         else try_ (str_append val line));;
        eol ← str_get_terminator val;
        c ← load eol 0;
        if decide (c = "\"%char) then
          try_ (str_set_terminator val (int_of_char LF));;
          mret true
        else
          when multiline (try_ (str_putc val (int_of_char LF)));;
          k ← get_str key;
          try_ (hash_set hash (str_value k) val);;
          try_ (str_truncate key);;
          try_ (str_truncate val);;
          mret false);
      e ← get_ent cur;
      mret (inl (ent_next e, multiline))) (list_head l, false);
    k ← get_str key;
    when (0 <? str_len k) (throw "parse error")))))).

End serialize.
