(* ===== verification/PasswdOps.v ===== *)
(** passwd.c: the lookups of users and groups, on a system that has
    getpwnam_r(3) and getpwuid_r(3), and the functions that replace these on
    a system that has not.

    A reply of these functions carries the entry in [sys_names] and [sys_id];
    an empty [sys_names] is a null result pointer. *)

From S2P Require Import Prelude Types Machine StringOps.

Open Scope Z_scope.

(** * Systems without the reentrant functions *)

(** The lookups under a lock.  The second result is [*pwbufp]; it is not null
    exactly when the first is 0. *)
Definition __getpw_r (key : bytes + Z) : M (Z * option sysret) :=
  _ ← syscall "pthread_mutex_lock" [];
  pwent ← match key with
          | inl name => syscall "getpwnam" [AStr name]
          | inr uid => syscall "getpwuid" [AInt uid]
          end;
  let none := bool_decide (sys_names pwent = []) in
  rc ← func (labels (when none throw_silent) (mret tt)
    (_ ← syscall "pthread_mutex_unlock" []; mret tt));
  mret (rc, if none then None else Some pwent).

Definition passwd_getpwnam (name : bytes) : M (Z * option sysret) := __getpw_r (inl name).
Definition passwd_getpwuid (uid : Z) : M (Z * option sysret) := __getpw_r (inr uid).

(** * Users *)

(** The first argument of the result is the return value, the second what is
    stored in [*uid], if anything. *)
Definition passwd_get_id_by_name (name : ptr) : M (Z * option Z) :=
  s ← get_str name;
  n ← c_str (str_value s);
  r ← syscall "getpwnam_r" [AStr n];
  if sys_ret r <? 0 then mret (-1, None) else
  match sys_names r with
  | [] => mret (-1, None)
  | _ :: _ => mret (0, Some (sys_id r))
  end.

Definition passwd_exists (name : ptr) : M (Z * bool) :=
  '(rc, _) ← passwd_get_id_by_name name;
  mret (0, rc =? 0).

Definition passwd_get_name_by_id (name : ptr) (uid : Z) : M Z := func (body (
  r ← syscall "getpwuid_r" [AInt uid];
  when (sys_ret r <? 0) (throw_errno "getpwuid_r(3)");;
  pw_name ← match sys_names r with n :: _ => mret n | [] => crash_with NullDeref end;
  try_ (str_cpy name (Some (CLit pw_name 0))))).

(** * Groups *)

(** [gid] is the value of [*gid] at the call; the result has the value after
    it. *)
Definition __group_get_gev (by_name : bool) (gid : Z) (name : ptr) : M (Z * Z) :=
  root ← str_cmp name (Some (CLit (B "root") 0));
  special ← (if root =? 0 then mret true else
    wheel ← str_cmp name (Some (CLit (B "wheel") 0)); mret (wheel =? 0));
  if (special : bool) then mret (0, 0) else
  r ← (if by_name then
         s ← get_str name;
         n ← c_str (str_value s);
         syscall "getgrnam_r" [AStr n]
       else syscall "getgrgid_r" [AInt gid]);
  if sys_ret r <? 0 then mret (-1, gid) else
  match sys_names r with
  | [] => mret (-1, gid)
  | gr_name :: _ =>
      if by_name then mret (0, sys_id r)
      else
        rc ← func (body (try_ (str_cpy name (Some (CLit gr_name 0)))));
        mret (rc, gid)
  end.

(** [gid] is not set by the caller. *)
Definition group_get_id_by_name (gid : Z) (name : ptr) : M (Z * Z) :=
  '(rc, gid') ← __group_get_gev true gid name;
  if rc <? 0 then mret (-1, gid') else mret (0, gid').

Definition group_get_name_by_id (name : ptr) (gid : Z) : M Z := func (body (
  '(rc, _) ← __group_get_gev false gid name;
  try_ (mret rc))).

Definition group_exists (name : ptr) : M (Z * bool) :=
  '(rc, _) ← group_get_id_by_name 0 name;
  mret (0, rc =? 0).
