(* ===== verification/FileOps.v ===== *)
(** file.c: files, directories and their attributes, over the system calls. *)

From S2P Require Import Prelude Types Machine StringOps RegexOps ListOps PasswdOps.

Open Scope Z_scope.

(** * Constants of the system headers *)

Definition O_RDONLY : Z := 0.
Definition O_WRONLY : Z := 1.
Definition O_CREAT : Z := 64.
Definition ENOENT : Z := 2.
Definition PATH_MAX : Z := 4096.
Definition F_UNLCK : Z := 2.
Definition F_SETLKW : Z := 7.
Definition GLOB_NOMATCH : Z := 3.
Definition no_id : Z := 2 ^ 32 - 1.   (* (uid_t) -1 *)

(** The file type bits of [st_mode]. *)
Definition S_IFMT (mode : Z) : Z := Z.land mode 61440.
Definition S_ISFIFO mode := S_IFMT mode =? 4096.
Definition S_ISCHR mode := S_IFMT mode =? 8192.
Definition S_ISDIR mode := S_IFMT mode =? 16384.
Definition S_ISBLK mode := S_IFMT mode =? 24576.
Definition S_ISREG mode := S_IFMT mode =? 32768.
Definition S_ISLNK mode := S_IFMT mode =? 40960.
Definition S_ISSOCK mode := S_IFMT mode =? 49152.

(** * Arguments of system calls *)

(** [path->value], as a C string. *)
Definition path_of (path : ptr) : M bytes := s ← get_str path; c_str (str_value s).

Definition stat (path : ptr) : M sysret := p ← path_of path; syscall "stat" [AStr p].

(** A call whose negative result is reported by [throw_errno]. *)
Definition checked (name : string) (args : list sysarg) : M unit :=
  r ← syscall name args;
  when (sys_ret r <? 0) (throw_errno name).

Definition str_empty (s : ptr) : M bool := st ← get_str s; mret (str_len st =? 0).

(** * File objects *)

Definition file_close (f : ptr) : M Z := func (body (
  o ← get_file f;
  when (file_fd o <? 0) (return_ 0);;
  checked "close" [AInt (file_fd o)];;
  mod_file f (set_file_fd (-1)))).

Definition file_destroy (file : ptr) : M (Z * ptr) :=
  match file with
  | None => mret (0, None)
  | Some _ =>
      o ← get_file file;
      when (0 <=? file_fd o) (_ ← file_close file; mret tt);;
      o ← get_file file;
      '(rc, p) ← str_destroy (file_path o);
      mod_file file (set_file_path p);;
      if negb (rc =? 0) then mret (-1, file) else
      free_obj files upd_files file;;
      mret (0, file)
  end.

Definition file_new (file : ptr) : M (Z * ptr) :=
  match file with
  | Some _ => mret (-1, file)
  | None =>
      f ← calloc_obj upd_files (mk_file_t 0 0 None zero_stat false);
      match f with
      | None => mret (-1, None)
      | Some _ =>
          mod_file f (set_file_fd (-1));;
          o ← get_file f;
          '(rc, p) ← str_new (file_path o);
          mod_file f (set_file_path p);;
          if negb (rc =? 0) then mret (-1, None) else mret (0, f)
      end
  end.

(** [file_t *f;] in a declaration list. *)
Definition auto_file : (ptr → M Z) → M Z := auto_ file_new file_destroy.

Definition file_open (file path : ptr) (flags mode : Z) : M Z := func (body (
  e ← str_empty path;
  when e (throw "tried to open a file with a zero-length pathname");;
  p ← path_of path;
  r ← syscall "open" [AStr p; AInt flags; AInt mode];
  mod_file file (set_file_fd (sys_ret r));;
  when (sys_ret r <? 0) (
    mod_file file (set_file_fd (-1));;
    throw_errno "open(2)");;
  mod_file file (set_file_flags flags);;
  o ← get_file file;
  try_ (str_copy (file_path o) path))).

(** The path points at a variable of the function itself. *)
Definition file_from_fd (fo : ptr) (fd : Z) : M Z := func (
  local_str EMPTY_STRING (λ empty, body (
    mod_file fo (λ _, mk_file_t 0 0 None zero_stat false);;
    mod_file fo (set_file_path empty);;
    mod_file fo (set_file_fd fd)))).

Definition file_lock (f : ptr) (lock_type : Z) : M Z := func (body (
  pid ← syscall "getpid" [];
  o ← get_file f;
  when (file_fd o <? 0) (throw "cannot lock an unopened file");;
  r ← syscall "fcntl" [AInt (file_fd o); AInt F_SETLKW; AInt lock_type; AInt (sys_ret pid)];
  when (sys_ret r <? 0) (throw_errno "fcntl(2)");;
  mod_file f (set_file_locked true))).

Definition file_unlock (f : ptr) : M Z := file_lock f F_UNLCK.

(** * Attributes *)

Definition file_chmod (path : ptr) (mode : Z) : M Z := func (body (
  p ← path_of path;
  checked "chmod" [AStr p; AInt mode])).

(** Nothing is stored in [*result] when the call fails. *)
Definition file_exists (path : ptr) : M (Z * option bool) :=
  r ← stat path;
  if sys_ret r <? 0 then
    e ← get_errno;
    if e =? ENOENT then mret (0, Some false) else mret (-1, None)
  else mret (0, Some true).

Definition ftext : bytes :=
  B "0123456789abcdefghijklmnopqrstuvwxyz./ABCDEFGHIKJLMNOPQRSTUVWXYZ-_:,".

Definition valid_pathname (path : option cptr) : M Z := func (body (
  when (bool_decide (path = None)) (throw "NULL input detected");;
  s ← c_str path;
  when (PATH_MAX <? Z.of_nat (length s)) (throw "invalid path length");;
  loop (S (length s)) (λ i,
    if i <? Z.of_nat (length s) then
      c ← load path i;
      when (negb (strchr ftext c)) (throw "invalid path");;
      mret (inl (i + 1))
    else mret (inr tt)) 0)).

Definition test_file_permissions (path : option cptr) (owner group mode : Z) : M Z :=
  func (body (
    rc ← valid_pathname path;
    when (rc <? 0) (throw "invalid filename");;
    p ← c_str path;
    r ← syscall "stat" [AStr p];
    when (sys_ret r <? 0) (throw "stat(2) failed");;
    let st := sys_stat r in
    when (negb (st_uid st =? owner)) (throw "owner does not match");;
    when (negb (st_gid st =? group)) (throw "group does not match");;
    when (negb (st_mode st =? mode)) (throw "mode does not match"))).

(** [id != NULL && str_len(id) > 0] *)
Definition given (id : ptr) : M bool :=
  if bool_decide (id = None) then mret false else e ← str_empty id; mret (negb e).

Definition file_chgrp (path group : ptr) : M Z := func (body (
  me ← syscall "getuid" [];
  g ← (if sys_ret me =? 0 then given group else mret false);
  when g (
    gid ← try_out (group_get_id_by_name 0 group);
    p ← path_of path;
    r ← syscall "chown" [AStr p; AInt no_id; AInt gid];
    when (sys_ret r <? 0) (throw_errno "chown(2)")))).

Definition file_chown (path owner group : ptr) : M Z := func (body (
  ex ← try_out (file_exists path);
  when (bool_decide (ex = Some false)) (throw "file does not exist");;
  me ← syscall "getuid" [];
  o ← (if sys_ret me =? 0 then given owner else mret false);
  when o (
    uid ← try_out (passwd_get_id_by_name owner);
    p ← path_of path;
    r ← syscall "chown" [AStr p; AInt (default 0 uid); AInt no_id];
    when (sys_ret r <? 0) (throw_errno "chown(2)"));;
  try_ (file_chgrp path group))).

Definition file_get_owner (dest path : ptr) : M Z := func (body (
  r ← stat path;
  when (sys_ret r <? 0) (throw "stat(2) failed");;
  try_ (passwd_get_name_by_id dest (st_uid (sys_stat r))))).

Definition file_get_group (dest path : ptr) : M Z := func (body (
  r ← stat path;
  when (sys_ret r <? 0) (throw "stat(2) failed");;
  try_ (group_get_name_by_id dest (st_gid (sys_stat r))))).

(** The getters store one field of [struct stat]. *)
Definition stat_field (path : ptr) (field : stat_buf → Z) : M (Z * option Z) :=
  r ← stat path;
  if sys_ret r <? 0 then mret (-1, None) else mret (0, Some (field (sys_stat r))).

Definition file_get_size (path : ptr) : M (Z * option Z) := stat_field path (λ st, size_t (st_size st)).
Definition file_get_mode (path : ptr) : M (Z * option Z) := stat_field path st_mode.
Definition file_get_mtime (path : ptr) : M (Z * option Z) := stat_field path st_mtime.

Definition file_mode_contains (path : ptr) (mask : Z) : M Z := func (body (
  r ← stat path;
  when (sys_ret r <? 0) (throw_errno "stat(2)");;
  when (negb (Z.land (st_mode (sys_stat r)) mask =? mask)) throw_silent)).

(** The chain of tests of [file_stat]. *)
Definition type_of_mode (mode : Z) : option file_type_t :=
  if S_ISREG mode then Some FILE_IS_REGULAR
  else if S_ISDIR mode then Some FILE_IS_DIRECTORY
  else if S_ISLNK mode then Some FILE_IS_SYMLINK
  else if S_ISCHR mode || S_ISBLK mode then Some FILE_IS_DEVICE
  else if S_ISFIFO mode then Some FILE_IS_FIFO
  else if S_ISSOCK mode then Some FILE_IS_SOCKET
  else None.

(** [memset(dest, 0, sizeof(dest))] clears the 8 bytes of a pointer: the owner
    number and the padding behind it.  The result has the new value of
    [*dest]. *)
Definition file_stat (dest : stat_t) (path : ptr) : M (Z * stat_t) :=
  r ← stat path;
  if sys_ret r <? 0 then
    e ← get_errno;
    if e =? ENOENT then
      mret (0, mk_stat_t 0 (stat_owner dest) (stat_gid dest) (stat_group dest)
                 (stat_size dest) (stat_mode dest) FILE_IS_NONEXISTENT)
    else mret (-1, dest)
  else
    let st := sys_stat r in
    let d t := mk_stat_t (stat_uid dest) (stat_owner dest) (stat_gid dest) (stat_group dest)
                 (st_size st) (st_mode st) t in
    match type_of_mode (st_mode st) with
    | Some t => mret (0, d t)
    | None => mret (-1, d (stat_type dest))
    end.

Definition file_fstat (file : ptr) : M Z := func (body (
  o ← get_file file;
  when (file_fd o <? 0) (throw "file is not currently open");;
  '(rc, st) ← file_stat (file_st o) (file_path o);
  mod_file file (set_file_st st);;
  try_ (mret rc))).

(** [stat_t st; file_stat(&st, path); if (st.type != t) throw_silent();] *)
Definition file_has_type (t : file_type_t) (path : ptr) : M Z := func (body (
  st ← try_out (file_stat zero_stat path);
  when (negb (bool_decide (stat_type st = t))) throw_silent)).

Definition file_is_directory : ptr → M Z := file_has_type FILE_IS_DIRECTORY.
Definition file_is_regular : ptr → M Z := file_has_type FILE_IS_REGULAR.
Definition file_is_symlink : ptr → M Z := file_has_type FILE_IS_SYMLINK.

(** * Names *)

Definition file_rmdir (path : ptr) : M Z := func (body (
  p ← path_of path;
  checked "rmdir" [AStr p])).

(** [str_len(src) == 0 || str_len(dest) == 0] *)
Definition some_empty (src dest : ptr) : M bool :=
  a ← str_empty src; if (a : bool) then mret true else str_empty dest.

(** The common shape of the calls with two paths. *)
Definition two_paths (name : string) (src dest : ptr) : M Z := func (body (
  e ← some_empty src dest;
  when e (throw "path(s) cannot be empty");;
  a ← path_of src;
  b ← path_of dest;
  checked name [AStr a; AStr b])).

Definition file_rename : ptr → ptr → M Z := two_paths "rename".

Definition __file_link (src dest : ptr) (symbolic : bool) : M Z :=
  if symbolic then two_paths "symlink" src dest else two_paths "link" src dest.

Definition file_link (src dest : ptr) : M Z := __file_link src dest false.
Definition file_symlink (src dest : ptr) : M Z := __file_link src dest true.

Definition file_mkdir (path : ptr) : M Z := func (body (
  p ← path_of path;
  checked "mkdir" [AStr p; AInt 504];;
  try_ (file_chmod path 504))).

Definition file_unlink (path : ptr) : M Z := func (body (
  p ← path_of path;
  checked "unlink" [AStr p])).

(** * Contents *)

Definition file_read (dest path : ptr) : M Z := func (auto_file (λ f, body (
  try_ (file_open f path O_RDONLY 0);;
  try_ (file_fstat f);;
  o ← get_file f;
  when (STRING_MAX <? stat_size (file_st o)) (throw "file is too large to read into a buffer");;
  let buf_sz := size_t (stat_size (file_st o)) in
  try_ (str_read dest (file_fd o) buf_sz)))).

Definition file_puts (fd : Z) (str : ptr) : M Z := func (body (
  s ← get_str str;
  when (str_len s =? 0) (return_ 0);;
  text ← read_cells (str_value s) (str_len s);
  r ← syscall "write" [AInt fd; AStr (omap id text)];
  when (sys_ret r <? 0) (throw_errno "write(2)"))).

(** The format is copied into the name of the temporary file, it is not
    filled in.  mkstemp(3) leaves the name it chose in [buf]. *)
Definition file_write (path data : ptr) : M Z := func (auto_str (λ template, body (
  r ← syscall "mkstemp" [AStr (B "%s.tmpXXXXXXXXXX")];
  let fd := sys_ret r in
  when (fd <? 0) (throw_errno "mkstemp(3)");;
  try_ (str_cpy template (Some (CLit (sys_data r) 0)));;
  try_ (file_puts fd data);;
  c ← syscall "close" [AInt fd];
  when (sys_ret c <? 0) (throw_errno "close(2)");;
  try_ (file_rename template path)))).

(** * Directories *)

(** readdir_r(3): an empty name stands for a null [result]. *)
Definition readdir_r (dirp : Z) : M sysret := syscall "readdir_r" [AInt dirp].
Definition no_entry (r : sysret) : bool := bool_decide (sys_data r = []).

(** Read one of the two entries at the start, which are expected to be [name]. *)
Definition read_past (dest : ptr) (dirp : Z) (name : bytes) : M unit :=
  r ← readdir_r dirp;
  when (sys_ret r <? 0) (throw_errno "readdir_r(3)");;
  when (no_entry r) (return_ 0);;
  when (negb (bool_decide (upto_nul (sys_data r) = name)))
    (try_ (list_cat dest (Some (CLit (sys_data r) 0)))).

(** The [finally] block only matters once the directory is open. *)
Definition file_ls (dest path : ptr) : M Z := func (
  try_ (list_truncate dest);;
  p ← path_of path;
  d ← syscall "opendir" [AStr p];
  if sys_ret d <? 0 then body (throw_errno "opendir(3)") else
  let dirp := sys_ret d in
  labels (
    read_past dest dirp (B ".");;
    read_past dest dirp (B "..");;
    w ← get_world;
    rc ← loop (S (length (answers (sys w)))) (λ _,
      r ← readdir_r dirp;
      if (sys_ret r =? 0) && negb (no_entry r) then
        try_ (list_cat dest (Some (CLit (sys_data r) 0)));;
        mret (inl tt)
      else mret (inr (sys_ret r))) tt;
    when (rc <? 0) (throw_errno "readdir_r(3)"))
  (mret tt)
  (_ ← syscall "closedir" [AInt dirp]; mret tt)).

(** [g] is the block of the [glob_t]; the matches are in [sys_names]. *)
Definition file_glob (dest pattern : ptr) : M Z := func (
  g ← malloc 72;
  if bool_decide (g = None) then throw "calloc(3) failed" else
  labels (
    try_ (list_truncate dest);;
    p ← path_of pattern;
    r ← syscall "glob" [AStr p];
    let i := sys_ret r in
    if negb (i =? 0) then
      when (negb (i =? GLOB_NOMATCH)) (throw "glob(3) failed")
    else cat_all dest ((λ n, CLit n 0) <$> sys_names r))
  (mret tt)
  (_ ← syscall "globfree" []; free g)).

Definition type_number (t : file_type_t) : Z :=
  match t with
  | FILE_IS_NONEXISTENT => 0 | FILE_IS_REGULAR => 1 | FILE_IS_DIRECTORY => 2
  | FILE_IS_DEVICE => 3 | FILE_IS_FIFO => 4 | FILE_IS_SYMLINK => 5 | FILE_IS_SOCKET => 6
  end.

Definition file_ls_by_type (dest path : ptr) (type : Z) : M Z :=
  func (auto_str (λ item, auto_list (λ buf, body (
    try_ (list_truncate dest);;
    try_ (file_ls buf path);;
    n ← ents_fuel;
    loop n (λ st,
      b ← get_list buf;
      if list_count b =? 0 then mret (inr tt) else
      try_ (list_shift item buf);;
      st' ← try_out (file_stat st item);
      when (type_number (stat_type st') =? type mod 2 ^ 32) (try_ (list_push dest item));;
      mret (inl st')) zero_stat)))).

(** * Copying *)

Section copy.
Context `{Regex}.

Definition file_copy (src dest : ptr) : M Z :=
  func (auto_str (λ buf, auto_str (λ old_fn, auto_str (λ new_fn,
  auto_str (λ new_basename, auto_str (λ new_path, body (
    reg ← file_is_regular src;
    bad ← (if reg <? 0 then lnk ← file_is_symlink src; mret (lnk <? 0) else mret false);
    when bad (throw "invalid source file type");;
    dir ← file_is_directory src;
    when (dir =? 0) (throw "FIXME - cannot recursively copy directories");;
    try_ (str_str_regex src (Some (CLit (B "([^/]+)$") 0)) [old_fn]);;
    file_size ← try_out (file_get_size src);
    mode ← try_out (file_get_mode src);
    let file_size := default 0 file_size in
    ex ← try_out (file_exists dest);
    (if bool_decide (ex = Some true) then
       l ← file_is_symlink dest;
       when (l =? 0) (throw "FIXME - lstat destination directory");;
       d ← file_is_directory dest;
       when (d <? 0) (throw "destination is not a directory");;
       try_ (str_copy new_basename dest);;
       try_ (str_copy new_fn old_fn)
     else try_ (str_str_regex dest (Some (CLit (B "(.+)/(.+)$") 0)) [new_basename; new_fn]));;
    try_ (str_resize buf (file_size + 1));;
    p ← path_of src;
    r ← syscall "open" [AStr p; AInt O_RDONLY; AInt 0];
    let fd := sys_ret r in
    when (fd <? 0) (throw_errno "open(2)");;
    r ← syscall "read" [AInt fd; AInt file_size];
    b ← get_str buf;
    store (str_value b) 0 (Some <$> take (Z.to_nat (sys_ret r)) (sys_data r));;
    when (sys_ret r <? file_size) (throw_errno "read(2)");;
    c ← syscall "close" [AInt fd];
    when (sys_ret c <? 0) (throw_errno "close(2)");;
    try_ (str_sprintf new_path (
      x ← path_of new_basename; y ← path_of new_fn; mret (x ++ B "/" ++ y)));;
    np ← path_of new_path;
    r ← syscall "open" [AStr np; AInt (Z.lor O_WRONLY O_CREAT); AInt (default 0 mode)];
    let fd := sys_ret r in
    when (fd <? 0) (throw_errno "open(2)");;
    b ← get_str buf;
    text ← read_cells (str_value b) file_size;
    r ← syscall "write" [AInt fd; AStr (omap id text)];
    when (sys_ret r <? file_size) (throw_errno "read(2)");;
    c ← syscall "close" [AInt fd];
    when (sys_ret c <? 0) (throw_errno "close(2)")))))))).

End copy.
