(* ===== verification/UidMapOps.v ===== *)
(** passwd.c: the map from user numbers to user names. *)

From S2P Require Import Prelude Types Machine StringOps RegexOps ListOps HashOps FileOps.

Open Scope Z_scope.

(** The digits of a number, least significant first. *)
Fixpoint digits_rev (fuel : nat) (n : Z) : bytes :=
  match fuel with
  | O => []
  | S f => char_of_int (48 + n mod 10) :: (if n <? 10 then [] else digits_rev f (n / 10))
  end.

(** [%u] of an [unsigned int]. *)
Definition format_u (n : Z) : bytes := reverse (digits_rev 10 (n mod 2 ^ 32)).

Definition passwd_get_symbolic_uid (dest map : ptr) (uid : Z) : M Z :=
  func (auto_str (λ uid_str, auto_str (λ result, body (
    try_ (str_sprintf uid_str (mret (format_u uid)));;
    u ← get_str uid_str;
    try_ (hash_get result map (str_value u));;
    try_ (str_copy dest result))))).

Definition passwd_get_uid_map (map : ptr) : M Z :=
  func (auto_str (λ buf, auto_str (λ path, auto_str (λ line, auto_str (λ uid_num,
  auto_str (λ uid_sym, auto_list (λ rows, auto_list (λ cols, body (
    try_ (hash_truncate map);;
    try_ (str_cpy path (Some (CLit (B "/etc/passwd") 0)));;
    try_ (file_read buf path);;
    try_ (str_chomp buf);;
    try_ (str_split rows buf (int_of_char LF));;
    r ← get_list rows;
    loop (S (Z.to_nat (list_count r))) (λ i,
      r ← get_list rows;
      if i <? list_count r then
        try_ (list_get line rows i);;
        c ← str_ncmp line (Some (CLit (B "#") 0)) 1;
        if c =? 0 then mret (inl (i + 1)) else
        try_ (str_split cols line (int_of_char ":"));;
        try_ (list_get uid_sym cols 0);;
        try_ (list_get uid_num cols 2);;
        n ← get_str uid_num;
        try_ (hash_set map (str_value n) uid_sym);;
        mret (inl (i + 1))
      else mret (inr tt)) 0))))))))).
