(* ===== verification/LogOps.v ===== *)
(** log.c and the error messages of exception.c.

    The destination of the messages is a state of its own, [log_state], which
    no other component reads; what a call writes is its result.  Elsewhere in
    the development calls that only log are left out. *)

From S2P Require Import Prelude Types Machine StringOps UidMapOps.

Open Scope Z_scope.

(** The levels of syslog(3). *)
Definition LOG_ERR : Z := 3.
Definition LOG_WARNING : Z := 4.
Definition LOG_NOTICE : Z := 5.
Definition LOG_INFO : Z := 6.
Definition LOG_DEBUG : Z := 7.

(** Options of openlog(3), and its facility for mail. *)
Definition LOG_PID : Z := 1.
Definition LOG_NDELAY : Z := 8.
Definition LOG_MAIL : Z := 16.

(** The variables of log.c, and the mask that setlogmask(3) sets. *)
Record log_state := mk_log_state {
  LOG_TO_STDERR : bool;
  LOG_TO_SYSLOG : bool;
  LOG_PRIORITY : Z;
  syslog_mask : Z
}.

Definition initial_log : log_state := mk_log_state true false LOG_NOTICE 255.

(** Where a message goes. *)
Inductive log_out :=
| Stderr (text : bytes)
| Syslog (level : Z) (text : bytes).

(** syslog(3) drops the levels that are not in the mask. *)
Definition vsyslog (st : log_state) (level : Z) (text : bytes) : list log_out :=
  if Z.testbit (syslog_mask st) level then [Syslog level text] else [].

Definition _log_vmessage (st : log_state) (level : Z) (text : bytes) : list log_out :=
  if LOG_TO_STDERR st then
    if level <=? LOG_PRIORITY st then [Stderr (text ++ [LF])] else []
  else if LOG_TO_SYSLOG st then vsyslog st level text
  else [].

Definition _log_message : log_state → Z → bytes → list log_out := _log_vmessage.
Definition _log_error (st : log_state) : bytes → list log_out := _log_vmessage st LOG_ERR.
Definition _log_warning (st : log_state) : bytes → list log_out := _log_vmessage st LOG_WARNING.
Definition _log_notice (st : log_state) : bytes → list log_out := _log_vmessage st LOG_NOTICE.
Definition _log_info (st : log_state) : bytes → list log_out := _log_vmessage st LOG_INFO.
Definition _log_debug (st : log_state) : bytes → list log_out := _log_vmessage st LOG_DEBUG.

(** [frames] is what backtrace_symbols(3) gives, where the system has it. *)
Definition log_backtrace (frames : option (list bytes)) (st : log_state) : list log_out :=
  match frames with
  | Some strings =>
      _log_warning st (B "Obtained " ++ format_u (Z.of_nat (length (take 10 strings))) ++ B " stack frames." ++ [LF]) ++
      (s ← take 10 strings; _log_warning st (s ++ [LF]))
  | None => _log_warning st (B "This operating system does not provide backtrace_symbols()")
  end.

(** [LOG_UPTO]: the levels up to the priority. *)
Definition LOG_UPTO (priority : Z) : Z := Z.shiftl 1 (priority + 1) - 1.

(** [getenv] tells which variables are set. *)
Definition set_log_level (getenv : string → bool) (priority : Z) (st : log_state) : Z * log_state :=
  let priority := if priority <? 0 then LOG_WARNING else priority in
  let priority := if getenv "VERBOSE" then LOG_DEBUG else priority in
  let priority := if getenv "QUIET" then LOG_ERR else priority in
  (0, mk_log_state (LOG_TO_STDERR st) (LOG_TO_SYSLOG st) priority (LOG_UPTO priority)).

(** The copy of the name that is made for openlog(3) is not what it gets. *)
Definition syslog_open (program : option cptr) (logopt : Z) (st : log_state) : M (Z * log_state) :=
  '(rc, program_copy) ← str_new None;
  if negb (rc =? 0) then mret (-1, st) else
  rc ← str_cpy program_copy program;
  if negb (rc =? 0) then mret (-1, st) else
  name ← c_str program;
  _ ← syscall "openlog" [AStr name; AInt (Z.lor logopt (Z.lor LOG_PID LOG_NDELAY)); AInt LOG_MAIL];
  mret (0, mk_log_state false true (LOG_PRIORITY st) (syslog_mask st)).

(** exception.c: the message of an exception, cut to the size of a buffer; it
    is then the format of the message, which [expand] fills in.  The level is
    LOG_ERR and the result is what [throw] returns. *)
Definition throw_format (file : bytes) (lineno : Z) (format : bytes) : bytes :=
  take 1023 (file ++ B ":" ++ format_u lineno ++ B ": error: " ++ format).

Definition _throwf (st : log_state) (func file : bytes) (lineno : Z) (format : bytes)
    (expand : bytes → bytes) : Z * list log_out :=
  (-1,
   if bool_decide (format = []) then
     _log_message st LOG_ERR (file ++ B ": In function `" ++ func ++ B "':" ++ [LF] ++
       file ++ B ":" ++ format_u lineno ++ B ": error: ")
   else _log_vmessage st LOG_ERR (expand (throw_format file lineno format))).
