(* ===== verification/InetOps.v ===== *)
(** string.c: the conversions between strings and IPv4 addresses, over
    inet_ntop(3) and inet_addr(3). *)

From S2P Require Import Prelude Types Machine StringOps RegexOps ListOps HashOps.
From S2P Require Import UidMapOps.

Open Scope Z_scope.

(** * Network byte order *)

(** The machine is little-endian. *)
Definition htons (n : Z) : Z :=
  let p := n mod 2 ^ 16 in Z.lor (Z.shiftl (Z.land p 255) 8) (Z.shiftr p 8).
Definition ntohs (n : Z) : Z := htons n.

(** Octet [i] of an address, in the order of its bytes in memory. *)
Definition octet (addr : Z) (i : Z) : Z := Z.land (Z.shiftr addr (8 * i)) 255.

Definition octets (addr : Z) : list Z := octet addr <$> [0; 1; 2; 3].

(** The address that the octets make. *)
Fixpoint from_octets (os : list Z) : Z :=
  match os with [] => 0 | o :: r => o + 256 * from_octets r end.

(** inet_ntop(3) for AF_INET: four numbers with dots between them. *)
Definition inet_ntop (addr : Z) : bytes :=
  match octets addr with
  | [a; b; c; d] => format_u a ++ B "." ++ format_u b ++ B "." ++ format_u c ++ B "." ++ format_u d
  | _ => []
  end.

(** * inet_addr(3) *)

(** The digits in base [b] at the start of a text, after [acc]. *)
Fixpoint digits_base (b acc : Z) (s : bytes) : Z * bytes :=
  match s with
  | c :: r =>
      match hexval c with
      | Some d => if d <? b then digits_base b (acc * b + d) r else (acc, s)
      | None => (acc, s)
      end
  | [] => (acc, s)
  end.

(** A number as strtoul(3) with base 0 reads it: 0x is hexadecimal if a digit
    follows, 0 is octal. *)
Definition c_number (s : bytes) : Z * bytes :=
  match s with
  | c :: r =>
      if decide (c = "0"%char) then
        match r with
        | x :: h :: _ =>
            if (bool_decide (x = "x"%char) || bool_decide (x = "X"%char)) &&
               bool_decide (is_Some (hexval h))
            then digits_base 16 0 (drop 1 r) else digits_base 8 0 s
        | _ => digits_base 8 0 s
        end
      else digits_base 10 0 s
  | [] => (0, s)
  end.

(** The [n] bytes of [v], the most significant first. *)
Fixpoint big_endian (n : nat) (v : Z) : list Z :=
  match n with
  | O => []
  | S n' => big_endian n' (v / 256) ++ [v mod 256]
  end.

(** Up to [dots] more dots may follow; the last number fills the bytes that
    are left. *)
Fixpoint inet_parts (dots : nat) (acc : list Z) (s : bytes) : option (list Z) :=
  match s with
  | c :: _ =>
      if isdigit c then
        let '(v, r) := c_number s in
        let last := if v <? 256 ^ Z.of_nat (S dots) then Some (acc ++ big_endian (S dots) v) else None in
        match r with
        | [] => last
        | e :: r' =>
            if decide (e = "."%char) then
              match dots with
              | O => None
              | S dots' => if v <=? 255 then inet_parts dots' (acc ++ [v]) r' else None
              end
            else if isspace e then last else None
        end
      else None
  | [] => None
  end.

Definition INADDR_NONE : Z := 2 ^ 32 - 1.

Definition inet_addr (s : bytes) : Z :=
  match inet_parts 3 [] s with Some os => from_octets os | None => INADDR_NONE end.

(** * The functions *)

Definition str_from_inet (dest : ptr) (addr : Z) : M Z := func (body (
  try_ (str_cpy dest (Some (CLit (inet_ntop addr) 0))))).

(** The second result is [addr->s_addr]. *)
Definition str_to_inet (src : ptr) : M (Z * Z) :=
  s ← get_str src;
  text ← c_str (str_value s);
  let addr := inet_addr text in
  rc ← func (body (
    when (to_signed 32 addr =? -1) (
      r ← str_cmp src (Some (CLit (B "255.255.255.255") 0));
      when (negb (r =? 0)) (throw "parse error"))));
  mret (rc, addr).

Example inet_ntop_test : inet_ntop 16777343 = B "127.0.0.1".
Proof. reflexivity. Qed.

Example inet_addr_test :
  inet_addr <$> [B "127.0.0.1"; B "127.1"; B "0x7f.1"; B "1.2.3"; B "256.1.1.1"; B "1.2.3.4.5"; B "08.1.1.1"; B "1.2.3.4 x"; B ""]
  = [16777343; 16777343; 16777343; 50332161; INADDR_NONE; INADDR_NONE; INADDR_NONE; 67305985; INADDR_NONE].
Proof. reflexivity. Qed.
