(* ===== verification/TimeOps.v ===== *)
(** string.c: the conversions between strings and times.  strptime(3),
    mktime(3), localtime_r(3) and strftime(3) depend on the locale and the time
    zone of the system; they are the operations of the class [Clock]. *)

From S2P Require Import Prelude Types Machine StringOps RegexOps.

Open Scope Z_scope.

(** [strptime] gives the broken-down time or a null pointer, [strftime] the
    text, empty when it does not fit. *)
Class Clock := {
  tm : Type;
  strptime : bytes → bytes → option tm;
  mktime : tm → Z;
  localtime_r : Z → tm;
  strftime : bytes → tm → bytes
}.

Section time.
Context `{Regex} `{Clock}.

Definition TIME_PATTERN : bytes :=
  B "^([0-9]{1,2} [A-Za-z]{3} [0-9]{4} [0-9]{2}:[0-9]{2}:[0-9]{2}) ([+-][0-9][0-9])([0-9][0-9])$".

(** atoi(3) of a string object. *)
Definition atoi_of (s : ptr) : M Z :=
  st ← get_str s; t ← c_str (str_value st); mret (to_signed 32 (fst (strtol t))).

(** The offset is computed and not used. *)
Definition str_to_time (dest src : ptr) : M Z :=
  func (auto_str (λ buf, auto_str (λ offset_hours, auto_str (λ offset_mins, body (
    r ← str_str_regex src (Some (CLit TIME_PATTERN 0)) [buf; offset_hours; offset_mins];
    when (r <? 0) (throw "invalid time string");;
    b ← get_str buf;
    text ← c_str (str_value b);
    match strptime text (B "%d %b %Y %T") with
    | None => throw "unable to convert time string"
    | Some result =>
        set_var dest (mktime result);;
        _ ← atoi_of offset_hours;
        _ ← atoi_of offset_mins;
        mret tt
    end))))).

(** [tloc] is null when it is [None]. *)
Definition str_time (dest : ptr) (tloc : option Z) (format : option cptr) : M Z := func (body (
  t ← match tloc with
      | Some t => mret t
      | None => r ← syscall "time" []; mret (sys_ret r)
      end;
  f ← c_str format;
  let text := strftime f (localtime_r t) in
  when (bool_decide (text = []) || (229 <=? Z.of_nat (length text))) (throw "date format error");;
  try_ (str_cpy dest (Some (CLit text 0))))).

Definition str_from_localtime (dest : ptr) (tloc : option Z) : M Z := func (body (
  try_ (str_time dest tloc (Some (CLit (B "%d %b %Y %r") 0))))).

Definition str_from_time (dest : ptr) (tloc : option Z) : M Z := func (body (
  try_ (str_time dest tloc (Some (CLit (B "%d %b %Y %T %z") 0))))).

End time.
