(* ===== verification/DnsOps.v ===== *)
(** host.c and dns.c: the addresses and the name of the host, and the lookups
    of the resolver library.

    Replies: [gethostname] has the name in [sys_data]; [getifaddrs] has in
    [sys_names] one text for each interface, empty for one without an address,
    else the family as a character and the bytes of the address;
    [getaddrinfo] has the four bytes of each address in [sys_names];
    [gethostbyname] is negative for a null pointer, with h_errno in
    [sys_errno]; [getservbyname] has the port in [sys_id]; [res_query] and
    [res_search] have the packet in [sys_data]. *)

From S2P Require Import Prelude Types Machine StringOps RegexOps ListOps HashOps PasswdOps.
From S2P Require Import FileOps UidMapOps InetOps.

Open Scope Z_scope.

Definition AF_INET : Z := 2.
Definition HOST_NOT_FOUND : Z := 1.
Definition T_TXT : Z := 16.
Definition T_MX : Z := 15.
Definition PACKETSZ : Z := 512.
Definition HFIXEDSZ : Z := 12.
Definition QFIXEDSZ : Z := 4.

(** The number whose bytes in memory are the characters. *)
Definition addr_of (bs : bytes) : Z := from_octets (uchar <$> bs).

(** [for (cur = l->head; cur; cur = cur->next) f(cur->value)]; [f] answers
    whether the loop goes on. *)
Definition for_items (l : ptr) (f : ptr → M bool) : M unit :=
  h ← get_list l;
  fuel ← ents_fuel;
  loop fuel (λ cur,
    if is_null cur then mret (inr tt) else
    e ← get_ent cur;
    go ← f (ent_value e);
    if (go : bool) then e ← get_ent cur; mret (inl (ent_next e)) else mret (inr tt)) (list_head h).

(** * host.c *)

(** [cached] is [_HNAME] if [_HNAME_CACHED] is set. *)
Definition hostname (cached : option bytes) : M (bytes * option bytes) :=
  match cached with
  | Some name => mret (name, cached)
  | None =>
      r ← syscall "gethostname" [];
      if sys_ret r <? 0 then crash_with Aborted else mret (sys_data r, Some (sys_data r))
  end.

Definition host_get_name (dest : ptr) : M Z := func (body (
  r ← syscall "gethostname" [];
  when (sys_ret r <? 0) (throw_errno "gethostname(3)");;
  try_ (str_cpy dest (Some (CLit (sys_data r) 0))))).

(** The interfaces of a family, in order. *)
Fixpoint push_ifaddrs (dest buf : ptr) (family : Z) (ifs : list bytes) : M unit :=
  match ifs with
  | [] => mret tt
  | [] :: rest => push_ifaddrs dest buf family rest
  | (fam :: a) :: rest =>
      if negb (uchar fam =? family) then push_ifaddrs dest buf family rest
      else if family =? AF_INET then
        try_ (str_from_inet buf (addr_of a));;
        try_ (list_push dest buf);;
        push_ifaddrs dest buf family rest
      else throw "address family not supported"
  end.

Definition host_get_ifaddrs (dest : ptr) (family : Z) : M Z := func (auto_str (λ buf,
  r ← syscall "getifaddrs" [];
  if negb (sys_ret r =? 0) then body (throw_errno "getifaddrs(3)") else
  labels (push_ifaddrs dest buf family (sys_names r)) (mret tt)
    (when (negb (bool_decide (sys_names r = []))) (_ ← syscall "freeifaddrs" []; mret tt)))).

(** * dns.c *)

Fixpoint push_addrs (dest buf : ptr) (addrs : list bytes) : M unit :=
  match addrs with
  | [] => mret tt
  | a :: rest =>
      try_ (str_from_inet buf (addr_of a));;
      try_ (list_push dest buf);;
      push_addrs dest buf rest
  end.

Definition dns_get_inet_by_name (dest host : ptr) : M Z := func (auto_str (λ buf,
  try_ (list_truncate dest);;
  h ← path_of host;
  r ← syscall "getaddrinfo" [AStr h];
  if negb (sys_ret r =? 0) then throw "getaddrinfo(3)" else
  labels (push_addrs dest buf (sys_names r)) (mret tt)
    (when (negb (bool_decide (sys_names r = []))) (_ ← syscall "freeaddrinfo" []; mret tt)))).

Definition dns_library_init : M Z := func (auto_list (λ result, auto_str (λ buf, body (
  w ← get_world;
  when (DNS_LIB_INIT (net w)) (return_ 0);;
  try_ (host_get_name buf);;
  _ ← syscall "gethostbyname" [AStr (B "localhost")];
  try_ (str_cpy buf (Some (CLit (B "netsol.com") 0)));;
  _ ← dns_get_inet_by_name result buf;
  modify (upd_net (set_dns_init true)))))).

Definition dns_log_error : M Z := func (body (throw "caught DNS error")).

Definition dns_get_service_by_name (dest : ptr) (name proto : bytes) : M Z := func (body (
  r ← syscall "getservbyname" [AStr name; AStr proto];
  when (sys_ret r <? 0) (throw_errno "getservbyname(3)");;
  set_var dest (ntohs (sys_id r)))).

Definition dns_ping_blocklist (dnsbl : ptr) : M Z := func (auto_str (λ query, auto_list (λ valid, body (
  for_items dnsbl (λ suffix,
    try_ (str_sprintf query (t ← path_of suffix; mret (B "2.0.0.127." ++ t)));;
    q ← path_of query;
    answer ← syscall "gethostbyname" [AStr q];
    (if (sys_ret answer <? 0) && (sys_errno answer =? HOST_NOT_FOUND) then mret tt
     else try_ (list_push valid suffix));;
    mret true);;
  try_ (list_truncate dnsbl);;
  try_ (list_copy dnsbl valid))))).

Definition dns_query_blocklist (result dnsbl sock : ptr) : M Z :=
  func (auto_str (λ addr, auto_str (λ rev_addr, auto_str (λ query, auto_list (λ quad, body (
    set_var result 0;;
    s ← get_sock sock;
    try_ (str_from_inet addr (sin_addr (sock_remote s)));;
    try_ (str_split quad addr (int_of_char "."));;
    try_ (list_reverse quad);;
    try_ (str_join rev_addr quad (int_of_char "."));;
    for_items dnsbl (λ domain,
      try_ (str_sprintf query (r ← path_of rev_addr; d ← path_of domain; mret (r ++ B "." ++ d)));;
      q ← path_of query;
      answer ← syscall "gethostbyname" [AStr q];
      if 0 <=? sys_ret answer then set_var result 1;; mret false else mret true))))))).

Section nameservers.
Context `{Regex}.

Definition dns_get_nameservers (dest : ptr) : M Z :=
  func (auto_str (λ buf, auto_str (λ path, auto_str (λ ns, auto_list (λ lines, body (
    try_ (list_truncate dest);;
    try_ (str_cpy path (Some (CLit (B "/etc/resolv.conf") 0)));;
    try_ (file_read buf path);;
    try_ (str_split lines buf (int_of_char LF));;
    for_items lines (λ line,
      m ← try_out (str_match_regex line (Some (CLit (B "^nameserver") 0)));
      (if bool_decide (m = Some true) then
         try_ (str_str_regex line
           (Some (CLit (B "nameserver[[:space:]]+([A-Za-z0-9._-]+)[[:space:]]*$") 0)) [ns]);;
         try_ (list_push dest ns)
       else mret tt);;
      mret true))))))).

End nameservers.

(** * Packets *)

(** dn_skipname(3) and dn_expand(3) belong to the resolver library.  Their
    arguments are the packet up to its end and the offset of the name; the
    result is the length of the encoded name, for [dn_expand] with its text. *)
Class Resolver := {
  dn_skipname : bytes → Z → Z;
  dn_expand : bytes → Z → option (Z * bytes)
}.

Section packets.
Context `{Resolver}.

(** A byte of the response buffer; beyond the packet it was never written. *)
Definition packet_byte (pkt : bytes) (i : Z) : M Z :=
  if i <? 0 then crash_with BadAccess else
  match pkt !! Z.to_nat i with Some c => mret (uchar c) | None => crash_with BadAccess end.

(** GETSHORT: two bytes, the most significant first. *)
Definition getshort (pkt : bytes) (i : Z) : M Z :=
  a ← packet_byte pkt i; b ← packet_byte pkt (i + 1); mret (a * 256 + b).

Definition getlong (pkt : bytes) (i : Z) : M Z :=
  a ← getshort pkt i; b ← getshort pkt (i + 2); mret (a * 2 ^ 16 + b).

(** The questions are skipped: [i] are left, [cp] is the offset. *)
Fixpoint skip_questions (pkt : bytes) (i : nat) (cp : Z) : M Z :=
  match i with
  | O => mret cp
  | S i' =>
      let len := dn_skipname pkt cp in
      if len <? 0 then throw "bad hostname in question portion of dns packet"
      else skip_questions pkt i' (cp + len + QFIXEDSZ)
  end.

(** The answers are added to the list. *)
Fixpoint mx_answers (dest str_p : ptr) (domain pkt : bytes) (i : nat) (cp : Z) : M unit :=
  match i with
  | O => mret tt
  | S i' =>
      '(len, name) ← match dn_expand pkt cp with
                     | Some r => mret r
                     | None => throw "error expanding hostname in answer portion"
                     end;
      when (negb (strncmp name domain (Z.of_nat (length domain) + 1) =? 0)) (throw "extraneous response");;
      let cp := cp + len in
      rec_type ← getshort pkt cp;
      when (negb (rec_type =? T_MX)) (throw "bad response record: expecting type MX");;
      let cp := cp + 2 + 2 + 4 in
      _ ← getshort pkt cp;
      _ ← getshort pkt (cp + 2);
      let cp := cp + 4 in
      '(len, name) ← match dn_expand pkt cp with
                     | Some r => mret r
                     | None => throw "error decompressing RR"
                     end;
      try_ (str_alias str_p (Some (CLit name 0)));;
      try_ (list_push dest str_p);;
      mx_answers dest str_p domain pkt i' (cp + len)
  end.

Definition dns_get_mx_list (dest domain : ptr) : M Z := func (local_str EMPTY_STRING (λ str_p, body (
  d ← get_str domain;
  require (0 <? str_len d);;
  try_ (list_truncate dest);;
  name ← path_of domain;
  r ← syscall "res_query" [AStr name; AInt T_MX];
  let pkt_len := sys_ret r in
  when (pkt_len <? 0) (z ← dns_log_error; return_ z);;
  when (PACKETSZ <? pkt_len) (throw "DNS response too large");;
  let pkt := take (Z.to_nat pkt_len) (sys_data r) in
  qdcount ← getshort pkt 4;
  cp ← skip_questions pkt (Z.to_nat qdcount) HFIXEDSZ;
  ancount ← getshort pkt 6;
  mx_answers dest str_p name pkt (Z.to_nat ancount) cp))).

(** The buffer of the packet is cleared before the query. *)
Definition dns_get_txt_record (dest host : ptr) : M Z := func (auto_str (λ s, body (
  try_ (list_truncate dest);;
  name ← path_of host;
  r ← syscall "res_search" [AStr name; AInt T_TXT];
  let pkt_len := sys_ret r in
  when (pkt_len <? 0) (z ← dns_log_error; return_ z);;
  let msg := take (Z.to_nat pkt_len) (sys_data r) in
  let pkt := msg ++ replicate (Z.to_nat PACKETSZ - length msg) NUL in
  let expand cp := match dn_expand msg cp with
                   | Some (len, _) => mret len
                   | None => throw "dn_expand(3) failed"
                   end in
  let cp := HFIXEDSZ in
  exp_len ← expand cp;
  let cp := cp + exp_len in
  ans_type ← getshort pkt cp;
  when (negb (ans_type =? T_TXT)) (throw "invalid answer type");;
  let cp := cp + 2 + 2 in
  exp_len ← expand cp;
  let cp := cp + exp_len in
  ans_type ← getshort pkt cp;
  when (negb (ans_type =? T_TXT)) (throw "invalid answer type");;
  let cp := cp + 2 + 2 in
  _ ← getlong pkt cp;
  ans_size ← getshort pkt (cp + 4);
  txt_size ← packet_byte pkt (cp + 6);
  let cp := cp + 7 in
  when ((ans_size <=? txt_size) || (txt_size =? 0)) (throw "invalid TXT response");;
  when (Z.of_nat (length pkt) <? cp + txt_size) (crash_with BadAccess);;
  try_ (str_ncpy s (Some (CLit (take (Z.to_nat txt_size) (drop (Z.to_nat cp) pkt)) 0)) txt_size);;
  try_ (list_push dest s)))).

End packets.
