(* ===== verification/SocketOps.v ===== *)
(** socket.c: sockets, on a system without OpenSSL (WITH_OPENSSL is not
    defined) and with the option SO_PEERCRED.

    Replies: [accept] gives a descriptor; [getpeername] has in [sys_data] the
    first eight bytes of the address; [select] has in [sys_id] which of the
    three sets contain the descriptor, as bits 0, 1 and 2; [getsockopt] has the
    credentials in [sys_stat]. *)

From S2P Require Import Prelude Types Machine StringOps RegexOps ListOps HashOps PasswdOps.
From S2P Require Import FileOps UidMapOps InetOps DnsOps.

Open Scope Z_scope.

(** * Constants *)

Definition PF_INET : Z := 2.
Definition PF_LOCAL : Z := 1.
Definition SOCK_STREAM : Z := 1.
Definition F_SETFL : Z := 4.
Definition O_NONBLOCK : Z := 2048.
Definition EINTR : Z := 4.
Definition EBADF : Z := 9.
Definition EFAULT : Z := 14.
Definition EADDRINUSE : Z := 98.
Definition ECONNABORTED : Z := 103.
Definition EINPROGRESS : Z := 115.
Definition SO_REUSEADDR : Z := 2.
Definition SO_PEERCRED : Z := 17.
Definition SO_RCVTIMEO : Z := 20.
Definition SO_SNDTIMEO : Z := 21.
Definition FD_SETSIZE : Z := 1024.
Definition RECV_BUF_SIZE : Z := 16 * 1024.
Definition SUN_PATH_SIZE : Z := 108.

(** SOCKET_EVENT_TYPES *)
Definition SOCK_READ : Z := 1.
Definition SOCK_WRITE : Z := 16.
Definition SOCK_EXCEPTION : Z := 256.

(** [errno == e], after a call with the reply [r] that was tested negative. *)
Definition failed_with (r : sysret) (e : Z) : M bool :=
  if sys_ret r <? 0 then n ← get_errno; mret (n =? e) else mret false.

(** [strncpy(s->local.un.sun_path, text, sizeof - 1)] into a field that is clear
    or that strncpy(3) clears up to its last byte. *)
Definition sun_path_of (text : bytes) : bytes := take (Z.to_nat (SUN_PATH_SIZE - 1)) text.

(** The descriptor and the address of a call, as arguments. *)
Definition inet_args (fd : Z) (a : socket_addr_t) : list sysarg :=
  [AInt fd; AInt (sin_port a); AInt (sin_addr a)].

(** * Objects *)

Definition socket_new (dest : ptr) : M (Z * ptr) :=
  mem_calloc (in_net upd_socks) zero_socket dest (λ s,
    o ← get_sock s;
    '(rc, l) ← list_new (sock_read_buf o);
    mod_sock s (λ o, set_sock_read_buf o l);;
    if negb (rc =? 0) then mret (-1, s) else
    mod_sock s (λ o, set_sock_fd o (-1));;
    mod_sock s (λ o, set_sock_direction o UNKNOWN);;
    mod_sock s (λ o, set_sock_family o (-1));;
    mod_sock s (λ o, set_sock_local o (set_sa_family 65535 (sock_local o)));;
    mret (0, s)).

Definition socket_destroy (s : ptr) : M (Z * ptr) :=
  if is_null s then mret (0, None) else
  o ← get_sock s;
  '(rc, l) ← list_destroy (sock_read_buf o);
  mod_sock s (λ o, set_sock_read_buf o l);;
  if negb (rc =? 0) then mret (-1, s) else
  free_obj (λ w, socks (net w)) (in_net upd_socks) s;;
  mret (0, None).

Definition socket_set_family (sock : ptr) (family : Z) : M Z := func (body (
  s ← get_sock sock;
  when (0 <=? sock_family s) (throw "socket family is already set and cannot be changed");;
  mod_sock sock (λ o, set_sock_family o family);;
  mod_sock sock (λ o, set_sock_local o (set_sa_family (family mod 2 ^ 16) (sock_local o))))).

Definition socket_starttls (s : ptr) : M Z := func (body (
  throw "OpenSSL support was not compiled into the maild(8) binary")).

Definition socket_new_inet (s address : ptr) (port : Z) : M Z := func (body (
  low ← (if port <=? 1024 then uid ← syscall "getuid" []; mret (0 <? sys_ret uid) else mret false);
  let port := if (low : bool) then port + 10000 else port in
  mod_sock s (λ o, set_sock_local o (set_sin_port (htons port) (sock_local o)));;
  mod_sock s (λ o, set_sock_direction o UNKNOWN);;
  mod_sock s (λ o, set_sock_family o PF_INET);;
  '(rc, a) ← str_to_inet address;
  mod_sock s (λ o, set_sock_local o (set_sin_addr a (sock_local o)));;
  try_ (mret rc))).

(** * Waiting *)

(** FD_SET of a descriptor outside the set writes outside it. *)
Definition fd_set_bounds (fd : Z) : M unit :=
  if (0 <=? fd) && (fd <? FD_SETSIZE) then mret tt else crash_with BadAccess.

Definition flag_set (flags bit : Z) : bool := negb (Z.land flags bit =? 0).

Definition socket_select (s : ptr) (flags timeout : Z) : M Z := func (body (
  let want_read := flag_set flags SOCK_READ in
  let want_write := flag_set flags SOCK_WRITE in
  let want_except := flag_set flags SOCK_EXCEPTION in
  o ← get_sock s;
  when ((0 <? timeout) && (sock_connected o =? 0)) (throw "socket is not connected");;
  fd_set_bounds (sock_fd o);;
  w ← get_world;
  r ← loop (S (length (answers (sys w)))) (λ _,
    r ← syscall "select" [AInt (sock_fd o); AInt flags; AInt timeout];
    again ← failed_with r EINTR;
    mret (if (again : bool) then inl tt else inr r)) tt;
  when (sys_ret r <? 0) (throw_errno "select(2)");;
  when (sys_ret r =? 0) (mod_sock s (λ o, set_sock_timeout o 1);; return_ 0);;
  let ready bit := Z.testbit (sys_id r) bit in
  when (want_read && ready 0) (mod_sock s (λ o, let '(_, b, c) := sock_events o in set_sock_events o (bit1 1, b, c)));;
  when (want_write && ready 1) (mod_sock s (λ o, let '(a, _, c) := sock_events o in set_sock_events o (a, bit1 1, c)));;
  when (want_except && ready 2) (mod_sock s (λ o, let '(a, b, _) := sock_events o in set_sock_events o (a, b, bit1 1))))).

(** * Connecting *)

(** The addresses are tried in turn; the loop answers whether one of them took
    the connection. *)
Definition socket_connect_inet (s host : ptr) (port : Z) : M Z :=
  func (auto_list (λ inet, auto_str (λ buf, body (
    try_ (dns_get_inet_by_name inet host);;
    o ← get_sock s;
    fd ← syscall "socket" [AInt (sock_family o); AInt SOCK_STREAM; AInt 0];
    mod_sock s (λ o, set_sock_fd o (sys_ret fd));;
    when (sys_ret fd <? 0) (throw_errno "socket(2)");;
    r ← syscall "fcntl" [AInt (sys_ret fd); AInt F_SETFL; AInt O_NONBLOCK];
    when (sys_ret r <? 0) (throw_errno "fcntl(2)");;
    h ← get_list inet;
    fuel ← ents_fuel;
    connected ← loop fuel (λ cur,
      if is_null cur then mret (inr false) else
      e ← get_ent cur;
      '(rc, a) ← str_to_inet (ent_value e);
      try_ (mret rc);;
      let sa := mk_addr PF_INET (htons port) a [] in
      o ← get_sock s;
      i ← syscall "connect" (inet_args (sock_fd o) sa);
      pending ← failed_with i EINPROGRESS;
      if (sys_ret i <? 0) && negb pending then mret (inl (ent_next e)) else
      mod_sock s (λ o, set_sock_connected o 1);;
      try_ (socket_select s SOCK_WRITE 30);;
      mod_sock s (λ o, set_sock_local o (mk_addr PF_INET (htons port) a (sun_path (sock_local o))));;
      mret (inr true)) (list_head h);
    when (negb connected) (throw "connect(2)"))))).

(** [sin_port] is compared and changed in network order. *)
Definition socket_bind_inet (s : ptr) : M Z := func (body (
  uid ← syscall "getuid" [];
  o ← get_sock s;
  when ((0 <? sys_ret uid) && (sin_port (sock_local o) <=? 1024))
    (mod_sock s (λ o, set_sock_local o (set_sin_port ((sin_port (sock_local o) + 1000) mod 2 ^ 16) (sock_local o))));;
  o ← get_sock s;
  i ← syscall "bind" (inet_args (sock_fd o) (sock_local o));
  used ← failed_with i EADDRINUSE;
  when used (throw "address is already in use");;
  when (sys_ret i <? 0) (throw_errno "bind(2)"))).

Definition socket_local_operation (s : ptr) : M Z :=
  func (local_str EMPTY_STRING (λ path, body (
    o ← get_sock s;
    fd ← syscall "socket" [AInt (sock_family o); AInt SOCK_STREAM; AInt 0];
    mod_sock s (λ o, set_sock_fd o (sys_ret fd));;
    when (sys_ret fd <? 0) (throw_errno "socket(2)");;
    let file := sun_path (sock_local o) in
    match sock_direction o with
    | LISTEN =>
        try_ (str_alias path (Some (CLit file 0)));;
        exists_ ← try_out (file_exists path);
        when (bool_decide (exists_ = Some true)) (try_ (file_unlink path));;
        r ← syscall "bind" [AInt (sys_ret fd); AStr file];
        when (sys_ret r <? 0) (throw_errno "bind(2)");;
        let '(uid, gid, mode) := sock_owner o in
        r ← syscall "chown" [AStr file; AInt uid; AInt gid];
        when (sys_ret r <? 0) (throw_errno "chown(2)");;
        try_ (file_chmod path mode)
    | CONNECT =>
        r ← syscall "connect" [AInt (sys_ret fd); AStr file];
        when (sys_ret r <? 0) (throw_errno "connect(2)");;
        mod_sock s (λ o, set_sock_connected o 1)
    | UNKNOWN => throw "unsupported socket direction"
    end))).

Definition socket_set_timeout (sock : ptr) (read_sec write_sec : Z) : M Z := func (body (
  s ← get_sock sock;
  r ← syscall "setsockopt" [AInt (sock_fd s); AInt SO_RCVTIMEO; AInt read_sec];
  when (negb (sys_ret r =? 0)) (throw_errno "setsockopt(2)");;
  r ← syscall "setsockopt" [AInt (sock_fd s); AInt SO_SNDTIMEO; AInt write_sec];
  when (negb (sys_ret r =? 0)) (throw_errno "setsockopt(2)"))).

Definition socket_set_credentials (sock user group : ptr) (mode : Z) : M Z := func (body (
  s ← get_sock sock;
  when (negb (sock_family s =? PF_LOCAL)) (throw "invalid socket type (must be PF_LOCAL)");;
  when (bool_decide (sock_direction s = CONNECT)) (throw "socket must be set to listen mode");;
  when (negb (sock_connected s =? 0)) (throw "socket has already been opened");;
  uid ← try_out (passwd_get_id_by_name user);
  let '(uid0, gid0, mode0) := sock_owner s in
  mod_sock sock (λ o, set_sock_owner o (default uid0 uid, gid0, mode0));;
  '(rc, gid) ← group_get_id_by_name gid0 group;
  mod_sock sock (λ o, set_sock_owner o (default uid0 uid, gid, mode0));;
  try_ (mret rc);;
  mod_sock sock (λ o, set_sock_owner o (default uid0 uid, gid, mode)))).

(** The field holds 0 or -1 and is compared with 0 or 1. *)
Definition socket_set_blocking_mode (sock : ptr) (enabled : bool) : M Z := func (body (
  s ← get_sock sock;
  let e := if enabled then 1 else 0 in
  when (negb (sock_non_blocking s =? e)) (
    r ← syscall "fcntl" [AInt (sock_fd s); AInt F_SETFL; AInt (if enabled then O_NONBLOCK else 0)];
    when (sys_ret r <? 0) (throw_errno "fcntl(2)");;
    mod_sock sock (λ o, set_sock_non_blocking o e)))).

(** The address whose first bytes are given. *)
Definition addr_of_bytes (d : bytes) : socket_addr_t :=
  mk_addr (addr_of (take 2 d)) (addr_of (take 2 (drop 2 d))) (addr_of (take 4 (drop 4 d))) [].

Definition socket_accept (dest src : ptr) : M Z := func (auto_str (λ buf, body (
  o ← get_sock src;
  w ← get_world;
  loop (S (length (answers (sys w)))) (λ _,
    r ← syscall "accept" [AInt (sock_fd o)];
    mod_sock dest (λ o, set_sock_fd o (sys_ret r));;
    if 0 <=? sys_ret r then mret (inr tt) else
    e ← get_errno;
    if e =? EINTR then mret (inl tt)
    else if e =? ECONNABORTED then mod_sock dest (λ o, set_sock_connected o 0);; return_ 0
    else throw_errno "accept(2)") tt;;
  mod_sock dest (λ o, set_sock_connected o 1);;
  mod_sock dest (λ o, set_sock_direction o CONNECT);;
  o ← get_sock src;
  mod_sock dest (λ d, set_sock_family d (sock_family o));;
  when (sock_family o =? PF_INET) (
    d ← get_sock dest;
    r ← syscall "getpeername" [AInt (sock_fd d)];
    when (sys_ret r <? 0) (throw_errno "getpeername(2)");;
    mod_sock dest (λ o, set_sock_remote o (addr_of_bytes (sys_data r)));;
    d ← get_sock dest;
    try_ (str_from_inet buf (sin_addr (sock_remote d))))))).

Definition socket_bind (s address : ptr) (port : Z) : M Z := func (body (
  o ← get_sock s;
  (if sock_family o =? AF_INET then try_ (socket_new_inet s address port)
   else if sock_family o =? PF_LOCAL then
     a ← path_of address;
     mod_sock s (λ o, set_sock_local o (set_sun_path (sun_path_of a) (sock_local o)))
   else throw "unknown socket family");;
  mod_sock s (λ o, set_sock_direction o LISTEN);;
  o ← get_sock s;
  fd ← syscall "socket" [AInt (sock_family o); AInt SOCK_STREAM; AInt 0];
  mod_sock s (λ o, set_sock_fd o (sys_ret fd));;
  when (sys_ret fd <? 0) (throw "socket(2)");;
  _ ← syscall "setsockopt" [AInt (sys_ret fd); AInt SO_REUSEADDR; AInt 1];
  (if sock_family o =? PF_INET then try_ (socket_bind_inet s)
   else if sock_family o =? PF_LOCAL then try_ (socket_local_operation s)
   else throw "unsupported socket domain");;
  o ← get_sock s;
  r ← syscall "listen" [AInt (sock_fd o); AInt 300];
  when (sys_ret r <? 0) (throw "listen(2)"))).

Definition socket_connect (s host : ptr) (port : Z) : M Z := func (body (
  mod_sock s (λ o, set_sock_direction o CONNECT);;
  o ← get_sock s;
  if sock_family o =? AF_INET then
    mod_sock s (λ o, set_sock_local o (set_sin_port (htons port) (sock_local o)));;
    r ← socket_connect_inet s host port;
    when (r <? 0) (throw "unable to connect")
  else if sock_family o =? PF_LOCAL then
    a ← path_of host;
    mod_sock s (λ o, set_sock_local o (set_sun_path (sun_path_of a) (sock_local o)));;
    r ← socket_local_operation s;
    when (r <? 0) (throw "local connection failed")
  else throw "unsupported address family")).

(** * Reading and writing *)

(** write(2) fails with EFAULT for a null pointer. *)
Definition write_from (fd : Z) (src : option cptr) (len : Z) : M sysret :=
  match src with
  | None => set_errno EFAULT;; mret (reply_error EFAULT)
  | Some _ =>
      text ← read_cells src len;
      syscall "write" [AInt fd; AStr (omap id text)]
  end.

Definition socket_write (sock : ptr) (src : option cptr) (len : Z) : M Z := func (body (
  when (len =? 0) (return_ 0);;
  s ← get_sock sock;
  r ← write_from (sock_fd s) src len;
  when (sys_ret r <=? 0) (throw_errno "write(2)");;
  when (negb (sys_ret r =? len)) (throw "short write(2) detected"))).

(** vasprintf(3) answers -1 when it cannot allocate, which is no negative
    number in [len]. *)
Definition socket_vprintf (sock : ptr) (render : M bytes) : M Z := func (
  out ← render;
  buf ← malloc (Z.of_nat (length out) + 1);
  match buf with
  | None => labels (try_ (socket_write sock None (size_t (-1)))) (mret tt) (free None)
  | Some _ =>
      store buf 0 (cells_of out);;
      labels (try_ (socket_write sock buf (Z.of_nat (length out)))) (mret tt) (free buf)
  end).

Definition socket_printf (sock : ptr) (render : M bytes) : M Z :=
  func (body (try_ (socket_vprintf sock render))).

Definition socket_putc (sock : ptr) (c : Z) : M Z :=
  socket_write sock (Some (CLit [char_of_int c] 0)) 1.

Definition socket_puts (sock : ptr) (cptr : option cptr) : M Z :=
  n ← strlen cptr; socket_write sock cptr n.

Definition socket_put_str (sock src : ptr) : M Z :=
  s ← get_str src; socket_write sock (str_value s) (str_len s).

Definition socket_read (dest : ptr) (size : Z) (sock : ptr) : M Z := func (body (
  s ← get_sock sock;
  try_ (str_read dest (sock_fd s) size))).

(** What an iteration of the loops of [socket_readline] does with a reply of
    read(2): whether they go on. *)
Definition read_more (line sock : ptr) : M bool :=
  s ← get_sock sock;
  r ← syscall "read" [AInt (sock_fd s); AInt (RECV_BUF_SIZE - 1)];
  let i := sys_ret r in
  e ← (if i <? 0 then get_errno else mret 0);
  if (i <? 0) && (e =? EINTR) then mret true else
  when (i <? 0) (
    if e =? EAGAIN then mod_sock sock (λ o, set_sock_timeout o 1);; return_ 0
    else if e =? EBADF then
      mod_sock sock (λ o, set_sock_connected o 0);;
      mod_sock sock (λ o, set_sock_fd o (-1))
    else throw_errno "read(2)");;
  (if 0 <? i then try_ (str_cat line (Some (CLit (take (Z.to_nat i) (sys_data r)) 0)))
   else when (i =? 0) (mod_sock sock (λ o, set_sock_connected o 0)));;
  l ← get_str line;
  s ← get_sock sock;
  if (str_len l =? 0) && negb (i =? 0) && negb (sock_connected s =? 0) then mret true else
  when (str_len l =? 0) (
    mod_sock sock (λ o, set_sock_connected o 0);;
    throw "truncated read(2), connection aborted");;
  t ← c_str (str_value l);
  mret (negb (sock_connected s =? 0) && negb (strchr t LF)).

Definition socket_readline (dest sock : ptr) : M Z :=
  func (auto_str (λ line, auto_str (λ fragment, auto_list (λ tok, body (
    s ← get_sock sock;
    rb ← get_list (sock_read_buf s);
    when ((0 <? list_count rb) && (sock_fragmented s =? 0)) (
      try_ (list_shift dest (sock_read_buf s));;
      return_ 0);;
    w ← get_world;
    loop (S (length (answers (sys w)))) (λ _,
      more ← read_more line sock;
      mret (if (more : bool) then inl tt else inr tt)) tt;;
    try_ (str_split tok line (int_of_char LF));;
    s ← get_sock sock;
    let read_buf := sock_read_buf s in
    when (negb (sock_fragmented s =? 0)) (
      rb ← get_list read_buf;
      when (is_null (list_tail rb)) (throw "logic error; an empty list cannot contain a fragment");;
      t ← get_list tok;
      when (is_null (list_head t)) (throw "logic error; the token list has no head");;
      last ← get_ent (list_tail rb);
      first ← get_ent (list_head t);
      try_ (str_append (ent_value last) (ent_value first));;
      try_ (list_shift fragment tok));;
    try_ (list_merge read_buf tok);;
    rc ← str_cmp_terminator line (int_of_char LF);
    mod_sock sock (λ o, set_sock_fragmented o (if rc =? 0 then 0 else 1));;
    try_ (list_shift dest read_buf)))))).

Definition socket_close (sock : ptr) : M Z := func (body (
  s ← get_sock sock;
  when (sock_fd s <? 0) (return_ 0);;
  checked "close" [AInt (sock_fd s)];;
  mod_sock sock (λ o, set_sock_fd o (-1)))).

(** * The other end *)

Definition getpeereid (fd : Z) (euid egid : ptr) : M Z := func (body (
  r ← syscall "getsockopt" [AInt fd; AInt SO_PEERCRED];
  when (sys_ret r <? 0) throw_silent;;
  set_var euid (st_uid (sys_stat r));;
  set_var egid (st_gid (sys_stat r)))).

Definition socket_get_credentials (uid gid sock : ptr) : M Z := func (body (
  s ← get_sock sock;
  when (negb (sock_family s =? PF_LOCAL)) (throw "cannot get socket credentials: not an PF_LOCAL socket");;
  r ← getpeereid (sock_fd s) uid gid;
  when (r <? 0) (throw_errno "getpeereid(2)"))).

Definition socket_get_peer_addr (dest src : ptr) : M Z := func (body (
  s ← get_sock src;
  if sock_family s =? PF_INET then try_ (str_from_inet dest (sin_addr (sock_remote s)))
  else if sock_family s =? PF_LOCAL then try_ (str_cpy dest (Some (CLit (B "127.0.0.1") 0)))
  else throw "socket family not supported")).

Definition socket_get_peer_name (result sock : ptr) : M Z := func (body (
  s ← get_sock sock;
  when (sock_connected s =? 0) (throw "invalid argument: socket is not connected");;
  when (sock_family s =? PF_LOCAL) (
    try_ (str_cpy result (Some (CLit (B "localhost") 0)));;
    return_ 0);;
  try_ (str_cpy result (Some (CLit (inet_ntop (sin_addr (sock_remote s))) 0))))).
