(* ===== verification/SessionOps.v ===== *)
(** session.c: client sessions and the table of session controllers.

    The hooks of a controller are functions of the program that uses the
    library.  They are the operation of the class [Hooks]; a function pointer
    is a number, and a call through the null pointer is undefined. *)

From S2P Require Import Prelude Types Machine StringOps RegexOps ListOps HashOps PasswdOps.
From S2P Require Import FileOps UidMapOps InetOps DnsOps SocketOps.

Open Scope Z_scope.

(** * nc_session.h *)

Definition SESSION_UNDEF : Z := 0.
Definition SESSION_GREETING : Z := 1.
Definition SESSION_OPEN : Z := 2.
Definition SESSION_READ : Z := 3.
Definition SESSION_IDLE : Z := 4.
Definition SESSION_CLOSED : Z := 6.

(** SESSION_HOOKS *)
Definition SESSION_REQUEST_HANDLER : Z := 0.
Definition SESSION_RESPONSE_HANDLER : Z := 1.
Definition SESSION_INIT : Z := 2.
Definition SESSION_RESET : Z := 3.
Definition SESSION_TIMEOUT : Z := 4.
Definition SESSION_OVERLOAD : Z := 5.
Definition SESSION_DESTROY : Z := 6.
Definition SESSION_HOOK_MAX : Z := 7.

Definition CONTROLLER_MAX : Z := 10.

(** The second argument of a hook: a string object, a number, characters that
    are passed for a string object, or none. *)
Inductive hook_arg := ArgStr (p : ptr) | ArgLong (z : Z) | ArgChars (c : option cptr) | NoArg.

Class Hooks := { hook_code : Z → ptr → hook_arg → M Z }.

Definition set_session_sock p s := mk_session (s_user s) (s_groups s) (s_srv s) p (s_start_time s)
  (s_session_state s) (s_error_count s) (s_argv s) (s_context s) (s_code s) (s_header s)
  (s_body s) (s_asis s) (s_controller_handle s).
Definition set_session_srv p s := mk_session (s_user s) (s_groups s) p (s_sock s) (s_start_time s)
  (s_session_state s) (s_error_count s) (s_argv s) (s_context s) (s_code s) (s_header s)
  (s_body s) (s_asis s) (s_controller_handle s).
Definition set_session_state z s := mk_session (s_user s) (s_groups s) (s_srv s) (s_sock s)
  (s_start_time s) z (s_error_count s) (s_argv s) (s_context s) (s_code s) (s_header s)
  (s_body s) (s_asis s) (s_controller_handle s).
Definition set_session_times t s := mk_session (s_user s) (s_groups s) (s_srv s) (s_sock s)
  t (s_session_state s) (s_error_count s) (s_argv s) (s_context s) (s_code s) (s_header s)
  (s_body s) (s_asis s) (s_controller_handle s).
Definition set_session_errors z s := mk_session (s_user s) (s_groups s) (s_srv s) (s_sock s)
  (s_start_time s) (s_session_state s) z (s_argv s) (s_context s) (s_code s) (s_header s)
  (s_body s) (s_asis s) (s_controller_handle s).
Definition set_session_response c b s := mk_session (s_user s) (s_groups s) (s_srv s) (s_sock s)
  (s_start_time s) (s_session_state s) (s_error_count s) (s_argv s) (s_context s) c (s_header s)
  (s_body s) b (s_controller_handle s).
Definition set_session_handle h s := mk_session (s_user s) (s_groups s) (s_srv s) (s_sock s)
  (s_start_time s) (s_session_state s) (s_error_count s) (s_argv s) (s_context s) (s_code s)
  (s_header s) (s_body s) (s_asis s) h.
(** The members that a constructor makes and a destructor releases. *)
Definition set_session_parts user groups argv context header bod s := mk_session user groups
  (s_srv s) (s_sock s) (s_start_time s) (s_session_state s) (s_error_count s) argv context
  (s_code s) header bod (s_asis s) (s_controller_handle s).

(** * The controller table *)

(** The member that a hook number selects, and whether it is called only if
    it is set. *)
Definition hook_of (c : session_controller_t) (func_num : Z) : option (Z * bool) :=
  if func_num =? SESSION_REQUEST_HANDLER then Some (request_handler_func c, false)
  else if func_num =? SESSION_RESPONSE_HANDLER then Some (response_handler_func c, false)
  else if func_num =? SESSION_INIT then Some (session_init_func c, true)
  else if func_num =? SESSION_RESET then Some (session_reset_func c, true)
  else if func_num =? SESSION_TIMEOUT then Some (timeout_handler_func c, true)
  else if func_num =? SESSION_OVERLOAD then Some (overload_handler_func c, true)
  else if func_num =? SESSION_DESTROY then Some (session_destroy_func c, true)
  else None.

(** [*handle] is the second result. *)
Definition session_controller_register (ctl : session_controller_t) : M (Z * option Z) :=
  w ← get_world;
  let n := CONTROLLER_COUNT (net w) in
  if CONTROLLER_MAX <=? n then mret (-1, None) else
  modify (upd_net (upd_table ((n + 1) mod 2 ^ 32) (<[Z.to_nat n := ctl]> (CONTROLLER (net w)))));;
  mret (0, Some n).

Section hooks.
Context `{Hooks}.

Definition session_controller_invoke (s : ptr) (func_num : Z) (arg : hook_arg) : M Z := func (body (
  o ← get_session s;
  let handle := s_controller_handle o in
  when (handle =? 0) (return_ 0);;
  w ← get_world;
  when (CONTROLLER_COUNT (net w) <=? handle) (throw "invalid controller handle");;
  when (SESSION_HOOK_MAX <=? func_num) (throw "invalid function number");;
  ctl ← match CONTROLLER (net w) !! Z.to_nat handle with
        | Some c => mret c
        | None => crash_with BadAccess
        end;
  rc ← match hook_of ctl func_num with
       | Some (fn, optional) =>
           if fn =? 0 then if (optional : bool) then mret 0 else crash_with NullDeref
           else hook_code fn s arg
       | None => mret 0
       end;
  when (negb (rc =? 0)) (throw "controller: hook function returned an error"))).

Definition session_greeting (s : ptr) : M Z := func (body (
  r ← session_controller_invoke s SESSION_RESPONSE_HANDLER (ArgLong 1);
  when (r <? 0) (throw "error sending greeting");;
  mod_session s (set_session_state SESSION_READ))).

Definition response_reset (s : ptr) : M Z := func (body (
  o ← get_session s;
  try_ (str_truncate (s_header o));;
  try_ (str_truncate (s_body o));;
  mod_session s (set_session_response 0 false))).

Definition response_set (s : ptr) (code : Z) (header bod : option cptr) : M Z := func (body (
  mod_session s (λ o, set_session_response code (s_asis o) o);;
  o ← get_session s;
  try_ (str_cpy (s_header o) header);;
  try_ (str_cpy (s_body o) bod))).

(** [f(&s->member);] for a constructor or a destructor. *)
Definition member (s : ptr) (f : ptr → M (Z * ptr)) (get : session_t → ptr)
    (set : ptr → session_t → session_t) : M unit :=
  o ← get_session s;
  '(rc, p) ← f (get o);
  mod_session s (set p);;
  try_ (mret rc).

Definition set_s_argv p s := set_session_parts (s_user s) (s_groups s) p (s_context s) (s_header s) (s_body s) s.
Definition set_s_context p s := set_session_parts (s_user s) (s_groups s) (s_argv s) p (s_header s) (s_body s) s.
Definition set_s_groups p s := set_session_parts (s_user s) p (s_argv s) (s_context s) (s_header s) (s_body s) s.
Definition set_s_body p s := set_session_parts (s_user s) (s_groups s) (s_argv s) (s_context s) (s_header s) p s.
Definition set_s_header p s := set_session_parts (s_user s) (s_groups s) (s_argv s) (s_context s) p (s_body s) s.
Definition set_s_user p s := set_session_parts p (s_groups s) (s_argv s) (s_context s) (s_header s) (s_body s) s.

Definition session_new (dest : ptr) : M (Z * ptr) :=
  mem_calloc (in_net upd_sessions) zero_session dest (λ s,
    rc ← func (body (
      member s list_new s_argv set_s_argv;;
      member s list_new s_context set_s_context;;
      member s list_new s_groups set_s_groups;;
      member s str_new s_body set_s_body;;
      member s str_new s_header set_s_header;;
      member s str_new s_user set_s_user;;
      mod_session s (set_session_response 0 false);;
      mod_session s (set_session_state SESSION_OPEN);;
      now ← syscall "time" [];
      mod_session s (set_session_times (sys_ret now));;
      mod_session s (set_session_handle (2 ^ 32 - 1))));
    mret (rc, s)).

Definition session_connect (session : ptr) (family : Z) (host : ptr) (port : Z) : M Z := func (body (
  mod_session session (set_session_handle 0);;
  o ← get_session session;
  when (is_null (s_sock o)) (
    member session socket_new s_sock set_session_sock;;
    o ← get_session session;
    try_ (socket_set_family (s_sock o) family));;
  o ← get_session session;
  try_ (socket_connect (s_sock o) host port))).

Definition session_close (s : ptr) : M Z := func (body (
  o ← get_session s;
  when (s_session_state o =? SESSION_UNDEF) (throw "tried to close an undefined session");;
  when (s_session_state o =? SESSION_CLOSED) (return_ 0);;
  try_ (str_truncate (s_user o));;
  try_ (list_truncate (s_groups o));;
  try_ (socket_close (s_sock o));;
  mod_session s (set_session_state SESSION_CLOSED))).

(** The second result is the new value of the pointer. *)
Definition session_destroy (s : ptr) : M (Z * ptr) :=
  rc ← func (body (
    member s list_destroy s_argv set_s_argv;;
    member s list_destroy s_context set_s_context;;
    member s list_destroy s_groups set_s_groups;;
    member s str_destroy s_body set_s_body;;
    member s str_destroy s_header set_s_header;;
    member s str_destroy s_user set_s_user;;
    try_ (session_controller_invoke s SESSION_DESTROY NoArg);;
    member s socket_destroy s_sock set_session_sock;;
    free_obj (λ w, sessions (net w)) (in_net upd_sessions) s));
  mret (rc, if rc =? 0 then None else s).

Definition session_reset (s : ptr) : M Z := func (body (
  mod_session s (set_session_errors 0);;
  try_ (session_controller_invoke s SESSION_RESET NoArg))).

(** The state gets the number of a hook. *)
Definition session_process_request (s : ptr) : M Z := func (auto_str (λ line, body (
  o ← get_session s;
  try_ (socket_readline line (s_sock o));;
  k ← get_sock (s_sock o);
  when (negb (sock_timeout k =? 0)) (
    mod_session s (set_session_state SESSION_TIMEOUT);;
    return_ 0);;
  try_ (response_reset s);;
  rc ← session_controller_invoke s SESSION_REQUEST_HANDLER (ArgStr line);
  try_ (session_controller_invoke s SESSION_RESPONSE_HANDLER (ArgLong rc))))).

Definition session_accept (s srv : ptr) : M Z := func (body (
  member s socket_new s_sock set_session_sock;;
  v ← get_server srv;
  o ← get_session s;
  try_ (socket_set_family (s_sock o) (srv_family v));;
  mod_session s (set_session_srv srv);;
  mod_session s (set_session_handle (srv_controller_handle v));;
  try_ (socket_accept (s_sock o) (srv_sock v));;
  try_ (socket_set_timeout (s_sock o) (srv_timeout v) 60))).

(** [fuel] bounds the requests; the thread ends with pthread_exit(3). *)
Definition session_handler (fuel : nat) (s : ptr) : M Z := func (body (
  mod_session s (set_session_state SESSION_GREETING);;
  try_ (session_greeting s);;
  loop fuel (λ _,
    o ← get_session s;
    if s_session_state o =? SESSION_READ
    then _ ← session_process_request s; mret (inl tt)
    else mret (inr tt)) tt;;
  o ← get_session s;
  when (s_session_state o =? SESSION_TIMEOUT) (
    k ← get_sock (s_sock o);
    when (negb (sock_connected k =? 0)) (
      _ ← session_controller_invoke s SESSION_TIMEOUT NoArg; mret tt));;
  when (negb (is_null s)) (
    try_ (session_close s);;
    '(rc, _) ← session_destroy s;
    when (negb (rc =? 0)) (leave (Leave (-1))));;
  _ ← syscall "pthread_exit" []; mret tt)).

Definition session_is_loopback (s : ptr) : M Z := func (auto_str (λ buf, body (
  o ← get_session s;
  k ← get_sock (s_sock o);
  try_ (str_from_inet buf (sin_addr (sock_remote k)));;
  r ← str_cmp buf (Some (CLit (B "127.0.0.1") 0));
  when (r <? 0) throw_silent))).

Definition session_test (s : ptr) (line : option cptr) (expected_response : Z) : M Z :=
  func (auto_str (λ buf, body (
    try_ (str_cpy buf line);;
    try_ (str_putc buf (int_of_char LF));;
    r ← session_controller_invoke s SESSION_REQUEST_HANDLER (ArgChars line);
    when (r <? 0) (throw "error in handler function");;
    o ← get_session s;
    when (negb (s_code o =? expected_response)) (throw "test failed")))).

End hooks.
