(* ===== verification/ProcessOps.v ===== *)
(** process.c, signal.c and thread.c: the pidfile of a program, processes,
    signal dispositions and the creation of threads.

    Replies: [fork] gives the process number, 0 in the child; [system] the wait
    status; [pthread_create] and the functions on attributes a positive number
    when they fail. *)

From S2P Require Import Prelude Types Machine StringOps RegexOps ListOps HashOps PasswdOps.
From S2P Require Import FileOps UidMapOps LogOps.

Open Scope Z_scope.

Definition ESRCH : Z := 3.

(** The directory of the pidfiles is chosen when the library is configured. *)
Class Site := { NC_IPCDIR : bytes }.

(** [string_t *x = NULL; str_new(&x); ... finally: destroy(str, &x);] *)
Definition manual_str (k : ptr → M unit) : M Z :=
  '(rc, p) ← str_new None;
  if negb (rc =? 0) then throw "" else
  labels (k p) (mret tt)
    ('(rc, _) ← str_destroy p; when (negb (rc =? 0)) (leave (Leave (-1)))).

(** The same for two variables. *)
Definition manual_strs (k : ptr → ptr → M unit) : M Z :=
  '(rc, p) ← str_new None;
  if negb (rc =? 0) then throw "" else
  '(rc, q) ← str_new None;
  if negb (rc =? 0) then throw "" else
  labels (k p q) (mret tt)
    ('(rc, _) ← str_destroy p; when (negb (rc =? 0)) (leave (Leave (-1)));;
     '(rc, _) ← str_destroy q; when (negb (rc =? 0)) (leave (Leave (-1)))).

Section pidfile.
Context `{Site}.

(** "%s/%s.pid" *)
Definition pidfile_path (program : ptr) : M bytes :=
  t ← path_of program; mret (NC_IPCDIR ++ B "/" ++ t ++ B ".pid").

Definition pidfile_stat (result program : ptr) : M Z := func (manual_str (λ path,
  try_ (str_sprintf path (pidfile_path program));;
  r ← stat path;
  set_var result (if sys_ret r =? 0 then 1 else 0))).

Definition pidfile_kill (program : ptr) (signal_num : Z) : M Z := func (local_var (λ exists_,
  try_ (pidfile_stat exists_ program);;
  e ← get_var exists_;
  if e =? 0 then body (return_ 0) else
  '(rc, abspath) ← str_new None;
  if negb (rc =? 0) then throw "" else
  try_ (str_sprintf abspath (pidfile_path program));;
  '(rc, pid_str) ← str_new None;
  if negb (rc =? 0) then throw "" else
  labels (
    try_ (file_read pid_str abspath);;
    try_ (str_chomp pid_str);;
    pid ← try_out (str_to_uint32 pid_str);
    r ← syscall "kill" [AInt (to_signed 32 (default 0 pid)); AInt signal_num];
    when (sys_ret r <? 0) (
      e ← get_errno;
      when (negb ((e =? 0) || (e =? ESRCH))) (throw_errno "kill(2)"));;
    p ← path_of abspath;
    checked "unlink" [AStr p])
  (mret tt)
  ('(rc, _) ← str_destroy abspath; when (negb (rc =? 0)) (leave (Leave (-1)));;
   '(rc, _) ← str_destroy pid_str; when (negb (rc =? 0)) (leave (Leave (-1)))))).

Definition pidfile_create (program : ptr) : M Z := func (local_var (λ exists_, manual_strs (λ path pid_str,
  try_ (str_sprintf path (pidfile_path program));;
  try_ (pidfile_stat exists_ program);;
  e ← get_var exists_;
  when (negb (e =? 0)) (
    r ← pidfile_kill program 0;
    when (r =? 0) (throw "another instance is already running"));;
  pid ← syscall "getpid" [];
  try_ (str_sprintf pid_str (mret (format_u (sys_ret pid) ++ [LF])));;
  try_ (file_write path pid_str)))).

(** The parent ends with exit(3); the state of the log is the second result. *)
Definition process_daemonize (progname : ptr) (logopt : Z) (st : log_state) : M (Z * log_state) :=
  pid ← syscall "fork" [];
  if sys_ret pid <? 0 then mret (-1, st) else
  if 0 <? sys_ret pid then crash_with (Exited 0) else
  sid ← syscall "setsid" [];
  if sys_ret sid <? 0 then mret (-1, st) else
  _ ← syscall "close" [AInt 0];
  _ ← syscall "close" [AInt 1];
  _ ← syscall "close" [AInt 2];
  s ← get_str progname;
  '(rc, st) ← syslog_open (str_value s) logopt st;
  if negb (rc =? 0) then mret (-1, st) else
  rc ← pidfile_create progname;
  mret (if rc =? 0 then 0 else -1, st).

End pidfile.

(** * Processes *)

Definition process_setrlimit (resource max : Z) : M Z := func (body (
  uid ← syscall "getuid" [];
  when (0 <? sys_ret uid) (throw "setrlimit failed: not running as root");;
  r ← syscall "setrlimit" [AInt resource; AInt max];
  when (negb (sys_ret r =? 0)) (throw_errno "setrlimit(2)"))).

(** * signal.c *)

Definition SIGHUP : Z := 1.
Definition SIGINT : Z := 2.
Definition SIGQUIT : Z := 3.
Definition SIGUSR1 : Z := 10.
Definition SIGUSR2 : Z := 12.
Definition SIGTSTP : Z := 20.

Definition SIGALRM : Z := 14.
Definition SIGTERM : Z := 15.

(** The global variables that a handler sets. *)
Record signal_flags := mk_signal_flags {
  SIGALRM_triggered : Z;
  SIGHUP_triggered : Z;
  SIGUSR1_triggered : Z;
  SIGUSR2_triggered : Z;
  SIGTERM_triggered : Z
}.

(** What the handler does with the flags when the signal arrives; [inl] is the
    status of exit(3). *)
Definition default_signal_handler_run (signum : Z) (f : signal_flags) : Z + signal_flags :=
  if signum =? SIGINT then inl 1
  else if signum =? SIGHUP then
    inr (mk_signal_flags (SIGALRM_triggered f) 1 (SIGUSR1_triggered f) (SIGUSR2_triggered f) (SIGTERM_triggered f))
  else if signum =? SIGUSR1 then
    inr (mk_signal_flags (SIGALRM_triggered f) (SIGHUP_triggered f) 1 (SIGUSR2_triggered f) (SIGTERM_triggered f))
  else inr f.

Definition test_alarm_timer (f : signal_flags) : Z := if SIGALRM_triggered f =? 0 then 0 else 1.

(** The dispositions, as arguments. *)
Definition SIG_DFL : Z := 0.
Definition SIG_IGN : Z := 1.
Definition default_signal_handler : Z := 2.

Definition signal_handler_install (sigcatch func_ptr : Z) : M Z := func (body (
  r ← syscall "sigemptyset" [];
  when (negb (sys_ret r =? 0)) (throw_errno "sigemptyset(3)");;
  r ← syscall "sigaction" [AInt sigcatch; AInt func_ptr];
  when (negb (sys_ret r =? 0)) (throw_errno "sigaction(3)"))).

Definition signal_library_init : M Z := func (body (
  try_ (signal_handler_install SIGHUP default_signal_handler);;
  try_ (signal_handler_install SIGUSR1 default_signal_handler);;
  try_ (signal_handler_install SIGINT default_signal_handler))).

(** [(void) signal(num, disposition);] for each of the numbers. *)
Fixpoint set_signals (nums : list Z) (disposition : Z) : M unit :=
  match nums with
  | [] => mret tt
  | n :: rest => _ ← syscall "signal" [AInt n; AInt disposition]; set_signals rest disposition
  end.

Definition signal_mask_all : M Z := func (body (
  set_signals [SIGHUP; SIGINT; SIGQUIT; SIGTSTP; SIGUSR1; SIGUSR2] SIG_IGN)).

Definition signal_unmask_all : M Z := func (body (
  set_signals [SIGHUP; SIGINT; SIGQUIT; SIGTSTP; SIGUSR1] SIG_DFL)).

Definition default_sigchld_handler : M unit :=
  w ← get_world;
  loop (S (length (answers (sys w)))) (λ _,
    r ← syscall "waitpid" [AInt 0];
    mret (if 0 <? sys_ret r then inl tt else inr tt)) tt.

(** * More of process.c *)

(** [child_pid] may be null; [function] is run in the child. *)
Definition process_create (child_pid : ptr) (function : M Z) : M Z := func (body (
  pid ← loop 32 (λ retries,
    pid ← syscall "fork" [];
    if negb (sys_ret pid <? 0) then mret (inr (sys_ret pid)) else
    e ← get_errno;
    if (e =? EAGAIN) && (retries <? 30) then
      _ ← syscall "sleep" [AInt 2]; mret (inl (retries + 1))
    else throw "Unable to fork(2)") 0;
  when (0 <? pid) (
    when (negb (is_null child_pid)) (set_var child_pid pid);;
    return_ 0);;
  when (pid =? 0) (try_ signal_library_init;; _ ← function; mret tt))).

Definition WIFEXITED (status : Z) : bool := Z.land status 127 =? 0.
Definition WEXITSTATUS (status : Z) : Z := Z.land (Z.shiftr status 8) 255.

Definition process_run_system (cmd : ptr) : M Z := func (body (
  c ← path_of cmd;
  r ← syscall "system" [AStr c];
  when (negb (WIFEXITED (sys_ret r))) (throw "subprocess reported abnormal termination");;
  when (negb (WEXITSTATUS (sys_ret r) =? 0)) (throw "subprocess exited with a non-zero return value"))).

Definition process_sleep (sec : Z) : M Z := func (body (
  slept ← syscall "sleep" [AInt sec];
  when (0 <? sys_ret slept) (throw "sleep interrupted"))).

(** * thread.c *)

Definition thread_create : M Z := func (body (
  i ← syscall "pthread_create" [AInt 0];
  when (negb (sys_ret i =? 0)) (throw_errno "pthread_create(3)"))).

(** The argument tells that the thread is detached. *)
Definition thread_create_detached : M Z := func (body (
  i ← syscall "pthread_create" [AInt 1];
  when (negb (sys_ret i =? 0)) (throw_errno "pthread_create(3)"))).

Definition thread_library_init : M Z := func (body (
  _ ← syscall "pthread_attr_init" [AInt 0];
  _ ← syscall "pthread_attr_init" [AInt 1];
  r ← syscall "pthread_attr_setdetachstate" [AInt 1];
  when (negb (sys_ret r =? 0)) (throw_errno "pthread_attr_setdetachstate(3)");;
  r ← syscall "pthread_attr_setstacksize" [AInt 0; AInt (1024 * 64)];
  when (negb (sys_ret r =? 0)) (throw_errno "pthread_attr_setstacksize(3)");;
  r ← syscall "pthread_attr_setstacksize" [AInt 1; AInt (1024 * 64)];
  when (negb (sys_ret r =? 0)) (throw_errno "pthread_attr_setstacksize(3)");;
  _ ← syscall "pthread_create" [AInt 1];
  _ ← syscall "atexit" []; mret tt)).

Definition thread_library_atexit : M unit :=
  _ ← syscall "pthread_attr_destroy" [AInt 0];
  _ ← syscall "pthread_attr_destroy" [AInt 1]; mret tt.
