(* ===== verification/ServerOps.v ===== *)
(** server.c: server objects, dropping privileges, accepting clients, and the
    loop that serves several sockets.

    [poll] replies with the number of descriptors that have events, and in
    [sys_data] with the events of each descriptor as a character. *)

From S2P Require Import Prelude Types Machine StringOps RegexOps ListOps HashOps PasswdOps.
From S2P Require Import FileOps UidMapOps InetOps DnsOps SocketOps SessionOps ProcessOps.

Open Scope Z_scope.

Definition MAX_CLIENT_COUNT : Z := 10000.

(** [events] of poll(2). *)
Definition POLLIN : Z := 1.
Definition POLLERR : Z := 8.
Definition POLLHUP : Z := 16.
Definition POLLNVAL : Z := 32.

Definition set_srv_strings uid gid service address s := mk_server uid gid service (srv_family s)
  address (srv_port s) (srv_mode s) (srv_timeout s) (srv_sock s) (srv_controller s)
  (srv_controller_handle s).
Definition set_srv_defaults port mode family timeout s := mk_server (srv_uid s) (srv_gid s)
  (srv_service s) family (srv_address s) port mode timeout (srv_sock s) (srv_controller s)
  (srv_controller_handle s).
Definition set_srv_sock p s := mk_server (srv_uid s) (srv_gid s) (srv_service s) (srv_family s)
  (srv_address s) (srv_port s) (srv_mode s) (srv_timeout s) p (srv_controller s)
  (srv_controller_handle s).
Definition set_srv_controller p s := mk_server (srv_uid s) (srv_gid s) (srv_service s)
  (srv_family s) (srv_address s) (srv_port s) (srv_mode s) (srv_timeout s) (srv_sock s) p
  (srv_controller_handle s).
Definition set_srv_handle h s := mk_server (srv_uid s) (srv_gid s) (srv_service s) (srv_family s)
  (srv_address s) (srv_port s) (srv_mode s) (srv_timeout s) (srv_sock s) (srv_controller s) h.
Definition set_srv_uid p s := set_srv_strings p (srv_gid s) (srv_service s) (srv_address s) s.
Definition set_srv_gid p s := set_srv_strings (srv_uid s) p (srv_service s) (srv_address s) s.
Definition set_srv_service p s := set_srv_strings (srv_uid s) (srv_gid s) p (srv_address s) s.
Definition set_srv_address p s := set_srv_strings (srv_uid s) (srv_gid s) (srv_service s) p s.

(** [f(&s->member);] *)
Definition srv_member (s : ptr) (f : ptr → M (Z * ptr)) (get : server_t → ptr)
    (set : ptr → server_t → server_t) : M unit :=
  o ← get_server s;
  '(rc, p) ← f (get o);
  mod_server s (set p);;
  try_ (mret rc).

Definition new_controller (dest : ptr) : M (Z * ptr) :=
  mem_calloc (in_net upd_controllers) zero_controller dest (λ c, mret (0, c)).

Definition server_new (srv : ptr) : M (Z * ptr) :=
  mem_calloc (in_net upd_servers) zero_server srv (λ s,
    rc ← func (body (
      srv_member s new_controller srv_controller set_srv_controller;;
      srv_member s str_new srv_uid set_srv_uid;;
      srv_member s str_new srv_gid set_srv_gid;;
      srv_member s str_new srv_service set_srv_service;;
      srv_member s str_new srv_address set_srv_address;;
      srv_member s socket_new srv_sock set_srv_sock;;
      o ← get_server s;
      try_ (str_cpy (srv_uid o) (Some (CLit (B "nobody") 0)));;
      try_ (str_cpy (srv_gid o) (Some (CLit (B "nogroup") 0)));;
      try_ (str_cpy (srv_service o) (Some (CLit (B "undef-proto") 0)));;
      mod_server s (set_srv_defaults (-1) 432 PF_INET (5 * 60))));
    mret (rc, s)).

Definition server_destroy (s : ptr) : M (Z * ptr) :=
  rc ← func (body (
    srv_member s str_destroy srv_uid set_srv_uid;;
    srv_member s str_destroy srv_gid set_srv_gid;;
    srv_member s str_destroy srv_service set_srv_service;;
    srv_member s str_destroy srv_address set_srv_address;;
    srv_member s socket_destroy srv_sock set_srv_sock;;
    o ← get_server s;
    free_obj (λ w, controllers (net w)) (in_net upd_controllers) (srv_controller o);;
    free_obj (λ w, servers (net w)) (in_net upd_servers) s));
  mret (rc, if rc =? 0 then None else s).

Definition server_socket (srv : ptr) : M Z := func (body (
  v ← get_server srv;
  try_ (socket_set_family (srv_sock v) (srv_family v));;
  when (srv_family v =? PF_LOCAL)
    (try_ (socket_set_credentials (srv_sock v) (srv_uid v) (srv_gid v) (srv_mode v))))).

(** The existence of the user is asked for with the name of the group. *)
Definition drop_privileges (uid_str gid_str chrootdir : ptr) : M Z :=
  func (auto_str (λ buf, auto_str (λ path, auto_str (λ regex, body (
    me ← syscall "getuid" [];
    when (0 <? sys_ret me) (return_ 0);;
    try_ dns_library_init;;
    try_ thread_library_init;;
    '(rc, mtch) ← group_exists gid_str;
    try_ (mret rc);;
    gid ← (if (mtch : bool) then try_out (group_get_id_by_name 0 gid_str)
           else throw "a group with that name does not exist");
    '(rc, mtch) ← passwd_exists gid_str;
    try_ (mret rc);;
    uid ← (if (mtch : bool) then try_out (passwd_get_id_by_name uid_str)
           else throw "a user with that name does not exist");
    dir ← path_of chrootdir;
    r ← syscall "chdir" [AStr dir];
    when (sys_ret r <? 0) (throw "chdir(2)");;
    r ← syscall "chroot" [AStr dir];
    when (sys_ret r <? 0) (throw "chroot(2)");;
    try_ (str_sprintf regex (d ← path_of chrootdir; mret (B "^" ++ d)));;
    r ← syscall "setgid" [AInt gid];
    when (sys_ret r <? 0) (throw_errno "setgid(2)");;
    r ← syscall "setuid" [AInt (default 0 uid)];
    when (sys_ret r <? 0) (throw_errno "setuid(2)");;
    try_ (str_cpy buf (Some (CLit (B "root") 0)));;
    '(rc, mtch) ← passwd_exists buf;
    try_ (mret rc);;
    when (negb mtch) (throw "a problem with the chroot(2) jail")))))).

(** What is compiled of three functions of server.c; the rest of their code
    stands under [#if FIXME]. *)
Definition server_destroy_all : M Z := func (body (mret tt)).

Definition server_prepare (srv : ptr) : M Z := func (body (mret tt)).

Definition server_signal_handler : M unit := _ ← server_destroy_all; crash_with (Exited 1).

Section hooks.
Context `{Hooks}.

(** The thread that serves the client runs [session_handler]. *)
Definition server_accept (srv : ptr) : M Z := func (
  '(rc, session) ← session_new None;
  if negb (rc =? 0) then throw "" else
  labels (
    v ← get_server srv;
    mod_session session (set_session_handle (srv_controller_handle v));;
    try_ (session_controller_invoke session SESSION_INIT NoArg);;
    try_ (session_accept session srv);;
    o ← get_session session;
    k ← get_sock (s_sock o);
    when (MAX_CLIENT_COUNT <=? sock_fd k) (throw "connection limits exceeded");;
    when (sock_fd k <? 0) (throw "invalid session fd");;
    t ← thread_create_detached;
    when (t <? 0) (
      try_ (session_controller_invoke session SESSION_OVERLOAD NoArg);;
      _ ← session_close session;
      '(rc, _) ← session_destroy session;
      try_ (mret rc);;
      return_ 0))
  (_ ← session_close session;
   '(rc, _) ← session_destroy session;
   when (negb (rc =? 0)) (leave (Leave (-1))))
  (mret tt)).

(** * The multiplexer *)

(** The fields that are printed are read. *)
Definition server_dump (srv : ptr) : M Z := func (body (
  v ← get_server srv;
  _ ← path_of (srv_uid v);
  _ ← path_of (srv_gid v);
  _ ← path_of (srv_service v);
  _ ← path_of (srv_address v);
  mret tt)).

Definition pollfd_bit (ev : ascii) (bit : Z) : bool := negb (Z.land (uchar ev) bit =? 0).

(** One traversal of the descriptors after poll(2): [n] is the index, [j] the
    number of clients accepted, [i] what poll(2) answered.  The arrays of the
    descriptors and the handlers have [length handler] elements that were set;
    an access beyond them reads memory that was not, or past the end. *)
Definition examine (handler : list ptr) (revents : bytes) (i : Z) : M Z :=
  loop (S (S (length handler))) (λ '(n, j),
    if (n <=? Z.of_nat (length handler)) && (j <? i) then
      match handler !! Z.to_nat n with
      | None => crash_with BadAccess
      | Some srv =>
          let ev := nth (Z.to_nat n) revents NUL in
          if pollfd_bit ev POLLIN then _ ← server_accept srv; mret (inl (n + 1, j + 1))
          else
            when (pollfd_bit ev POLLERR || pollfd_bit ev POLLHUP || pollfd_bit ev POLLNVAL)
              (try_ (server_dump srv));;
            mret (inl (n + 1, j))
      end
    else mret (inr j)) (0, 0).

(** The endless loop of the server; [fuel] bounds the calls of poll(2). *)
Definition serve (fuel : nat) (handler : list ptr) : M unit :=
  loop fuel (λ _,
    r ← syscall "poll" [AInt (Z.of_nat (length handler))];
    again ← failed_with r EINTR;
    if (again : bool) then mret (inl tt) else
    when (sys_ret r <? 0) (throw_errno "poll(2)");;
    j ← examine handler (sys_data r) (sys_ret r);
    when (j <? sys_ret r) (throw "error: unhandled connection(s)");;
    mret (inl tt)) tt.

(** The servers of one constructor, one for each address; the controller is
    registered for the first. *)
Definition start_servers (constructor : ptr → M Z) (bind_addr : ptr) (handle : Z) :
    M (list ptr * Z) :=
  h ← get_list bind_addr;
  fuel ← ents_fuel;
  loop fuel (λ '(cur, done_, handle),
    if is_null cur then mret (inr (done_, handle)) else
    e ← get_ent cur;
    '(rc, srv) ← server_new None;
    try_ (mret rc);;
    r ← constructor srv;
    when (r <? 0) (throw "server constructor failed");;
    try_ (server_socket srv);;
    h ← get_list bind_addr;
    v ← get_server srv;
    handle ← (if ptr_eqb cur (list_head h) then
                c ← get_controller (srv_controller v);
                '(rc, n) ← session_controller_register c;
                try_ (mret rc);;
                mret (default handle n)
              else mret handle);
    mod_server srv (set_srv_handle handle);;
    v ← get_server srv;
    when (negb (srv_family v =? PF_LOCAL)) (try_ (str_copy (srv_address v) (ent_value e)));;
    r ← socket_bind (srv_sock v) (srv_address v) (srv_port v);
    when (r <? 0) (throw "unable to bind to socket");;
    v ← get_server srv;
    let done_ := done_ ++ [srv] in
    if srv_family v =? PF_LOCAL then mret (inr (done_, handle))
    else e ← get_ent cur; mret (inl (ent_next e, done_, handle))) (list_head h, [], handle).

(** The servers of all constructors. *)
Fixpoint start_all (constructors : list (ptr → M Z)) (bind_addr : ptr) (handle : Z) :
    M (list ptr) :=
  match constructors with
  | [] => mret []
  | c :: rest =>
      '(srvs, handle) ← start_servers c bind_addr handle;
      more ← start_all rest bind_addr handle;
      mret (srvs ++ more)
  end.

(** The arrays are as long as there are addresses for each constructor; they
    are never freed. *)
Definition server_multiplex (fuel : nat) (bind_addr : ptr) (constructors : list (ptr → M Z)) : M Z :=
  func (auto_str (λ item, body (
    l ← get_list bind_addr;
    when (list_count l =? 0) (try_ (host_get_ifaddrs bind_addr AF_INET));;
    l ← get_list bind_addr;
    let pfd_count := list_count l * Z.of_nat (length constructors) in
    pfd ← malloc (pfd_count * 8);
    when (bool_decide (pfd = None)) (throw "malloc");;
    handler ← malloc (pfd_count * 80);
    when (bool_decide (handler = None)) (throw "malloc");;
    srvs ← start_all constructors bind_addr 0;
    serve fuel srvs))).

End hooks.
