(* ===== verification/ListRep.v ===== *)
(** Linked lists in memory: the abstraction of a [list_t] as the sequence of
    the texts of its entries ([list_rep]), and the frame of the operations
    that modify lists ([lstep]). *)

From S2P Require Import Prelude Types Machine Wp StringOps StringFacts ListOps.

Open Scope Z_scope.

(** * Frames for lists *)

(** What happens to entries and lists that exist in [w]: only those of [N]
    and [L] may differ. *)
Record lframe (N L : gset loc) (w w' : world) : Prop := {
  lf_ents n : (n < next_loc w)%positive → n ∉ N → ents w' !! n = ents w !! n;
  lf_lists l : (l < next_loc w)%positive → l ∉ L → lists w' !! l = lists w !! l;
  lf_hashes : hashes w' = hashes w;
  lf_files : files w' = files w;
  lf_sys : sys w' = sys w;
  lf_net : net w' = net w;
}.

(** An operation that may modify the strings of [X], the entries of [N] and
    the lists of [L], and what it creates. *)
Definition lstep (X N L : gset loc) (w w' : world) : Prop :=
  ready w' ∧ frame X w w' ∧ lframe N L w w'.

(** [X] names nothing outside [Y] that exists in [w]. *)
Definition within (w : world) (X Y : gset loc) : Prop :=
  ∀ x, x ∈ X → x ∈ Y ∨ (next_loc w ≤ x)%positive.

Lemma within_sub w X Y : X ⊆ Y → within w X Y.
Proof. intros H x Hx. left. by apply H. Qed.

Lemma within_empty w Y : within w ∅ Y.
Proof. intros x Hx. set_solver. Qed.

Lemma within_union w X1 X2 Y : within w X1 Y → within w X2 Y → within w (X1 ∪ X2) Y.
Proof. intros H1 H2 x [Hx|Hx]%elem_of_union; auto. Qed.

Lemma within_fresh w x Y : (next_loc w ≤ x)%positive → within w {[x]} Y.
Proof. intros H y ->%elem_of_singleton. by right. Qed.

Create HintDb nc_within.
#[export] Hint Resolve within_empty within_union within_fresh : nc_within.
#[export] Hint Extern 3 (within _ _ _) => apply within_sub; set_solver : nc_within.

Lemma frame_within X Y w1 w2 w3 :
  wf w1 → frame X w1 w2 → frame Y w2 w3 → within w1 Y X → frame X w1 w3.
Proof.
  intros Hwf [A1 A2 A3 A4] [B1 B2 B3 B4] HY. split; [lia| | |].
  - intros q Hq HX. rewrite B2; [by apply A2|lia|].
    intros Hq'. destruct (HY q Hq') as [|]; [done|lia].
  - intros b Hb HX. rewrite B3; [by apply A3|lia|].
    intros p Hp Ho. destruct (A4 _ _ Ho) as [Ho'|]; [|lia].
    destruct (HY p Hp) as [Hp'|Hp']; [by eapply HX|].
    destruct Ho' as (s & o & Hs & _). by rewrite (wf_strs w1 Hwf p) in Hs.
  - intros p b Ho. destruct (B4 _ _ Ho) as [Ho'|]; [|right; lia]. by apply A4.
Qed.

Lemma lframe_within N L N' L' w1 w2 w3 :
  (next_loc w1 ≤ next_loc w2)%positive →
  lframe N L w1 w2 → lframe N' L' w2 w3 → within w1 N' N → within w1 L' L →
  lframe N L w1 w3.
Proof.
  intros Hle [A1 A2 A3 A4 A5] [B1 B2 B3 B4 B5] HN HL. split; [| |congruence..].
  - intros n Hn Hx. rewrite B1; [by apply A1|lia|].
    intros Hn'. destruct (HN n Hn') as [|]; [done|lia].
  - intros l Hl Hx. rewrite B2; [by apply A2|lia|].
    intros Hl'. destruct (HL l Hl') as [|]; [done|lia].
Qed.

(** Steps compose; the second may also modify what the first created. *)
Lemma lstep_trans X N L X' N' L' w1 w2 w3 :
  ready w1 → lstep X N L w1 w2 → lstep X' N' L' w2 w3 →
  within w1 X' X → within w1 N' N → within w1 L' L → lstep X N L w1 w3.
Proof.
  intros [Hwf _] (_ & F1 & G1) (R & F2 & G2) HX HN HL. split; [done|].
  split; [by apply (frame_within X X' w1 w2 w3)|]. eapply (lframe_within N L N' L' w1 w2 w3); [apply F1|done..].
Qed.

Lemma lstep_refl X N L w : ready w → lstep X N L w w.
Proof. intros H. split; [done|]. split; [apply frame_refl|by split]. Qed.

Lemma lstep_ready X N L w w' : lstep X N L w w' → ready w'.
Proof. by intros (? & _). Qed.

Lemma lstep_next X N L w w' : lstep X N L w w' → (next_loc w ≤ next_loc w')%positive.
Proof. intros (_ & F & _). apply F. Qed.

(** Weakening, also to forget what did not exist. *)
Lemma lstep_weaken X N L X' N' L' w w' :
  ready w → lstep X' N' L' w w' →
  within w X' X → within w N' N → within w L' L → lstep X N L w w'.
Proof.
  intros Hr S HX HN HL. eapply (lstep_trans X N L X' N' L' w w w'); [done| |done..].
  by apply lstep_refl.
Qed.

Lemma sstep_lstep X N L w w' : sstep X w w' → lstep X N L w w'.
Proof.
  intros (R & F & [H1 H2 H3 H4 H5]). split; [done|]. split; [done|].
  split; intros; congruence.
Qed.

Lemma lstep_rep X N L w w' p bs :
  ready w → lstep X N L w w' → p ∉ X → str_rep w p bs → str_rep w' p bs.
Proof. intros [? _] (_ & F & _). by apply str_rep_frame. Qed.

Lemma lstep_cstr X N L w w' c : lstep X N L w w' → not_in w X c → cstr_at w' c = cstr_at w c.
Proof. intros (_ & F & _). by apply frame_cstr. Qed.

(** * Steps of the heap of lists *)

Lemma ready_lt_ents w n e : ready w → ents w !! n = Some e → (n < next_loc w)%positive.
Proof.
  intros [Hwf _] H. destruct (decide (next_loc w ≤ n)%positive) as [Hn|]; [|lia].
  by rewrite (wf_ents w Hwf n Hn) in H.
Qed.

Lemma ready_lt_lists w l d : ready w → lists w !! l = Some d → (l < next_loc w)%positive.
Proof.
  intros [Hwf _] H. destruct (decide (next_loc w ≤ l)%positive) as [Hl|]; [|lia].
  by rewrite (wf_lists w Hwf l Hl) in H.
Qed.

(** Updates of existing entries and lists. *)
Lemma lstep_ents N L w f :
  ready w → (∀ n, f (ents w) !! n ≠ ents w !! n → n ∈ N ∧ (n < next_loc w)%positive) →
  lstep ∅ N L w (upd_ents f w).
Proof.
  intros [Hwf Hoom] Hf.
  assert (∀ n, n ∉ N → f (ents w) !! n = ents w !! n) as Hsame.
  { intros n Hn. destruct (decide (f (ents w) !! n = ents w !! n)) as [|Hne]; [done|].
    by destruct (Hf n Hne). }
  split; [split; [split|done]|split; split]; simpl; try apply Hwf; try done.
  - intros l Hl. destruct (decide (f (ents w) !! l = ents w !! l)) as [->|Hne].
    + by apply Hwf.
    + destruct (Hf l Hne). lia.
  - intros p b H. by left.
  - intros n _ Hn. by apply Hsame.
Qed.

Lemma lstep_lists N L w f :
  ready w → (∀ l, f (lists w) !! l ≠ lists w !! l → l ∈ L ∧ (l < next_loc w)%positive) →
  lstep ∅ N L w (upd_lists f w).
Proof.
  intros [Hwf Hoom] Hf.
  assert (∀ n, n ∉ L → f (lists w) !! n = lists w !! n) as Hsame.
  { intros n Hn. destruct (decide (f (lists w) !! n = lists w !! n)) as [|Hne]; [done|].
    by destruct (Hf n Hne). }
  split; [split; [split|done]|split; split]; simpl; try apply Hwf; try done.
  - intros l Hl. destruct (decide (f (lists w) !! l = lists w !! l)) as [->|Hne].
    + by apply Hwf.
    + destruct (Hf l Hne). lia.
  - intros p b H. by left.
  - intros n _ Hn. by apply Hsame.
Qed.

Lemma insert_changes {A} (m : gmap loc A) i x j :
  <[i := x]> m !! j ≠ m !! j → j = i.
Proof. destruct (decide (j = i)) as [|Hne]; [done|]. by rewrite lookup_insert_ne. Qed.

Lemma delete_changes {A} (m : gmap loc A) i j : delete i m !! j ≠ m !! j → j = i.
Proof. destruct (decide (j = i)) as [|Hne]; [done|]. by rewrite lookup_delete_ne. Qed.

(** The rules for assignments to a field of an entry or a list. *)
Lemma wp_mod_ent w n e f (Q : unit → world → Prop) E :
  ready w → ents w !! n = Some e →
  (∀ w', ents w' = <[n := f e]> (ents w) → lists w' = lists w → strs w' = strs w →
     lstep ∅ {[n]} ∅ w w' → Q tt w') →
  wp (mod_ent (Some n) f) Q E w.
Proof.
  intros Hr Hn HQ. eapply wp_set_obj; [done|]. apply HQ; [done..|].
  apply lstep_ents; [done|].
  intros m ->%insert_changes. split; [by apply elem_of_singleton|by eapply ready_lt_ents].
Qed.

Lemma wp_mod_list w l d f (Q : unit → world → Prop) E :
  ready w → lists w !! l = Some d →
  (∀ w', lists w' = <[l := f d]> (lists w) → ents w' = ents w → strs w' = strs w →
     lstep ∅ ∅ {[l]} w w' → Q tt w') →
  wp (mod_list (Some l) f) Q E w.
Proof.
  intros Hr Hl HQ. eapply wp_set_obj; [done|]. apply HQ; [done..|].
  apply lstep_lists; [done|].
  intros m ->%insert_changes. split; [by apply elem_of_singleton|by eapply ready_lt_lists].
Qed.

Lemma lstep_ent X N L w w' n e :
  ready w → lstep X N L w w' → n ∉ N → ents w !! n = Some e → ents w' !! n = Some e.
Proof.
  intros Hr (_ & _ & G) Hn He. rewrite (lf_ents _ _ _ _ G); [done| |done].
  by eapply ready_lt_ents.
Qed.

Lemma lstep_list X N L w w' l d :
  ready w → lstep X N L w w' → l ∉ L → lists w !! l = Some d → lists w' !! l = Some d.
Proof.
  intros Hr (_ & _ & G) Hl Hd. rewrite (lf_lists _ _ _ _ G); [done| |done].
  by eapply ready_lt_lists.
Qed.

(** * The abstraction *)

(** An entry of a list and the string it holds. *)
Abbreviation entries := (list (loc * loc)).

Definition hd_ptr (es : entries) (q : ptr) : ptr :=
  match es with [] => q | (n, _) :: _ => Some n end.

Definition last_ptr (es : entries) (p : ptr) : ptr :=
  match last es with None => p | Some (n, _) => Some n end.

(** The entries [es] follow each other by [next] pointers up to [q].  When
    [k] holds, the [prev] pointers lead back to [p]. *)
Fixpoint seg (k : bool) (w : world) (p : ptr) (es : entries) (q : ptr) : Prop :=
  match es with
  | [] => True
  | (n, s) :: r =>
      (∃ pv, ents w !! n = Some (mk_list_entry_t (Some s) (hd_ptr r q) pv) ∧
         (k = true → pv = p)) ∧
      seg k w (Some n) r q
  end.

(** The strings of the entries hold the texts [ss]. *)
Definition texts (w : world) (es : entries) (ss : list bytes) : Prop :=
  Forall2 (λ e s, str_rep w (snd e) s) es ss.

Definition ent_locs (es : entries) : gset loc := list_to_set (fst <$> es).
Definition str_locs (es : entries) : gset loc := list_to_set (snd <$> es).

(** [l] is a list of the texts [ss] whose entries are [es]; with [k], also its
    [prev] pointers are right. *)
Record list_rep (k : bool) (w : world) (l : loc) (es : entries) (ss : list bytes) : Prop := {
  lr_head : lists w !! l =
    Some (mk_list_t (Z.of_nat (length es)) (hd_ptr es None) (last_ptr es None));
  lr_seg : seg k w None es None;
  lr_nodup : NoDup (fst <$> es);
  lr_nodup_str : NoDup (snd <$> es);
  lr_texts : texts w es ss;
  lr_bound : Z.of_nat (length es) < 2 ^ 32;
}.

Lemma last_ptr_cons e es p : last_ptr (e :: es) p = last_ptr es (Some (fst e)).
Proof.
  unfold last_ptr. destruct es as [|e' es]; [by destruct e|].
  rewrite last_cons. by destruct (last (e' :: es)) as [[]|] eqn:H; [|by apply last_None in H].
Qed.

Lemma hd_ptr_app es es' q : hd_ptr (es ++ es') q = hd_ptr es (hd_ptr es' q).
Proof. by destruct es as [|[]]. Qed.

Lemma last_ptr_snoc es e p : last_ptr (es ++ [e]) p = Some (fst e).
Proof. unfold last_ptr. rewrite last_snoc. by destruct e. Qed.

Lemma last_ptr_app es es' p : last_ptr (es ++ es') p = last_ptr es' (last_ptr es p).
Proof.
  revert p. induction es as [|e es IH]; intros p; [done|].
  simpl. by rewrite !last_ptr_cons, IH.
Qed.

Lemma seg_app k w p es es' q :
  seg k w p (es ++ es') q ↔ seg k w p es (hd_ptr es' q) ∧ seg k w (last_ptr es p) es' q.
Proof.
  revert p. induction es as [|[n s] es IH]; intros p; simpl; [by intuition|].
  rewrite IH, last_ptr_cons, hd_ptr_app. simpl. by intuition.
Qed.

(** A segment depends only on its own entries. *)
Lemma seg_ext k w w' p es q :
  (∀ n, n ∈ fst <$> es → ents w' !! n = ents w !! n) → seg k w p es q → seg k w' p es q.
Proof.
  revert p. induction es as [|[n s] es IH]; intros p Hext; simpl; [done|].
  intros [(pv & Hn & Hpv) Hs]. split.
  - exists pv. split; [|done]. rewrite Hext; [done|]. simpl. by left.
  - apply IH; [|done]. intros m Hm. apply Hext. simpl. by right.
Qed.

Lemma seg_weak k w p es q : seg k w p es q → ∀ p', seg false w p' es q.
Proof.
  revert p. induction es as [|[n s] es IH]; intros p; simpl; [done|].
  intros [(pv & Hn & _) Hs] p'. split; [by exists pv|]. by eapply IH.
Qed.

Lemma seg_lookup k w p es q n s :
  seg k w p es q → (n, s) ∈ es → ∃ e, ents w !! n = Some e ∧ ent_value e = Some s.
Proof.
  revert p. induction es as [|[n' s'] es IH]; intros p; simpl.
  - intros _ H. by apply elem_of_nil in H.
  - intros [(pv & Hn & _) Hs] [[= -> ->]|H]%elem_of_cons; [by eexists|]. by eapply IH.
Qed.

Lemma list_rep_weak k w l es ss : list_rep true w l es ss → list_rep k w l es ss.
Proof. destruct k; [done|]. intros []. split; try done. by eapply seg_weak. Qed.

Lemma texts_length w es ss : texts w es ss → length es = length ss.
Proof. apply Forall2_length. Qed.

Lemma list_rep_length k w l es ss : list_rep k w l es ss → length es = length ss.
Proof. intros []. by eapply texts_length. Qed.

Lemma texts_mono X N L w w' es ss :
  ready w → lstep X N L w w' → str_locs es ## X → texts w es ss → texts w' es ss.
Proof.
  intros Hr S. unfold texts. intros Hd H. revert Hd.
  induction H as [|[n s] t es ss Ht H IH]; intros Hd; [constructor|].
  unfold str_locs in Hd. simpl in Hd. constructor.
  - simpl. eapply lstep_rep; [done|done|set_solver|done].
  - apply IH. unfold str_locs. set_solver.
Qed.

Lemma elem_of_ent_locs n es : n ∈ ent_locs es ↔ n ∈ fst <$> es.
Proof. apply elem_of_list_to_set. Qed.

Lemma elem_of_str_locs n es : n ∈ str_locs es ↔ n ∈ snd <$> es.
Proof. apply elem_of_list_to_set. Qed.

Lemma seg_lt k w p es q n : ready w → seg k w p es q → n ∈ fst <$> es → (n < next_loc w)%positive.
Proof.
  intros Hr Hs Hin. apply list_elem_of_fmap in Hin as ([n' s] & -> & Hin).
  edestruct seg_lookup as (e & He & _); [done|done|]. by eapply ready_lt_ents.
Qed.

Lemma texts_lt w es ss s : ready w → texts w es ss → s ∈ snd <$> es → (s < next_loc w)%positive.
Proof.
  intros [Hwf _] Ht Hin. apply list_elem_of_fmap in Hin as ([n' s'] & -> & Hin).
  apply list_elem_of_lookup in Hin as [i Hi].
  destruct (Forall2_lookup_l _ _ _ _ _ Ht Hi) as (t & _ & Hrep). by eapply str_rep_lt.
Qed.

(** A list is not affected by a step that leaves its parts alone. *)
Lemma list_rep_mono k X N L w w' l es ss :
  ready w → lstep X N L w w' → list_rep k w l es ss →
  l ∉ L → ent_locs es ## N → str_locs es ## X → list_rep k w' l es ss.
Proof.
  intros Hr S [Hh Hs Hn Hn' Ht] Hl HN HX. pose proof S as (_ & F & G). split; try done.
  - rewrite (lf_lists _ _ _ _ G l); [done|by eapply ready_lt_lists|done].
  - eapply seg_ext; [|done]. intros n Hin. apply (lf_ents _ _ _ _ G).
    + by eapply seg_lt.
    + apply elem_of_ent_locs in Hin. set_solver.
  - by eapply texts_mono.
Qed.

(** Fuel: a traversal has at most as many entries as the store. *)
Lemma nodup_size {A} (m : gmap loc A) (ns : list loc) :
  NoDup ns → (∀ n, n ∈ ns → is_Some (m !! n)) → (length ns ≤ size m)%nat.
Proof.
  intros Hnd Hin. rewrite <- (size_list_to_set (C := gset loc) ns Hnd), <- size_dom.
  apply subseteq_size. intros n Hn%elem_of_list_to_set. by apply elem_of_dom, Hin.
Qed.

Lemma seg_size k w p es q :
  seg k w p es q → NoDup (fst <$> es) → (length es ≤ size (ents w))%nat.
Proof.
  intros Hs Hnd. rewrite <- (length_fmap fst). apply nodup_size; [done|].
  intros n Hin. apply list_elem_of_fmap in Hin as ([n' s] & -> & Hin).
  edestruct seg_lookup as (e & He & _); [done|done|]. by eexists.
Qed.

(** * Texts read by the operations *)

(** A C string whose memory is not owned by the strings of [X]. *)
Definition readable (w : world) (X : gset loc) (c : cptr) (t : bytes) : Prop :=
  cstr_at w c = Some t ∧ not_in w X c.

(** It stays so along steps, and new strings do not own it. *)
Lemma readable_step X N L w w' Y c t :
  ready w → lstep X N L w w' → readable w X c t → within w Y X →
  readable w' Y c t.
Proof.
  intros [Hwf _] S [Hc Hn] HY. split; [by erewrite lstep_cstr|].
  destruct c as [b o|]; [|done]. destruct Hn as [Hb Hn]. destruct S as (_ & F & _). split.
  - pose proof (fr_next _ _ _ F). lia.
  - intros p Hp Ho. destruct (fr_owns _ _ _ F _ _ Ho) as [Ho'|]; [|lia].
    destruct (HY p Hp) as [Hp'|Hp']; [by eapply Hn|].
    destruct Ho' as (s & o' & Hs & _). by rewrite (wf_strs w Hwf p) in Hs.
Qed.

Lemma readable_lit w X t : nonul t → readable w X (CLit t 0) t.
Proof. intros H. split; [by apply cstr_at_lit|done]. Qed.

(** The same for the source of [str_copy]. *)
Lemma str_view_step X N L w w' Y q t :
  ready w → lstep X N L w w' → q ∉ X → str_view w X q t → within w Y X → str_view w' Y q t.
Proof.
  intros Hr S Hq (c & sz & o & Hs & Hc & Hn & Hsz & Hm) HY.
  destruct (readable_step X N L w w' Y c t) as [Hc' Hn']; [done..|].
  exists c, sz, o. split; [|by split_and!]. destruct S as (_ & F & _).
  rewrite (fr_strs _ _ _ F); [done| |done].
  destruct (decide (next_loc w ≤ q)%positive) as [Hle|]; [|lia].
  by rewrite (wf_strs w (proj1 Hr) q Hle) in Hs.
Qed.

(** * Automation *)

Lemma ent_locs_cons n s es : ent_locs ((n, s) :: es) = {[n]} ∪ ent_locs es.
Proof. done. Qed.

Lemma str_locs_cons n s es : str_locs ((n, s) :: es) = {[s]} ∪ str_locs es.
Proof. done. Qed.

Lemma ent_locs_app es es' : ent_locs (es ++ es') = ent_locs es ∪ ent_locs es'.
Proof. unfold ent_locs. by rewrite fmap_app, list_to_set_app_L. Qed.

Lemma str_locs_app es es' : str_locs (es ++ es') = str_locs es ∪ str_locs es'.
Proof. unfold str_locs. by rewrite fmap_app, list_to_set_app_L. Qed.

Lemma ent_locs_nil : ent_locs [] = ∅.
Proof. done. Qed.

Lemma str_locs_nil : str_locs [] = ∅.
Proof. done. Qed.


#[export] Hint Rewrite ent_locs_cons str_locs_cons ent_locs_app str_locs_app
  ent_locs_nil str_locs_nil : nc_locs.

Lemma sstep_next X w w' : sstep X w w' → (next_loc w ≤ next_loc w')%positive.
Proof. intros (_ & F & _). apply F. Qed.

(** [ready] of the last world of a step. *)
Ltac ready :=
  first [ assumption | eapply lstep_ready; eassumption | eapply sstep_ready; eassumption ].

(** Note that locations grow along the steps, and that what exists in a world
    is below its [next_loc]. *)
Ltac note H := let T := type of H in
  lazymatch goal with
  | _ : T |- _ => fail
  | _ => pose proof H
  end.

Ltac bounds :=
  repeat match goal with
  | H : lstep _ _ _ ?a ?b |- _ => note (lstep_next _ _ _ _ _ H)
  | H : sstep _ ?a ?b |- _ => note (sstep_next _ _ _ H)
  | H : str_rep ?w ?p ?bs |- _ =>
      let R := fresh in assert (ready w) as R by ready;
      note (str_rep_lt w p bs (proj1 R) H); clear R
  | H : lists ?w !! ?l = Some ?d |- _ =>
      let R := fresh in assert (ready w) as R by ready;
      note (ready_lt_lists w l d R H); clear R
  | H : ents ?w !! ?n = Some ?d |- _ =>
      let R := fresh in assert (ready w) as R by ready;
      note (ready_lt_ents w n d R H); clear R
  end.

(** What a goal on sets of locations has no use for. *)
Ltac clear_memory :=
  repeat match goal with
  | H : context [@wp] |- _ => clear H
  | H : context [ents] |- _ => clear H
  | H : context [lists] |- _ => clear H
  | H : context [lstep] |- _ => clear H
  | H : context [sstep] |- _ => clear H
  | H : context [list_rep] |- _ => clear H
  | H : context [str_rep] |- _ => clear H
  | H : context [texts] |- _ => clear H
  | H : context [seg] |- _ => clear H
  | H : NoDup _ |- _ => clear H
  | H : ready _ |- _ => clear H
  end.

Ltac locs := clear_memory; autorewrite with nc_locs in *; set_solver by lia.

Ltac within_tac :=
  first [ assumption
        | apply within_empty
        | apply within_sub; reflexivity
        | apply within_fresh; lia
        | apply within_union; within_tac
        | apply within_sub; locs
        | autorewrite with nc_locs in *; within_tac_ ]
with within_tac_ :=
  first [ assumption
        | apply within_fresh; lia
        | apply within_union; within_tac_
        | apply within_sub; locs ].

(** [lstep X N L w w'] from the steps between [w] and [w']. *)
Ltac chain_ := lazymatch goal with
  | |- lstep _ _ _ ?w ?w => apply lstep_refl; ready
  | |- lstep ?X ?N ?L ?w ?w' =>
      match goal with
      | H : lstep ?X' ?N' ?L' ?v w' |- _ =>
          apply (lstep_trans X N L X' N' L' w v w');
            [ready|chain_|exact H|within_tac|within_tac|within_tac]
      | H : sstep ?X' ?v w' |- _ =>
          apply (lstep_trans X N L X' ∅ ∅ w v w');
            [ready|chain_|exact (sstep_lstep _ _ _ _ _ H)|within_tac|within_tac|within_tac]
      end
  end.
Ltac chain := bounds; chain_.

(** A fact of an earlier world that the steps since then preserve. *)
Ltac keep_ :=
  match goal with
  | |- _ => eassumption
  | H : lstep ?X ?N ?L ?v ?w |- str_rep ?w _ _ =>
      apply (lstep_rep X N L v w); [ready|exact H|locs|keep_]
  | H : sstep ?X ?v ?w |- str_rep ?w _ _ =>
      apply (lstep_rep X ∅ ∅ v w); [ready|exact (sstep_lstep _ _ _ _ _ H)|locs|keep_]
  | H : lstep ?X ?N ?L ?v ?w |- ents ?w !! _ = Some _ =>
      apply (lstep_ent X N L v w); [ready|exact H|locs|keep_]
  | H : sstep ?X ?v ?w |- ents ?w !! _ = Some _ =>
      apply (lstep_ent X ∅ ∅ v w); [ready|exact (sstep_lstep _ _ _ _ _ H)|locs|keep_]
  | H : lstep ?X ?N ?L ?v ?w |- lists ?w !! _ = Some _ =>
      apply (lstep_list X N L v w); [ready|exact H|locs|keep_]
  | H : sstep ?X ?v ?w |- lists ?w !! _ = Some _ =>
      apply (lstep_list X ∅ ∅ v w); [ready|exact (sstep_lstep _ _ _ _ _ H)|locs|keep_]
  | H : lstep ?X ?N ?L ?v ?w |- list_rep ?k ?w _ _ _ =>
      apply (list_rep_mono k X N L v w); [ready|exact H|keep_|locs|locs|locs]
  | H : sstep ?X ?v ?w |- list_rep ?k ?w _ _ _ =>
      apply (list_rep_mono k X ∅ ∅ v w); [ready|exact (sstep_lstep _ _ _ _ _ H)|keep_|locs|locs|locs]
  | H : lstep ?X ?N ?L ?v ?w |- texts ?w _ _ =>
      apply (texts_mono X N L v w); [ready|exact H|locs|keep_]
  | H : sstep ?X ?v ?w |- texts ?w _ _ =>
      apply (texts_mono X ∅ ∅ v w); [ready|exact (sstep_lstep _ _ _ _ _ H)|locs|keep_]
  end.
Ltac keep := bounds; keep_.
