(* ===== verification/ListFacts.v ===== *)
(** The specification of the list library: what each operation makes of the
    sequence of texts a list stands for. *)

From S2P Require Import Prelude Types Machine Wp StringOps StringFacts EscapeFacts.
From S2P Require Import ListOps ListRep.

Open Scope Z_scope.

(** * Rules *)

Lemma wp_func_labels (b c : M unit) (Q : Z → world → Prop) E w :
  wp b (λ _ w', Q 0 w') no_exit w → wp (func (labels b c (mret tt))) Q E w.
Proof. intros H. apply wp_func. unfold wp, labels in *. by destruct (b w). Qed.

Lemma wp_get_ent w n e (Q : list_entry_t → world → Prop) E :
  ents w !! n = Some e → Q e w → wp (get_ent (Some n)) Q E w.
Proof. apply wp_deref. Qed.

Lemma wp_get_list w l d (Q : list_t → world → Prop) E :
  lists w !! l = Some d → Q d w → wp (get_list (Some l)) Q E w.
Proof. apply wp_deref. Qed.

Lemma wp_get_ents_fuel w (Q : nat → world → Prop) E :
  Q (S (size (ents w))) w → wp ents_fuel Q E w.
Proof. intros H. wp_next. exact H. Qed.

Lemma wp_try_out {A} (c : M (Z * A)) (Q : A → world → Prop) E w :
  wp c (λ '(r, a) w', if r =? 0 then Q a w' else E (Leave (-1)) w') E w →
  wp (try_out c) Q E w.
Proof.
  intros H. wp_next. eapply wp_conseq; [exact H|]. intros [r a] w'. cbn.
  by destruct (r =? 0).
Qed.

Lemma is_null_some p : is_null (Some p) = false.
Proof. by apply bool_decide_eq_false. Qed.

Lemma is_null_none : is_null None = true.
Proof. by apply bool_decide_eq_true. Qed.

(** A new zeroed entry or list. *)
Lemma wp_calloc_ent w z (Q : ptr → world → Prop) E :
  ready w →
  (∀ n w1, (next_loc w ≤ n)%positive → ents w1 !! n = Some z → lstep ∅ ∅ ∅ w w1 →
     Q (Some n) w1) →
  wp (calloc_obj upd_ents z) Q E w.
Proof.
  intros Hr HQ. wp_next. apply wp_allocator; [done|]. simpl. apply HQ; simpl.
  - lia.
  - by rewrite lookup_insert_eq.
  - destruct Hr as [Hwf Hoom]. split; [split; [split|done]|split; split]; simpl;
      try done; try (intros; apply Hwf; lia); try apply Hwf.
    + intros l Hl. rewrite lookup_insert_ne by lia. apply Hwf. lia.
    + intros p b Ho. apply (wf_own_bound w Hwf) in Ho. lia.
    + lia.
    + intros p b H. by left.
    + intros n Hn _. apply lookup_insert_ne. lia.
Qed.

Lemma wp_calloc_list w z (Q : ptr → world → Prop) E :
  ready w →
  (∀ l w1, (next_loc w ≤ l)%positive → lists w1 !! l = Some z → lstep ∅ ∅ ∅ w w1 →
     Q (Some l) w1) →
  wp (calloc_obj upd_lists z) Q E w.
Proof.
  intros Hr HQ. wp_next. apply wp_allocator; [done|]. simpl. apply HQ; simpl.
  - lia.
  - by rewrite lookup_insert_eq.
  - destruct Hr as [Hwf Hoom]. split; [split; [split|done]|split; split]; simpl;
      try done; try (intros; apply Hwf; lia); try apply Hwf.
    + intros l Hl. rewrite lookup_insert_ne by lia. apply Hwf. lia.
    + intros p b Ho. apply (wf_own_bound w Hwf) in Ho. lia.
    + lia.
    + intros p b H. by left.
    + intros n Hn _. apply lookup_insert_ne. lia.
Qed.

(** * Construction *)

Lemma list_new_ok w E :
  ready w →
  wp (list_new None) (λ '(r, p) w', r = 0 ∧ ∃ l, p = Some l ∧
    (next_loc w ≤ l)%positive ∧ list_rep true w' l [] [] ∧ lstep ∅ ∅ ∅ w w') E w.
Proof.
  intros Hr. wp_next. apply wp_calloc_list; [done|]. intros l w1 Hlt Hl S.
  split; [done|]. exists l. split; [done|]. split; [done|]. split; [|done].
  split; try done; constructor.
Qed.

(** A new entry with a copy of the text of [q], not linked yet. *)
Lemma list_entry_new_ok w q t E :
  ready w → str_view w ∅ q t →
  wp (list_entry_new None (Some q)) (λ '(r, p) w', r = 0 ∧ ∃ n s, p = Some n ∧
    (next_loc w ≤ n)%positive ∧ (next_loc w ≤ s)%positive ∧
    ents w' !! n = Some (mk_list_entry_t (Some s) None None) ∧
    str_rep w' s t ∧ lstep ∅ ∅ ∅ w w') E w.
Proof.
  intros Hr Hq. wp_next. apply wp_calloc_ent; [done|].
  intros n w1 Hlt Hn S1. wp_next. apply wp_func_labels.
  wp_next. eapply wp_get_ent; [done|]. simpl. wp_next. wp_call str_new_ok; [ready|].
  intros [r p] w2 (-> & s & -> & Hs & Hs2 & S2). wp_next. simpl.
  eapply (wp_mod_ent w2 n); [ready|keep|]. intros w3 E3 _ _ S3. wp_next. simpl.
  apply wp_ret. wp_next. bounds.
  assert (lstep ∅ ∅ ∅ w w3) as S13 by chain.
  assert (q < next_loc w)%positive as Hqlt.
  { destruct Hq as (c & sz & o & Hqs & _).
    destruct (decide (next_loc w ≤ q)%positive) as [Hle|]; [|lia].
    by rewrite (wf_strs w (proj1 Hr) q Hle) in Hqs. }
  assert (str_view w3 {[s]} q t) as Hq3
    by (eapply str_view_step; [done|exact S13|set_solver|done|within_tac]). clear S13.
  wp_try_call (str_copy_view w3 s q); [ready|keep|lia|].
  intros r w4 (-> & Hs4 & S4). simpl.
  assert (ents w3 !! n = Some (mk_list_entry_t (Some s) None None)) as Hn3
    by (rewrite E3; apply lookup_insert_eq).
  wp_next. eapply (wp_mod_ent w4 n); [ready|keep|]. intros w5 E5 _ _ S5.
  assert (ents w5 !! n = Some (mk_list_entry_t (Some s) None None)) as Hn5
    by (rewrite E5; apply lookup_insert_eq).
  eapply (wp_mod_ent w5 n); [ready|keep|]. intros w6 E6 _ _ S6.
  apply wp_ret. split; [done|]. exists n, s. split; [done|]. split; [lia|].
  split; [lia|]. split; [rewrite E6; apply lookup_insert_eq|]. split; [keep|].
  chain.
Qed.

(** * Appending *)

Lemma seg_cons k w p n s r q : seg k w p ((n, s) :: r) q ↔
  (∃ pv, ents w !! n = Some (mk_list_entry_t (Some s) (hd_ptr r q) pv) ∧
     (k = true → pv = p)) ∧ seg k w (Some n) r q.
Proof. done. Qed.

Lemma seg_entry k w p es q m :
  seg k w p es q → m ∈ ent_locs es → ∃ e, ents w !! m = Some e.
Proof.
  intros Hs Hm%elem_of_ent_locs. apply list_elem_of_fmap in Hm as ([m' sm] & -> & Hin).
  edestruct seg_lookup as (e & He & _); [exact Hs|done|]. by eexists.
Qed.

(** The last entry of a segment is linked to something else. *)
Lemma seg_relink_next k w w' p es q q' :
  seg k w p es q → NoDup (fst <$> es) →
  (∀ m e, m ∈ ent_locs es → ents w !! m = Some e →
     ents w' !! m = Some (if decide (last_ptr es None = Some m)
                          then set_ent_next q' e else e)) →
  seg k w' p es q'.
Proof.
  intros Hs Hnd Hold. destruct es as [|[m sm] es _] using rev_ind; [done|].
  apply seg_app in Hs as [Hs Hm]. rewrite last_ptr_snoc in Hold. simpl in Hold.
  rewrite fmap_app in Hnd. apply NoDup_app in Hnd as (_ & Hnd & _).
  apply seg_app. split.
  - eapply seg_ext; [|exact Hs]. intros x Hx. pose proof Hx as Hx'%elem_of_ent_locs.
    destruct (seg_entry _ _ _ _ _ _ Hs Hx') as [e He]. rewrite He.
    erewrite Hold; [|locs|done]. rewrite decide_False; [done|].
    intros [= ->]. apply (Hnd x Hx). simpl. by left.
  - apply seg_cons in Hm as [(pv & Hm & Hpv) _]. apply seg_cons. split; [|done].
    exists pv. split; [|done]. erewrite Hold; [|locs|done]. by rewrite decide_True.
Qed.

(** The first entry of a segment is linked back to something else. *)
Lemma seg_relink_prev k w w' p p' es q :
  seg k w p es q → NoDup (fst <$> es) →
  (∀ m e, m ∈ ent_locs es → ents w !! m = Some e →
     ents w' !! m = Some (if decide (hd_ptr es None = Some m)
                          then set_ent_prev p' e else e)) →
  seg k w' p' es q.
Proof.
  intros Hs Hnd Hold. destruct es as [|[m sm] es]; [done|].
  apply seg_cons in Hs as [(pv & Hm & Hpv) Hs]. simpl in Hold, Hnd.
  apply NoDup_cons in Hnd as [Hm' _]. apply seg_cons. split.
  - exists p'. split; [|done]. erewrite Hold; [|locs|done]. by rewrite decide_True.
  - eapply seg_ext; [|exact Hs]. intros x Hx. pose proof Hx as Hx'%elem_of_ent_locs.
    destruct (seg_entry _ _ _ _ _ _ Hs Hx') as [e He]. rewrite He.
    erewrite Hold; [|locs|done]. rewrite decide_False; [done|]. by intros [= ->].
Qed.

(** The entries of the list before and after [n] is linked behind them. *)
Lemma seg_snoc k w w' es n s :
  seg k w None es None → NoDup (fst <$> es) →
  ents w' !! n = Some (mk_list_entry_t (Some s) None (last_ptr es None)) →
  (∀ m e, m ∈ ent_locs es → ents w !! m = Some e →
     ents w' !! m = Some (if decide (last_ptr es None = Some m)
                          then set_ent_next (Some n) e else e)) →
  seg k w' None (es ++ [(n, s)]) None.
Proof.
  intros Hs Hnd Hnew Hold. apply seg_app. split; [by eapply seg_relink_next|].
  apply seg_cons. split; [|done]. by eexists.
Qed.

(** [if (p != NULL) p->field = ...] *)
Lemma wp_when_ent N w p f (Q : unit → world → Prop) E :
  ready w → (∀ m, p = Some m → m ∈ N ∧ is_Some (ents w !! m)) →
  (∀ w', lists w' = lists w → lstep ∅ N ∅ w w' →
     (∀ m e, ents w !! m = Some e → ents w' !! m = Some (if decide (p = Some m) then f e else e)) →
     Q tt w') →
  wp (when (negb (is_null p)) (mod_ent p f)) Q E w.
Proof.
  intros Hr Hp HQ. destruct p as [m|].
  - destruct (Hp m eq_refl) as [HN [e He]]. rewrite is_null_some.
    eapply (wp_mod_ent w m); [done..|]. intros w' E' L' T' S'. apply HQ; [done| |].
    + eapply lstep_weaken; [done|exact S'|within_tac..].
    + intros m' e' He'. rewrite E'. destruct (decide (m' = m)) as [->|Hne].
      * rewrite lookup_insert_eq, decide_True by done. congruence.
      * by rewrite lookup_insert_ne, decide_False by congruence.
  - rewrite is_null_none. apply HQ; [done|by apply lstep_refl|].
    intros m e He. by rewrite decide_False.
Qed.

Lemma last_ptr_in k w p es q m :
  seg k w p es q → last_ptr es None = Some m → m ∈ ent_locs es ∧ is_Some (ents w !! m).
Proof.
  intros Hs Hm. assert (m ∈ ent_locs es) as Hin.
  { destruct es as [|[m' sm] es _] using rev_ind; [done|].
    rewrite last_ptr_snoc in Hm. injection Hm as <-. locs. }
  split; [done|]. edestruct seg_entry; [done..|]. by eexists.
Qed.

Lemma hd_ptr_in k w p es q m :
  seg k w p es q → hd_ptr es None = Some m → m ∈ ent_locs es ∧ is_Some (ents w !! m).
Proof.
  intros Hs Hm. assert (m ∈ ent_locs es) as Hin.
  { destruct es as [|[m' sm] es]; [done|]. injection Hm as <-. locs. }
  split; [done|]. edestruct seg_entry; [done..|]. by eexists.
Qed.

Lemma list_entry_append_ok k w l es ss n s nx pv t E :
  ready w → list_rep k w l es ss → ents w !! n = Some (mk_list_entry_t (Some s) nx pv) →
  n ∉ ent_locs es → s ∉ str_locs es → str_rep w s t → Z.of_nat (S (length es)) < 2 ^ 32 →
  wp (list_entry_append (Some l) (Some n))
    (λ r w', r = 0 ∧ list_rep k w' l (es ++ [(n, s)]) (ss ++ [t]) ∧
       lstep ∅ ({[n]} ∪ ent_locs es) {[l]} w w') E w.
Proof.
  intros Hr Hl Hn Hnes Hses Ht Hmax. pose proof Hl as [Hh Hs Hnd Hnds Htx _].
  apply wp_func_body. wp_next. eapply wp_mod_ent; [done..|]. intros w1 E1 L1 T1 S1.
  wp_next. eapply wp_get_list; [by rewrite L1|]. simpl.
  wp_next. eapply wp_mod_ent; [ready|by rewrite E1, lookup_insert_eq|].
  intros w2 E2 L2 T2 S2.
  (* the last entry *)
  assert (∀ m, m ≠ n → ents w2 !! m = ents w !! m) as Hsame.
  { intros m Hm. by rewrite E2, E1, !lookup_insert_ne. }
  wp_next. apply (wp_when_ent (ent_locs es)); [ready| |].
  { intros m Hm. destruct (last_ptr_in _ _ _ _ _ _ Hs Hm) as [Hin Hm'].
    split; [done|]. rewrite Hsame; [done|set_solver]. }
  intros w3 L3' S23 Hold'. assert (lists w3 = lists w) as L3 by congruence.
  assert (lstep ∅ ({[n]} ∪ ent_locs es) ∅ w w3) as S3 by chain. clear S23.
  assert (ents w3 !! n = Some (mk_list_entry_t (Some s) None (last_ptr es None))) as Hn3.
  { erewrite Hold'; [|by rewrite E2, lookup_insert_eq]. rewrite decide_False; [done|].
    intros Hm. by apply (last_ptr_in _ _ _ _ _ _ Hs) in Hm as []. }
  assert (∀ m e, m ∈ ent_locs es → ents w !! m = Some e →
      ents w3 !! m = Some (if decide (last_ptr es None = Some m)
                           then set_ent_next (Some n) e else e)) as Hold.
  { intros m e Hm He. apply Hold'. rewrite Hsame; [done|set_solver]. }
  (* the head *)
  wp_next. eapply (wp_conseq _ (λ _ w4, ents w4 = ents w3 ∧
    lstep ∅ ({[n]} ∪ ent_locs es) {[l]} w w4 ∧
    lists w4 !! l = Some (mk_list_t (Z.of_nat (length es)) (hd_ptr (es ++ [(n, s)]) None)
      (last_ptr es None)))).
  { apply wp_when.
    - intros Hnn%bool_decide_eq_true. destruct es as [|[]]; [|done].
      eapply wp_mod_list; [ready|by rewrite L3|]. intros w4 L4 E4 T4 S4.
      split; [done|]. split; [chain|]. by rewrite L4, lookup_insert_eq.
    - intros Hnn%bool_decide_eq_false. split; [done|].
      split; [eapply lstep_weaken; [done|exact S3|within_tac..]|].
      rewrite L3, Hh. by destruct es as [|[]]. }
  intros _ w4 (E4 & S4 & Hl4).
  eapply wp_mod_list; [ready|done|]. intros w5 L5 E5 T5 S5. split; [done|].
  assert (lstep ∅ ({[n]} ∪ ent_locs es) {[l]} w w5) as S by chain.
  split; [|exact S]. split.
  - rewrite L5, lookup_insert_eq, last_ptr_snoc, length_app. simpl.
    rewrite size_t_small by lia. do 2 f_equal. lia.
  - eapply (seg_snoc _ w); [done..| |]; rewrite E5, E4; [done|]. exact Hold.
  - rewrite fmap_app. apply NoDup_app. split; [done|]. split; [|apply NoDup_singleton].
    intros x Hx%elem_of_ent_locs. set_solver.
  - rewrite fmap_app. apply NoDup_app. split; [done|]. split; [|apply NoDup_singleton].
    intros x Hx%elem_of_str_locs. set_solver.
  - apply Forall2_app; [|constructor; [|constructor]].
    + eapply texts_mono; [done|exact S|set_solver|done].
    + eapply lstep_rep; [done|exact S|set_solver|done].
  - rewrite length_app. simpl. lia.
Qed.

Lemma list_push_view k w l es ss q t E :
  ready w → list_rep k w l es ss → str_view w ∅ q t → Z.of_nat (S (length es)) < 2 ^ 32 →
  wp (list_push (Some l) (Some q))
    (λ r w', r = 0 ∧ ∃ n s, (next_loc w ≤ n)%positive ∧ (next_loc w ≤ s)%positive ∧
       list_rep k w' l (es ++ [(n, s)]) (ss ++ [t]) ∧ lstep ∅ (ent_locs es) {[l]} w w') E w.
Proof.
  intros Hr Hl Hq Hmax. apply wp_func_body. wp_next. apply wp_try_out.
  wp_call list_entry_new_ok. intros [r p] w1 (-> & n & s & -> & Hn & Hs & He & Ht & S1). simpl.
  assert (∀ x, x ∈ ent_locs es → (x < next_loc w)%positive) as Hx.
  { intros x Hx%elem_of_ent_locs. eapply seg_lt; [done|apply Hl|done]. }
  assert (∀ x, x ∈ str_locs es → (x < next_loc w)%positive) as Hy.
  { intros x Hy%elem_of_str_locs. eapply texts_lt; [done|apply Hl|done]. }
  wp_try_call (list_entry_append_ok k w1 l es ss); [ready|keep| | |].
  { intros H%Hx. lia. } { intros H%Hy. lia. }
  intros r w2 (-> & Hl2 & S2). simpl. split; [done|]. exists n, s.
  split; [done|]. split; [done|]. split; [done|]. chain.
Qed.

Lemma list_push_ok k w l es ss q t E :
  ready w → list_rep k w l es ss → str_rep w q t → Z.of_nat (S (length es)) < 2 ^ 32 →
  wp (list_push (Some l) (Some q))
    (λ r w', r = 0 ∧ ∃ n s, (next_loc w ≤ n)%positive ∧ (next_loc w ≤ s)%positive ∧
       list_rep k w' l (es ++ [(n, s)]) (ss ++ [t]) ∧ lstep ∅ (ent_locs es) {[l]} w w') E w.
Proof.
  intros Hr Hl Hq Hmax. apply list_push_view; [done|done| |done].
  apply str_rep_view; [apply Hr|done|set_solver].
Qed.

(** * Destruction *)

Lemma list_entry_destroy_ok w n s nx pv t E :
  ready w → ents w !! n = Some (mk_list_entry_t (Some s) nx pv) → str_rep w s t →
  wp (list_entry_destroy (Some n))
    (λ r w', r = 0 ∧ strs w' !! s = None ∧ lstep {[s]} {[n]} ∅ w w') E w.
Proof.
  intros Hr Hn Ht. apply wp_func_body. wp_next. eapply wp_get_ent; [done|]. simpl.
  wp_next. wp_call str_destroy_ok. intros [r p] w1 (-> & -> & Hs & S1).
  wp_next. eapply (wp_mod_ent w1 n); [ready|keep|]. intros w2 E2 L2 T2 S2. simpl.
  assert (ents w2 !! n = Some (mk_list_entry_t None nx pv)) as Hn2
    by (rewrite E2; apply lookup_insert_eq).
  unfold wp, free_obj. rewrite Hn2. split; [done|]. simpl. split; [by rewrite T2|].
  assert (lstep ∅ {[n]} ∅ w2 (upd_ents (delete n) w2)) as S3.
  { apply lstep_ents; [ready|]. intros m ->%delete_changes.
    split; [by apply elem_of_singleton|eapply ready_lt_ents; [ready|done]]. }
  chain.
Qed.

(** The entries not visited yet by a traversal. *)
Lemma list_rep_suffix k w l es1 es2 ss :
  list_rep k w l (es1 ++ es2) ss → ∃ ss1 ss2, ss = ss1 ++ ss2 ∧
    length es1 = length ss1 ∧ texts w es1 ss1 ∧ texts w es2 ss2 ∧
    seg k w (last_ptr es1 None) es2 None ∧ NoDup (fst <$> es2) ∧ NoDup (snd <$> es2).
Proof.
  intros [_ Hs Hnd Hnds Ht _]. apply seg_app in Hs as [_ Hs].
  apply Forall2_app_inv_l in Ht as (ss1 & ss2 & H1 & H2 & ->).
  rewrite fmap_app in Hnd, Hnds. apply NoDup_app in Hnd as (_ & _ & ?).
  apply NoDup_app in Hnds as (_ & _ & ?).
  exists ss1, ss2. split_and!; try done. by eapply Forall2_length.
Qed.

Lemma list_truncate_ok k w l es ss E :
  ready w → list_rep k w l es ss →
  wp (list_truncate (Some l))
    (λ r w', r = 0 ∧ list_rep true w' l [] [] ∧
       lstep (str_locs es) (ent_locs es) {[l]} w w') E w.
Proof.
  intros Hr Hl. pose proof Hl as [Hh Hs Hnd Hnds Htx _]. apply wp_func_body.
  wp_next. eapply wp_get_list; [done|]. wp_next. apply wp_get_ents_fuel.
  wp_next. eapply (wp_conseq _ (λ _ w1, lstep (str_locs es) (ent_locs es) ∅ w w1)).
  { eapply wp_loop with (n := length es) (I := λ n x w1, ∃ es' ss' p, n = length es' ∧
      x = hd_ptr es' None ∧ seg k w1 p es' None ∧ texts w1 es' ss' ∧
      NoDup (fst <$> es') ∧ NoDup (snd <$> es') ∧
      ent_locs es' ⊆ ent_locs es ∧ str_locs es' ⊆ str_locs es ∧
      lstep (str_locs es) (ent_locs es) ∅ w w1).
    2: { exists es, ss, None. split_and!; try done. by apply lstep_refl. }
    2: { apply seg_size in Hs; [lia|done]. }
    intros n x w1 (es' & ss' & p & -> & -> & Hs' & Ht' & Hn' & Hn'' & He' & Hsl & S1).
    destruct es' as [|[m sm] es']; simpl.
    { by apply wp_ret. }
    apply seg_cons in Hs' as [(pv & Hm & _) Hs']. rewrite ?is_null_some. wp_next.
    eapply wp_get_ent; [done|]. inversion Ht' as [|? t ? ss'' Htm Ht'']; subst; simpl in *.
    wp_next. wp_try_call list_entry_destroy_ok; [ready|].
    intros r w2 (-> & _ & S2). simpl. apply wp_ret. exists (length es'). split; [lia|].
    apply NoDup_cons in Hn' as [Hm1 Hn'], Hn'' as [Hm2 Hn''].
    rewrite <- elem_of_ent_locs in Hm1. rewrite <- elem_of_str_locs in Hm2.
    autorewrite with nc_locs in *.
    exists es', ss'', (Some m). split_and!; try done.
    - eapply seg_ext; [|exact Hs']. intros x Hx.
      destruct S2 as (_ & _ & G). apply (lf_ents _ _ _ _ G).
      + eapply seg_lt; [ready|done|done].
      + apply elem_of_ent_locs in Hx. set_solver.
    - eapply texts_mono; [|exact S2| |done]; [ready|set_solver].
    - set_solver.
    - set_solver.
    - eapply lstep_trans; [done|exact S1|exact S2|apply within_sub; set_solver..]. }
  intros _ w1 S1. eapply (wp_mod_list w1 l); [ready|keep|]. intros w2 L2 E2 T2 S2.
  split; [done|]. split; [|chain]. split; try done; try constructor.
  by rewrite L2, lookup_insert_eq.
Qed.

Lemma list_destroy_ok k w l es ss E :
  ready w → list_rep k w l es ss →
  wp (list_destroy (Some l)) (λ '(r, p) w', r = 0 ∧ p = None ∧
    lists w' !! l = None ∧ lstep (str_locs es) (ent_locs es) {[l]} w w') E w.
Proof.
  intros Hr Hl. unfold list_destroy. rewrite is_null_some. wp_next.
  wp_call list_truncate_ok. intros r w1 (-> & Hl1 & S1). simpl. wp_next.
  pose proof Hl1 as [Hh _ _ _ _ _]. unfold wp at 1, free_obj. rewrite Hh. apply wp_ret.
  split; [done|]. split; [done|]. simpl. split; [apply lookup_delete_eq|].
  assert (lstep ∅ ∅ {[l]} w1 (upd_lists (delete l) w1)) as S2.
  { apply lstep_lists; [ready|]. intros m ->%delete_changes.
    split; [by apply elem_of_singleton|eapply ready_lt_lists; [ready|done]]. }
  chain.
Qed.

(** The rule for [list_t *tmp;]. *)
Lemma wp_auto_list w X N L k (R : Z → world → Prop) E :
  ready w →
  (∀ l w1, (next_loc w ≤ l)%positive → list_rep true w1 l [] [] → lstep ∅ ∅ ∅ w w1 →
     wp (k (Some l)) (λ z w2, ∃ es ss, list_rep false w2 l es ss ∧
       lstep X N ({[l]} ∪ L) w w2 ∧
       within w (ent_locs es) N ∧ within w (str_locs es) X ∧
       ∀ w3, lstep (str_locs es) (ent_locs es) {[l]} w2 w3 → R z w3) E w1) →
  wp (auto_list k) (λ z w', R z w' ∧ lstep X N L w w') E w.
Proof.
  intros Hr Hk. apply wp_auto. wp_call list_new_ok.
  intros [r p] w1 (-> & l & -> & Hl & Hrep & S1). simpl.
  eapply wp_conseq; [by apply Hk|].
  intros z w2 (es & ss & Hrep2 & S2 & HN & HX & HR). cbn beta.
  wp_call (list_destroy_ok false w2 l es ss); [ready|].
  intros [r p'] w3 (-> & -> & _ & S3). simpl. split; [by apply HR|].
  eapply lstep_weaken; [done| |apply within_sub; reflexivity..|].
  - eapply lstep_trans; [done|exact S2|exact S3|done|done|]. within_tac.
  - within_tac.
Qed.

(** A string variable of a function that works on lists. *)
Lemma wp_auto_str_list w X N L k (R : Z → world → Prop) E :
  ready w →
  (∀ p w1, (next_loc w ≤ p)%positive → str_rep w1 p [] → sstep ∅ w w1 →
     wp (k (Some p)) (λ z w2, str_live w2 p ∧ lstep ({[p]} ∪ X) N L w w2 ∧
       ∀ w3, sstep {[p]} w2 w3 → R z w3) E w1) →
  wp (auto_str k) (λ z w', R z w' ∧ lstep X N L w w') E w.
Proof.
  intros Hr Hk. apply wp_auto. wp_call str_new_ok.
  intros [r p] w1 (-> & l & -> & Hl & Hrep & S1). simpl.
  eapply wp_conseq; [by apply Hk|]. intros z w2 (Hrep2 & S2 & HR). cbn beta.
  wp_call (str_destroy_live w2 l); [ready|].
  intros [r p'] w3 (-> & -> & _ & S3). simpl. split; [by apply HR|].
  apply (lstep_weaken X N L ({[l]} ∪ X) N L w w3);
    [done| |within_tac|apply within_sub; reflexivity..].
  apply (lstep_trans _ _ _ {[l]} ∅ ∅ w w2 w3);
    [done|exact S2|exact (sstep_lstep _ ∅ ∅ _ _ S3)|within_tac..].
Qed.

(** * Reading *)

(** Where a traversal stands: it has passed [es1], and [cur] is the next entry. *)
Lemma list_rep_cur k w l es1 n s es2 ss :
  list_rep k w l (es1 ++ (n, s) :: es2) ss → ∃ pv t,
    ents w !! n = Some (mk_list_entry_t (Some s) (hd_ptr es2 None) pv) ∧
    ss !! length es1 = Some t ∧ str_rep w s t.
Proof.
  intros Hl. apply list_rep_suffix in Hl as (ss1 & ss2 & -> & Hlen & _ & Ht & Hs & _).
  apply seg_cons in Hs as [(pv & Hn & _) _]. inversion Ht as [|? t ? ss' Htm]; subst.
  exists pv, t. split; [done|]. split; [|done]. rewrite Hlen.
  by rewrite lookup_app_r, Nat.sub_diag by lia.
Qed.

Lemma list_rep_fuel k w l es ss : list_rep k w l es ss → (length es < S (size (ents w)))%nat.
Proof. intros [_ Hs Hnd _ _ _]. apply seg_size in Hs; [lia|done]. Qed.

Lemma lookup_hd_ptr {es1 es2 : entries} n s :
  (es1 ++ (n, s) :: es2) !! length es1 = Some (n, s).
Proof. by rewrite lookup_app_r, Nat.sub_diag by lia. Qed.

Lemma list_entry_get_ok k w l es ss i n s E :
  list_rep k w l es ss → es !! Z.to_nat i = Some (n, s) → 0 ≤ i →
  wp (list_entry_get (Some l) i) (λ '(r, p) w', r = 0 ∧ p = Some n ∧ w' = w) E w.
Proof.
  intros Hl Hi Hi0. pose proof Hl as [Hh _ _ _ _ Hb]. pose proof (lookup_lt_Some _ _ _ Hi).
  wp_next. eapply wp_get_list; [done|]. simpl.
  rewrite (proj2 (Z.leb_gt _ _)) by lia. wp_next. apply wp_get_ents_fuel.
  eapply wp_loop with (n := length es) (I := λ m '(cur, count) w', ∃ es1 es2,
    es = es1 ++ es2 ∧ m = length es2 ∧ w' = w ∧ cur = hd_ptr es2 None ∧
    count = Z.of_nat (length es1) ∧ count ≤ i).
  2: { exists [], es. split_and!; done. }
  2: { by eapply list_rep_fuel. }
  intros m [cur count] w' (es1 & es2 & -> & -> & -> & -> & -> & Hle).
  destruct es2 as [|[m' sm] es2].
  { rewrite app_nil_r in *. lia. }
  destruct (list_rep_cur _ _ _ _ _ _ _ _ Hl) as (pv & t & He & _ & _).
  cbn [hd_ptr]. rewrite is_null_some. destruct (Z.eqb_spec (Z.of_nat (length es1)) i) as [<-|].
  - apply wp_ret. rewrite Nat2Z.id, lookup_hd_ptr in Hi. naive_solver.
  - wp_next. eapply wp_get_ent; [done|]. apply wp_ret. exists (length es2).
    split; [simpl; lia|]. exists (es1 ++ [(m', sm)]), es2.
    rewrite <- app_assoc. rewrite length_app in *. simpl in *.
    rewrite Z.mod_small by lia. split_and!; try done; lia.
Qed.

Lemma list_get_ok k w l es ss i q bs t E :
  ready w → list_rep k w l es ss → str_rep w q bs → q ∉ str_locs es →
  0 ≤ i → ss !! Z.to_nat i = Some t →
  wp (list_get (Some q) (Some l) i)
    (λ r w', r = 0 ∧ str_rep w' q t ∧ sstep {[q]} w w') E w.
Proof.
  intros Hr Hl Hq Hqs Hi0 Hi. apply wp_func_body.
  pose proof Hl as [_ Hs _ _ Ht _].
  destruct (Forall2_lookup_r _ _ _ _ _ Ht Hi) as ([n s] & Hes & Hst).
  wp_next. apply wp_try_out. wp_call list_entry_get_ok. intros [r p] w' (-> & -> & ->). simpl.
  destruct (seg_lookup _ _ _ _ _ n s Hs) as (e & He & Hv).
  { by eapply list_elem_of_lookup_2. }
  wp_next. eapply wp_get_ent; [done|]. rewrite Hv.
  wp_try_call (str_copy_ok w q s); [|intros r w1 (-> & ?); done].
  intros ->. apply Hqs, elem_of_str_locs.
  apply list_elem_of_fmap. exists (n, s). split; [done|]. by eapply list_elem_of_lookup_2.
Qed.

(** Past the end it fails and changes nothing. *)
Lemma list_get_error k w l es ss i q E :
  list_rep k w l es ss → Z.of_nat (length ss) ≤ i →
  wp (list_get (Some q) (Some l) i) (λ r w', r = -1 ∧ w' = w) E w.
Proof.
  intros Hl Hi. pose proof (list_rep_length _ _ _ _ _ Hl). pose proof Hl as [Hh _ _ _ _ _].
  apply wp_func_body. wp_next. apply wp_try_out. wp_next. eapply wp_get_list; [done|]. simpl.
  rewrite (proj2 (Z.leb_le _ _)) by lia. apply wp_ret. done.
Qed.

(** * Comparison and search *)

Lemma strcmp_eq a b : strcmp a b = 0 ↔ a = b.
Proof.
  revert b. induction a as [|x a IH]; intros [|y b]; simpl; try done.
  case_decide as Hxy; [subst; rewrite IH; naive_solver|].
  destruct (_ <? _); naive_solver.
Qed.

Lemma str_cmp_ok w p a c b E :
  str_rep w p a → cstr_at w c = Some b →
  wp (str_cmp (Some p) (Some c)) (λ r w', r = strcmp a b ∧ w' = w) E w.
Proof.
  intros Hp Hb. destruct (str_rep_get _ _ _ Hp) as (bp & sz & Hs & Ha & _).
  apply wp_func_body. wp_next. eapply wp_deref; [done|]. wp_next. eapply wp_c_str; [done|].
  wp_next. eapply wp_c_str; [done|]. by apply wp_leave.
Qed.

Lemma str_contains_ok w p a c b E :
  str_rep w p a → cstr_at w c = Some b →
  wp (str_contains (Some p) (Some c)) (λ '(r, f) w', r = 0 ∧ f = strstr a b ∧ w' = w) E w.
Proof.
  intros Hp Hb. destruct (str_rep_get _ _ _ Hp) as (bp & sz & Hs & Ha & _).
  wp_next. eapply wp_deref; [done|]. wp_next. eapply wp_c_str; [done|].
  wp_next. eapply wp_c_str; [done|]. by apply wp_ret.
Qed.

Lemma is_prefix_spec p s : is_prefix p s = true ↔ ∃ r, s = p ++ r.
Proof.
  revert s. induction p as [|a p IH]; intros s; [naive_solver|].
  destruct s as [|b s]; simpl; [naive_solver|].
  case_decide as Hab; [subst; rewrite IH|]; naive_solver.
Qed.

(** strstr(3) finds the occurrences. *)
Lemma strstr_spec h n : strstr h n = true ↔ ∃ a b, h = a ++ n ++ b.
Proof.
  induction h as [|c h IH]; simpl; rewrite orb_true_iff, is_prefix_spec.
  - split; [intros [[r ->]|]; [by exists [], r|done]|].
    intros (a & b & Hab). left. exists b. by destruct a.
  - rewrite IH. split.
    + intros [[r ->]|(a & b & ->)]; [by exists [], r|by exists (c :: a), b].
    + intros ([|c' a] & b & Hab); [left; by exists b|right].
      exists a, b. by injection Hab.
Qed.

Lemma list_find_ok k w l es ss c t E :
  list_rep k w l es ss → cstr_at w c = Some t →
  wp (list_find (Some l) (Some c))
    (λ '(r, f) w', r = 0 ∧ f = bool_decide (t ∈ ss) ∧ w' = w) E w.
Proof.
  intros Hl Hc. pose proof Hl as [Hh _ _ _ _ _]. wp_next. eapply wp_get_list; [done|]. simpl.
  wp_next. apply wp_get_ents_fuel.
  eapply wp_loop with (n := length es) (I := λ m cur w', ∃ es1 es2,
    es = es1 ++ es2 ∧ m = length es2 ∧ w' = w ∧ cur = hd_ptr es2 None ∧
    t ∉ take (length es1) ss).
  2: { exists [], es. split_and!; try done. by apply not_elem_of_nil. }
  2: { by eapply list_rep_fuel. }
  intros m cur w' (es1 & es2 & -> & -> & -> & -> & Hnot).
  pose proof (list_rep_length _ _ _ _ _ Hl) as Hlen. rewrite length_app in Hlen.
  destruct es2 as [|[n s] es2].
  { apply wp_ret. split_and!; [done| |done]. symmetry. apply bool_decide_eq_false.
    by rewrite take_ge in Hnot by (simpl in Hlen; lia). }
  destruct (list_rep_cur _ _ _ _ _ _ _ _ Hl) as (pv & t' & He & Hi & Ht).
  cbn [hd_ptr]. rewrite is_null_some. wp_next. eapply wp_get_ent; [done|]. simpl.
  wp_next. wp_call str_cmp_ok. intros r w' (-> & ->). simpl.
  destruct (Z.eqb_spec (strcmp t' t) 0) as [->%strcmp_eq|Hne].
  - apply wp_ret. split_and!; [done| |done]. symmetry. apply bool_decide_eq_true.
    by eapply list_elem_of_lookup_2.
  - apply wp_ret. exists (length es2). split; [lia|]. exists (es1 ++ [(n, s)]), es2.
    rewrite <- app_assoc, length_app. simpl. rewrite Nat.add_1_r.
    split_and!; try done. erewrite take_S_r by done.
    intros [H|H]%elem_of_app; [done|]. apply list_elem_of_singleton in H as ->.
    by rewrite strcmp_eq in Hne.
Qed.

Lemma list_find_substr_ok k w l es ss c t E :
  list_rep k w l es ss → cstr_at w c = Some t →
  wp (list_find_substr (Some l) (Some c))
    (λ r w', r = (if existsb (λ s, strstr s t) ss then 0 else -1) ∧ w' = w) E w.
Proof.
  intros Hl Hc. pose proof Hl as [Hh _ _ _ _ _]. apply wp_func_body.
  wp_next. eapply wp_get_list; [done|]. simpl. wp_next. apply wp_get_ents_fuel.
  wp_next. eapply (wp_conseq _ (λ f w', f = existsb (λ s, strstr s t) ss ∧ w' = w)).
  2: { intros f w' (-> & ->). apply wp_when; [|by intros ->%negb_false_iff].
       intros ->%negb_true_iff. by apply wp_leave. }
  eapply wp_loop with (n := length es) (I := λ m cur w', ∃ es1 es2,
    es = es1 ++ es2 ∧ m = length es2 ∧ w' = w ∧ cur = hd_ptr es2 None ∧
    existsb (λ s, strstr s t) (take (length es1) ss) = false).
  2: { exists [], es. by split_and!. }
  2: { by eapply list_rep_fuel. }
  intros m cur w' (es1 & es2 & -> & -> & -> & -> & Hnot).
  pose proof (list_rep_length _ _ _ _ _ Hl) as Hlen. rewrite length_app in Hlen.
  destruct es2 as [|[n s] es2].
  { apply wp_ret. split; [|done]. by rewrite take_ge in Hnot by (simpl in Hlen; lia). }
  destruct (list_rep_cur _ _ _ _ _ _ _ _ Hl) as (pv & t' & He & Hi & Ht).
  cbn [hd_ptr]. rewrite is_null_some. wp_next. eapply wp_get_ent; [done|]. simpl.
  wp_next. wp_call str_contains_ok. intros [r f] w' (-> & -> & ->). simpl.
  destruct (strstr t' t) eqn:Hf.
  - apply wp_ret. split; [|done]. symmetry. apply existsb_exists.
    exists t'. split; [|done]. apply list_elem_of_In. by eapply list_elem_of_lookup_2.
  - apply wp_ret. exists (length es2). split; [lia|]. exists (es1 ++ [(n, s)]), es2.
    rewrite <- app_assoc, length_app. simpl. rewrite Nat.add_1_r.
    split_and!; try done. erewrite take_S_r by done. rewrite existsb_app, Hnot. simpl.
    by rewrite Hf.
Qed.

