(* ===== verification/ListEdit.v ===== *)
(** The operations that remove elements from a list or work on whole lists. *)

From S2P Require Import Prelude Types Machine Wp StringOps StringFacts.
From S2P Require Import ListOps ListRep ListFacts.

Open Scope Z_scope.

(** * Removing *)

Lemma seg_delete w w' es1 n s es2 :
  seg true w None (es1 ++ (n, s) :: es2) None → NoDup (fst <$> (es1 ++ (n, s) :: es2)) →
  (∀ m e, m ∈ ent_locs (es1 ++ es2) → ents w !! m = Some e →
     ents w' !! m = Some
       (let e' := if decide (hd_ptr es2 None = Some m)
                  then set_ent_prev (last_ptr es1 None) e else e in
        if decide (last_ptr es1 None = Some m)
        then set_ent_next (hd_ptr es2 None) e' else e')) →
  seg true w' None (es1 ++ es2) None.
Proof.
  intros Hs Hnd Hold. apply seg_app in Hs as [Hs1 Hs2].
  apply seg_cons in Hs2 as [_ Hs2]. rewrite fmap_app in Hnd.
  apply NoDup_app in Hnd as (Hnd1 & Hdis & Hnd2). simpl in Hnd2.
  apply NoDup_cons in Hnd2 as [_ Hnd2]. simpl in Hdis.
  assert (∀ m, m ∈ ent_locs es1 → m ∈ ent_locs es2 → False) as Hd.
  { intros m H1%elem_of_ent_locs H2%elem_of_ent_locs. apply (Hdis m H1). by right. }
  assert (∀ m, hd_ptr es2 None = Some m → m ∈ ent_locs es2) as Hh.
  { intros m. destruct es2 as [|[]]; [done|]. intros [= ->]. locs. }
  assert (∀ m, last_ptr es1 None = Some m → m ∈ ent_locs es1) as Hl.
  { intros m. destruct es1 as [|[] es _] using rev_ind; [done|].
    rewrite last_ptr_snoc. intros [= <-]. locs. }
  apply seg_app. split.
  - eapply seg_relink_next; [exact Hs1|done|]. intros m e Hm He.
    erewrite Hold; [|locs|done]. rewrite (decide_False (P := hd_ptr es2 None = Some m));
      [done|naive_solver].
  - eapply seg_relink_prev; [exact Hs2|done|]. intros m e Hm He.
    erewrite Hold; [|locs|done]. cbn zeta.
    rewrite (decide_False (P := last_ptr es1 None = Some m)); [done|naive_solver].
Qed.

Lemma nodup_mid {A B} (es1 es2 : list (A * B)) n s :
  NoDup (fst <$> (es1 ++ (n, s) :: es2)) →
  NoDup (fst <$> (es1 ++ es2)) ∧ n ∉ fst <$> es1 ∧ n ∉ fst <$> es2.
Proof.
  rewrite !fmap_app. cbn [fmap list_fmap fst]. rewrite <- Permutation_middle.
  intros [Hn Hnd]%NoDup_cons. rewrite not_elem_of_app in Hn. naive_solver.
Qed.

Lemma nodup_mid_str {A B} (es1 es2 : list (A * B)) n s :
  NoDup (snd <$> (es1 ++ (n, s) :: es2)) →
  NoDup (snd <$> (es1 ++ es2)) ∧ s ∉ snd <$> es1 ∧ s ∉ snd <$> es2.
Proof.
  rewrite !fmap_app. cbn [fmap list_fmap snd]. rewrite <- Permutation_middle.
  intros [Hn Hnd]%NoDup_cons. rewrite not_elem_of_app in Hn. naive_solver.
Qed.

(** Head and tail of the list once [n] is gone. *)
Lemma hd_ptr_delete es1 n s es2 :
  NoDup (fst <$> (es1 ++ (n, s) :: es2)) →
  hd_ptr (es1 ++ es2) None =
    if ptr_eqb (hd_ptr (es1 ++ (n, s) :: es2) None) (Some n) then hd_ptr es2 None
    else hd_ptr (es1 ++ (n, s) :: es2) None.
Proof.
  intros (_ & Hn & _)%nodup_mid. destruct es1 as [|[m sm] es1]; simpl.
  - unfold ptr_eqb. by rewrite bool_decide_true.
  - unfold ptr_eqb. rewrite bool_decide_false; [done|]. intros [= ->]. apply Hn. simpl. by left.
Qed.

Lemma last_ptr_delete es1 n s es2 :
  NoDup (fst <$> (es1 ++ (n, s) :: es2)) →
  last_ptr (es1 ++ es2) None =
    if ptr_eqb (last_ptr (es1 ++ (n, s) :: es2) None) (Some n) then last_ptr es1 None
    else last_ptr (es1 ++ (n, s) :: es2) None.
Proof.
  intros (_ & _ & Hn)%nodup_mid. rewrite !last_ptr_app, last_ptr_cons. simpl.
  destruct es2 as [|[m sm] es2 _] using rev_ind.
  - unfold ptr_eqb. by rewrite bool_decide_true.
  - rewrite !last_ptr_snoc. unfold ptr_eqb. rewrite bool_decide_false; [done|].
    intros [= <-]. apply Hn. rewrite fmap_app. apply elem_of_app. right. simpl. by left.
Qed.

(** [if (a list field is ent) field = ...] *)
Lemma wp_when_list w l d b f (Q : unit → world → Prop) E :
  ready w → lists w !! l = Some d →
  (∀ w', lists w' !! l = Some (if (b : bool) then f d else d) → ents w' = ents w →
     lstep ∅ ∅ {[l]} w w' → Q tt w') →
  wp (when b (mod_list (Some l) f)) Q E w.
Proof.
  intros Hr Hl HQ. apply wp_when; intros ->.
  - eapply wp_mod_list; [done..|]. intros w' L' E' _ S'. apply HQ; [|done..].
    by rewrite L', lookup_insert_eq.
  - apply HQ; [done..|by apply lstep_refl].
Qed.

Lemma list_entry_delete_ok w l es1 n s es2 ss1 t ss2 E :
  ready w → list_rep true w l (es1 ++ (n, s) :: es2) (ss1 ++ t :: ss2) →
  length es1 = length ss1 →
  wp (list_entry_delete (Some l) (Some n))
    (λ r w', r = 0 ∧ list_rep true w' l (es1 ++ es2) (ss1 ++ ss2) ∧
       lstep {[s]} (ent_locs (es1 ++ (n, s) :: es2)) {[l]} w w') E w.
Proof.
  intros Hr Hl Hlen. pose proof Hl as [Hh Hs Hnd Hnds Ht Hb].
  destruct (nodup_mid _ _ _ _ Hnd) as (Hnd' & Hn1 & Hn2).
  destruct (nodup_mid_str _ _ _ _ Hnds) as (Hnds' & Hs1' & Hs2').
  rewrite <- elem_of_ent_locs in Hn1, Hn2. rewrite <- elem_of_str_locs in Hs1', Hs2'.
  pose proof Hs as [Hsa Hsb]%seg_app. apply seg_cons in Hsb as [(pv & Hn & Hpv) Hsb].
  rewrite (Hpv eq_refl) in Hn. clear pv Hpv.
  apply Forall2_app_inv in Ht as [Ht1 Ht2]; [|done].
  inversion Ht2 as [|? ? ? ? Htn Ht2']; subst. simpl in Htn.
  set (es := es1 ++ (n, s) :: es2) in *.
  apply wp_func_body. wp_next. eapply wp_get_ent; [done|]. cbn [ent_next ent_prev].
  wp_next. apply (wp_when_ent (ent_locs es)); [done| |].
  { intros m Hm. destruct (hd_ptr_in _ _ _ _ _ _ Hsb Hm) as []. split; [|done]. unfold es. locs. }
  intros w1 L1 S1 H1. wp_next. apply (wp_when_ent (ent_locs es)); [ready| |].
  { intros m Hm. destruct (last_ptr_in _ _ _ _ _ _ Hsa Hm) as [? [e He]].
    split; [unfold es; locs|]. erewrite H1; [|done]. by eexists. }
  intros w2 L2 S2 H2. wp_next. eapply wp_get_list; [by rewrite L2, L1|].
  cbn [list_head list_tail]. wp_next.
  eapply wp_when_list; [ready|by rewrite L2, L1|]. intros w3 L3 E3 S3.
  wp_next. eapply wp_when_list; [ready|done|]. intros w4 L4 E4 S4.
  wp_next. eapply wp_mod_list; [ready|done|]. intros w5 L5 E5 T5 S5.
  assert (lists w5 !! l = Some (mk_list_t (Z.of_nat (length (es1 ++ es2)))
    (hd_ptr (es1 ++ es2) None) (last_ptr (es1 ++ es2) None))) as Hl5.
  { rewrite L5, lookup_insert_eq. f_equal.
    rewrite (hd_ptr_delete es1 n s es2), (last_ptr_delete es1 n s es2) by done. fold es.
    assert (length es = S (length (es1 ++ es2))) as Hle
      by (unfold es; rewrite !length_app; simpl; lia).
    destruct (ptr_eqb (hd_ptr es None) _), (ptr_eqb (last_ptr es None) _); cbn;
      rewrite size_t_small by lia; f_equal; lia. }
  assert (ents w5 = ents w2) as E52 by congruence.
  assert (ents w5 !! n =
    Some (mk_list_entry_t (Some s) (hd_ptr es2 None) (last_ptr es1 None))) as Hn5.
  { rewrite E52. erewrite H2; [|by apply H1]. f_equal.
    rewrite !decide_False; [done| |].
    - intros H. apply (hd_ptr_in _ _ _ _ _ _ Hsb) in H as []. done.
    - intros H. apply (last_ptr_in _ _ _ _ _ _ Hsa) in H as []. done. }
  assert (seg true w5 None (es1 ++ es2) None) as Hseg.
  { eapply (seg_delete w); [exact Hs|done|]. intros m e Hm He. rewrite E52.
    erewrite H2; [|by apply H1]. done. }
  assert (lstep ∅ (ent_locs es) {[l]} w w5) as S15 by chain. clear S1 S2 S3 S4 S5.
  assert (str_rep w5 s t) as Ht5 by (eapply lstep_rep; [done|exact S15|set_solver|done]).
  wp_try_call list_entry_destroy_ok; [ready|]. intros r w6 (-> & _ & S6). cbn.
  assert (lstep {[s]} (ent_locs es) {[l]} w w6) as S by (unfold es in *; chain).
  split; [done|]. split; [|done].
  apply (list_rep_mono true {[s]} {[n]} ∅ w5 w6); [ready|exact S6| |set_solver|locs|locs].
  split; try done.
  - apply Forall2_app; eapply texts_mono; [done|exact S15|set_solver|done|done|exact S15|set_solver|done].
  - unfold es in Hb. rewrite length_app in *. simpl in Hb. lia.
Qed.

(** A step that changes the text of one entry only. *)
Lemma list_rep_text k X w w' l es1 n s es2 ss1 t t' ss2 :
  ready w → list_rep k w l (es1 ++ (n, s) :: es2) (ss1 ++ t :: ss2) →
  length es1 = length ss1 → sstep X w w' →
  (∀ x, x ∈ X → x = s ∨ x ∉ str_locs (es1 ++ (n, s) :: es2)) → str_rep w' s t' →
  list_rep k w' l (es1 ++ (n, s) :: es2) (ss1 ++ t' :: ss2).
Proof.
  intros Hr [Hh Hs Hnd Hnds Ht Hb] Hlen S HX Ht'.
  destruct (nodup_mid_str _ _ _ _ Hnds) as (_ & Hs1' & Hs2').
  rewrite <- elem_of_str_locs in Hs1', Hs2'.
  apply Forall2_app_inv in Ht as [Ht1 Ht2]; [|done].
  inversion Ht2 as [|? ? ? ? Htn Ht2']; subst.
  pose proof S as (_ & _ & [E1 L1 _ _]).
  assert (lstep X ∅ ∅ w w') as S' by (by apply sstep_lstep).
  split; try done.
  - by rewrite L1.
  - eapply seg_ext; [|exact Hs]. intros m _. by rewrite E1.
  - autorewrite with nc_locs in HX. apply Forall2_app; [|constructor; [done|]].
    + eapply texts_mono; [done|exact S'| |done]. intros x Hx1 Hx2.
      destruct (HX x Hx2); set_solver.
    + eapply texts_mono; [done|exact S'| |done]. intros x Hx1 Hx2.
      destruct (HX x Hx2); set_solver.
Qed.

(** Moving a value out of a list and deleting its entry. *)
Lemma move_and_delete_ok w l es1 n s es2 ss1 t ss2 q bs E :
  ready w → list_rep true w l (es1 ++ (n, s) :: es2) (ss1 ++ t :: ss2) →
  length es1 = length ss1 → str_rep w q bs → q ∉ str_locs (es1 ++ (n, s) :: es2) →
  wp (str_move (Some q) (Some s))
    (λ r w', r = 0 ∧ list_rep true w' l (es1 ++ (n, s) :: es2) (ss1 ++ [] :: ss2) ∧
       str_rep w' q t ∧ sstep {[q; s]} w w') E w.
Proof.
  intros Hr Hl Hlen Hq Hqs. pose proof Hl as [_ _ _ _ Ht _].
  apply Forall2_app_inv in Ht as [_ Ht2]; [|done].
  inversion Ht2 as [|? ? ? ? Htn _]; subst. simpl in Htn.
  wp_call (str_move_ok w q s bs t); [locs|].
  intros r w1 (-> & Hq1 & Hs1 & S1). split; [done|]. split; [|done].
  eapply list_rep_text; [done|exact Hl|done|exact S1| |done]. set_solver.
Qed.

Lemma list_pop_ok w l es n s ss t q bs E :
  ready w → list_rep true w l (es ++ [(n, s)]) (ss ++ [t]) → length es = length ss →
  str_rep w q bs → q ∉ str_locs (es ++ [(n, s)]) →
  wp (list_pop (Some q) (Some l))
    (λ r w', r = 0 ∧ str_rep w' q t ∧ list_rep true w' l es ss ∧
       lstep {[q; s]} (ent_locs (es ++ [(n, s)])) {[l]} w w') E w.
Proof.
  intros Hr Hl Hlen Hq Hqs. pose proof Hl as [Hh Hs _ _ _ _]. apply wp_func_body.
  apply seg_app in Hs as [_ [(pv & Hn & _) _]%seg_cons].
  wp_next. eapply wp_get_list; [done|]. cbn [list_tail]. rewrite last_ptr_snoc, is_null_some.
  wp_next. apply wp_ret. wp_next. eapply wp_get_ent; [done|]. wp_next. cbn [ent_value].
  wp_try_call move_and_delete_ok. intros r w1 (-> & Hl1 & Hq1 & S1). cbn.
  pose proof Hl1 as [Hh1 _ _ _ _ _]. wp_next. eapply wp_get_list; [done|].
  cbn [list_tail fst]. rewrite last_ptr_snoc. cbn [fst].
  wp_try_call list_entry_delete_ok; [ready|].
  intros r w2 (-> & Hl2 & S2). cbn. rewrite !app_nil_r in Hl2.
  assert (q ≠ s) by (autorewrite with nc_locs in Hqs; set_solver).
  split; [done|]. split; [keep|]. split; [done|]. chain.
Qed.

Lemma list_pop_empty k w l q E :
  list_rep k w l [] [] →
  wp (list_pop (Some q) (Some l)) (λ r w', r = -1 ∧ w' = w) E w.
Proof.
  intros [Hh _ _ _ _ _]. apply wp_func_body. wp_next. eapply wp_get_list; [done|]. cbn.
  wp_next. by apply wp_throw.
Qed.

Lemma list_shift_ok w l n s es ss t q bs E :
  ready w → list_rep true w l ((n, s) :: es) (t :: ss) →
  str_rep w q bs → q ∉ str_locs ((n, s) :: es) →
  wp (list_shift (Some q) (Some l))
    (λ r w', r = 0 ∧ str_rep w' q t ∧ list_rep true w' l es ss ∧
       lstep {[q; s]} (ent_locs ((n, s) :: es)) {[l]} w w') E w.
Proof.
  intros Hr Hl Hq Hqs. pose proof Hl as [Hh Hs _ _ _ _]. apply wp_func_body.
  apply seg_cons in Hs as [(pv & Hn & _) _].
  wp_next. eapply wp_get_list; [done|]. cbn [list_count]. wp_next.
  apply wp_when; [simpl; lia|intros _]. wp_next. apply wp_try_out.
  wp_call (list_entry_get_ok true w l ((n, s) :: es) (t :: ss) 0 n s); [done|].
  intros [r p] w0 (-> & -> & ->). cbn. wp_next. eapply wp_get_ent; [done|]. wp_next.
  cbn [ent_value]. wp_try_call (move_and_delete_ok w l [] n s es [] t ss q bs).
  intros r w1 (-> & Hl1 & Hq1 & S1). cbn.
  wp_try_call (list_entry_delete_ok w1 l [] n s es [] [] ss); [ready|].
  intros r w2 (-> & Hl2 & S2). cbn in *.
  assert (q ≠ s) by (autorewrite with nc_locs in Hqs; set_solver).
  split; [done|]. split; [keep|]. split; [done|]. chain.
Qed.

Lemma list_shift_empty k w l q E :
  list_rep k w l [] [] →
  wp (list_shift (Some q) (Some l)) (λ r w', r = -1 ∧ w' = w) E w.
Proof.
  intros [Hh _ _ _ _ _]. apply wp_func_body. wp_next. eapply wp_get_list; [done|]. cbn.
  wp_next. by apply wp_leave.
Qed.

(** An offset inside the list; at the count itself nothing happens, beyond it
    the call fails. *)
Lemma list_delete_ok w l es1 n s es2 ss1 t ss2 E :
  ready w → list_rep true w l (es1 ++ (n, s) :: es2) (ss1 ++ t :: ss2) →
  length es1 = length ss1 →
  wp (list_delete (Some l) (Z.of_nat (length es1)))
    (λ r w', r = 0 ∧ list_rep true w' l (es1 ++ es2) (ss1 ++ ss2) ∧
       lstep {[s]} (ent_locs (es1 ++ (n, s) :: es2)) {[l]} w w') E w.
Proof.
  intros Hr Hl Hlen. pose proof Hl as [Hh _ _ _ _ _]. apply wp_func_body.
  wp_next. eapply wp_get_list; [done|]. cbn [list_count]. wp_next.
  apply wp_when; [intros H%Z.ltb_lt; rewrite length_app in H; simpl in H; lia|intros _].
  cbn [list_head]. wp_next. apply wp_get_ents_fuel.
  set (es := es1 ++ (n, s) :: es2) in *.
  eapply wp_loop with (n := length es) (I := λ m '(cur, i) w', ∃ a b,
    es1 = a ++ b ∧ m = length (b ++ (n, s) :: es2) ∧ w' = w ∧
    cur = hd_ptr (b ++ (n, s) :: es2) None ∧ i = Z.of_nat (length a)).
  2: { exists [], es1. split_and!; done. }
  2: { by eapply list_rep_fuel. }
  intros m [cur i] w' (a & b & -> & -> & -> & -> & ->).
  destruct b as [|[n' s'] b].
  - subst es. rewrite !app_nil_r in Hl, Hlen |- *. cbn [hd_ptr app].
    rewrite is_null_some, Z.eqb_refl. wp_next. wp_try_call list_entry_delete_ok.
    intros r w1 (-> & ? & ?). by apply wp_ret.
  - cbn [hd_ptr app]. rewrite is_null_some, (proj2 (Z.eqb_neq _ _))
      by (rewrite length_app; simpl; lia).
    unfold es in Hl. rewrite <- app_assoc in Hl.
    destruct (list_rep_cur _ _ _ _ _ _ _ _ Hl) as (pv & t' & He & _ & _).
    wp_next. eapply wp_get_ent; [done|]. apply wp_ret.
    exists (length (b ++ (n, s) :: es2)). split; [simpl; lia|].
    exists (a ++ [(n', s')]), b. split_and!; try done; [by rewrite <- app_assoc|].
    rewrite length_app. simpl. lia.
Qed.

Lemma list_delete_at_end k w l es ss E :
  list_rep k w l es ss →
  wp (list_delete (Some l) (Z.of_nat (length ss))) (λ r w', r = 0 ∧ w' = w) E w.
Proof.
  intros Hl. rewrite <- (list_rep_length _ _ _ _ _ Hl). pose proof Hl as [Hh _ _ _ _ _].
  apply wp_func_body.
  wp_next. eapply wp_get_list; [done|]. cbn [list_count]. wp_next.
  apply wp_when; [lia|intros _]. cbn [list_head]. wp_next. apply wp_get_ents_fuel.
  eapply wp_loop with (n := length es) (I := λ m '(cur, i) w', ∃ a b,
    es = a ++ b ∧ m = length b ∧ w' = w ∧ cur = hd_ptr b None ∧ i = Z.of_nat (length a)).
  2: { exists [], es. split_and!; done. }
  2: { by eapply list_rep_fuel. }
  intros m [cur i] w' (a & b & -> & -> & -> & -> & ->). destruct b as [|[n s] b].
  { by apply wp_ret. }
  cbn [hd_ptr]. rewrite is_null_some, (proj2 (Z.eqb_neq _ _))
    by (rewrite length_app; simpl; lia).
  destruct (list_rep_cur _ _ _ _ _ _ _ _ Hl) as (pv & t' & He & _ & _).
  wp_next. eapply wp_get_ent; [done|]. apply wp_ret. exists (length b). split; [simpl; lia|].
  exists (a ++ [(n, s)]), b. rewrite <- app_assoc, length_app. split_and!; try done. simpl. lia.
Qed.

Lemma list_delete_error k w l es ss i E :
  list_rep k w l es ss → Z.of_nat (length ss) < i →
  wp (list_delete (Some l) i) (λ r w', r = -1 ∧ w' = w) E w.
Proof.
  intros Hl Hi. rewrite <- (list_rep_length _ _ _ _ _ Hl) in Hi. pose proof Hl as [Hh _ _ _ _ _].
  apply wp_func_body. wp_next. eapply wp_get_list; [done|]. cbn [list_count]. wp_next.
  apply wp_when; [|lia]. intros _. by apply wp_throw.
Qed.

(** * Adding C strings *)

Lemma list_rep_locs k w l es ss :
  ready w → list_rep k w l es ss →
  (∀ x, x ∈ ent_locs es → (x < next_loc w)%positive) ∧
  (∀ x, x ∈ str_locs es → (x < next_loc w)%positive).
Proof.
  intros Hr [_ Hs _ _ Ht _]. split.
  - intros x Hx%elem_of_ent_locs. by eapply seg_lt.
  - intros x Hx%elem_of_str_locs. by eapply texts_lt.
Qed.

(** Entries and strings that did not exist in [w]. *)
Definition all_new (w : world) (es : entries) : Prop :=
  (∀ x, x ∈ ent_locs es → (next_loc w ≤ x)%positive) ∧
  (∀ x, x ∈ str_locs es → (next_loc w ≤ x)%positive).

Lemma all_new_nil w : all_new w [].
Proof. split; intros x; autorewrite with nc_locs; set_solver. Qed.

Lemma all_new_cons w n s es :
  (next_loc w ≤ n)%positive → (next_loc w ≤ s)%positive → all_new w es →
  all_new w ((n, s) :: es).
Proof.
  intros Hn Hs [H1 H2]. split; intros x; autorewrite with nc_locs;
    intros [->%elem_of_singleton|Hx]%elem_of_union; auto.
Qed.

Lemma all_new_snoc w es n s :
  all_new w es → (next_loc w ≤ n)%positive → (next_loc w ≤ s)%positive →
  all_new w (es ++ [(n, s)]).
Proof.
  intros [H1 H2] Hn Hs. split; intros x; autorewrite with nc_locs;
    intros [?|[->%elem_of_singleton|H%not_elem_of_empty]%elem_of_union]%elem_of_union; auto; done.
Qed.

Lemma all_new_mono w w' es :
  (next_loc w ≤ next_loc w')%positive → all_new w' es → all_new w es.
Proof. intros Hle [H1 H2]. split; intros x Hx; [apply H1 in Hx|apply H2 in Hx]; lia. Qed.

Lemma list_cat_ok k w l es ss c t E :
  ready w → list_rep k w l es ss → readable w ∅ c t →
  Z.of_nat (length t) < STRING_MAX → Z.of_nat (S (length es)) < 2 ^ 32 →
  wp (list_cat (Some l) (Some c))
    (λ r w', (r = 0 ∧ ∃ n s, (next_loc w ≤ n)%positive ∧ (next_loc w ≤ s)%positive ∧
       list_rep k w' l (es ++ [(n, s)]) (ss ++ [t])) ∧
       lstep ∅ (ent_locs es) {[l]} w w') E w.
Proof.
  intros Hr Hl Hc Ht Hmax. apply wp_func, wp_auto_str_list; [done|].
  intros p w1 Hp Hp1 S1. pose proof (sstep_lstep _ ∅ ∅ _ _ S1) as S1'.
  destruct (list_rep_locs _ _ _ _ _ Hr Hl) as [HN HX].
  assert (readable w1 {[p]} c t) as [Hc1 Hn1]
    by (eapply readable_step; [done|exact S1'|done|within_tac]).
  assert (p ∉ str_locs es) by (intros H%HX; lia).
  apply wp_body. wp_next. wp_try_call str_cpy_ok; [ready|].
  intros r w2 (-> & Hp2 & S2). cbn.
  wp_try_call (list_push_ok k w2 l es ss p t); [ready|keep|].
  intros r w3 (-> & n & s & Hn & Hs & Hl3 & S3). cbn. bounds.
  split; [eapply (str_rep_live _ _ t); keep|]. split; [chain|].
  intros w4 S4. split; [done|]. exists n, s. split; [lia|]. split; [lia|]. keep.
Qed.

Lemma cat_all_ok k w l es ss args ts E :
  ready w → list_rep k w l es ss → Forall2 (readable w ∅) args ts →
  Forall (λ t : bytes, Z.of_nat (length t) < STRING_MAX) ts →
  Z.of_nat (length es + length ts) < 2 ^ 32 →
  wp (cat_all (Some l) args)
    (λ _ w', ∃ new, all_new w new ∧ list_rep k w' l (es ++ new) (ss ++ ts) ∧
       lstep ∅ (ent_locs es) {[l]} w w') E w.
Proof.
  revert w es ss ts. induction args as [|c args IH]; intros w es ss ts Hr Hl Hargs Hts Hmax.
  - inversion Hargs; subst. exists []. rewrite !app_nil_r. split; [|split; [done|]].
    + apply all_new_nil.
    + by apply lstep_refl.
  - inversion Hargs as [|? t ? ts' Hc Hargs']; subst. apply Forall_cons in Hts as [Ht Hts].
    simpl in Hmax. cbn [cat_all]. wp_next. wp_try_call list_cat_ok; [lia|].
    intros r w1 ((-> & n & s & Hn & Hs & Hl1) & S1). cbn.
    eapply wp_conseq; [eapply (IH w1 (es ++ [(n, s)]) (ss ++ [t]) ts'); [ready|done| |done|]|].
    + eapply Forall2_impl; [exact Hargs'|]. intros c' t' H'.
      eapply readable_step; [done|exact S1|done|within_tac].
    + rewrite length_app. simpl. lia.
    + intros _ w2 (new & G & Hl2 & S2). exists ((n, s) :: new).
      rewrite <- !app_assoc in Hl2. bounds. split; [|split; [done|chain]].
      apply all_new_cons; [done|done|]. by eapply all_new_mono.
Qed.

Lemma list_from_char_ok k w l es ss args ts E :
  ready w → list_rep k w l es ss → Forall2 (readable w (str_locs es)) args ts →
  Forall (λ t : bytes, Z.of_nat (length t) < STRING_MAX) ts → Z.of_nat (length ts) < 2 ^ 32 →
  wp (list_from_char (Some l) args)
    (λ r w', r = 0 ∧ (∃ new, all_new w new ∧ list_rep true w' l new ts) ∧
       lstep (str_locs es) (ent_locs es) {[l]} w w') E w.
Proof.
  intros Hr Hl Hargs Hts Hmax. apply wp_func_body. wp_next.
  wp_try_call list_truncate_ok. intros r w1 (-> & Hl1 & S1). cbn.
  eapply wp_conseq; [eapply (cat_all_ok true w1 l [] [] args ts); [ready|done| |done|done]|].
  - eapply Forall2_impl; [exact Hargs|]. intros c t Hc.
    eapply readable_step; [done|exact S1|done|within_tac].
  - intros _ w2 (new & G & Hl2 & S2). split; [done|]. bounds. split; [|chain].
    exists new. split; [|done]. by eapply all_new_mono.
Qed.

(** * Whole lists *)

(** [for_each] with an invariant and a variant. *)
Lemma wp_for_each (I : nat → ptr → world → Prop) f (Q : unit → world → Prop) E head w n :
  (∀ n p w, I n (Some p) w →
     wp (f (Some p)) (λ b w', b = false ∧ ∃ e n', ents w' !! p = Some e ∧
       (n' < n)%nat ∧ I n' (ent_next e) w') E w) →
  (∀ n w, I n None w → Q tt w) →
  I n head w → (n < S (size (ents w)))%nat → wp (for_each head f) Q E w.
Proof.
  intros Hf HQ HI Hn. wp_next. apply wp_get_ents_fuel.
  eapply wp_loop with (I := I); [|done|done]. clear - Hf HQ. intros n [p|] w HI.
  - rewrite is_null_some. wp_next. eapply wp_conseq; [by apply Hf|].
    intros b w' (-> & e & n' & He & Hn & HI'). wp_next. eapply wp_get_ent; [done|].
    apply wp_ret. by exists n'.
  - rewrite is_null_none. apply wp_ret. by eapply HQ.
Qed.

Lemma list_copy_ok k0 k w d es0 ss0 l es ss E :
  ready w → list_rep k0 w d es0 ss0 → list_rep k w l es ss → d ≠ l →
  ent_locs es ## ent_locs es0 → str_locs es ## str_locs es0 →
  wp (list_copy (Some d) (Some l))
    (λ r w', r = 0 ∧ (∃ new, all_new w new ∧ list_rep true w' d new ss) ∧
       lstep (str_locs es0) (ent_locs es0) {[d]} w w') E w.
Proof.
  intros Hr Hd Hl Hne HN HX. apply wp_func_body. wp_next.
  wp_try_call list_truncate_ok. intros r w1 (-> & Hd1 & S1). cbn.
  destruct (list_rep_locs _ _ _ _ _ Hr Hl) as [HN1 HX1].
  assert (list_rep k w1 l es ss) as Hl1
    by (eapply list_rep_mono; [done|exact S1|done|set_solver..]).
  pose proof Hl1 as [Hh1 _ _ _ _ Hb]. pose proof (list_rep_length _ _ _ _ _ Hl1) as Hlen.
  wp_next. eapply wp_get_list; [done|]. cbn [list_head].
  eapply (wp_for_each (λ n p w', ∃ es1 es2 new, es = es1 ++ es2 ∧ n = length es2 ∧
      p = hd_ptr es2 None ∧ length new = length es1 ∧ all_new w1 new ∧
      list_rep true w' d new (take (length es1) ss) ∧ lstep ∅ ∅ {[d]} w1 w')).
  3: { exists [], es, []. split_and!; [done..|apply all_new_nil|done|apply lstep_refl; ready]. }
  3: { rewrite <- Hlen. by eapply list_rep_fuel. }
  - intros n p w2 (es1 & es2 & new & -> & -> & Hp & Hnew & [G1 G2] & Hd2 & S2).
    destruct es2 as [|[n' s] es2]; [done|]. injection Hp as ->.
    assert (list_rep k w2 l (es1 ++ (n', s) :: es2) ss) as Hl2
      by (eapply list_rep_mono; [|exact S2|exact Hl1|set_solver..]; ready).
    destruct (list_rep_cur _ _ _ _ _ _ _ _ Hl2) as (pv & t & He & Ht & Hst).
    wp_next. eapply wp_get_ent; [done|]. wp_next. cbn [ent_value].
    rewrite length_app in *. cbn [length] in *.
    wp_try_call (list_push_ok true w2 d new _ s t); [ready|lia|].
    intros r w3 (-> & m & sm & Hm & Hsm & Hd3 & S3). cbn.
    split; [done|]. eexists _, (length es2). split.
    { eapply lstep_ent; [|exact S3| |exact He]; [ready|]. intros H%G1.
      assert (n' < next_loc w)%positive by (apply HN1; locs). bounds. lia. }
    split; [lia|]. bounds. exists (es1 ++ [(n', s)]), es2, (new ++ [(m, sm)]).
    rewrite <- app_assoc, !length_app. cbn [length]. rewrite !Nat.add_1_r. erewrite take_S_r by done.
    split_and!; try done.
    + by rewrite Hnew.
    + apply all_new_snoc; [done|lia|lia].
    + eapply (lstep_trans ∅ ∅ {[d]} _ _ _ w1 w2 w3); [ready|exact S2|exact S3|within_tac| |within_tac].
      intros x Hx. right. auto.
  - intros n w2 (es1 & es2 & new & -> & -> & Hp & Hnew & G & Hd2 & S2).
    destruct es2 as [|[]]; [|done]. rewrite app_nil_r in *. bounds.
    rewrite take_ge in Hd2 by lia. split; [done|]. split; [|chain].
    exists new. split; [|done]. by eapply all_new_mono.
Qed.

(** [list_move] hands over the entries themselves. *)
Lemma list_move_ok k0 k w d es0 ss0 l es ss E :
  ready w → list_rep k0 w d es0 ss0 → list_rep k w l es ss → d ≠ l →
  ent_locs es ## ent_locs es0 → str_locs es ## str_locs es0 →
  wp (list_move (Some d) (Some l))
    (λ r w', r = 0 ∧ list_rep k w' d es ss ∧ list_rep true w' l [] [] ∧
       lstep (str_locs es0) (ent_locs es0) {[d; l]} w w') E w.
Proof.
  intros Hr Hd Hl Hne HN HX. apply wp_func_body. wp_next.
  wp_try_call list_truncate_ok. intros r w1 (-> & Hd1 & S1). cbn.
  assert (list_rep k w1 l es ss) as Hl1
    by (eapply list_rep_mono; [done|exact S1|done|set_solver..]).
  pose proof Hl1 as [Hh1 Hs1 Hnd Hnds Ht1 Hb]. pose proof Hd1 as [Hdh1 _ _ _ _ _].
  wp_next. eapply wp_get_list; [done|]. wp_next.
  eapply (wp_mod_list w1 d); [ready|done|]. intros w2 L2 E2 T2 S2. cbn.
  eapply (wp_mod_list w2 l); [ready|by rewrite L2, lookup_insert_ne|].
  intros w3 L3 E3 T3 S3. split; [done|].
  assert (lstep ∅ ∅ {[d; l]} w1 w3) as S13 by chain.
  split; [|split; [split; try done; try constructor; by rewrite L3, lookup_insert_eq|]].
  - split; try done.
    + by rewrite L3, lookup_insert_ne, L2, lookup_insert_eq.
    + eapply seg_ext; [|exact Hs1]. intros m _. by rewrite E3, E2.
    + eapply texts_mono; [|exact S13|set_solver|done]. ready.
  - clear S2 S3. chain.
Qed.

Lemma last_ptr_ne es p p' : es ≠ [] → last_ptr es p = last_ptr es p'.
Proof. destruct es as [|e es _] using rev_ind; [done|]. by rewrite !last_ptr_snoc. Qed.

(** [list_merge] of a list that is not empty links its entries behind those of
    [d]; the [prev] pointer of the first of them is not set. *)
Lemma list_merge_ok w d es0 ss0 l es ss E :
  ready w → list_rep false w d es0 ss0 → list_rep false w l es ss → d ≠ l → es ≠ [] →
  ent_locs es ## ent_locs es0 → str_locs es ## str_locs es0 →
  Z.of_nat (length es0 + length es) < 2 ^ 32 →
  wp (list_merge (Some d) (Some l))
    (λ r w', r = 0 ∧ list_rep false w' d (es0 ++ es) (ss0 ++ ss) ∧ list_rep true w' l [] [] ∧
       lstep ∅ (ent_locs es0) {[d; l]} w w') E w.
Proof.
  intros Hr [Dh Ds Dnd Dnds Dt Db] [Lh Ls Lnd Lnds Lt Lb] Hne Hnil HN HX Hmax.
  apply wp_func_body. wp_next. eapply wp_get_list; [done|]. wp_next.
  eapply wp_get_list; [done|]. cbn [list_count list_head list_tail]. wp_next.
  eapply (wp_conseq _ (λ _ w1, lstep ∅ (ent_locs es0) {[d]} w w1 ∧
    lists w1 !! d = Some (mk_list_t (Z.of_nat (length es0)) (hd_ptr (es0 ++ es) None)
      (last_ptr es0 None)) ∧ seg false w1 None es0 (hd_ptr es None) ∧
    (∀ m, m ∈ ent_locs es → ents w1 !! m = ents w !! m))).
  { destruct es0 as [|e0 es0 _] using rev_ind.
    - cbn. eapply wp_mod_list; [done..|]. intros w1 L1 E1 _ S1. split; [chain|].
      split; [by rewrite L1, lookup_insert_eq|]. split; [done|]. by rewrite E1.
    - destruct e0 as [m sm]. rewrite last_ptr_snoc, length_app in *. cbn in Db |- *.
      rewrite (proj2 (Z.eqb_neq _ _)) by lia. pose proof Ds as [_ [(pv & Hm & _) _]%seg_cons]%seg_app.
      eapply wp_mod_ent; [done..|]. intros w1 E1 L1 _ S1. split; [|split; [|split]].
      + eapply lstep_weaken; [done|exact S1|within_tac|within_tac|within_tac].
      + rewrite L1, Dh. by rewrite <- app_assoc; destruct es0 as [|[]].
      + eapply seg_relink_next; [exact Ds|done|]. rewrite last_ptr_snoc. intros m' e _ He.
        rewrite E1. destruct (decide (m' = m)) as [->|Hmm].
        * rewrite lookup_insert_eq, decide_True by done. congruence.
        * rewrite lookup_insert_ne, decide_False by (cbn; congruence). done.
      + intros m' Hm'. rewrite E1. apply lookup_insert_ne. locs. }
  intros _ w1 (S1 & L1 & Ds1 & Hsame).
  assert (lists w1 !! l = Some (mk_list_t (Z.of_nat (length es)) (hd_ptr es None)
    (last_ptr es None))) as Lh1 by keep.
  wp_next. eapply wp_get_list; [done|]. wp_next. cbn.
  eapply (wp_mod_list w1 d); [ready|done|]. intros w2 L2 E2 _ S2. cbn in L2.
  eapply (wp_mod_list w2 l); [ready|by rewrite L2, lookup_insert_ne|]. intros w3 L3 E3 _ S3.
  assert (lstep ∅ (ent_locs es0) {[d; l]} w w3) as S by chain.
  split; [done|]. split; [|split; [|done]].
  - split.
    + rewrite L3, lookup_insert_ne, L2, lookup_insert_eq by done.
      rewrite length_app, last_ptr_app, (last_ptr_ne es (last_ptr es0 None) None) by done.
      rewrite size_t_small by lia. do 2 f_equal. lia.
    + apply seg_app. split.
      * eapply seg_ext; [|exact Ds1]. intros m _. by rewrite E3, E2.
      * eapply seg_weak, seg_ext; [|exact Ls]. intros m Hm%elem_of_ent_locs.
        by rewrite E3, E2, Hsame.
    + rewrite fmap_app. apply NoDup_app. split_and!; [done| |done].
      intros x Hx%elem_of_ent_locs Hy%elem_of_ent_locs. set_solver.
    + rewrite fmap_app. apply NoDup_app. split_and!; [done| |done].
      intros x Hx%elem_of_str_locs Hy%elem_of_str_locs. set_solver.
    + apply Forall2_app; eapply texts_mono; [done|exact S|set_solver|done|done|exact S|set_solver|done].
    + rewrite length_app. lia.
  - split; try done; try constructor. by rewrite L3, lookup_insert_eq.
Qed.

(** * Reversal *)

Lemma hd_ptr_reverse es : hd_ptr (reverse es) None = last_ptr es None.
Proof.
  destruct es as [|e es _] using rev_ind; [done|].
  rewrite reverse_snoc, last_ptr_snoc. by destruct e.
Qed.

Lemma last_ptr_reverse es p : last_ptr (reverse es) p = hd_ptr es p.
Proof. destruct es as [|e es]; [done|]. rewrite reverse_cons, last_ptr_snoc. by destruct e. Qed.

Lemma ent_locs_reverse es : ent_locs (reverse es) = ent_locs es.
Proof. unfold ent_locs. rewrite fmap_reverse. apply list_to_set_perm_L, reverse_Permutation. Qed.

(** A list in the middle of its reversal: [es1] is still as it was, the entries
    of [es2] are turned round. *)
Definition half_reversed (w : world) (es1 es2 : entries) : Prop :=
  seg true w None es1 (hd_ptr es2 None) ∧ seg true w None (reverse es2) (last_ptr es1 None).

Lemma half_reversed_step w w' es1 n s es2 :
  NoDup (fst <$> (es1 ++ (n, s) :: es2)) → half_reversed w (es1 ++ [(n, s)]) es2 →
  (∀ m, m ≠ n → ents w' !! m = ents w !! m) →
  ents w' !! n = Some (mk_list_entry_t (Some s) (last_ptr es1 None) (hd_ptr es2 None)) →
  half_reversed w' es1 ((n, s) :: es2).
Proof.
  intros (_ & Hn1 & Hn2)%nodup_mid [[H1 _]%seg_app H2] Hsame Hn.
  rewrite last_ptr_snoc in H2. split.
  - eapply seg_ext; [|exact H1]. intros m Hm. apply Hsame. by intros ->.
  - rewrite reverse_cons. apply seg_app. split.
    + eapply seg_ext; [|exact H2]. intros m Hm. apply Hsame. intros ->.
      rewrite fmap_reverse in Hm. by apply (proj1 (elem_of_reverse _ _)) in Hm.
    + apply seg_cons. split; [|done]. eexists. split; [exact Hn|].
      by rewrite last_ptr_reverse.
Qed.

Lemma list_reverse_ok w l es ss E :
  ready w → list_rep true w l es ss →
  wp (list_reverse (Some l))
    (λ r w', r = 0 ∧ list_rep true w' l (reverse es) (reverse ss) ∧
       lstep ∅ (ent_locs es) {[l]} w w') E w.
Proof.
  intros Hr [Hh Hs Hnd Hnds Ht Hb]. apply wp_func_body. wp_next.
  eapply wp_get_list; [done|]. wp_next. eapply wp_mod_list; [done..|].
  intros w1 L1 E1 T1 S1. cbn in L1. cbn [list_tail].
  assert (seg true w1 None es None) as Hs1
    by (eapply seg_ext; [|exact Hs]; intros m _; by rewrite E1).
  eapply (wp_for_each (λ n p w', ∃ es1 es2, es = es1 ++ es2 ∧ n = length es1 ∧
      p = last_ptr es1 None ∧ half_reversed w' es1 es2 ∧ lists w' = lists w1 ∧
      lstep ∅ (ent_locs es) {[l]} w w')).
  3: { exists es, []. rewrite app_nil_r. split_and!; try done. chain. }
  3: { apply seg_size in Hs1; [lia|done]. }
  - intros n p w2 (es1 & es2 & Hes & -> & Hp & Hrev & L2 & S2).
    destruct es1 as [|[m s] es1 _] using rev_ind; [done|].
    rewrite last_ptr_snoc in Hp. injection Hp as ->. rewrite <- app_assoc in Hes. cbn in Hes.
    pose proof Hrev as [[_ [(pv & Hm & Hpv) _]%seg_cons]%seg_app _].
    rewrite (Hpv eq_refl) in Hm. clear pv Hpv. assert (m ∈ ent_locs es) by (subst es; locs).
    cbn [fst]. wp_next. eapply wp_get_ent; [done|]. cbn [ent_next ent_prev hd_ptr].
    wp_next. eapply (wp_mod_ent w2 m); [ready|done|]. intros w3 E3 L3 _ S3. wp_next.
    eapply (wp_mod_ent w3 m); [ready|by rewrite E3, lookup_insert_eq|]. intros w4 E4 L4 _ S4.
    apply wp_ret. split; [done|].
    assert (ents w4 !! m = Some (mk_list_entry_t (Some s) (last_ptr es1 None)
      (hd_ptr es2 None))) as Hm4 by (by rewrite E4, lookup_insert_eq).
    eexists _, (length es1). split; [done|].
    split; [rewrite length_app; simpl; lia|]. exists es1, ((m, s) :: es2).
    split_and!; try done; [|congruence|chain].
    apply (half_reversed_step w2); [by rewrite <- Hes|done| |done].
    intros m' Hm'. by rewrite E4, lookup_insert_ne, E3, lookup_insert_ne.
  - intros n w2 (es1 & es2 & Hes & -> & Hp & [_ Hrev] & L2 & S2).
    destruct es1 as [|[m s] es1 _] using rev_ind; [|by rewrite last_ptr_snoc in Hp].
    cbn in Hes. subst es2. split; [done|]. split; [|done]. split.
    + rewrite L2, L1, lookup_insert_eq. by rewrite length_reverse, hd_ptr_reverse, last_ptr_reverse.
    + done.
    + rewrite fmap_reverse. by rewrite reverse_Permutation.
    + rewrite fmap_reverse. by rewrite reverse_Permutation.
    + apply Forall2_reverse. eapply texts_mono; [|exact S2|set_solver|done]. done.
    + by rewrite length_reverse.
Qed.
