(* ===== verification/ListSort.v ===== *)
(** [list_sort]: what it really computes.  A pass compares the same two
    strings, the first two of the list, at every step; so it either leaves the
    list alone or moves the first value to the end. *)

From S2P Require Import Prelude Types Machine Wp StringOps StringFacts.
From S2P Require Import ListOps ListRep ListFacts ListEdit.

Open Scope Z_scope.

(** * Exchanging neighbours *)

(** What exchanging the values of [n] and [m] makes of the entries. *)
Definition exchanged (w w' : world) (n v m u : loc) : Prop :=
  (∀ x, x ≠ n → x ≠ m → ents w' !! x = ents w !! x) ∧
  (∀ e, ents w !! n = Some e → ents w' !! n = Some (set_ent_value (Some u) e)) ∧
  (∀ e, ents w !! m = Some e → ents w' !! m = Some (set_ent_value (Some v) e)).

Lemma nodup_two (es1 es2 : entries) n v m u :
  NoDup (fst <$> (es1 ++ (n, v) :: (m, u) :: es2)) →
  n ≠ m ∧ (∀ x, x ∈ fst <$> es1 → x ≠ n ∧ x ≠ m) ∧ (∀ x, x ∈ fst <$> es2 → x ≠ n ∧ x ≠ m).
Proof.
  intros Hnd. destruct (nodup_mid _ _ _ _ Hnd) as (Hnd' & H1 & H2).
  destruct (nodup_mid _ _ _ _ Hnd') as (_ & H3 & H4). cbn in H2.
  apply not_elem_of_cons in H2 as [H2 H5].
  split; [done|]. split; intros x Hx; split; by intros ->.
Qed.

Lemma seg_exchange k w w' p es1 n v m u es2 :
  NoDup (fst <$> (es1 ++ (n, v) :: (m, u) :: es2)) →
  seg k w p (es1 ++ (n, v) :: (m, u) :: es2) None → exchanged w w' n v m u →
  seg k w' p (es1 ++ (n, u) :: (m, v) :: es2) None.
Proof.
  intros (Hnm & Hx1 & Hx2)%nodup_two [H1 H2]%seg_app (Hsame & Hn & Hm).
  apply seg_cons in H2 as [(pv & Hen & Hpv) H2]. apply seg_cons in H2 as [(pm & Hem & Hpm) H2].
  apply seg_app. split; [|apply seg_cons; split; [|apply seg_cons; split]].
  - eapply seg_ext; [|exact H1]. intros x Hin. destruct (Hx1 x Hin). by apply Hsame.
  - exists pv. split; [|done]. by rewrite (Hn _ Hen).
  - exists pm. split; [|done]. by rewrite (Hm _ Hem).
  - eapply seg_ext; [|exact H2]. intros x Hin. destruct (Hx2 x Hin). by apply Hsame.
Qed.

Lemma list_rep_exchange k N w w' l es1 n v m u es2 ss1 s t ss2 :
  ready w → list_rep k w l (es1 ++ (n, v) :: (m, u) :: es2) (ss1 ++ s :: t :: ss2) →
  length es1 = length ss1 → exchanged w w' n v m u → lists w' = lists w →
  lstep ∅ N ∅ w w' →
  list_rep k w' l (es1 ++ (n, u) :: (m, v) :: es2) (ss1 ++ t :: s :: ss2).
Proof.
  intros Hr [Hh Hs Hnd Hnds Ht Hb] Hlen Hx L S.
  assert (texts w' (es1 ++ (n, v) :: (m, u) :: es2) (ss1 ++ s :: t :: ss2)) as Ht'
    by (eapply texts_mono; [done|exact S|set_solver|done]).
  apply Forall2_app_inv in Ht' as [Ht1 Ht2]; [|done].
  inversion Ht2 as [|? ? ? ? Hv Ht3]; subst. inversion Ht3 as [|? ? ? ? Hu Ht4]; subst.
  rewrite length_app in *. split.
  - rewrite L, Hh, length_app. f_equal. f_equal; [by destruct es1 as [|[]]|].
    by rewrite !last_ptr_app, !last_ptr_cons.
  - by eapply seg_exchange.
  - by rewrite fmap_app in *.
  - rewrite fmap_app in *. cbn in *. rewrite (Permutation_swap v u). done.
  - apply Forall2_app; [done|]. by repeat constructor.
  - by rewrite length_app.
Qed.

Lemma wp_exchange k w l es1 n v m u es2 ss1 s t ss2 E :
  ready w → list_rep k w l (es1 ++ (n, v) :: (m, u) :: es2) (ss1 ++ s :: t :: ss2) →
  length es1 = length ss1 →
  wp (e1 ← get_ent (Some n); e2 ← get_ent (Some m);
      mod_ent (Some n) (set_ent_value (ent_value e2));;
      mod_ent (Some m) (set_ent_value (ent_value e1));; mret true)
    (λ f w', f = true ∧ list_rep k w' l (es1 ++ (n, u) :: (m, v) :: es2) (ss1 ++ t :: s :: ss2) ∧
       lstep ∅ {[n; m]} ∅ w w') E w.
Proof.
  intros Hr Hl Hlen. pose proof Hl as [_ [_ Hs]%seg_app Hnd _ _ _].
  destruct (nodup_two _ _ _ _ _ _ Hnd) as (Hnm & _ & _).
  apply seg_cons in Hs as [(pv & Hn & _) [(pm & Hm & _) _]%seg_cons].
  wp_next. eapply wp_get_ent; [done|]. wp_next. eapply wp_get_ent; [done|]. cbn [ent_value].
  wp_next. eapply (wp_mod_ent w n); [done..|]. intros w1 E1 L1 _ S1.
  wp_next. eapply (wp_mod_ent w1 m); [ready|by rewrite E1, lookup_insert_ne|].
  intros w2 E2 L2 _ S2. apply wp_ret. split; [done|].
  assert (lstep ∅ {[n; m]} ∅ w w2) as S by chain. split; [|done].
  eapply (list_rep_exchange k {[n; m]} w w2); try done; [|congruence].
  split; [|split]; intros x.
  - intros H1 H2. by rewrite E2, lookup_insert_ne, E1, lookup_insert_ne.
  - intros He. rewrite E2, lookup_insert_ne, E1, lookup_insert_eq by done. congruence.
  - intros He. rewrite E2, lookup_insert_eq. congruence.
Qed.

(** * A pass *)

(** The first value moves through all the entries, the others move up. *)
Fixpoint bubble (n v : loc) (es : entries) : entries :=
  match es with
  | [] => [(n, v)]
  | (m, u) :: r => (n, u) :: bubble m v r
  end.

Lemma bubble_locs n v es : fst <$> bubble n v es = n :: (fst <$> es).
Proof. revert n. induction es as [|[m u] es IH]; intros n; [done|]. cbn. by rewrite IH. Qed.

Lemma length_bubble n v es : length (bubble n v es) = S (length es).
Proof. revert n. induction es as [|[m u] es IH]; intros n; cbn; [done|]. by rewrite IH. Qed.

(** Does a comparison result ask for an exchange? *)
Definition out_of_order (ascending : bool) (rc : Z) : bool :=
  (ascending && (0 <? rc)) || (negb ascending && (rc <? 0)).

Section pass.
Context (asc : bool) (E : exit → world → Prop).

(** The comparison of a pass: the texts of [str1] and [str2]. *)
Lemma sort_compare_ok w p q a b :
  str_rep w p a → str_rep w q b →
  wp (sort_compare true (Some p) (Some q)) (λ rc w', rc = strcmp a b ∧ w' = w) E w.
Proof.
  intros Hp Hq. destruct (str_rep_get _ _ _ Hp) as (bp & sp & Hsp & Hcp & _).
  destruct (str_rep_get _ _ _ Hq) as (bq & sq & Hsq & Hcq & _).
  wp_next. eapply wp_deref; [done|]. wp_next. eapply wp_deref; [done|].
  wp_next. eapply wp_c_str; [done|]. wp_next. eapply wp_c_str; [done|]. by apply wp_ret.
Qed.

(** One comparison of a pass: the entries exchange their strings, or not. *)
Lemma sort_exchange_ok k w l es1 x y x' y' es2 ss1 z z' ss2 (b found : bool) :
  let es := es1 ++ (x, y) :: (x', y') :: es2 in
  ready w → list_rep k w l es (ss1 ++ z :: z' :: ss2) → length es1 = length ss1 → (b = false → found = false) →
  wp (if b then
        e1 ← get_ent (Some x);
        e2 ← get_ent (Some x');
        mod_ent (Some x) (set_ent_value (ent_value e2));;
        mod_ent (Some x') (set_ent_value (ent_value e1));;
        mret true
      else mret found)
    (λ f w', f = b ∧ lstep ∅ (ent_locs es) ∅ w w' ∧
      list_rep k w' l (es1 ++ (x, if b then y' else y) :: (x', if b then y else y') :: es2)
        (ss1 ++ (if b then z' else z) :: (if b then z else z') :: ss2)) E w.
Proof.
  intros es Hr Hl Hlen Hf. destruct b.
  - eapply wp_conseq; [eapply wp_exchange; [ready|exact Hl|done]|].
    intros f w' (-> & Hl' & S). split; [done|]. split; [|done].
    eapply lstep_weaken; [|exact S|within_tac| |within_tac]; [ready|]. unfold es. within_tac.
  - rewrite Hf by done. apply wp_ret. split; [done|]. split; [apply lstep_refl; ready|done].
Qed.

(** Where a pass over [es0] and [ss0] stands: [es1] is behind it, the entry [x]
    comes next, and [v] has been carried along if [b]. *)
Definition passing (k b : bool) (l n v : loc) (r : entries) (ss : list bytes) (s : bytes)
    (es1 : entries) (x y : loc) (es2 : entries) (ss1 : list bytes) (z : bytes) (ss2 : list bytes) (w : world) : Prop :=
  length es1 = length ss1 ∧ ent_locs (es1 ++ (x, y) :: es2) = ent_locs ((n, v) :: r) ∧
  list_rep k w l (es1 ++ (x, y) :: es2) (ss1 ++ z :: ss2) ∧
  if b then es1 ++ bubble x y es2 = bubble n v r ∧ ss1 ++ ss2 ++ [z] = ss ++ [s]
  else es1 ++ (x, y) :: es2 = (n, v) :: r ∧ ss1 ++ z :: ss2 = s :: ss.

Lemma passing_end k b l n v e r ss s es1 x y ss1 z ss2 w :
  passing k b l n v (e :: r) ss s es1 x y [] ss1 z ss2 w →
  b && bool_decide (es1 ≠ []) = b ∧
  list_rep k w l (if b then bubble n v (e :: r) else (n, v) :: e :: r) (if b then ss ++ [s] else s :: ss).
Proof.
  intros (Hlen & _ & Hl & Hb). pose proof Hl as [_ _ _ _ Ht _]. apply Forall2_app_inv in Ht as [_ Ht]; [|done].
  inversion Ht as [|? ? ? ss2' _ Ht2]; subst. inversion Ht2; subst.
  destruct b; destruct Hb as [Hb1 Hb2]; cbn in Hb2; rewrite <- Hb1, <- Hb2; (split; [|exact Hl]); [|done].
  rewrite bool_decide_true; [done|]. intros ->. apply (f_equal length) in Hb1. destruct e. cbn in Hb1.
  by rewrite length_bubble in Hb1.
Qed.

(** The pass moves to the next entry. *)
Lemma passing_next k b l n v r ss s es1 x y x' y' es2 ss1 z z' ss2 w1 w2 :
  passing k b l n v r ss s es1 x y ((x', y') :: es2) ss1 z (z' :: ss2) w1 →
  let es1' := es1 ++ [(x, if b then y' else y)] in
  let ss1' := ss1 ++ [if b then z' else z] in
  list_rep k w2 l (es1' ++ (x', if b then y else y') :: es2) (ss1' ++ (if b then z else z') :: ss2) →
  passing k b l n v r ss s es1' x' (if b then y else y') es2 ss1' (if b then z else z') ss2 w2.
Proof.
  intros (Hlen & Hlocs & _ & Hb) es1' ss1' Hl. split; [subst es1' ss1'; by rewrite !length_app, Hlen|].
  split; [rewrite <- Hlocs; subst es1'; clear; autorewrite with nc_locs; set_solver|]. split; [done|].
  subst es1' ss1'. rewrite <- !app_assoc. by destruct b.
Qed.

Lemma sort_pass_ok k w l n v m u es s t ss :
  ready w → list_rep k w l ((n, v) :: (m, u) :: es) (s :: t :: ss) →
  wp (sort_pass asc true (Some n))
    (λ found w', found = out_of_order asc (strcmp s t) ∧
       (if found then list_rep k w' l (bubble n v ((m, u) :: es)) (t :: ss ++ [s])
        else list_rep k w' l ((n, v) :: (m, u) :: es) (s :: t :: ss)) ∧
       lstep ∅ (ent_locs ((n, v) :: (m, u) :: es)) ∅ w w') E w.
Proof.
  intros Hr Hl. set (es0 := (n, v) :: (m, u) :: es) in *. pose proof Hl as [_ Hs _ _ Ht _].
  apply seg_cons in Hs as [(pv & Hn & _) [(pm & Hm & _) _]%seg_cons].
  inversion Ht as [|? ? ? ? Hv Ht']; subst. inversion Ht' as [|? ? ? ? Hu _]; subst. cbn in Hv, Hu.
  wp_next. eapply wp_get_ent; [done|]. wp_next. eapply wp_get_ent; [done|].
  cbn [ent_value ent_next hd_ptr]. wp_next. apply wp_get_ents_fuel.
  set (b := out_of_order asc (strcmp s t)).
  eapply wp_loop with (n := length ((m, u) :: es)) (I := λ i '(p1, p2, found) w',
    lstep ∅ (ent_locs es0) ∅ w w' ∧ ∃ es1 x y es2 ss1 z ss2,
    i = length es2 ∧ p1 = Some x ∧ p2 = hd_ptr es2 None ∧ found = b && bool_decide (es1 ≠ []) ∧
    passing k b l n v ((m, u) :: es) (t :: ss) s es1 x y es2 ss1 z ss2 w').
  2: { split; [by apply lstep_refl|]. exists [], n, v, ((m, u) :: es), [], s, (t :: ss).
       rewrite andb_false_r. split_and!; try done. by destruct b. }
  2: { pose proof (list_rep_fuel _ _ _ _ _ Hl). unfold es0 in *. cbn in *. lia. }
  intros i [[p1 p2] found] w1 (S1 & es1 & x & y & es2 & ss1 & z & ss2 & -> & -> & -> & -> & HP).
  rewrite is_null_some. cbn [orb]. destruct es2 as [|[x' y'] es2].
  { cbn [hd_ptr]. rewrite is_null_none. apply wp_ret. apply passing_end in HP as [-> HP].
    split; [done|]. split; [by destruct b|done]. }
  pose proof HP as (Hlen & Hlocs & Hl1 & _). cbn [hd_ptr]. rewrite is_null_some.
  wp_next. wp_call (sort_compare_ok w1 v u s t); [keep|keep|]. intros rc w' (-> & ->).
  pose proof Hl1 as [_ _ _ _ Ht1 _]. apply Forall2_app_inv in Ht1 as [_ Ht1]; [|done].
  inversion Ht1 as [|? ? ? ss2' _ Ht2]; subst. inversion Ht2 as [|? z' ? ss3 _ _]; subst.
  fold (out_of_order asc (strcmp s t)). fold b. wp_next. eapply wp_conseq.
  { apply (sort_exchange_ok k w1 l es1 x y x' y' es2 ss1 z z' ss3 b); [ready|done|done|by intros ->]. }
  intros f w2 (-> & S2 & Hl2). clearbody b. rewrite Hlocs in S2.
  destruct (list_rep_cur _ _ _ _ _ _ _ _ Hl2) as (pv1 & _ & Hx & _).
  rewrite (cons_middle _ es1), (cons_middle _ ss1), !app_assoc in Hl2.
  destruct (list_rep_cur _ _ _ _ _ _ _ _ Hl2) as (pv2 & _ & Hx' & _).
  wp_next. eapply wp_get_ent; [done|]. wp_next. eapply wp_get_ent; [done|].
  apply wp_ret. exists (length es2). split; [cbn; lia|]. split; [chain|].
  eexists _, x', _, es2, _, _, ss3. split_and!; [done..| |by eapply passing_next].
  rewrite bool_decide_true, andb_true_r by (by destruct es1). done.
Qed.
End pass.

(** * The order of strcmp(3) *)

Lemma uchar_inj a b : uchar a = uchar b → a = b.
Proof. unfold uchar. intros H%N2Z.inj. rewrite <- (ascii_N_embedding a), H. apply ascii_N_embedding. Qed.

Lemma strcmp_opp a b : strcmp a b = - strcmp b a.
Proof.
  revert b. induction a as [|x a IH]; intros [|y b]; simpl; try done.
  destruct (decide (x = y)) as [->|Hne]; [rewrite decide_True by done; apply IH|].
  rewrite decide_False by done. assert (uchar x ≠ uchar y) by (by intros ?%uchar_inj).
  destruct (Z.ltb_spec (uchar x) (uchar y)), (Z.ltb_spec (uchar y) (uchar x)); lia.
Qed.

Lemma strcmp_trans a b c : strcmp a b < 0 → strcmp b c < 0 → strcmp a c < 0.
Proof.
  revert b c. induction a as [|x a IH]; intros [|y b] [|z c]; simpl; try done.
  repeat case_decide; subst; try done; eauto.
  all: repeat match goal with
    | |- context [uchar ?x <? uchar ?y] => destruct (Z.ltb_spec (uchar x) (uchar y))
    end; lia.
Qed.

Lemma out_of_order_trans asc a b c :
  out_of_order asc (strcmp a b) = true → out_of_order asc (strcmp b c) = true →
  out_of_order asc (strcmp a c) = true.
Proof.
  unfold out_of_order. destruct asc; cbn; rewrite ?orb_false_r, ?Z.ltb_lt.
  - rewrite (strcmp_opp a b), (strcmp_opp b c), (strcmp_opp a c).
    intros H1 H2. assert (strcmp c a < 0) by (eapply (strcmp_trans c b a); lia). lia.
  - apply strcmp_trans.
Qed.

Lemma out_of_order_irrefl asc a : out_of_order asc (strcmp a a) = false.
Proof. rewrite (proj2 (strcmp_eq a a) eq_refl). by destruct asc. Qed.

(** * The whole sort *)

(** The first [j] neighbours of [ss] are out of order. *)
Definition descends (asc : bool) (ss : list bytes) (j : nat) : Prop :=
  ∀ i a b, (i < j)%nat → ss !! i = Some a → ss !! S i = Some b →
    out_of_order asc (strcmp a b) = true.

Lemma descends_first asc ss j a b :
  descends asc ss j → (0 < j)%nat → ss !! 0%nat = Some a → ss !! j = Some b →
  out_of_order asc (strcmp a b) = true.
Proof.
  intros Hd Hj Ha. revert b. induction j as [|j IH]; [lia|]. intros b Hb.
  assert (j < length ss)%nat as [c Hc]%lookup_lt_is_Some
    by (apply lookup_lt_Some in Hb; lia).
  destruct (decide (j = 0)%nat) as [->|]; [eapply (Hd 0%nat); [lia|done|done]|].
  eapply out_of_order_trans; [eapply IH; [|lia|exact Hc]|eapply (Hd j); [lia|done|done]].
  intros i x y Hi. apply Hd. lia.
Qed.

Definition rotate_by (j : nat) (ss : list bytes) : list bytes := drop j ss ++ take j ss.

Lemma rotate_by_S j ss a r : rotate_by j ss = a :: r → (j < length ss)%nat →
  rotate_by (S j) ss = r ++ [a] ∧ ss !! j = Some a.
Proof.
  unfold rotate_by. intros H Hj. destruct (lookup_lt_is_Some_2 ss j Hj) as [b Hb].
  rewrite (drop_S ss b j Hb) in H. injection H as -> <-.
  by rewrite (take_S_r ss j a Hb), app_assoc.
Qed.

(** The second of the two texts that the pass after [j] rotations compares. *)
Lemma rotate_by_second j ss a b r :
  rotate_by j ss = a :: b :: r → (j < length ss)%nat → (2 ≤ length ss)%nat →
  (S j < length ss)%nat ∧ ss !! S j = Some b ∨ S j = length ss ∧ ss !! 0%nat = Some b.
Proof.
  unfold rotate_by. intros H Hj H2. destruct (lookup_lt_is_Some_2 ss j Hj) as [c Hc].
  rewrite (drop_S ss c j Hc) in H. injection H as -> H.
  destruct (decide (S j < length ss)%nat) as [Hlt|].
  - left. split; [done|]. destruct (lookup_lt_is_Some_2 ss (S j) Hlt) as [d Hd].
    rewrite (drop_S ss d (S j) Hd) in H. by injection H as ->.
  - right. split; [lia|]. rewrite drop_ge in H by lia. cbn in H.
    destruct ss as [|x ss], j as [|j]; cbn in *; try lia. by injection H as ->.
Qed.

(** A pass that moves the first text to the end goes on with the rotation. *)
Lemma rotation_step asc ss j a b rest :
  rotate_by j ss = a :: b :: rest → (j < length ss)%nat → (2 ≤ length ss)%nat → descends asc ss j →
  out_of_order asc (strcmp a b) = true →
  (S j < length ss)%nat ∧ rotate_by (S j) ss = b :: rest ++ [a] ∧ descends asc ss (S j).
Proof.
  intros Hss Hj H2 Hd Ho. destruct (rotate_by_S j ss a (b :: rest)) as [Hr1 Ha]; [done|done|].
  assert (S j < length ss)%nat as HSj.
  { destruct (rotate_by_second j ss a b rest) as [[]|[Hj' Hb]]; [done..|].
    exfalso. destruct (decide (j = 0)%nat) as [->|]; [lia|].
    assert (out_of_order asc (strcmp b a) = true) as Ho'
      by (eapply (descends_first asc ss j); [done|lia|done|done]).
    pose proof (out_of_order_trans _ _ _ _ Ho Ho') as Hx.
    by rewrite out_of_order_irrefl in Hx. }
  split; [done|]. split; [done|]. intros i c d Hi Hc Hd'.
  destruct (decide (i = j)) as [->|]; [|eapply (Hd i); [lia|done|done]].
  destruct (rotate_by_second j ss a b rest) as [[_ Hb]|[Hj' _]]; [done..| |lia]. congruence.
Qed.

Lemma bubble_ents n v es : ent_locs (bubble n v es) = ent_locs ((n, v) :: es).
Proof. unfold ent_locs. by rewrite bubble_locs. Qed.

Lemma bubble_strs n v es : str_locs (bubble n v es) = str_locs ((n, v) :: es).
Proof.
  unfold str_locs. apply list_to_set_perm_L. revert n. induction es as [|[m q] es IH]; intros n; [done|].
  cbn. rewrite IH. cbn. apply Permutation_swap.
Qed.

Lemma list_sort_ok w k l es ss flags E :
  ready w → list_rep k w l es ss → Z.land flags SORT_NUMERIC = 0 → (2 ≤ length ss)%nat →
  let asc := Z.land flags SORT_DESCENDING =? 0 in
  wp (list_sort (Some l) flags)
    (λ r w', (r = 0 ∧ ∃ j es', (j < length ss)%nat ∧ descends asc ss j ∧
       list_rep k w' l es' (rotate_by j ss) ∧
       ∀ a b rest, rotate_by j ss = a :: b :: rest → out_of_order asc (strcmp a b) = false) ∧
      lstep ∅ (ent_locs es) ∅ w w') E w.
Proof.
  intros Hr Hl Hflags H2 asc. pose proof (list_rep_length _ _ _ _ _ Hl) as Hlen.
  destruct (list_rep_locs _ _ _ _ _ Hr Hl) as [HN HX].
  apply wp_func, wp_auto_str_list; [done|]. intros p w0 Hp Hp0 S0.
  assert (p ∉ str_locs es) by (intros H%HX; lia).
  assert (list_rep k w0 l es ss) as Hl0 by keep. pose proof Hl0 as [Hh0 _ _ _ _ _].
  apply wp_body. fold asc. rewrite Hflags. wp_next. eapply wp_get_list; [done|].
  cbn [list_count]. rewrite (proj2 (Z.ltb_ge _ _)) by lia. wp_next. apply wp_ret.
  rewrite Nat2Z.id.
  eapply wp_loop with (n := length ss) (I := λ n _ w', lstep ∅ (ent_locs es) ∅ w0 w' ∧
    ∃ j es', n = (length ss - j)%nat ∧ (j < length ss)%nat ∧ descends asc ss j ∧
    list_rep k w' l es' (rotate_by j ss) ∧ ent_locs es' = ent_locs es ∧
    str_locs es' = str_locs es).
  2: { split; [apply lstep_refl; ready|]. exists 0%nat, es. unfold rotate_by. cbn.
       rewrite app_nil_r. split_and!; try done; [lia|lia|]. intros i a b Hi. lia. }
  2: { lia. }
  intros n [] w1 (S1 & j & es' & -> & Hj & Hd & Hl1 & Hes & Hstr).
  pose proof Hl1 as [Hh1 _ _ _ _ _]. pose proof (list_rep_length _ _ _ _ _ Hl1) as Hlen1.
  assert (length (rotate_by j ss) = length ss) as Hrot
    by (unfold rotate_by; rewrite length_app, length_drop, length_take; lia).
  rewrite Hrot in Hlen1.
  destruct es' as [|[x v] [|[y u] es']]; cbn in Hlen1; [lia|lia|].
  destruct (rotate_by j ss) as [|a [|b rest]] eqn:Hss; cbn in Hrot; [lia|lia|].
  wp_next. eapply wp_get_list; [done|]. wp_next. cbn [list_head hd_ptr].
  wp_call sort_pass_ok; [ready|]. intros found w2 (-> & Hl2 & S2). rewrite Hes in S2.
  apply wp_ret. destruct (out_of_order asc (strcmp a b)) eqn:Ho.
  - destruct (rotation_step asc ss j a b rest) as (HSj & Hr1 & Hd'); [done..|].
    exists (length ss - S j)%nat. split; [lia|]. split; [chain|].
    exists (S j), (bubble x v ((y, u) :: es')). rewrite Hr1, bubble_ents, bubble_strs. by split_and!.
  - assert (p ∉ str_locs ((x, v) :: (y, u) :: es')) by (by rewrite Hstr).
    split; [|split].
    + eapply (str_rep_live _ _ []). keep.
    + chain.
    + intros w3 S3. split; [done|]. exists j, ((x, v) :: (y, u) :: es').
      split; [done|]. split; [done|]. rewrite Hss. split; [keep|].
      intros c d rest'. intros [= <- <- <-]. done.
Qed.
