(* ===== verification/ListText.v ===== *)
(** Lists and text: [str_join], [str_split], and the
    serialization of lists. *)

From S2P Require Import Prelude Types Machine Wp StringOps StringFacts StringMore EscapeFacts.
From S2P Require Import ListOps ListRep ListFacts ListEdit.

Open Scope Z_scope.

(** * str_join *)

(** The texts with [d] between them. *)
Fixpoint join (d : bytes) (ss : list bytes) : bytes :=
  match ss with
  | [] => []
  | [s] => s
  | s :: r => s ++ d ++ join d r
  end.

Lemma join_cons d s t r : join d (s :: t :: r) = s ++ d ++ join d (t :: r).
Proof. done. Qed.

Lemma join_snoc d ss s : ss ≠ [] → join d (ss ++ [s]) = join d ss ++ d ++ s.
Proof.
  induction ss as [|t [|t' ss] IH]; [done|done|]. intros _.
  change ((t :: t' :: ss) ++ [s]) with (t :: t' :: (ss ++ [s])).
  rewrite join_cons. change (t' :: ss ++ [s]) with ((t' :: ss) ++ [s]).
  rewrite IH by done. by rewrite join_cons, <- !app_assoc.
Qed.

Lemma join_nonul d ss : nonul d → Forall nonul ss → nonul (join d ss).
Proof.
  intros Hd. induction 1 as [|s ss Hs H IH]; [constructor|].
  destruct ss as [|t ss]; [done|]. rewrite join_cons. by rewrite !nonul_app.
Qed.

Lemma texts_nonul w es ss : texts w es ss → Forall nonul ss.
Proof.
  induction 1 as [|e s es ss He H IH]; constructor; [by eapply str_rep_nonul|done].
Qed.

(** A string is appended, and a delimiter unless it is the last one. *)
Lemma join_item_ok w q s acc t delimiter l lst i E :
  let d := char_of_int delimiter in
  ready w → str_rep w q acc → str_rep w s t → q ≠ s → lists w !! l = Some lst → d ≠ NUL →
  Z.of_nat (length acc + length t) + 1 < STRING_MAX →
  wp (try_ (str_append (Some q) (Some s));;
      l ← get_list (Some l);
      when (i + 1 <? list_count l) (try_ (str_putc (Some q) delimiter)))
    (λ _ w', str_rep w' q (acc ++ t ++ if i + 1 <? list_count lst then [d] else []) ∧ sstep {[q]} w w') E w.
Proof.
  intros d Hr Hq Hs Hne Hl Hd Hm. wp_next. wp_try_call (str_append_ok w q s acc t); [lia|].
  intros r w1 (-> & Hq1 & S1). cbn. assert (lists w1 !! l = Some lst) as Hl1
    by (destruct S1 as (_ & _ & [_ L1 _ _]); by rewrite L1).
  wp_next. eapply wp_get_list; [done|]. apply wp_when; intros ->; [|by rewrite app_nil_r].
  wp_try_call (str_putc_ok w1 q (acc ++ t)); [ready|rewrite length_app; lia|].
  intros r w2 (-> & Hq2 & S2). cbn. fold d in Hq2. rewrite decide_False in Hq2 by done.
  rewrite app_assoc. split; [done|]. by eapply sstep_trans.
Qed.

(** What is left of the joined text when the next text is [t]. *)
Lemma join_next d ss n t :
  ss !! n = Some t →
  join [d] (drop n ss) = (t ++ if (S n <? length ss)%nat then [d] else []) ++ join [d] (drop (S n) ss).
Proof.
  intros Ht. rewrite (drop_S ss t n Ht). pose proof (lookup_lt_Some _ _ _ Ht).
  destruct (Nat.ltb_spec (S n) (length ss)) as [Hlt|Hge].
  - destruct (drop (S n) ss) as [|t' r] eqn:Hdr; [|by rewrite join_cons, app_assoc].
    apply (f_equal length) in Hdr. rewrite length_drop in Hdr. cbn in Hdr. lia.
  - rewrite drop_ge by lia. cbn. by rewrite !app_nil_r.
Qed.

Lemma join_loop_ok k w w1 l es ss q delimiter E :
  let d := char_of_int delimiter in
  ready w → list_rep k w1 l es ss → str_rep w1 q [] → q ∉ str_locs es → d ≠ NUL → sstep {[q]} w w1 →
  Z.of_nat (length (join [d] ss)) + 1 < STRING_MAX →
  wp (l' ← get_list (Some l);
      fuel ← ents_fuel;
      loop fuel (λ '(cur, i),
        if is_null cur then mret (inr tt) else
        e ← get_ent cur;
        try_ (str_append (Some q) (ent_value e));;
        l ← get_list (Some l);
        when (i + 1 <? list_count l) (try_ (str_putc (Some q) delimiter));;
        e ← get_ent cur;
        mret (inl (ent_next e, i + 1))) (list_head l', 0))
    (λ _ w', str_rep w' q (join [d] ss) ∧ sstep {[q]} w w') E w1.
Proof.
  intros d Hr Hl Hq Hqs Hd S1 Hm. pose proof (list_rep_length _ _ _ _ _ Hl) as Hlen.
  wp_next. eapply wp_get_list; [apply Hl|]. wp_next. apply wp_get_ents_fuel. cbn [list_head].
  eapply wp_loop with (n := length es) (I := λ n '(cur, i) w', ∃ es1 es2 acc,
    es = es1 ++ es2 ∧ n = length es2 ∧ cur = hd_ptr es2 None ∧ i = Z.of_nat (length es1) ∧
    str_rep w' q acc ∧ acc ++ join [d] (drop (length es1) ss) = join [d] ss ∧ sstep {[q]} w1 w').
  2: { exists [], es, []. split_and!; try done. apply sstep_refl. ready. }
  2: { by eapply list_rep_fuel. }
  intros n [cur i] w2 (es1 & es2 & acc & -> & -> & -> & -> & Hq2 & Hacc & S2).
  rewrite length_app in Hlen. assert (list_rep k w2 l (es1 ++ es2) ss) as Hl2 by keep.
  destruct es2 as [|[n s] es2].
  { rewrite drop_ge, app_nil_r in Hacc by (cbn in Hlen; lia). subst acc. apply wp_ret.
    split; [done|]. by eapply sstep_trans. }
  destruct (list_rep_cur _ _ _ _ _ _ _ _ Hl2) as (pv & t & He & Ht & Hst).
  assert (q ≠ s) by (intros ->; apply Hqs; locs).
  rewrite (join_next d ss _ t Ht) in Hacc. cbn [length] in *.
  cbn [hd_ptr]. rewrite is_null_some. wp_next. eapply wp_get_ent; [done|]. cbn [ent_value].
  apply wp_two_steps. eapply wp_conseq.
  { apply (join_item_ok w2 q s acc t delimiter l _ _ _ ltac:(ready) Hq2 Hst ltac:(done) (lr_head _ _ _ _ _ Hl2) Hd).
    apply (f_equal length) in Hacc. rewrite !length_app in Hacc. lia. }
  intros _ w3 [Hq3 S3]. cbn [list_count] in Hq3. fold d in Hq3.
  wp_next. eapply (wp_get_ent w3); [destruct S3 as (_ & _ & [E3 _ _ _]); by rewrite E3|].
  apply wp_ret. exists (length es2). split; [lia|]. exists (es1 ++ [(n, s)]), es2. eexists.
  rewrite <- app_assoc, length_app. cbn [length]. rewrite Nat.add_1_r.
  split_and!; try done; [lia| |by eapply sstep_trans].
  rewrite <- Hacc, <- !app_assoc. do 3 f_equal. rewrite length_app. cbn [length].
  by destruct (Z.ltb_spec (Z.of_nat (length es1) + 1) (Z.of_nat (length es1 + S (length es2)))),
    (Nat.ltb_spec (S (length es1)) (length ss)); try lia.
Qed.

Lemma str_join_ok k w l es ss q bs delimiter E :
  let d := char_of_int delimiter in
  let out := join [d] ss ++ if delimiter =? int_of_char LF then [d] else [] in
  ready w → list_rep k w l es ss → str_rep w q bs → q ∉ str_locs es → d ≠ NUL →
  Z.of_nat (length (join [d] ss)) + 1 < STRING_MAX →
  wp (str_join (Some q) (Some l) delimiter)
    (λ r w', r = 0 ∧ str_rep w' q out ∧ sstep {[q]} w w') E w.
Proof.
  intros d out Hr Hl Hq Hqs Hd Hm. apply wp_func_body. wp_next. wp_try_call str_truncate_ok.
  intros r w1 (-> & Hq1 & S1). cbn. assert (list_rep k w1 l es ss) as Hl1 by keep.
  apply wp_loop_then. eapply wp_conseq; [by eapply (join_loop_ok k w w1 l es ss)|].
  intros _ w2 (Hq2 & S2). subst out. apply wp_when; intros Hb; rewrite Hb.
  - wp_try_call (str_putc_ok w2 q (join [d] ss)); [ready|lia|]. intros r w3 (-> & Hq3 & S3). cbn.
    fold d in Hq3. rewrite decide_False in Hq3 by done. split; [done|]. split; [done|].
    by eapply sstep_trans.
  - rewrite app_nil_r. done.
Qed.

(** * str_split *)

(** The pieces of [s] between the occurrences of [d]; never none. *)
Fixpoint split_on (d : ascii) (s : bytes) : list bytes :=
  match s with
  | [] => [[]]
  | c :: r =>
      if decide (c = d) then [] :: split_on d r
      else match split_on d r with t :: ts => (c :: t) :: ts | [] => [[c]] end
  end.

Lemma split_on_none d s : d ∉ s → split_on d s = [s].
Proof.
  induction s as [|c s IH]; intros H; [done|]. apply not_elem_of_cons in H as [Hc H].
  simpl. rewrite decide_False by done. by rewrite IH.
Qed.

Lemma split_on_app d s r : d ∉ s → split_on d (s ++ d :: r) = s :: split_on d r.
Proof.
  induction s as [|c s IH]; intros H; simpl; [by rewrite decide_True|].
  apply not_elem_of_cons in H as [Hc H]. rewrite decide_False by done. by rewrite IH.
Qed.

Lemma split_on_cons d s : ∃ t ts, split_on d s = t :: ts.
Proof.
  induction s as [|c s (t & ts & IH)]; simpl; [by eexists _, _|].
  rewrite IH. case_decide; by eexists _, _.
Qed.

Lemma length_split_on d s : (length (split_on d s) ≤ S (length s))%nat.
Proof.
  induction s as [|c s IH]; simpl; [lia|]. destruct (split_on_cons d s) as (t & ts & Heq).
  rewrite Heq in *. case_decide; simpl in *; lia.
Qed.

(** Splitting inverts joining. *)
Lemma split_join d ss :
  ss ≠ [] → Forall (λ s, d ∉ s) ss → split_on d (join [d] ss) = ss.
Proof.
  intros Hnil. induction 1 as [|s ss Hs Hss IH]; [done|]. destruct ss as [|t ss].
  - by apply split_on_none.
  - rewrite join_cons. cbn [app]. rewrite split_on_app by done. by rewrite IH.
Qed.

Lemma join_split d s : join [d] (split_on d s) = s.
Proof.
  induction s as [|c s IH]; [done|]. destruct (split_on_cons d s) as (t & ts & Heq).
  simpl. rewrite Heq in *. case_decide as Hc.
  - subst c. rewrite join_cons. by rewrite IH.
  - destruct ts; [simpl in *; by subst|]. rewrite join_cons in *. cbn. by rewrite <- IH.
Qed.

(** Where strsep(3) cuts. *)
Lemma span_not_spec d s :
  (∃ t r, s = t ++ d :: r ∧ d ∉ t ∧ span_not [d] s = length t) ∨
  (d ∉ s ∧ span_not [d] s = length s).
Proof.
  induction s as [|c s IH]; simpl; [right; split; [apply not_elem_of_nil|done]|].
  destruct (decide (c = d)) as [->|Hne].
  - left. exists [], s. split; [done|]. split; [apply not_elem_of_nil|].
    rewrite decide_True; [done|]. by apply list_elem_of_singleton.
  - rewrite decide_False by (intros ?%list_elem_of_singleton; done).
    destruct IH as [(t & r & -> & Ht & ->)|[Hs ->]].
    + left. exists (c :: t), r. split; [done|]. split; [|done].
      apply not_elem_of_cons. split; [by intros ->|done].
    + right. split; [|done]. apply not_elem_of_cons. split; [by intros ->|done].
Qed.

Lemma str_cells_mono X N L w w' p b cs n :
  ready w → lstep X N L w w' → p ∉ X → str_cells w p b cs n → str_cells w' p b cs n.
Proof.
  intros [Hwf _] (_ & F & _) HX Hc. pose proof Hc as [Hs Hb].
  destruct (str_cells_lt _ _ _ _ _ Hwf Hc) as [Hp Hlt]. split.
  - by rewrite (fr_strs _ _ _ F p Hp HX).
  - rewrite (fr_blocks _ _ _ F b Hlt); [done|]. intros q Hq Ho.
    rewrite (wf_own w Hwf q p b Ho) in Hq; [done|by eapply str_cells_owns].
Qed.

(** The C string at an offset of the buffer of [p]. *)
Lemma str_cells_cstr w p b pre s junk L :
  str_cells w p b (pre ++ cells_of s ++ junk) L → nonul s →
  cstr_at w (CBlk b (Z.of_nat (length pre))) = Some s.
Proof.
  intros [_ Hb] Hn. unfold cstr_at. simpl. rewrite (proj2 (Z.ltb_ge _ _)) by lia.
  rewrite Hb. simpl. rewrite Nat2Z.id, drop_app_length. by apply scan_cells_of.
Qed.

(** One call of strsep(3) on the buffer of [p]. *)
Definition at_rest (w : world) (p b : loc) (cs pre : list cell) (rest : bytes) (L : Z) : Prop :=
  ∃ junk, cs = pre ++ cells_of rest ++ junk ∧ str_cells w p b cs L.

Lemma strsep_ok w p b cs pre rest L d E :
  ready w → at_rest w p b cs pre rest L → nonul rest →
  wp (strsep (Some (CBlk b (Z.of_nat (length pre)))) [d])
    (λ '(tok, next) w', tok = Some (CBlk b (Z.of_nat (length pre))) ∧
       sstep {[p]} w w' ∧ ∃ t ts cs', split_on d rest = t :: ts ∧ d ∉ t ∧
       cstr_at w' (CBlk b (Z.of_nat (length pre))) = Some t ∧ str_cells w' p b cs' L ∧
       match next with
       | None => ts = []
       | Some c => ∃ pre' rest', c = CBlk b (Z.of_nat (length pre')) ∧
           at_rest w' p b cs' pre' rest' L ∧ ts = split_on d rest' ∧
           (length rest' < length rest)%nat ∧ nonul rest'
       end) E w.
Proof.
  intros Hr (junk & -> & Hc) Hn. unfold strsep. wp_next.
  eapply wp_c_str; [by eapply str_cells_cstr|].
  destruct (span_not_spec d rest) as [(t & r & -> & Ht & ->)|[Hs ->]].
  - rewrite decide_True by (rewrite length_app; simpl; lia).
    apply nonul_app in Hn as [Hnt [Hd Hnr]%nonul_cons].
    wp_next. unfold memset1. rewrite store_ptr. eapply wp_store; [done|done|lia| |].
    { rewrite !length_app, length_cells_of, length_app. simpl. lia. }
    intros w1 Hc1 S1. apply wp_ret. split; [done|]. split; [done|].
    assert (splice (pre ++ cells_of (t ++ d :: r) ++ junk)
      (Z.to_nat (Z.of_nat (length pre) + Z.of_nat (length t))) [Some NUL] =
      pre ++ cells_of t ++ cells_of r ++ junk) as Hcs.
    { replace (Z.to_nat _) with (length pre + length t)%nat by lia.
      rewrite splice_app_r. f_equal. unfold cells_of.
      rewrite fmap_app. cbn [fmap list_fmap]. rewrite <- !app_assoc.
      rewrite <- (length_fmap Some t), <- (Nat.add_0_r (length (Some <$> t))), splice_app_r.
      done. }
    rewrite Hcs in Hc1. exists t, (split_on d r), (pre ++ cells_of t ++ cells_of r ++ junk).
    split; [by apply split_on_app|]. split; [done|].
    split; [by eapply str_cells_cstr|]. split; [done|].
    exists (pre ++ cells_of t), r. split.
    + cbn [ptr_add]. f_equal. rewrite length_app, length_cells_of. lia.
    + split; [|split; [done|split; [rewrite length_app; simpl; lia|done]]].
      exists junk. by rewrite <- app_assoc.
  - rewrite decide_False by lia. apply wp_ret. split; [done|].
    split; [by apply sstep_refl|]. eexists rest, [], _. split; [by apply split_on_none|].
    split; [done|]. split; [by eapply str_cells_cstr|]. done.
Qed.

(** The pieces [str_split] makes of a text. *)
Definition trim (delimiter : Z) (t : bytes) : bytes :=
  if delimiter =? int_of_char LF then chomp t else t.

Definition pieces (delimiter : Z) (s : bytes) : list bytes :=
  trim delimiter <$> split_on (char_of_int delimiter) (chomp s).

(** An iteration of the loop of [str_split]. *)
Definition split_step (dest delim : ptr) (delimiter : Z) (cp : option cptr) :
    M (option cptr + unit) :=
  d ← get_str delim;
  ds ← c_str (str_value d);
  '(tok, cp') ← strsep cp ds;
  match tok with
  | None => mret (inr tt)
  | Some tok =>
      try_ (list_cat dest (Some tok));;
      when (delimiter =? int_of_char LF) (
        l ← get_list dest;
        e ← get_ent (list_tail l);
        try_ (str_chomp (ent_value e)));;
      mret (inl cp')
  end.

Lemma length_piece d s t ts : split_on d s = t :: ts → (length t ≤ length s)%nat.
Proof.
  intros H. rewrite <- (join_split d s), H. destruct ts; [done|].
  rewrite join_cons, length_app. lia.
Qed.

(** Chomping the last entry of a list. *)
Lemma chomp_tail_ok w l es n s ss t (b : bool) E :
  ready w → list_rep true w l (es ++ [(n, s)]) (ss ++ [t]) → length es = length ss →
  wp (when b (
        d ← get_list (Some l);
        e ← get_ent (list_tail d);
        try_ (str_chomp (ent_value e))))
    (λ _ w', list_rep true w' l (es ++ [(n, s)]) (ss ++ [if b then chomp t else t]) ∧
       sstep {[s]} w w') E w.
Proof.
  intros Hr Hl Hlen. apply wp_when; intros ->; [|split; [done|by apply sstep_refl]].
  pose proof Hl as [Hh _ _ _ _ _]. wp_next. eapply wp_get_list; [done|].
  cbn [list_tail]. rewrite last_ptr_snoc. cbn [fst].
  destruct (list_rep_cur _ _ _ _ _ _ _ _ Hl) as (pv & t' & He & Ht & Hs).
  rewrite Hlen in Ht. rewrite lookup_app_r, Nat.sub_diag in Ht by lia. injection Ht as <-.
  wp_next. eapply wp_get_ent; [done|]. cbn [ent_value].
  wp_try_call str_chomp_ok. intros r w1 (-> & Hs1 & S1). cbn. split; [|done].
  eapply list_rep_text; [done|exact Hl|done|exact S1| |done]. intros x Hx. left. set_solver.
Qed.

Section split_loop.
Context (w0 : world) (l p dl b : loc) (L delimiter : Z) (text : bytes).
Let d := char_of_int delimiter.
Context (Hd : d ≠ NUL) (Hne : p ≠ dl) (Hmax : Z.of_nat (length text) < STRING_MAX).
Context (Hdl : str_rep w0 dl [d]) (Hp0 : (p < next_loc w0)%positive).

(** The tokens before [cp] are in the list. *)
Definition split_inv (n : nat) (cp : option cptr) (w : world) : Prop :=
  lstep {[p]} ∅ {[l]} w0 w ∧ str_live w p ∧ ∃ new ss,
  all_new w0 new ∧ list_rep true w l new ss ∧
  match cp with
  | None => n = O ∧ ss = trim delimiter <$> split_on d text
  | Some c => ∃ cs pre rest, c = CBlk b (Z.of_nat (length pre)) ∧ n = S (length rest) ∧
      at_rest w p b cs pre rest L ∧ nonul rest ∧ (length rest ≤ length text)%nat ∧
      ss ++ (trim delimiter <$> split_on d rest) = trim delimiter <$> split_on d text
  end.

Lemma split_step_ok n cp w E :
  ready w0 → split_inv n cp w →
  wp (split_step (Some l) (Some dl) delimiter cp)
    (λ r w', match r with
             | inl cp' => ∃ n', (n' < n)%nat ∧ split_inv n' cp' w'
             | inr _ => split_inv 0 None w' end) E w.
Proof.
  intros Hr0 (S0 & Hlive & new & ss & Hnew & Hl & Hcp).
  assert (str_rep w dl [d]) as Hdl' by keep.
  destruct (str_rep_get _ _ _ Hdl') as (bd & sz & Hsd & Hcd & _).
  unfold split_step. wp_next. eapply wp_deref; [done|]. wp_next.
  eapply wp_c_str; [done|]. wp_next. destruct cp as [c|].
  2: { destruct Hcp as [-> ->]. apply wp_ret, wp_ret. split; [done|]. split; [done|].
       by exists new, (trim delimiter <$> split_on d text). }
  destruct Hcp as (cs & pre & rest & -> & -> & Hat & Hn & Hle & Hss).
  eapply wp_conseq; [by eapply strsep_ok; [ready|..]|].
  intros [tok next] w1 (-> & S1 & t & ts & cs' & Hsp & _ & Ht & Hcells & Hnext).
  assert (ready w1) as R1 by ready. pose proof (length_piece _ _ _ _ Hsp) as Htl.
  rewrite Hsp in Hss. cbn [fmap list_fmap] in Hss.
  pose proof (f_equal length Hss) as Hcount. rewrite length_app, length_fmap in Hcount.
  cbn [length] in Hcount. pose proof (length_split_on d text) as Hsl.
  assert (within w0 (ent_locs new) ∅) as Hwi by (intros x Hx; right; by apply (proj1 Hnew)).
  assert (p ∉ str_locs new) as Hpn by (intros Hx%(proj2 Hnew); lia).
  assert (list_rep true w1 l new ss) as Hl1 by keep.
  destruct (str_cells_lt _ _ _ _ _ (proj1 R1) Hcells) as [_ Hb].
  cbn beta iota. wp_next.
  wp_try_call (list_cat_ok true w1 l new ss (CBlk b (Z.of_nat (length pre))) t).
  { split; [done|]. split; [done|]. intros q Hq. by apply not_elem_of_empty in Hq. }
  { unfold STRING_MAX in *. lia. }
  { rewrite (list_rep_length _ _ _ _ _ Hl1). unfold STRING_MAX in *. lia. }
  intros r w2 ((-> & m & s & Hm & Hs & Hl2) & S2). cbn. wp_next.
  eapply wp_conseq; [eapply chomp_tail_ok; [ready|exact Hl2|by eapply list_rep_length]|].
  fold (trim delimiter t). intros _ w3 (Hl3 & S3). apply wp_ret. bounds.
  assert (p ≠ s) as Hps by lia.
  assert (str_cells w3 p b cs' L) as Hcells3.
  { eapply str_cells_mono; [|exact (sstep_lstep _ ∅ ∅ _ _ S3)| |]; [ready|set_solver|].
    by eapply str_cells_mono; [|exact S2|..]. }
  assert (lstep {[p]} ∅ {[l]} w0 w3) as S03 by chain.
  assert (all_new w0 (new ++ [(m, s)])) as Hnew' by (apply all_new_snoc; [done|lia|lia]).
  destruct next as [c|].
  - destruct Hnext as (pre' & rest' & -> & (junk & -> & Hat') & -> & Hlt & Hn').
    exists (S (length rest')). split; [lia|]. split; [done|]. split; [by eexists _, _, _|].
    exists (new ++ [(m, s)]), (ss ++ [trim delimiter t]). split; [done|]. split; [done|].
    eexists _, pre', rest'. split_and!; [done|done|by exists junk|done|lia|].
    by rewrite <- app_assoc.
  - exists 0%nat. split; [lia|]. split; [done|]. split; [by eexists _, _, _|].
    exists (new ++ [(m, s)]), (ss ++ [trim delimiter t]). split; [done|]. split; [done|].
    split; [done|]. by subst ts.
Qed.
End split_loop.

Lemma str_rep_max w p bs : str_rep w p bs → Z.of_nat (length bs) ≤ STRING_MAX.
Proof. by intros (? & ? & ? & ? & ?). Qed.

Lemma length_chomp s : (length (chomp s) ≤ length s)%nat.
Proof. destruct (chomp_prefix s) as [r Hr]. rewrite Hr at 2. rewrite length_app. lia. Qed.

Lemma nonul_chomp s : nonul s → nonul (chomp s).
Proof. destruct (chomp_prefix s) as [r Hr]. rewrite Hr at 1. by intros [? _]%nonul_app. Qed.

(** The body of [str_split], its three variables being empty strings. *)
Lemma split_body_ok k w l es ss q s delimiter pc dl E :
  let d := char_of_int delimiter in
  ready w → list_rep k w l es ss → str_rep w q s → s ≠ [] → d ≠ NUL →
  Z.of_nat (length s) < STRING_MAX → str_rep w pc [] → str_rep w dl [] →
  pc ≠ dl → q ≠ pc → pc ∉ str_locs es → dl ∉ str_locs es →
  wp (body (
    s ← get_str (Some q);
    when (str_len s =? 0) (return_ 0);;
    try_ (str_copy (Some pc) (Some q));;
    try_ (str_sprintf (Some dl) (mret [d]));;
    try_ (list_truncate (Some l));;
    try_ (str_chomp (Some pc));;
    sc ← get_str (Some pc);
    text ← c_str (str_value sc);
    loop (S (S (length text))) (split_step (Some l) (Some dl) delimiter) (str_value sc)))
    (λ r w', r = 0 ∧ (∃ new, all_new w new ∧ list_rep true w' l new (pieces delimiter s)) ∧
       str_live w' pc ∧ str_live w' dl ∧ lstep ({[pc; dl]} ∪ str_locs es) (ent_locs es) {[l]} w w') E w.
Proof.
  intros d Hr Hl Hq Hs Hd Hmax Hpc Hdl Hne Hqp Hpes Hdes. apply wp_body.
  destruct (str_rep_get _ _ _ Hq) as (bq & sz & Hsq & _ & _).
  wp_next. eapply wp_deref; [done|]. cbn [str_len].
  rewrite (proj2 (Z.eqb_neq _ _)) by (destruct s; [done|simpl; lia]). wp_next. apply wp_ret.
  wp_next. wp_try_call (str_copy_ok w pc q [] s). intros r w1 (-> & Hpc1 & S1). cbn.
  wp_next. wp_try_call (str_sprintf_ok w1 dl [] (mret [d]) [d]); [ready|keep| | |by intros|].
  { by apply nonul_singleton. } { unfold STRING_MAX in *. simpl. lia. }
  intros r w2 (-> & Hdl2 & S2). cbn. wp_next.
  assert (list_rep k w2 l es ss) as Hl2 by keep.
  wp_try_call list_truncate_ok; [ready|]. intros r w3 (-> & Hl3 & S3). cbn. wp_next.
  wp_try_call (str_chomp_ok w3 pc s); [ready|keep|]. intros r w4 (-> & Hpc4 & S4). cbn.
  pose proof Hpc4 as (b & junk & Hc4 & Hn4 & _). pose proof (length_chomp s) as Hlc.
  wp_next. eapply wp_get_str; [done|]. wp_next. cbn [str_value].
  eapply wp_c_str; [eapply (str_cells_cstr _ _ b [] (chomp s) junk); [exact Hc4|done]|].
  assert (pc < next_loc w4)%positive as Hpb by (bounds; lia).
  eapply wp_conseq; [eapply wp_loop with (n := S (length (chomp s)))
    (I := split_inv w4 l pc b (Z.of_nat (length (chomp s))) delimiter (chomp s))|].
  - intros n a w' HI. eapply (split_step_ok w4 l pc dl b); try done; [lia|keep|ready].
  - split; [apply lstep_refl; ready|]. split; [by eexists _, _, _|]. exists [], [].
    split; [apply all_new_nil|]. split; [keep|].
    exists (cells_of (chomp s) ++ junk), [], (chomp s). split; [done|]. split; [done|].
    split; [by exists junk|]. by split_and!.
  - lia.
  - intros _ w5 (S5 & Hlive & new & ss' & Hnew & Hl5 & _ & ->). split; [done|].
    bounds. split; [exists new; split; [|done]; eapply all_new_mono; [|done]; lia|].
    split; [done|]. assert (str_rep w5 dl [d]) as Hdl5 by keep.
    split; [by eapply str_rep_live|]. chain.
Qed.

Lemma str_split_ok k w l es ss q s delimiter E :
  ready w → list_rep k w l es ss → str_rep w q s → s ≠ [] → char_of_int delimiter ≠ NUL →
  Z.of_nat (length s) < STRING_MAX →
  wp (str_split (Some l) (Some q) delimiter)
    (λ r w', (r = 0 ∧ ∃ new, all_new w new ∧ list_rep true w' l new (pieces delimiter s)) ∧
       lstep (str_locs es) (ent_locs es) {[l]} w w') E w.
Proof.
  intros Hr Hl Hq Hs Hd Hmax. destruct (list_rep_locs _ _ _ _ _ Hr Hl) as [HN HX].
  apply wp_func, wp_auto_str_list; [done|]. intros p1 w1 Hp1 Hr1 S1.
  eapply wp_conseq; [apply (wp_auto_str_list w1 (str_locs es) (ent_locs es) {[l]} _
    (λ z w', z = 0 ∧ str_live w' p1 ∧
      ∃ new, all_new w new ∧ list_rep true w' l new (pieces delimiter s) ∧ p1 ∉ str_locs new)); [ready|]|].
  2: { intros r w2 ((-> & Hlive & new & Hnew & Hl2 & Hpn) & S2). split; [done|].
       split; [chain|]. intros w3 S3. split; [done|]. exists new. split; [done|]. keep. }
  intros p2 w2 Hp2 Hr2 S2.
  eapply wp_conseq; [apply (wp_auto_str_list w2 ({[p2]} ∪ str_locs es) (ent_locs es) {[l]} _
    (λ z w', z = 0 ∧ str_live w' p1 ∧ str_live w' p2 ∧
      ∃ new, all_new w2 new ∧ list_rep true w' l new (pieces delimiter s))); [ready|]|].
  2: { intros r w3 ((-> & Hlive1 & Hlive2 & new & Hnew & Hl3) & S3). split; [done|].
       split; [chain|]. intros w4 S4. split; [done|]. split; [|exists new; split].
       - destruct Hlive1 as (b & cs & L & Hc). exists b, cs, L.
         eapply str_cells_mono; [|exact (sstep_lstep _ ∅ ∅ _ _ S4)| |done]; [ready|].
         bounds. set_solver by lia.
       - bounds. eapply all_new_mono; [|done]. lia.
       - assert (p1 ∉ str_locs new) by (intros Hx%(proj2 Hnew); bounds; lia).
         assert (p2 ∉ str_locs new) by (intros Hx%(proj2 Hnew); bounds; lia). split; [keep|done]. }
  intros p3 w3 Hp3 Hr3 S3.
  assert (p1 ∉ str_locs es) by (intros Hx%HX; bounds; lia).
  assert (p2 ∉ str_locs es) by (intros Hx%HX; bounds; lia).
  assert (p3 ∉ str_locs es) by (intros Hx%HX; bounds; lia).
  eapply wp_conseq; [eapply (split_body_ok k w3 l es ss q s delimiter p2 p3);
    [ready|keep|keep|done|done|done|keep|keep|bounds; lia|bounds; lia|done|done]|].
  intros r w4 (-> & (new & Hnew & Hl4) & Hlive2 & Hlive3 & S4).
  split; [done|]. split; [chain|]. intros w5 S5.
  assert (p3 ∉ str_locs new) by (intros Hx%(proj2 Hnew); bounds; lia).
  split; [done|]. assert (str_rep w4 p1 []) as Hr14 by keep.
  split; [eapply (str_rep_live _ _ []); bounds; keep|]. split.
  - destruct Hlive2 as (b & cs & L & Hc). exists b, cs, L.
    eapply str_cells_mono; [|exact (sstep_lstep _ ∅ ∅ _ _ S5)| |done]; [ready|].
    bounds. set_solver by lia.
  - exists new. split; [bounds; eapply all_new_mono; [|done]; lia|keep].
Qed.

(** An empty string is not split: the list is left as it is. *)
Lemma str_split_empty w l q delimiter E :
  ready w → str_rep w q [] →
  wp (str_split (Some l) (Some q) delimiter) (λ r w', r = 0 ∧ lstep ∅ ∅ ∅ w w') E w.
Proof.
  intros Hr Hq. apply wp_func, (wp_auto_str_list w ∅ ∅ ∅); [done|].
  intros p1 w1 Hp1 Hr1 S1.
  eapply wp_conseq; [apply (wp_auto_str_list w1 ∅ ∅ ∅ _ (λ z w', z = 0 ∧ str_rep w' p1 [])); [ready|]|].
  2: { intros r w2 ((-> & ?) & S2). split; [by eapply str_rep_live|]. split; [chain|done]. }
  intros p2 w2 Hp2 Hr2 S2.
  eapply wp_conseq; [apply (wp_auto_str_list w2 ∅ ∅ ∅ _
    (λ z w', z = 0 ∧ str_rep w' p1 [] ∧ str_rep w' p2 [])); [ready|]|].
  2: { intros r w3 ((-> & ? & ?) & S3). split; [by eapply str_rep_live|]. split; [chain|].
       intros w4 S4. split; [done|]. bounds. keep. }
  intros p3 w3 Hp3 Hr3 S3. assert (str_rep w3 q []) as Hq3 by keep.
  destruct (str_rep_get _ _ _ Hq3) as (bq & sz & Hsq & _ & _).
  assert (str_rep w3 p1 []) as Hr13 by keep. assert (str_rep w3 p2 []) as Hr23 by keep.
  apply wp_body. wp_next. eapply wp_deref; [done|]. apply wp_leave. cbn.
  split; [by eapply str_rep_live|]. split; [chain|].
  intros w4 S4. bounds. split; [done|]. split; keep.
Qed.

(** * Serialization *)

Definition serialized (ss : list bytes) : bytes := join [" "%char] (escape <$> ss).

Lemma serialized_snoc ss s :
  serialized (ss ++ [s]) =
    serialized ss ++ (if decide (ss = []) then [] else [" "%char]) ++ escape s.
Proof.
  unfold serialized. rewrite fmap_app. cbn. case_decide as H; [by subst|].
  apply join_snoc. by destruct ss.
Qed.

Lemma serialized_le ss n : (length (serialized (take n ss)) ≤ length (serialized ss))%nat.
Proof.
  rewrite <- (take_drop n ss) at 2. generalize (drop n ss), (take n ss).
  intros l k. revert k. induction l as [|x l IH]; intros k; [by rewrite app_nil_r|].
  specialize (IH (k ++ [x])). rewrite <- app_assoc in IH. etrans; [|exact IH].
  rewrite serialized_snoc, length_app. lia.
Qed.

Lemma serialized_next ss i s :
  ss !! i = Some s →
  serialized (take (S i) ss) =
    serialized (take i ss) ++ (if Z.of_nat i =? 0 then [] else [" "%char]) ++ escape s.
Proof.
  intros Hi. rewrite (take_S_r _ _ _ Hi), serialized_snoc. do 2 f_equal. apply lookup_lt_Some in Hi.
  destruct i as [|i]; [done|]. rewrite (proj2 (Z.eqb_neq _ _)) by lia.
  destruct ss; [simpl in Hi; lia|done].
Qed.

Lemma serialized_room ss i s :
  ss !! i = Some s → Z.of_nat (length (serialized ss)) + 1 < STRING_MAX →
  Z.of_nat (length (serialized (take i ss) ++ if Z.of_nat i =? 0 then [] else [" "%char])
    + length (escape s)) < STRING_MAX.
Proof.
  intros Hi Hm. rewrite <- length_app, <- app_assoc, <- (serialized_next _ _ _ Hi).
  pose proof (serialized_le ss (S i)). lia.
Qed.

(** An item is escaped, and appended after a blank unless it is the first. *)
Lemma serialize_item_ok w q buf s acc b t i E :
  let sep := if i =? 0 then [] else [" "%char] in
  ready w → str_rep w q acc → str_rep w buf b → str_rep w s t → buf ≠ q → q ≠ s → buf ≠ s →
  3 * Z.of_nat (length t) < STRING_MAX → Z.of_nat (length (acc ++ sep) + length (escape t)) < STRING_MAX →
  wp (try_ (str_escape (Some buf) (Some s));;
      when (negb (i =? 0)) (try_ (str_putc (Some q) (int_of_char " ")));;
      try_ (str_append (Some q) (Some buf)))
    (λ _ w', str_rep w' q (acc ++ sep ++ escape t) ∧ str_rep w' buf (escape t) ∧ sstep {[q; buf]} w w') E w.
Proof.
  intros sep Hr Hq Hb Hs Hbq Hqs Hbs Ht Hm. wp_next. wp_try_call (str_escape_ok w buf s b t).
  intros r w1 ((-> & Hb1) & S1). cbn. assert (str_rep w1 q acc) as Hq1 by keep. wp_next.
  eapply (wp_conseq _ (λ _ w', str_rep w' q (acc ++ sep) ∧ sstep {[q]} w1 w')).
  { subst sep. apply wp_when; [intros Hi%negb_true_iff|intros Hi%negb_false_iff]; rewrite Hi in Hm |- *.
    - wp_try_call (str_putc_ok w1 q acc (int_of_char " ")); [ready|rewrite length_app in Hm; cbn [length] in Hm; lia|].
      intros r w2 (-> & Hq2 & S2). done.
    - rewrite app_nil_r. split; [done|apply sstep_refl; ready]. }
  intros _ w2 (Hq2 & S2). assert (str_rep w2 buf (escape t)) as Hb2 by keep.
  wp_try_call (str_append_ok w2 q buf _ (escape t) _ ltac:(ready) Hq2 Hb2).
  intros r w3 (-> & Hq3 & S3). cbn. split; [by rewrite app_assoc|]. split; [keep|].
  eapply sstep_trans; [eapply sstep_mono; [|exact S1]; set_solver|].
  eapply sstep_trans; (eapply sstep_mono; [|done]); set_solver.
Qed.

Lemma list_serialize_ok k w l es ss q bs E :
  ready w → list_rep k w l es ss → str_rep w q bs → q ∉ str_locs es →
  Forall (λ s : bytes, 3 * Z.of_nat (length s) < STRING_MAX) ss →
  Z.of_nat (length (serialized ss)) + 1 < STRING_MAX →
  wp (list_serialize (Some q) (Some l))
    (λ r w', (r = 0 ∧ str_rep w' q (serialized ss)) ∧ lstep {[q]} ∅ ∅ w w') E w.
Proof.
  intros Hr Hl Hq Hqs Hsmall Hmax. destruct (list_rep_locs _ _ _ _ _ Hr Hl) as [_ HX].
  pose proof (list_rep_length _ _ _ _ _ Hl) as Hlen.
  apply wp_func, wp_auto_str_list; [done|]. intros buf w1 Hbuf Hb1 S1.
  assert (buf ∉ str_locs es) by (intros Hx%HX; lia). assert (str_rep w1 q bs) as Hq1 by keep.
  apply wp_body. wp_next. wp_try_call (str_truncate_ok w1 q bs); [ready|].
  intros r w2 (-> & Hq2 & S2). cbn. assert (list_rep k w2 l es ss) as Hl2 by keep.
  wp_next. eapply wp_get_list; [apply Hl2|]. wp_next. apply wp_get_ents_fuel. cbn [list_head].
  assert (buf ≠ q) as Hbq by (bounds; lia). assert (str_rep w2 buf []) as Hb2 by (bounds; keep).
  eapply wp_conseq; [eapply wp_loop with (n := length es) (Q := λ _ w', str_rep w' q (serialized ss) ∧
      str_live w' buf ∧ sstep {[q; buf]} w2 w') (I := λ n '(cur, i) w', ∃ es1 es2 b,
      es = es1 ++ es2 ∧ n = length es2 ∧ cur = hd_ptr es2 None ∧ i = Z.of_nat (length es1) ∧
      str_rep w' buf b ∧ str_rep w' q (serialized (take (length es1) ss)) ∧
      sstep {[q; buf]} w2 w')|].
  2: { exists [], es, []. split_and!; try done. apply sstep_refl. ready. }
  2: { by eapply list_rep_fuel. }
  2: { intros _ w3 (Hq3 & Hlive & S3). split; [done|]. split; [chain|]. intros w4 S4.
       split; [done|]. bounds. keep. }
  intros n [cur i] w3 (es1 & es2 & b & -> & -> & -> & -> & Hb3 & Hq3 & S3).
  rewrite length_app in Hlen.
  destruct es2 as [|[n s] es2].
  { apply wp_ret. rewrite take_ge in Hq3 by (cbn in Hlen; lia).
    split; [done|]. split; [by eapply str_rep_live|done]. }
  assert (list_rep k w3 l (es1 ++ (n, s) :: es2) ss) as Hl3 by keep.
  destruct (list_rep_cur _ _ _ _ _ _ _ _ Hl3) as (pv & t & He & Ht & Hst).
  assert (q ≠ s ∧ buf ≠ s) as [Hqs' Hbs'] by (split; intros ->; by locs).
  cbn [hd_ptr length] in *. rewrite is_null_some. wp_next. eapply wp_get_ent; [done|]. cbn [ent_value].
  apply wp_two_steps. eapply wp_conseq.
  { apply (serialize_item_ok w3 q buf s _ b t _ _ ltac:(ready) Hq3 Hb3 Hst); try done;
      [by eapply (Forall_lookup_1 _ _ _ _ Hsmall)|by apply serialized_room]. }
  intros _ w4 (Hq4 & Hb4 & S4). wp_next. eapply (wp_get_ent w4); [keep|]. apply wp_ret.
  exists (length es2). split; [lia|]. exists (es1 ++ [(n, s)]), es2, (escape t).
  rewrite <- app_assoc, length_app. cbn [length]. rewrite Nat.add_1_r.
  erewrite serialized_next by done. split_and!; try done; [lia|by eapply sstep_trans].
Qed.

(** What [str_split] finds in a serialized list. *)
Lemma last_app_some {A} (l k : list A) x : last k = Some x → last (l ++ k) = Some x.
Proof. intros H. rewrite last_app. by rewrite H. Qed.

Lemma serialized_chars ss :
  Forall (λ a, a ≠ LF ∧ a ≠ CR) (serialized ss).
Proof.
  unfold serialized. induction ss as [|s ss IH]; [constructor|].
  assert (Forall (λ a, a ≠ LF ∧ a ≠ CR) (escape s)) as He.
  { eapply Forall_impl; [apply escape_blank|]. naive_solver. }
  destruct ss as [|t ss]; [done|]. cbn [fmap list_fmap] in *. rewrite join_cons.
  rewrite !Forall_app. split; [done|]. split; [|done]. by repeat constructor.
Qed.

Lemma chomp1_chars c s : Forall (λ a, a ≠ c) s → chomp1 c s = s.
Proof.
  intros H. apply chomp1_other. intros Hl. apply last_Some_elem_of in Hl.
  by apply (proj1 (Forall_forall _ _) H) in Hl.
Qed.

Lemma pieces_serialized ss :
  ss ≠ [] → pieces (int_of_char " ") (serialized ss) = escape <$> ss.
Proof.
  intros Hnil. unfold pieces, chomp. pose proof (serialized_chars ss) as Hc.
  rewrite (chomp1_chars LF) by (eapply Forall_impl; [exact Hc|]; naive_solver).
  rewrite (chomp1_chars CR) by (eapply Forall_impl; [exact Hc|]; naive_solver).
  change (char_of_int (int_of_char " ")) with " "%char. unfold serialized.
  rewrite split_join; [|by destruct ss|].
  - rewrite <- list_fmap_compose. apply list_fmap_ext. intros i x _. done.
  - apply Forall_fmap, Forall_true. intros s Hin.
    pose proof (proj1 (Forall_forall _ _) (escape_blank s) _ Hin). naive_solver.
Qed.

Lemma serialized_nonempty ss s : s ∈ ss → s ≠ [] → serialized ss ≠ [].
Proof.
  intros Hin Hs H0. unfold serialized in H0.
  assert (length (escape s) ≤ length (join [" "%char] (escape <$> ss)))%nat as Hle.
  { clear H0. induction Hin as [s ss|s t ss Hin IH].
    - cbn. destruct (escape <$> ss); [done|]. rewrite length_app. lia.
    - specialize (IH Hs). cbn [fmap list_fmap]. destruct ss as [|t' ss]; [by apply not_elem_of_nil in Hin|].
      cbn [fmap list_fmap] in *. rewrite join_cons, !length_app. cbn [length]. lia. }
  rewrite H0 in Hle. pose proof (length_escape s). destruct s; [done|]. simpl in *. lia.
Qed.

(** The loop of [list_deserialize]. *)
Lemma unescape_all_ok w lt est l buf ss E :
  ready w → list_rep true w lt est (escape <$> ss) → list_rep true w l [] [] → lt ≠ l →
  str_rep w buf [] → buf ∉ str_locs est → Forall (λ s, s ≠ [] ∧ nonul s) ss →
  Forall (λ s : bytes, Z.of_nat (length s) < STRING_MAX) ss →
  wp (for_each (hd_ptr est None) (λ cur,
      e ← get_ent cur;
      try_ (str_unescape (Some buf) (ent_value e));;
      try_ (list_push (Some l) (Some buf));;
      mret false))
    (λ _ w', (∃ new, all_new w new ∧ list_rep true w' l new ss) ∧ str_live w' buf ∧
       lstep {[buf]} ∅ {[l]} w w') E w.
Proof.
  intros Hr Ht Hl Hne Hb Hbt Hok Hsmall. pose proof (list_rep_length _ _ _ _ _ Ht) as Hlen.
  rewrite length_fmap in Hlen. destruct (list_rep_locs _ _ _ _ _ Hr Ht) as [HN HX].
  assert (Z.of_nat (length est) < 2 ^ 32) as Hmax by apply Ht.
  eapply (wp_for_each (λ n p w', ∃ es1 es2 new bs, est = es1 ++ es2 ∧ n = length es2 ∧
      p = hd_ptr es2 None ∧ length new = length es1 ∧ all_new w new ∧ str_rep w' buf bs ∧
      list_rep true w' l new (take (length es1) ss) ∧ lstep {[buf]} ∅ {[l]} w w')).
  3: { exists [], est, [], []. split_and!; [done..|apply all_new_nil|done|done|by apply lstep_refl]. }
  3: { rewrite <- Hlen. by eapply list_rep_fuel. }
  - intros n p w1 (es1 & es2 & new & bs & -> & -> & Hp & Hnew & Hall & Hb1 & Hl1 & S1).
    destruct es2 as [|[m s] es2]; [done|]. injection Hp as ->.
    assert (list_rep true w1 lt (es1 ++ (m, s) :: es2) (escape <$> ss)) as Ht1
      by (eapply list_rep_mono; [|exact S1|exact Ht|set_solver..]; done).
    destruct (list_rep_cur _ _ _ _ _ _ _ _ Ht1) as (pv & t' & He & Hi & Hs).
    rewrite list_lookup_fmap in Hi. destruct (ss !! length es1) as [t|] eqn:Hti; [|done].
    injection Hi as <-. rewrite length_app in *. cbn [length] in *.
    pose proof (Forall_lookup_1 _ _ _ _ Hok Hti) as [Hnil Hnn].
    pose proof (Forall_lookup_1 _ _ _ _ Hsmall Hti) as Hsm. cbn beta in Hsm.
    assert (buf ≠ s) as Hbs by (intros ->; by locs).
    wp_next. eapply wp_get_ent; [done|]. wp_next. cbn [ent_value].
    wp_try_call (str_unescape_ok w1 buf s bs t); [ready|]. intros r w2 ((-> & Hb2) & S2). cbn.
    assert (buf < next_loc w)%positive as Hbw by (clear - Hb Hr; bounds; lia).
    assert (buf ∉ str_locs new) as Hbn by (intros Hx%(proj2 Hall); lia).
    assert (list_rep true w2 l new (take (length es1) ss)) as Hl2 by keep. wp_next.
    wp_try_call (list_push_ok true w2 l new _ buf t); [ready|lia|].
    intros r w3 (-> & mn & ms & Hmn & Hms & Hl3 & S3). cbn. split; [done|].
    assert (within w (ent_locs new) ∅) as Hwi by (intros x Hx; right; by apply (proj1 Hall)).
    eexists _, (length es2). split; [|split; [lia|]].
    { eapply (lstep_ent _ _ _ w2 w3); [ready|exact S3| |].
      - intros Hx%(proj1 Hall). assert (m < next_loc w)%positive by (apply HN; locs). lia.
      - keep. }
    exists (es1 ++ [(m, s)]), es2, (new ++ [(mn, ms)]), t. bounds.
    rewrite <- app_assoc, !length_app. cbn [length]. rewrite !Nat.add_1_r.
    erewrite take_S_r by done.
    split_and!; try done; [by rewrite Hnew|apply all_new_snoc; [done|lia|lia]|keep|].
    chain.
  - intros n w1 (es1 & es2 & new & bs & -> & -> & Hp & Hnew & Hall & Hb1 & Hl1 & S1).
    destruct es2 as [|[]]; [|done]. rewrite app_nil_r in *.
    rewrite take_ge in Hl1 by lia. split; [by exists new|]. split; [by eapply str_rep_live|done].
Qed.

Lemma list_deserialize_ok k w l es0 ss0 q ss E :
  ready w → list_rep k w l es0 ss0 → str_rep w q (serialized ss) → q ∉ str_locs es0 →
  ss ≠ [] → Forall (λ s, s ≠ [] ∧ nonul s) ss →
  Z.of_nat (length (serialized ss)) < STRING_MAX →
  wp (list_deserialize (Some l) (Some q))
    (λ r w', (r = 0 ∧ ∃ new, all_new w new ∧ list_rep true w' l new ss) ∧
       lstep (str_locs es0) (ent_locs es0) {[l]} w w') E w.
Proof.
  intros Hr Hl Hq Hqs Hnil Hok Hmax. destruct (list_rep_locs _ _ _ _ _ Hr Hl) as [HN HX].
  assert (Forall (λ s : bytes, Z.of_nat (length s) < STRING_MAX) ss) as Hsmall.
  { apply Forall_lookup_2. intros i s Hi. pose proof (serialized_le ss (S i)) as Hle.
    rewrite (serialized_next _ _ _ Hi), !length_app in Hle.
    pose proof (length_escape s). lia. }
  assert (serialized ss ≠ []) as Hse.
  { destruct ss as [|s ss]; [done|]. apply Forall_cons in Hok as [[Hs _] _].
    eapply serialized_nonempty; [by left|done]. }
  apply wp_func, (wp_auto_list w (str_locs es0) (ent_locs es0) {[l]}); [done|].
  intros lt w1 Hlt Ht1 S1. assert (lt ≠ l) as Hne by (destruct Hl as [Hh]; bounds; lia).
  eapply wp_conseq; [apply (wp_auto_str_list w1 (str_locs es0) (ent_locs es0) ({[lt; l]}) _
    (λ z w', z = 0 ∧ ∃ est new, list_rep true w' lt est (escape <$> ss) ∧ all_new w1 est ∧
       all_new w1 new ∧ list_rep true w' l new ss ∧
       ent_locs est ## ent_locs new ∧ str_locs est ## str_locs new)); [ready|]|].
  2: { intros r w2 ((-> & est & new & Ht2 & Hes & Hnew & Hl2 & Hd1 & Hd2) & S2). bounds.
       exists est, (escape <$> ss). split; [by apply list_rep_weak|]. split; [chain|].
       split; [intros x Hx%(proj1 Hes); right; lia|].
       split; [intros x Hx%(proj2 Hes); right; lia|].
       intros w3 S3. split; [done|]. exists new. split; [eapply all_new_mono; [|done]; lia|].
       eapply (list_rep_mono true _ _ _ w2 w3); [ready|exact S3|done|set_solver..]. }
  intros buf w2 Hbuf Hb2 S2. assert (list_rep k w2 l es0 ss0) as Hl2 by keep.
  assert (q ≠ buf) as Hqb by (bounds; lia).
  assert (buf ∉ str_locs es0) as Hbs by (intros Hx%HX; bounds; lia).
  assert (list_rep true w2 lt [] []) as Ht2 by keep. assert (str_rep w2 q (serialized ss)) as Hq2 by keep.
  apply wp_body. wp_next. wp_try_call (list_truncate_ok k w2 l es0 ss0); [ready|].
  intros r w3 (-> & Hl3 & S3). cbn. wp_next.
  assert (list_rep true w3 lt [] []) as Ht3 by keep.
  assert (str_rep w3 q (serialized ss)) as Hq3 by keep.
  assert (char_of_int (int_of_char " ") ≠ NUL) as Hsp
    by (change (" "%char ≠ NUL); done).
  wp_try_call (str_split_ok true w3 lt [] [] q (serialized ss) (int_of_char " ")); [ready|].
  intros r w4 ((-> & est & Hes & Ht4) & S4). cbn. rewrite pieces_serialized in Ht4 by done.
  assert (list_rep true w4 l [] []) as Hl4 by keep.
  assert (str_rep w4 buf []) as Hb4 by keep. pose proof Ht4 as [Hh4 _ _ _ _ _].
  assert (buf ∉ str_locs est) as Hbe by (intros Hx%(proj2 Hes); bounds; lia).
  destruct (list_rep_locs _ _ _ _ _ ltac:(ready) Ht4) as [HN4 HX4].
  wp_next. eapply wp_get_list; [done|]. cbn [list_head].
  wp_call (unescape_all_ok w4 lt est l buf ss); [ready|].
  intros _ w5 ((new & Hnew & Hl5) & Hlive & S5). split; [done|].
  assert (lstep ({[buf]} ∪ str_locs es0) (ent_locs es0) {[lt; l]} w1 w5) as S15 by chain.
  split; [done|]. intros w6 S6. split; [done|]. exists est, new.
  assert (buf ∉ str_locs new) as Hbn by (intros Hx%(proj2 Hnew); bounds; lia).
  assert (list_rep true w5 lt est (escape <$> ss)) as Ht5.
  { eapply (list_rep_mono true _ _ _ w4 w5); [ready|exact S5|done|set_solver..]. }
  bounds. split_and!; [keep|eapply all_new_mono; [|done]; lia|eapply all_new_mono; [|done]; lia|keep| |].
  - intros x Hx%HN4 Hy%(proj1 Hnew). lia.
  - intros x Hx%HX4 Hy%(proj2 Hnew). lia.
Qed.
