(* ===== verification/ListRefine.v ===== *)
(** A list and the strings of its client, as an abstract machine: any sequence
    of calls on a [list_t] behaves like the same sequence on a plain list of
    texts and an environment of variables. *)

From S2P Require Import Prelude Types Machine Wp StringOps StringFacts ListOps ListRep.
From S2P Require Import ListFacts ListEdit.

Open Scope Z_scope.

(** * The calls *)

(** The locations are those of the client's strings; [Cat] has a literal. *)
Inductive cmd :=
| Push (q : loc) | Pop (q : loc) | Shift (q : loc) | Get (q : loc) (i : Z)
| Delete (i : Z) | Cat (t : bytes) | Truncate | Reverse
| Append (p q : loc).

(** What the call does in the program. *)
Definition call (l : loc) (c : cmd) : M Z :=
  match c with
  | Push q => list_push (Some l) (Some q)
  | Pop q => list_pop (Some q) (Some l)
  | Shift q => list_shift (Some q) (Some l)
  | Get q i => list_get (Some q) (Some l) i
  | Delete i => list_delete (Some l) i
  | Cat t => list_cat (Some l) (Some (CLit t 0))
  | Truncate => list_truncate (Some l)
  | Reverse => list_reverse (Some l)
  | Append p q => str_append (Some p) (Some q)
  end.

Fixpoint calls (l : loc) (cs : list cmd) : M (list Z) :=
  match cs with
  | [] => mret []
  | c :: cs => r ← call l c; rs ← calls l cs; mret (r :: rs)
  end.

(** * The abstract machine *)

Record model := Model { items : list bytes; vars : gmap loc bytes }.

Definition var (a : model) (q : loc) : bytes := default [] (vars a !! q).
Definition assign (q : loc) (t : bytes) (a : model) : gmap loc bytes := <[q := t]> (vars a).

Definition model_step (c : cmd) (a : model) : Z * model :=
  let ss := items a in
  match c with
  | Push q => (0, Model (ss ++ [var a q]) (vars a))
  | Cat t => (0, Model (ss ++ [t]) (vars a))
  | Pop q =>
      match reverse ss with
      | t :: r => (0, Model (reverse r) (assign q t a))
      | [] => (-1, a)
      end
  | Shift q =>
      match ss with t :: r => (0, Model r (assign q t a)) | [] => (-1, a) end
  | Get q i =>
      match ss !! Z.to_nat i with Some t => (0, Model ss (assign q t a)) | None => (-1, a) end
  | Delete i =>
      if Z.of_nat (length ss) <? i then (-1, a)
      else (0, Model (delete (Z.to_nat i) ss) (vars a))
  | Truncate => (0, Model [] (vars a))
  | Reverse => (0, Model (reverse ss) (vars a))
  | Append p q => (0, Model ss (assign p (var a p ++ var a q) a))
  end.

Fixpoint model_run (cs : list cmd) (a : model) : list Z * model :=
  match cs with
  | [] => ([], a)
  | c :: cs =>
      let '(r, a') := model_step c a in
      let '(rs, a'') := model_run cs a' in (r :: rs, a'')
  end.

(** What a call asks of the state it starts in: its variables exist, and its
    sizes are in range. *)
Definition known (a : model) (q : loc) : Prop := is_Some (vars a !! q).

Definition admissible (c : cmd) (a : model) : Prop :=
  match c with
  | Push q => known a q ∧ Z.of_nat (S (length (items a))) < 2 ^ 32
  | Pop q | Shift q => known a q
  | Get q i => known a q ∧ 0 ≤ i
  | Delete i => 0 ≤ i
  | Cat t => nonul t ∧ Z.of_nat (length t) < STRING_MAX ∧ Z.of_nat (S (length (items a))) < 2 ^ 32
  | Truncate | Reverse => True
  | Append p q => known a p ∧ known a q ∧ p ≠ q ∧
      Z.of_nat (length (var a p) + length (var a q)) < STRING_MAX
  end.

Fixpoint all_admissible (cs : list cmd) (a : model) : Prop :=
  match cs with
  | [] => True
  | c :: cs => admissible c a ∧ all_admissible cs (snd (model_step c a))
  end.

#[export] Instance known_dec a q : Decision (known a q).
Proof. unfold known. apply _. Defined.
#[export] Instance admissible_dec c a : Decision (admissible c a).
Proof. destruct c; simpl; apply _. Defined.
#[export] Instance all_admissible_dec cs a : Decision (all_admissible cs a).
Proof. revert a. induction cs; intros a'; simpl; apply _. Defined.

(** * The simulation *)

Definition vars_ok (w : world) (es : entries) (m : gmap loc bytes) : Prop :=
  ∀ q t, m !! q = Some t → str_rep w q t ∧ q ∉ str_locs es.

(** The memory implements the abstract state. *)
Definition implements (l : loc) (w : world) (a : model) : Prop :=
  ready w ∧ ∃ es, list_rep true w l es (items a) ∧ vars_ok w es (vars a).

(** Variables that a step does not modify, and those it sets. *)
Lemma vars_step X N L w w' es es' m m' :
  ready w → lstep X N L w w' → vars_ok w es m →
  (∀ q t, m' !! q = Some t → m !! q = Some t ∧ q ∉ X ∨ is_Some (m !! q) ∧ str_rep w' q t) →
  within w (str_locs es') (str_locs es) → vars_ok w' es' m'.
Proof.
  intros Hr S Hm Hm' Hes q t Hq. destruct (Hm' q t Hq) as [[Hq' HX]|[[t' Hq'] Hrep]];
    destruct (Hm _ _ Hq') as [Hold Hnot]; (split; [|intros Hin; destruct (Hes q Hin) as [|Hge];
      [done|pose proof (str_rep_lt _ _ _ (proj1 Hr) Hold); lia]]); [|done].
  by eapply lstep_rep.
Qed.

(** A step that sets one variable, and otherwise only parts of the list. *)
Lemma vars_assign X N L w w' es es' a q t :
  ready w → lstep X N L w w' → vars_ok w es (vars a) → known a q →
  str_rep w' q t → X ⊆ {[q]} ∪ str_locs es → str_locs es' ⊆ str_locs es →
  vars_ok w' es' (assign q t a).
Proof.
  intros Hr S Hm Hq Ht HX Hes. eapply vars_step; [done|exact S|done| |by apply within_sub].
  intros p u Hp. destruct (decide (p = q)) as [->|Hne].
  - unfold assign in Hp. rewrite lookup_insert_eq in Hp. simplify_eq. by right.
  - unfold assign in Hp. rewrite lookup_insert_ne in Hp by done. left. split; [done|].
    destruct (Hm _ _ Hp) as [_ Hnot]. set_solver.
Qed.

(** A step that sets none. *)
Lemma vars_same X N L w w' es es' m :
  ready w → lstep X N L w w' → vars_ok w es m →
  X ⊆ str_locs es → within w (str_locs es') (str_locs es) → vars_ok w' es' m.
Proof.
  intros Hr S Hm HX Hes. eapply vars_step; [done|exact S|done| |done].
  intros p u Hp. left. split; [done|]. destruct (Hm _ _ Hp) as [_ Hnot]. set_solver.
Qed.

Lemma var_rep w es a q : vars_ok w es (vars a) → known a q →
  str_rep w q (var a q) ∧ q ∉ str_locs es.
Proof. intros Hm [t Ht]. unfold var. rewrite Ht. by apply Hm. Qed.

Section step.
Context (l : loc) (w : world) (es : entries) (a : model) (E : exit → world → Prop).
Hypothesis Hr : ready w.
Hypothesis Hl : list_rep true w l es (items a).
Hypothesis Hm : vars_ok w es (vars a).

(** [c] does what the abstract step does. *)
Definition simulates (c : cmd) : Prop :=
  wp (call l c) (λ r w', r = fst (model_step c a) ∧ implements l w' (snd (model_step c a))) E w.

Lemma same_items : length es = length (items a).
Proof. by eapply list_rep_length. Qed.

Lemma unchanged : implements l w a.
Proof. split; [done|]. by exists es. Qed.

Lemma push_simulates q : admissible (Push q) a → simulates (Push q).
Proof.
  intros [Hq Hb]. destruct (var_rep _ _ _ _ Hm Hq) as [Hqr _].
  eapply wp_conseq; [eapply list_push_ok; [done..|by rewrite same_items]|].
  intros r w' (-> & n & s & Hn & Hs & Hl' & S). split; [done|]. split; [ready|].
  eexists. split; [exact Hl'|]. eapply vars_same; [done|exact S|done|set_solver|].
  rewrite str_locs_app. within_tac.
Qed.

Lemma cat_simulates t : admissible (Cat t) a → simulates (Cat t).
Proof.
  intros (Hn & Ht & Hb).
  eapply wp_conseq; [eapply list_cat_ok; [done..|by apply readable_lit|done|by rewrite same_items]|].
  intros r w' ((-> & n & s & Hn' & Hs & Hl') & S). split; [done|]. split; [ready|].
  eexists. split; [exact Hl'|]. eapply vars_same; [done|exact S|done|set_solver|].
  rewrite str_locs_app. within_tac.
Qed.

Lemma pop_simulates q : admissible (Pop q) a → simulates (Pop q).
Proof.
  intros Hq. destruct (var_rep _ _ _ _ Hm Hq) as [Hqr Hqn]. pose proof same_items as Hlen.
  pose proof unchanged as Hsame. unfold simulates. simpl. destruct (items a) as [|t ss _] eqn:Hss using rev_ind.
  - destruct es; [|done]. eapply wp_conseq; [by eapply list_pop_empty|].
    by intros r w' (-> & ->).
  - rewrite reverse_snoc. simpl. rewrite reverse_involutive.
    destruct es as [|[n s] es' _] using rev_ind; [rewrite length_app in Hlen; simpl in Hlen; lia|].
    rewrite !length_app in Hlen. simpl in Hlen.
    eapply wp_conseq; [eapply list_pop_ok; [done|done|lia|done..]|].
    intros r w' (-> & Hq' & Hl' & S). split; [done|]. split; [ready|].
    exists es'. split; [done|]. eapply vars_assign; [done|exact S|done..| |];
      rewrite str_locs_app, str_locs_cons; clear; set_solver.
Qed.

Lemma shift_simulates q : admissible (Shift q) a → simulates (Shift q).
Proof.
  intros Hq. destruct (var_rep _ _ _ _ Hm Hq) as [Hqr Hqn]. pose proof same_items as Hlen.
  pose proof unchanged as Hsame. unfold simulates. simpl.
  destruct (items a) as [|t ss] eqn:Hss, es as [|[n s] es']; try done.
  - eapply wp_conseq; [by eapply list_shift_empty|]. by intros r w' (-> & ->).
  - eapply wp_conseq; [by eapply list_shift_ok|].
    intros r w' (-> & Hq' & Hl' & S). split; [done|]. split; [ready|].
    exists es'. split; [done|]. eapply vars_assign; [done|exact S|done..| |];
      rewrite str_locs_cons; clear; set_solver.
Qed.

Lemma get_simulates q i : admissible (Get q i) a → simulates (Get q i).
Proof.
  intros [Hq Hi]. destruct (var_rep _ _ _ _ Hm Hq) as [Hqr Hqn].
  unfold simulates. simpl. destruct (items a !! Z.to_nat i) as [t|] eqn:Ht.
  - eapply wp_conseq; [by eapply list_get_ok|].
    intros r w' (-> & Hq' & S). split; [done|]. split; [ready|]. exists es.
    apply (sstep_lstep _ ∅ ∅) in S. split.
    + eapply list_rep_mono; [done|exact S|done|set_solver..].
    + eapply vars_assign; [done|exact S|done..|set_solver|done].
  - apply lookup_ge_None in Ht. eapply wp_conseq; [eapply list_get_error; [done|lia]|].
    intros r w' (-> & ->). split; [done|]. apply unchanged.
Qed.

Lemma delete_simulates i : admissible (Delete i) a → simulates (Delete i).
Proof.
  simpl. intros Hi. pose proof same_items as Hlen. unfold simulates. simpl.
  destruct (Z.ltb_spec (Z.of_nat (length (items a))) i) as [Hlt|Hge].
  { eapply wp_conseq; [by eapply list_delete_error|].
    intros r w' (-> & ->). split; [done|]. apply unchanged. }
  simpl. destruct (decide (i = Z.of_nat (length (items a)))) as [->|Hne].
  { eapply wp_conseq; [by eapply list_delete_at_end|].
    intros r w' (-> & ->). split; [done|]. rewrite Nat2Z.id, delete_take_drop, take_ge, drop_ge, app_nil_r by lia. apply unchanged. }
  destruct (lookup_lt_is_Some_2 es (Z.to_nat i)) as [[n s] Hes]; [lia|].
  destruct (lookup_lt_is_Some_2 (items a) (Z.to_nat i)) as [t Ht]; [lia|].
  set (e1 := take (Z.to_nat i) es). set (e2 := drop (S (Z.to_nat i)) es).
  assert (es = e1 ++ (n, s) :: e2) as Hesq by (symmetry; by apply take_drop_middle).
  rewrite delete_take_drop. rewrite <- (take_drop_middle _ _ _ Ht), Hesq in Hl.
  assert (i = Z.of_nat (length e1)) as Hie by (unfold e1; rewrite length_take; lia).
  assert (length e1 = length (take (Z.to_nat i) (items a))) as He1
    by (unfold e1; rewrite !length_take; lia).
  pose proof (list_delete_ok w l e1 n s e2 _ t _ E Hr Hl He1) as Hdel.
  rewrite <- Hie in Hdel. eapply wp_conseq; [exact Hdel|].
  intros r w' (-> & Hl' & S). split; [done|]. split; [ready|]. exists (e1 ++ e2).
  split; [done|]. eapply vars_same; [done|exact S|done| |];
    rewrite Hesq, ?str_locs_app, ?str_locs_cons; [|apply within_sub]; clear; set_solver.
Qed.

Lemma truncate_simulates : simulates Truncate.
Proof.
  eapply wp_conseq; [by eapply list_truncate_ok|].
  intros r w' (-> & Hl' & S). split; [done|]. split; [ready|]. exists []. split; [done|].
  eapply vars_same; [done|exact S|done|done|]. rewrite str_locs_nil. within_tac.
Qed.

Lemma reverse_simulates : simulates Reverse.
Proof.
  eapply wp_conseq; [by eapply list_reverse_ok|].
  intros r w' (-> & Hl' & S). split; [done|]. split; [ready|]. exists (reverse es).
  split; [done|]. eapply vars_same; [done|exact S|done|set_solver|].
  apply within_sub. intros x. rewrite !elem_of_str_locs, !list_elem_of_fmap.
  setoid_rewrite elem_of_reverse. done.
Qed.

Lemma append_simulates p q : admissible (Append p q) a → simulates (Append p q).
Proof.
  intros (Hp & Hq & Hne & Hb). destruct (var_rep _ _ _ _ Hm Hp) as [Hpr Hpn].
  destruct (var_rep _ _ _ _ Hm Hq) as [Hqr Hqn].
  eapply wp_conseq; [by eapply str_append_ok|].
  intros r w' (-> & Hp' & S). split; [done|]. split; [ready|]. exists es.
  apply (sstep_lstep _ ∅ ∅) in S. split.
  - eapply list_rep_mono; [done|exact S|done|set_solver..].
  - eapply vars_assign; [done|exact S|done..|set_solver|done].
Qed.

End step.

Lemma call_simulates l w a c E :
  implements l w a → admissible c a →
  wp (call l c) (λ r w', r = fst (model_step c a) ∧ implements l w' (snd (model_step c a))) E w.
Proof.
  intros (Hr & es & Hl & Hm). destruct c; intros Hc.
  - by eapply push_simulates.
  - by eapply pop_simulates.
  - by eapply shift_simulates.
  - by eapply get_simulates.
  - by eapply delete_simulates.
  - by eapply cat_simulates.
  - by eapply truncate_simulates.
  - by eapply reverse_simulates.
  - by eapply append_simulates.
Qed.

Lemma calls_simulate l cs w a E :
  implements l w a → all_admissible cs a →
  wp (calls l cs) (λ rs w', rs = fst (model_run cs a) ∧ implements l w' (snd (model_run cs a))) E w.
Proof.
  revert w a. induction cs as [|c cs IH]; intros w a Hi; simpl.
  { intros _. by apply wp_ret. }
  intros [Hc Hcs]. apply wp_bind. eapply wp_conseq; [by eapply call_simulates|].
  intros r w1 [-> H1]. apply wp_bind. eapply wp_conseq; [by eapply IH|].
  intros rs w2 [-> H2]. apply wp_ret.
  destruct (model_step c a) as [r a']. simpl in *. by destruct (model_run cs a').
Qed.
