(* ===== verification/HashRep.v ===== *)
(** Hash tables in memory: the abstraction of a [hash_t] as a finite map from
    texts to texts ([hash_rep]), and the frame of the operations on it
    ([hstep]). *)

From S2P Require Import Prelude Types Machine Wp StringOps StringFacts ListOps HashOps ListRep.
From S2P Require Import ListFacts ListEdit.

Open Scope Z_scope.

(** * Frames for hash tables *)

Definition with_hashes (hs : gmap loc hash_t) (w : world) : world := upd_hashes (λ _, hs) w.

(** Like [lstep], and the tables of [H] may differ. *)
Definition hstep (X N L H : gset loc) (w w' : world) : Prop :=
  ready w' ∧ lstep X N L w (with_hashes (hashes w) w') ∧
  ∀ h, (h < next_loc w)%positive → h ∉ H → hashes w' !! h = hashes w !! h.

Lemma hstep_ready X N L H w w' : hstep X N L H w w' → ready w'.
Proof. by intros (? & _). Qed.

Lemma hstep_next X N L H w w' : hstep X N L H w w' → (next_loc w ≤ next_loc w')%positive.
Proof. intros (_ & S & _). apply (lstep_next _ _ _ _ _ S). Qed.

Lemma ready_with_hashes w w' :
  ready w → ready w' → (next_loc w ≤ next_loc w')%positive → ready (with_hashes (hashes w) w').
Proof.
  intros [Hwf _] [Hwf' Ho] Hle. split; [split; try apply Hwf'|done].
  intros l Hl. simpl in *. apply (wf_hashes w Hwf). lia.
Qed.

Lemma lstep_hstep X N L H w w' : lstep X N L w w' → hstep X N L H w w'.
Proof.
  intros S. pose proof S as (R & F & [G1 G2 G3 G4 G5]). split; [done|]. split.
  - assert (with_hashes (hashes w) w' = w') as -> by (rewrite <- G3; by destruct w'). done.
  - intros h _ _. by rewrite G3.
Qed.

Lemma hstep_trans X N L H X' N' L' H' w1 w2 w3 :
  ready w1 → hstep X N L H w1 w2 → hstep X' N' L' H' w2 w3 →
  within w1 X' X → within w1 N' N → within w1 L' L → within w1 H' H → hstep X N L H w1 w3.
Proof.
  intros Hr (R2 & S1 & H1) (R3 & S2 & H2) WX WN WL WH.
  pose proof (lstep_next _ _ _ _ _ S1). pose proof (lstep_next _ _ _ _ _ S2). simpl in *.
  split; [done|]. split.
  - apply (lstep_trans X N L X' N' L' w1 (with_hashes (hashes w1) w2)); [done|done| |done..].
    destruct S2 as (_ & F & G). split; [by apply ready_with_hashes; [| |lia]|].
    split; [by destruct F|]. destruct G. by split.
  - intros h Hh Hn. rewrite H2; [by apply H1|lia|].
    intros Hin. destruct (WH h Hin); [done|lia].
Qed.

Lemma hstep_refl X N L H w : ready w → hstep X N L H w w.
Proof. intros R. by apply lstep_hstep, lstep_refl. Qed.

Lemma hstep_rep X N L H w w' p bs :
  ready w → hstep X N L H w w' → p ∉ X → str_rep w p bs → str_rep w' p bs.
Proof. intros Hr (_ & S & _) Hp Hrep. exact (lstep_rep X N L w _ p bs Hr S Hp Hrep). Qed.

Lemma list_rep_with_hashes k hs w l es ss :
  list_rep k (with_hashes hs w) l es ss → list_rep k w l es ss.
Proof.
  intros [H1 H2 H3 H4 H5 H6]. split; try done. by eapply seg_ext; [|exact H2].
Qed.

Lemma list_rep_upd_hashes k f w l es ss :
  list_rep k w l es ss → list_rep k (upd_hashes f w) l es ss.
Proof.
  intros [H1 H2 H3 H4 H5 H6]. split; try done. by eapply seg_ext; [|exact H2].
Qed.

Lemma hstep_list_rep k X N L H w w' l es ss :
  ready w → hstep X N L H w w' → list_rep k w l es ss →
  l ∉ L → ent_locs es ## N → str_locs es ## X → list_rep k w' l es ss.
Proof.
  intros Hr (_ & S & _) Hrep HL HN HX.
  exact (list_rep_with_hashes _ _ _ _ _ _ (list_rep_mono k X N L w _ l es ss Hr S Hrep HL HN HX)).
Qed.

(** An assignment to a field of an existing table. *)
Lemma wp_mod_hash w h d f (Q : unit → world → Prop) E :
  ready w → hashes w !! h = Some d →
  (∀ w', hashes w' = <[h := f d]> (hashes w) → hstep ∅ ∅ ∅ {[h]} w w' →
     (∀ k l es ss, list_rep k w l es ss → list_rep k w' l es ss) → Q tt w') →
  wp (mod_hash (Some h) f) Q E w.
Proof.
  intros Hr Hh HQ. eapply wp_set_obj; [done|]. apply HQ; [done| |].
  - split; [|split].
    + destruct Hr as [[] Ho]. split; [split; try done|done]. simpl. intros l Hl.
      rewrite lookup_insert_ne; [auto|]. intros <-. by rewrite wf_hashes in Hh.
    + assert (with_hashes (hashes w) (upd_hashes <[h := f d]> w) = w) as -> by (by destruct w).
      by apply lstep_refl.
    + intros h' _ Hn. simpl. apply lookup_insert_ne. set_solver.
  - intros. by apply list_rep_upd_hashes.
Qed.

Lemma wp_get_hash w h d (Q : hash_t → world → Prop) E :
  hashes w !! h = Some d → Q d w → wp (get_hash (Some h)) Q E w.
Proof. apply wp_deref. Qed.

(** * String variables in the frame of a function *)

Lemma wp_local_str w k (R : Z → world → Prop) E :
  ready w →
  (∀ l w1, (next_loc w ≤ l)%positive → strs w1 !! l = Some EMPTY_STRING →
     lstep ∅ ∅ ∅ w w1 → (l < next_loc w1)%positive →
     wp (k (Some l)) (λ z w2, R z (upd_strs (delete l) w2))
       (λ x w2, E x (upd_strs (delete l) w2)) w1) →
  wp (local_str EMPTY_STRING k) R E w.
Proof.
  intros Hr H. set (l := next_loc w).
  set (w1 := upd_strs <[l := EMPTY_STRING]> (upd_next Pos.succ w)).
  unfold wp, local_str, mbind, M_bind, fresh_loc, modify, pop_str. fold l. fold w1.
  destruct Hr as [Hwf Ho]. pose proof Hwf as [H1 H2 H3 H4 H5 H6 H7].
  assert (∀ p b, owns w1 p b → owns w p b) as Hown.
  { intros p b (s & o & Hs & ? & Hv). simpl in Hs. destruct (decide (p = l)) as [->|Hne].
    - rewrite lookup_insert_eq in Hs. by simplify_eq.
    - rewrite lookup_insert_ne in Hs by done. by exists s, o. }
  assert (lstep ∅ ∅ ∅ w w1) as S.
  { split; [|split].
    - split; [|done]. split; simpl; intros.
      + rewrite lookup_insert_ne; [apply H1; lia|]. unfold l. lia.
      + apply H2; lia.
      + apply H3; lia.
      + apply H4; lia.
      + apply H5; lia.
      + by eapply H6; apply Hown.
      + specialize (H7 p b (Hown p b ltac:(done))). lia.
    - split; simpl; [lia| |done|intros p b Hb; left; by apply Hown].
      intros q Hq _. apply lookup_insert_ne. unfold l. lia.
    - by split. }
  specialize (H l w1 ltac:(unfold l; lia) (lookup_insert_eq _ _ _) S ltac:(simpl; unfold l; lia)).
  unfold wp in H. by destruct (k (Some l) w1).
Qed.

(** Its release. *)
Lemma pop_step X l w : ready w → l ∈ X → lstep X ∅ ∅ w (upd_strs (delete l) w).
Proof.
  intros [[] Ho] Hin.
  assert (∀ p b, owns (upd_strs (delete l) w) p b → owns w p b) as Hown.
  { intros p b (s & o & Hs & ? & Hv). simpl in Hs. apply lookup_delete_Some in Hs as [_ Hs].
    by exists s, o. }
  split; [|split].
  - split; [|done]. split; simpl; try done; intros.
    + rewrite lookup_delete_None. right. auto.
    + by eapply wf_own; apply Hown.
    + by eapply wf_own_bound, Hown.
  - split; simpl; [lia| |done|intros p b Hb; left; by apply Hown].
    intros q _ Hq. apply lookup_delete_ne. by intros ->.
  - by split.
Qed.

(** * The abstraction *)

(** The slot of a key. *)
Definition slot (k : bytes) : Z := foldl (λ x c, Z.lxor x (int_of_char c) mod 256) 0 k.

Lemma slot_range k : 0 ≤ slot k < 256.
Proof.
  destruct k as [|c k _] using rev_ind; [done|].
  unfold slot. rewrite foldl_app. simpl. by apply Z.mod_pos_bound.
Qed.

(** Keys and values alternate in a bucket. *)
Fixpoint flat (kvs : list (bytes * bytes)) : list bytes :=
  match kvs with [] => [] | (k, v) :: r => k :: v :: flat r end.

Lemma flat_app a b : flat (a ++ b) = flat a ++ flat b.
Proof. induction a as [|[k v] a IH]; simpl; [done|]. by rewrite IH. Qed.

Lemma elem_of_flat t kvs : t ∈ flat kvs ↔ t ∈ kvs.*1 ∨ t ∈ kvs.*2.
Proof.
  induction kvs as [|[k v] kvs IH]; simpl; [set_solver|].
  rewrite !elem_of_cons, IH. tauto.
Qed.

(** The first occurrence of a text that is not a value is that of a key. *)
Lemma flat_find kvs s1 k s2 :
  flat kvs = s1 ++ k :: s2 → k ∉ s1 → k ∉ kvs.*2 →
  ∃ a1 v a2, kvs = a1 ++ (k, v) :: a2 ∧ s1 = flat a1 ∧ s2 = v :: flat a2.
Proof.
  revert s1. induction kvs as [|[k' v'] kvs IH]; intros s1 Heq Hn Hv; [by destruct s1|].
  simpl in *. apply not_elem_of_cons in Hv as [Hv Hvs].
  destruct s1 as [|x [|y s1]]; simplify_eq/=; [by exists [], v', kvs|].
  rewrite !not_elem_of_cons in Hn. destruct Hn as (Hx & Hy & Hn).
  destruct (IH s1) as (a1 & v & a2 & -> & -> & ->); [done..|].
  by exists ((x, y) :: a1), v, a2.
Qed.

Record bucket_t := Bucket { b_loc : loc; b_ents : entries; b_kvs : list (bytes * bytes) }.

Abbreviation table := (list (option bucket_t)).

(** The locations of a bucket that may not exist. *)
Definition o_strs (ob : option bucket_t) : gset loc :=
  match ob with Some b => str_locs (b_ents b) | None => ∅ end.
Definition o_ents (ob : option bucket_t) : gset loc :=
  match ob with Some b => ent_locs (b_ents b) | None => ∅ end.
Definition o_lists (ob : option bucket_t) : gset loc :=
  match ob with Some b => {[b_loc b]} | None => ∅ end.

Record bucket_ok (w : world) (i : nat) (b : bucket_t) : Prop := {
  bo_list : list_rep true w (b_loc b) (b_ents b) (flat (b_kvs b));
  bo_nodup : NoDup (b_kvs b).*1;
  bo_slot k : k ∈ (b_kvs b).*1 → slot k = Z.of_nat i;
}.

Definition apart (o1 o2 : option bucket_t) : Prop :=
  o_lists o1 ## o_lists o2 ∧ o_ents o1 ## o_ents o2 ∧ o_strs o1 ## o_strs o2.

(** The buckets [tb] hold the map [m]. *)
Record table_rep (w : world) (tb : table) (m : gmap bytes bytes) : Prop := {
  tr_length : length tb = 256%nat;
  tr_bucket i b : tb !! i = Some (Some b) → bucket_ok w i b;
  tr_apart i j o1 o2 : i ≠ j → tb !! i = Some o1 → tb !! j = Some o2 → apart o1 o2;
  tr_map k v : m !! k = Some v ↔
    ∃ b, tb !! Z.to_nat (slot k) = Some (Some b) ∧ (k, v) ∈ b_kvs b;
}.

Definition bucket_ptrs (tb : table) : list ptr := (λ ob : option bucket_t, b_loc <$> ob) <$> tb.

(** [h] is a table for the map [m]. *)
Record hash_rep (w : world) (h : loc) (tb : table) (m : gmap bytes bytes) : Prop := {
  hr_hash : hashes w !! h = Some (mk_hash_t (bucket_ptrs tb) (Z.of_nat (size m)));
  hr_table : table_rep w tb m;
}.

(** All strings, entries and lists of a table. *)
Definition all_of (f : option bucket_t → gset loc) (tb : table) : gset loc := ⋃ (f <$> tb).

Lemma elem_of_all_of f tb x : x ∈ all_of f tb ↔ ∃ i o, tb !! i = Some o ∧ x ∈ f o.
Proof.
  unfold all_of. rewrite elem_of_union_list. setoid_rewrite list_elem_of_fmap. split.
  - intros (X & (o & -> & Ho) & Hx). apply list_elem_of_lookup in Ho as [i Hi]. by exists i, o.
  - intros (i & o & Hi & Hx). exists (f o). split; [|done]. exists o.
    split; [done|]. by eapply list_elem_of_lookup_2.
Qed.

Lemma all_of_lookup f tb i o : tb !! i = Some o → f o ⊆ all_of f tb.
Proof. intros Hi x Hx. apply elem_of_all_of. by exists i, o. Qed.

Abbreviation tb_strs := (all_of o_strs).
Abbreviation tb_ents := (all_of o_ents).
Abbreviation tb_lists := (all_of o_lists).

(** The same key is not twice in a bucket. *)
Lemma kvs_fun (kvs : list (bytes * bytes)) k v v' :
  NoDup kvs.*1 → (k, v) ∈ kvs → (k, v') ∈ kvs → v = v'.
Proof.
  induction kvs as [|[k0 v0] kvs IH]; simpl; [intros _ H; by apply not_elem_of_nil in H|].
  intros [Hn Hnd]%NoDup_cons. rewrite !elem_of_cons.
  assert (∀ u, (k0, u) ∈ kvs → False) as Hno.
  { intros u Hu. apply Hn, list_elem_of_fmap. by exists (k0, u). }
  intros [H1|H1] [H2|H2]; simplify_eq; [done| | |by apply IH]; by apply Hno in H1 || by apply Hno in H2.
Qed.

(** Parts of a table that a step leaves alone. *)
Lemma bucket_ok_step X N L H w w' i b :
  ready w → hstep X N L H w w' → bucket_ok w i b →
  o_lists (Some b) ## L → o_ents (Some b) ## N → o_strs (Some b) ## X → bucket_ok w' i b.
Proof.
  intros Hr S [B1 B2 B3] HL HN HX. split; [|done..].
  eapply hstep_list_rep; [done|exact S|done|set_solver..].
Qed.

Lemma table_rep_step X N L H w w' tb m :
  ready w → hstep X N L H w w' → table_rep w tb m →
  tb_lists tb ## L → tb_ents tb ## N → tb_strs tb ## X → table_rep w' tb m.
Proof.
  intros Hr S [T1 T2 T3 T4] HL HN HX. split; [done| |done|done].
  intros i b Hi. pose proof (all_of_lookup o_lists _ _ _ Hi).
  pose proof (all_of_lookup o_ents _ _ _ Hi). pose proof (all_of_lookup o_strs _ _ _ Hi).
  eapply bucket_ok_step; [done|exact S|by apply T2|set_solver..].
Qed.

(** What exists in a bucket is below [next_loc]. *)
Lemma bucket_bounds w i b :
  ready w → bucket_ok w i b →
  (∀ x, x ∈ o_lists (Some b) → (x < next_loc w)%positive) ∧
  (∀ x, x ∈ o_ents (Some b) → (x < next_loc w)%positive) ∧
  (∀ x, x ∈ o_strs (Some b) → (x < next_loc w)%positive).
Proof.
  intros Hr [B1 _ _]. split_and!.
  - intros x Hx. simpl in Hx. apply elem_of_singleton in Hx as ->. eapply ready_lt_lists; [done|apply B1].
  - intros x Hx%elem_of_ent_locs. eapply seg_lt; [done|apply B1|done].
  - intros x Hx%elem_of_str_locs. eapply texts_lt; [done|apply B1|done].
Qed.

(** The other buckets are apart from what a step on bucket [i] modifies, and
    from what it makes of the bucket. *)
Lemma others_apart w tb m i o X N L o' j oj :
  ready w → table_rep w tb m → tb !! i = Some o →
  within w X (o_strs o) → within w N (o_ents o) → within w L (o_lists o) →
  within w (o_strs o') (o_strs o) → within w (o_ents o') (o_ents o) →
  within w (o_lists o') (o_lists o) →
  j ≠ i → tb !! j = Some oj →
  o_lists oj ## L ∧ o_ents oj ## N ∧ o_strs oj ## X ∧ apart oj o'.
Proof.
  intros Hr [T1 T2 T3 T4] Hi WX WN WL WX' WN' WL' Hne Hj.
  destruct (T3 i j o oj ltac:(done) Hi Hj) as (A1 & A2 & A3).
  assert ((∀ x, x ∈ o_lists oj → (x < next_loc w)%positive) ∧
    (∀ x, x ∈ o_ents oj → (x < next_loc w)%positive) ∧
    (∀ x, x ∈ o_strs oj → (x < next_loc w)%positive)) as (B1 & B2 & B3).
  { destruct oj as [bj|]; [|split_and!; intros x Hx; simpl in Hx; set_solver].
    by eapply bucket_bounds, T2. }
  split_and!; [..|split; [|split]]; intros x Hx Hy.
  - destruct (WL x Hy) as [Hz|Hz]; [set_solver|]. specialize (B1 x Hx). lia.
  - destruct (WN x Hy) as [Hz|Hz]; [set_solver|]. specialize (B2 x Hx). lia.
  - destruct (WX x Hy) as [Hz|Hz]; [set_solver|]. specialize (B3 x Hx). lia.
  - destruct (WL' x Hy) as [Hz|Hz]; [set_solver|]. specialize (B1 x Hx). lia.
  - destruct (WN' x Hy) as [Hz|Hz]; [set_solver|]. specialize (B2 x Hx). lia.
  - destruct (WX' x Hy) as [Hz|Hz]; [set_solver|]. specialize (B3 x Hx). lia.
Qed.

(** Bucket [i] becomes [b'], out of its own parts and new ones. *)
Lemma table_rep_update X N L H w w' tb m m' i o b' :
  ready w → hstep X N L H w w' → table_rep w tb m → tb !! i = Some o →
  within w X (o_strs o) → within w N (o_ents o) → within w L (o_lists o) →
  bucket_ok w' i b' →
  within w (o_strs (Some b')) (o_strs o) → within w (o_ents (Some b')) (o_ents o) →
  within w (o_lists (Some b')) (o_lists o) →
  (∀ k v, slot k = Z.of_nat i → m' !! k = Some v ↔ (k, v) ∈ b_kvs b') →
  (∀ k, slot k ≠ Z.of_nat i → m' !! k = m !! k) →
  table_rep w' (<[i := Some b']> tb) m'.
Proof.
  intros Hr S HT Hi WX WN WL Hb' WX' WN' WL' Hin Hout. pose proof HT as [T1 T2 T3 T4].
  pose proof (lookup_lt_Some _ _ _ Hi) as Hlt.
  assert (∀ j oj, j ≠ i → tb !! j = Some oj →
    o_lists oj ## L ∧ o_ents oj ## N ∧ o_strs oj ## X ∧ apart oj (Some b')) as Hj
    by (intros j oj; by eapply others_apart).
  split.
  - by rewrite length_insert.
  - intros j b Hjb. destruct (decide (j = i)) as [->|Hne].
    + rewrite list_lookup_insert_eq in Hjb by done. by simplify_eq.
    + rewrite list_lookup_insert_ne in Hjb by done. destruct (Hj j _ Hne Hjb) as (?&?&?&_).
      eapply bucket_ok_step; [done|exact S|by apply T2|done..].
  - assert (∀ j oj, j ≠ i → <[i := Some b']> tb !! j = Some oj → tb !! j = Some oj) as Hold
      by (intros j oj Hne; by rewrite list_lookup_insert_ne).
    intros j1 j2 o1 o2 Hne H1 H2. destruct (decide (j1 = i)) as [->|N1].
    + rewrite list_lookup_insert_eq in H1 by done. simplify_eq.
      destruct (Hj j2 o2 ltac:(done) (Hold j2 o2 ltac:(done) H2)) as (_&_&_&?&?&?).
      split; [done|split; done].
    + destruct (decide (j2 = i)) as [->|N2].
      * rewrite list_lookup_insert_eq in H2 by done. simplify_eq. by apply (Hj j1), Hold.
      * eapply (T3 j1 j2); [done|by apply Hold|by apply Hold].
  - intros k v. pose proof (slot_range k). destruct (decide (slot k = Z.of_nat i)) as [Hs|Hs].
    + rewrite (Hin k v Hs), Hs, Nat2Z.id, list_lookup_insert_eq by done.
      split; [eauto|]. intros (b & ? & ?). by simplify_eq.
    + rewrite (Hout k Hs), list_lookup_insert_ne by lia. apply T4.
Qed.
