(* ===== verification/HashFacts.v ===== *)
(** hash.c implements finite maps: specifications of the operations over
    [hash_rep]. *)

From S2P Require Import Prelude Types Machine Wp StringOps StringFacts ListOps HashOps ListRep.
From S2P Require Import ListFacts ListEdit HashRep.

Open Scope Z_scope.

(** The search compares values as well as keys: a key can be looked up when it
    is not the value of a key in the same slot. *)
Definition findable (m : gmap bytes bytes) (k : bytes) : Prop :=
  ∀ k' v, m !! k' = Some v → slot k' = slot k → v ≠ k.

(** * Searching *)

Lemma hash_function_ok w c k E :
  cstr_at w c = Some k →
  wp (hash_function (Some c)) (λ s w', s = slot k ∧ w' = w) E w.
Proof. intros Hc. wp_next. eapply wp_c_str; [done|]. by apply wp_ret. Qed.

(** The first entry whose text is [k]. *)
Lemma bucket_search_ok w l es ss c k E :
  list_rep true w l es ss → cstr_at w c = Some k →
  wp (bucket_search (Some l) (Some c)) (λ p w', w' = w ∧
    match p with
    | None => k ∉ ss
    | Some n => ∃ e1 s e2 s1 s2, es = e1 ++ (n, s) :: e2 ∧ ss = s1 ++ k :: s2 ∧
        k ∉ s1 ∧ length e1 = length s1
    end) E w.
Proof.
  intros Hl Hc. pose proof Hl as [Hh _ _ _ _ _]. wp_next. eapply wp_get_list; [done|]. simpl.
  wp_next. apply wp_get_ents_fuel.
  eapply wp_loop with (n := length es) (I := λ m cur w', ∃ es1 es2,
    es = es1 ++ es2 ∧ m = length es2 ∧ w' = w ∧ cur = hd_ptr es2 None ∧
    k ∉ take (length es1) ss).
  2: { exists [], es. split_and!; try done. by apply not_elem_of_nil. }
  2: { by eapply list_rep_fuel. }
  intros m cur w' (es1 & es2 & -> & -> & -> & -> & Hnot).
  pose proof (list_rep_length _ _ _ _ _ Hl) as Hlen. rewrite length_app in Hlen.
  destruct es2 as [|[n s] es2].
  { apply wp_ret. split; [done|]. by rewrite take_ge in Hnot by (simpl in Hlen; lia). }
  destruct (list_rep_cur _ _ _ _ _ _ _ _ Hl) as (pv & t' & He & Hi & Ht).
  cbn [hd_ptr]. rewrite is_null_some. wp_next. eapply wp_get_ent; [done|]. simpl.
  wp_next. wp_call str_cmp_ok. intros r w' (-> & ->). simpl.
  destruct (Z.eqb_spec (strcmp t' k) 0) as [->%strcmp_eq|Hne].
  - apply wp_ret. split; [done|].
    exists es1, s, es2, (take (length es1) ss), (drop (S (length es1)) ss).
    split_and!; [done|by rewrite take_drop_middle|done|].
    rewrite length_take. simpl in Hlen. lia.
  - apply wp_ret. exists (length es2). split; [lia|]. exists (es1 ++ [(n, s)]), es2.
    rewrite <- app_assoc, length_app. simpl. rewrite Nat.add_1_r.
    split_and!; try done. erewrite take_S_r by done.
    intros [H|H]%elem_of_app; [done|]. apply list_elem_of_singleton in H as ->.
    by rewrite strcmp_eq in Hne.
Qed.

(** Where a key is in its bucket. *)
Record located (b : bucket_t) (k v : bytes) (n s n' s' : loc)
    (e1 e2 : entries) (a1 a2 : list (bytes * bytes)) : Prop := {
  at_ents : b_ents b = e1 ++ (n, s) :: (n', s') :: e2;
  at_kvs : b_kvs b = a1 ++ (k, v) :: a2;
  at_length : length e1 = length (flat a1);
}.

Lemma table_lookup_bucket w tb m k :
  table_rep w tb m → ∃ ob, tb !! Z.to_nat (slot k) = Some ob.
Proof.
  intros [T _ _ _]. pose proof (slot_range k). apply lookup_lt_is_Some_2. lia.
Qed.

Lemma findable_values w tb m k b :
  table_rep w tb m → findable m k → tb !! Z.to_nat (slot k) = Some (Some b) → k ∉ (b_kvs b).*2.
Proof.
  intros T Hf Hb ([k' v] & -> & Hin)%list_elem_of_fmap. pose proof (slot_range v).
  pose proof (bo_slot _ _ _ (tr_bucket _ _ _ T _ _ Hb) k') as Hs. simpl in *.
  assert (slot k' = slot v) as Hk'.
  { rewrite Hs; [lia|]. apply list_elem_of_fmap. by exists (k', v). }
  assert (m !! k' = Some v) as Hm.
  { apply (tr_map _ _ _ T). exists b. by rewrite Hk'. }
  by apply (Hf k' v).
Qed.

Lemma bucket_search_key w tb m k b c E :
  table_rep w tb m → findable m k → tb !! Z.to_nat (slot k) = Some (Some b) →
  cstr_at w c = Some k →
  wp (bucket_search (Some (b_loc b)) (Some c)) (λ p w', w' = w ∧
    match m !! k with
    | None => p = None
    | Some v => ∃ n s n' s' e1 e2 a1 a2, p = Some n ∧ located b k v n s n' s' e1 e2 a1 a2
    end) E w.
Proof.
  intros T Hf Hb Hc. pose proof (findable_values _ _ _ _ _ T Hf Hb) as Hv.
  destruct (tr_bucket _ _ _ T _ _ Hb) as [B1 B2 B3].
  eapply wp_conseq; [by eapply bucket_search_ok|]. intros p w' [-> Hp]. split; [done|].
  destruct p as [n|].
  - destruct Hp as (e1 & s & e2 & s1 & s2 & He & Hs & Hn & Hlen).
    destruct (flat_find _ _ _ _ Hs Hn Hv) as (a1 & v & a2 & Ha & -> & ->).
    pose proof (list_rep_length _ _ _ _ _ B1) as Hl. rewrite He, Hs, !length_app in Hl.
    destruct e2 as [|[n' s'] e2]; [simpl in Hl; lia|].
    assert (m !! k = Some v) as ->.
    { apply (tr_map _ _ _ T). exists b. rewrite Ha. split; [done|]. set_solver. }
    by exists n, s, n', s', e1, e2, a1, a2.
  - destruct (m !! k) as [v|] eqn:Hm; [|done]. exfalso.
    apply (tr_map _ _ _ T) in Hm as (b' & Hb' & Hin). simplify_eq.
    apply Hp, elem_of_flat. left. apply list_elem_of_fmap. by exists (k, v).
Qed.

Lemma wp_bucket_at w tb z k o (Q : ptr → world → Prop) E :
  tb !! Z.to_nat (slot k) = Some o → Q (b_loc <$> o) w →
  wp (bucket_at (mk_hash_t (bucket_ptrs tb) z) (slot k)) Q E w.
Proof.
  intros Hb HQ. unfold bucket_at, bucket_ptrs. simpl. by rewrite list_lookup_fmap, Hb.
Qed.

Lemma hash_entry_search_ok w h tb m c k E :
  hash_rep w h tb m → findable m k → cstr_at w c = Some k →
  wp (hash_entry_search (Some h) (Some c)) (λ '(rc, bp, ep) w', w' = w ∧
    match m !! k with
    | None => rc = -1
    | Some v => ∃ b n s n' s' e1 e2 a1 a2, rc = 0 ∧ bp = Some (b_loc b) ∧ ep = Some n ∧
        tb !! Z.to_nat (slot k) = Some (Some b) ∧ located b k v n s n' s' e1 e2 a1 a2
    end) E w.
Proof.
  intros [Hh T] Hf Hc. wp_next. wp_call hash_function_ok. intros z w' (-> & ->).
  wp_next. eapply wp_get_hash; [done|].
  destruct (table_lookup_bucket _ _ _ k T) as [[b|] Hb]; wp_next; (eapply wp_bucket_at; [done|]).
  - cbn [fmap option_fmap option_map]. rewrite is_null_some.
    wp_next. wp_call bucket_search_key. intros p w' (-> & Hp).
    destruct (m !! k) as [v|].
    + destruct Hp as (n & s & n' & s' & e1 & e2 & a1 & a2 & -> & Hloc).
      rewrite is_null_some. apply wp_ret. split; [done|].
      by exists b, n, s, n', s', e1, e2, a1, a2.
    + subst p. by apply wp_ret.
  - apply wp_ret. split; [done|]. destruct (m !! k) as [v|] eqn:Hm; [|done].
    apply (tr_map _ _ _ T) in Hm as (b & Hb' & _). simplify_eq.
Qed.

(** The two entries of a key and what they hold. *)
Lemma located_entries w i b k v n s n' s' e1 e2 a1 a2 :
  bucket_ok w i b → located b k v n s n' s' e1 e2 a1 a2 →
  ∃ pv pv', ents w !! n = Some (mk_list_entry_t (Some s) (Some n') pv) ∧
    ents w !! n' = Some (mk_list_entry_t (Some s') (hd_ptr e2 None) pv') ∧
    str_rep w s k ∧ str_rep w s' v.
Proof.
  intros [B1 _ _] [Le Lk Ll]. rewrite Le, Lk, flat_app in B1.
  destruct (list_rep_cur _ _ _ _ _ _ _ _ B1) as (pv & t & Hn & Ht & Hs).
  rewrite lookup_app_r, Ll, Nat.sub_diag in Ht by lia. simplify_eq/=.
  change (e1 ++ (n, s) :: (n', s') :: e2) with (e1 ++ [(n, s)] ++ (n', s') :: e2) in B1.
  rewrite app_assoc in B1.
  destruct (list_rep_cur _ _ _ _ _ _ _ _ B1) as (pv' & t' & Hn' & Ht' & Hs').
  rewrite length_app, Ll, lookup_app_r in Ht' by lia. simpl in Ht'.
  replace (length (flat a1) + 1 - length (flat a1))%nat with 1%nat in Ht' by lia.
  simplify_eq/=. by exists pv, pv'.
Qed.

(** * Reading *)

Lemma hash_get_ok w h tb m c k q bs v E :
  ready w → hash_rep w h tb m → findable m k → cstr_at w c = Some k →
  str_rep w q bs → q ∉ tb_strs tb → m !! k = Some v →
  wp (hash_get (Some q) (Some h) (Some c))
    (λ r w', r = 0 ∧ str_rep w' q v ∧ sstep {[q]} w w') E w.
Proof.
  intros Hr HR Hf Hc Hq Hqs Hv. apply wp_func_body. wp_next.
  wp_call hash_entry_search_ok. rewrite Hv. intros [[rc bp] ep] w' (-> & H).
  destruct H as (b & n & s & n' & s' & e1 & e2 & a1 & a2 & -> & -> & -> & Hb & Hloc).
  pose proof HR as [_ T].
  destruct (located_entries _ _ _ _ _ _ _ _ _ _ _ _ _ (tr_bucket _ _ _ T _ _ Hb) Hloc)
    as (pv & pv' & Hn & Hn' & Hs & Hs'). simpl.
  wp_next. eapply wp_get_ent; [done|]. simpl. wp_next. eapply wp_get_ent; [done|]. simpl.
  wp_try_call str_copy_ok.
  - intros <-. apply Hqs. eapply all_of_lookup; [exact Hb|]. simpl.
    rewrite (at_ents _ _ _ _ _ _ _ _ _ _ _ Hloc). rewrite str_locs_app, !str_locs_cons. clear. set_solver.
  - intros r w' (-> & ? & ?). done.
Qed.

Lemma hash_get_missing w h tb m c k q E :
  hash_rep w h tb m → findable m k → cstr_at w c = Some k → m !! k = None →
  wp (hash_get (Some q) (Some h) (Some c)) (λ r w', r = -1 ∧ w' = w) E w.
Proof.
  intros HR Hf Hc Hv. apply wp_func_body. wp_next. wp_call hash_entry_search_ok.
  rewrite Hv. intros [[rc bp] ep] w' (-> & ->). simpl. by apply wp_leave.
Qed.

(** * Writing *)

Lemma bucket_ptrs_insert i o tb : bucket_ptrs (<[i := o]> tb) = <[i := b_loc <$> o]> (bucket_ptrs tb).
Proof. apply list_fmap_insert. Qed.

Lemma all_of_insert_within w f tb i o o' :
  tb !! i = Some o → within w (f o') (f o) → within w (all_of f (<[i := o']> tb)) (all_of f tb).
Proof.
  intros Hi Hw x (j & oj & Hj & Hx)%elem_of_all_of.
  destruct (decide (j = i)) as [->|Hne].
  - rewrite list_lookup_insert_eq in Hj by (by eapply lookup_lt_Some). simplify_eq.
    destruct (Hw x Hx) as [Hx'|]; [left|by right]. by eapply all_of_lookup.
  - rewrite list_lookup_insert_ne in Hj by done. left. by eapply all_of_lookup.
Qed.

(** The state of a table after an operation that started with [tb], and may
    also have modified the strings of [X]. *)
Record hash_after (X : gset loc) (w w' : world) (h : loc) (tb : table)
    (m' : gmap bytes bytes) : Prop := {
  ha_step : hstep (X ∪ tb_strs tb) (tb_ents tb) (tb_lists tb) {[h]} w w';
  ha_rep : ∃ tb', hash_rep w' h tb' m' ∧ within w (tb_strs tb') (tb_strs tb) ∧
    within w (tb_ents tb') (tb_ents tb) ∧ within w (tb_lists tb') (tb_lists tb);
}.

Lemma within_trans w1 w2 X Y Z :
  (next_loc w1 ≤ next_loc w2)%positive → within w2 X Y → within w1 Y Z → within w1 X Z.
Proof.
  intros Hle H1 H2 x Hx. destruct (H1 x Hx) as [Hy|]; [by apply H2|right; lia].
Qed.

(** Steps before and after the operation. *)
Lemma hash_after_pre X X1 X2 N L w w1 w2 h tb tb1 m' :
  ready w → hstep X1 N L {[h]} w w1 →
  within w X1 (X ∪ tb_strs tb) → within w N (tb_ents tb) → within w L (tb_lists tb) →
  within w (tb_strs tb1) (tb_strs tb) → within w (tb_ents tb1) (tb_ents tb) →
  within w (tb_lists tb1) (tb_lists tb) → within w X2 (X ∪ tb_strs tb) →
  hash_after X2 w1 w2 h tb1 m' → hash_after X w w2 h tb m'.
Proof.
  intros Hr S1 W1 W2 W3 W4 W5 W6 W7 [S2 (tb' & HR & V1 & V2 & V3)].
  pose proof (hstep_next _ _ _ _ _ _ S1). split.
  - eapply hstep_trans; [done| |exact S2|..].
    + eapply hstep_trans; [done|by apply hstep_refl|exact S1|done..|by apply within_sub].
    + apply within_union; [done|]. intros x Hx. destruct (W4 x Hx); [left; set_solver|by right].
    + done.
    + done.
    + by apply within_sub.
  - exists tb'. split; [done|]. split_and!; by eapply within_trans.
Qed.

Lemma hash_rep_lstep X N L w w' h tb m :
  ready w → lstep X N L w w' → hash_rep w h tb m →
  tb_lists tb ## L → tb_ents tb ## N → tb_strs tb ## X → hash_rep w' h tb m.
Proof.
  intros Hr S [Hh T] HL HN HX. split.
  - destruct S as (_ & _ & [_ _ -> _ _]). done.
  - eapply table_rep_step; [done|by apply (lstep_hstep _ _ _ ∅)|done..].
Qed.

Lemma hash_after_post X w w1 w2 h tb m' l :
  ready w → hash_after X w w1 h tb m' → (l < next_loc w)%positive → l ∉ tb_strs tb → l ∈ X →
  lstep {[l]} ∅ ∅ w1 w2 → hash_after X w w2 h tb m'.
Proof.
  intros Hr [S1 (tb' & HR & V1 & V2 & V3)] Hl Hn Hin S2. split.
  - eapply hstep_trans; [done|exact S1|by apply (lstep_hstep _ _ _ ∅)|..];
      apply within_sub; set_solver.
  - exists tb'. split_and!; [|done..]. pose proof (hstep_ready _ _ _ _ _ _ S1).
    eapply hash_rep_lstep; [done|exact S2|done|set_solver|set_solver|].
    intros x Hx ->%elem_of_singleton. destruct (V1 l Hx); [done|lia].
Qed.

Lemma hash_rep_lt w h tb m : ready w → hash_rep w h tb m → (h < next_loc w)%positive.
Proof.
  intros [Hwf _] [Hh _]. destruct (decide (next_loc w ≤ h)%positive) as [Hle|]; [|lia].
  by rewrite (wf_hashes w Hwf h Hle) in Hh.
Qed.

(** The first part of [hash_set]: the bucket of the key exists after it. *)
Lemma wp_ensure_bucket w h tb m k rest (Q : unit → world → Prop) E :
  ready w → hash_rep w h tb m →
  (∀ w1 tb1 b, hstep ∅ ∅ ∅ {[h]} w w1 → hash_rep w1 h tb1 m →
     tb1 !! Z.to_nat (slot k) = Some (Some b) → within w (tb_strs tb1) (tb_strs tb) →
     within w (tb_ents tb1) (tb_ents tb) → within w (tb_lists tb1) (tb_lists tb) →
     wp rest Q E w1) →
  wp (hd ← get_hash (Some h);
      b ← bucket_at hd (slot k);
      when (is_null b) (
        '(rc, b') ← list_new b;
        set_bucket (Some h) (slot k) b';;
        when (negb (rc =? 0)) (throw ""));;
      rest) Q E w.
Proof.
  intros Hr [Hh T] Hrest. wp_next. eapply wp_get_hash; [done|].
  destruct (table_lookup_bucket _ _ _ k T) as [[b|] Hb]; wp_next; (eapply wp_bucket_at; [done|]);
    cbn [fmap option_fmap option_map].
  { rewrite is_null_some. wp_next. apply wp_when; [done|intros _].
    eapply (Hrest w tb b); [by apply hstep_refl|by split|done|by apply within_sub..]. }
  wp_next. apply wp_when; [intros _|done]. wp_next. wp_call list_new_ok.
  intros [rc p] w1 (-> & l & -> & Hle & Hl & S1). wp_next.
  pose proof (lstep_hstep _ _ _ ∅ _ _ S1) as S1'.
  assert (hashes w1 !! h = Some (mk_hash_t (bucket_ptrs tb) (Z.of_nat (size m)))) as Hh1
    by (destruct S1 as (_ & _ & [_ _ -> _ _]); done).
  eapply wp_mod_hash; [ready|done|]. intros w2 H2 S2 L2. cbn.
  assert (hstep ∅ ∅ ∅ {[h]} w w2) as S
    by (eapply hstep_trans; [done|eapply hstep_trans; [done|by apply hstep_refl|exact S1'|..]|exact S2|..]; within_tac).
  set (b' := Bucket l [] []). set (i := Z.to_nat (slot k)) in *.
  assert (Z.of_nat i = slot k) as Hi by (pose proof (slot_range k); unfold i; lia).
  eapply (Hrest w2 (<[i := Some b']> tb) b'); [done|..].
  - split; [by rewrite H2, lookup_insert_eq, bucket_ptrs_insert|].
    eapply (table_rep_update ∅ ∅ ∅ {[h]} w w2 tb m m i None b');
      [done|exact S|done|done|within_tac..| |within_tac|within_tac| | |done].
    + split; [by apply L2|constructor|]. intros k' Hk'. by apply elem_of_nil in Hk'.
    + simpl. within_tac.
    + intros k' v Hk'. split; [|intros Hin; by apply elem_of_nil in Hin].
      intros (b0 & Hb0 & _)%(tr_map _ _ _ T). rewrite Hk', Nat2Z.id in Hb0. by simplify_eq.
  - rewrite list_lookup_insert_eq; [done|]. by eapply lookup_lt_Some.
  - eapply all_of_insert_within; [done|]. within_tac.
  - eapply all_of_insert_within; [done|]. within_tac.
  - eapply all_of_insert_within; [done|]. simpl. within_tac.
Qed.

(** A string of a list gets another text. *)
Lemma list_rep_set_text k w w' l e1 n s e2 s1 v s2 t :
  ready w → list_rep k w l (e1 ++ (n, s) :: e2) (s1 ++ v :: s2) → length e1 = length s1 →
  sstep {[s]} w w' → str_rep w' s t → list_rep k w' l (e1 ++ (n, s) :: e2) (s1 ++ t :: s2).
Proof.
  intros Hr [Hh Hs Hn Hns Ht Hb] Hlen S Hst. pose proof S as (_ & _ & [He Hl _ _ _]).
  split; [by rewrite Hl| |done|done| |done].
  - eapply seg_ext; [|exact Hs]. intros x _. by rewrite He.
  - apply Forall2_app_inv in Ht as [Ht1 Ht2]; [|done].
    inversion Ht2 as [|? ? ? ? Hv Ht2']; subst.
    destruct (nodup_mid_str _ _ _ _ Hns) as (_ & N1 & N2).
    apply (sstep_lstep {[s]} ∅ ∅) in S.
    assert (s ∉ str_locs e1 ∧ s ∉ str_locs e2) as [D1 D2] by (by rewrite !elem_of_str_locs).
    apply Forall2_app; [|constructor; [done|]]; (eapply texts_mono; [done|exact S|set_solver|done]).
Qed.

(** No other pair of a bucket has the key. *)
Lemma kvs_once (k v : bytes) a1 a2 x : NoDup (a1 ++ (k, v) :: a2).*1 → (k, x) ∉ a1 ++ a2.
Proof.
  rewrite fmap_app. intros (_ & B1 & B2)%NoDup_app Hx. simpl in *.
  apply NoDup_cons in B2 as [B2 _]. apply elem_of_app in Hx as [Hx|Hx].
  - apply (B1 k); [by apply list_elem_of_fmap; exists (k, x)|by left].
  - apply B2. apply list_elem_of_fmap. by exists (k, x).
Qed.

Lemma lookup_insert_slot (m : gmap bytes bytes) k t k' :
  slot k' ≠ slot k → <[k := t]> m !! k' = m !! k'.
Proof. intros Hne. apply lookup_insert_ne. by intros ->. Qed.

Section set.
Context (w w' : world) (h : loc) (tb : table) (m : gmap bytes bytes) (k t : bytes) (b : bucket_t).
Hypothesis Hr : ready w.
Hypothesis HR : hash_rep w h tb m.
Hypothesis Hb : tb !! Z.to_nat (slot k) = Some (Some b).

Let i := Z.to_nat (slot k).
Let HT : table_rep w tb m := hr_table _ _ _ _ HR.
Let HB : bucket_ok w i b := tr_bucket _ _ _ HT _ _ Hb.

Lemma slot_nat : Z.of_nat i = slot k.
Proof. pose proof (slot_range k). unfold i. lia. Qed.

(** The pairs of a bucket are those of the map. *)
Lemma bucket_map k' v : slot k' = slot k → m !! k' = Some v ↔ (k', v) ∈ b_kvs b.
Proof.
  intros Hs. rewrite (tr_map _ _ _ HT k' v), Hs, Hb. split; [|eauto].
  intros (b0 & ? & ?). by simplify_eq.
Qed.

(** The bucket with another value for the key. *)
Lemma bucket_set_value v n s n' s' e1 e2 a1 a2 :
  located b k v n s n' s' e1 e2 a1 a2 → sstep {[s']} w w' → str_rep w' s' t →
  bucket_ok w' i (Bucket (b_loc b) (b_ents b) (a1 ++ (k, t) :: a2)).
Proof.
  intros [Le Lk Ll] S Hst. pose proof HB as [B1 B2 B3]. split; simpl.
  - rewrite Le, Lk, flat_app in *. simpl in *.
    change (e1 ++ (n, s) :: (n', s') :: e2) with (e1 ++ [(n, s)] ++ (n', s') :: e2) in *.
    change (flat a1 ++ k :: t :: flat a2) with (flat a1 ++ [k] ++ t :: flat a2) in *.
    change (flat a1 ++ k :: v :: flat a2) with (flat a1 ++ [k] ++ v :: flat a2) in *.
    rewrite !app_assoc in *. eapply list_rep_set_text; [done|exact B1| |done|done].
    rewrite !length_app. simpl. lia.
  - rewrite Lk, !fmap_app in B2. by rewrite !fmap_app.
  - rewrite Lk, fmap_app in B3. intros k'. rewrite fmap_app. apply B3.
Qed.

(** The value of a key that is there is replaced. *)
Lemma set_existing v n s n' s' e1 e2 a1 a2 :
  located b k v n s n' s' e1 e2 a1 a2 → sstep {[s']} w w' → str_rep w' s' t →
  hash_after ∅ w w' h tb (<[k := t]> m).
Proof.
  intros Hloc S Hst. pose proof Hloc as [Le Lk Ll]. pose proof HB as [B1 B2 B3].
  assert (lstep {[s']} ∅ ∅ w w') as S' by (by apply sstep_lstep).
  assert (str_locs (b_ents b) ⊆ tb_strs tb) as Hsub by exact (all_of_lookup o_strs tb _ _ Hb).
  assert (s' ∈ str_locs (b_ents b)) as Hin.
  { rewrite Le, str_locs_app, !str_locs_cons. clear. set_solver. }
  assert (m !! k = Some v) as Hm by (apply bucket_map; [done|]; rewrite Lk; set_solver).
  split; [eapply hstep_trans; [done|by apply hstep_refl|apply (lstep_hstep _ _ _ ∅), S'|..];
    apply within_sub; set_solver|].
  set (b' := Bucket (b_loc b) (b_ents b) (a1 ++ (k, t) :: a2)).
  exists (<[i := Some b']> tb). split; [|split_and!;
    (eapply all_of_insert_within; [exact Hb|by apply within_sub])].
  split.
  - destruct S as (_ & _ & [_ _ -> _ _]). rewrite (hr_hash _ _ _ _ HR), bucket_ptrs_insert.
    rewrite map_size_insert, Hm. simpl. rewrite list_insert_id; [done|].
    unfold bucket_ptrs. rewrite list_lookup_fmap. unfold i. by rewrite Hb.
  - eapply (table_rep_update {[s']} ∅ ∅ ∅ w w' tb m _ i (Some b) b');
      [done|by apply lstep_hstep|done|done|apply within_sub; simpl; set_solver|
       within_tac|within_tac| |by apply within_sub|by apply within_sub|by apply within_sub| |].
    + by eapply bucket_set_value.
    + intros k' u Hk'. rewrite slot_nat in Hk'. simpl.
      assert (∀ x, (k, x) ∉ a1 ++ a2) as Hno by (intros x; apply (kvs_once k v); by rewrite <- Lk).
      destruct (decide (k' = k)) as [->|Hne].
      * rewrite lookup_insert_eq. specialize (Hno u). set_solver.
      * rewrite lookup_insert_ne by done. rewrite (bucket_map k' u Hk'), Lk. set_solver.
    + intros k' Hk'. apply lookup_insert_slot. by rewrite <- slot_nat.
Qed.

(** A new pair at the end of the bucket. *)
Lemma set_new n s n' s' :
  m !! k = None → hstep ∅ (ent_locs (b_ents b)) {[b_loc b]} {[h]} w w' →
  hashes w' !! h = Some (mk_hash_t (bucket_ptrs tb) (Z.of_nat (size m) + 1)) →
  (next_loc w ≤ n)%positive → (next_loc w ≤ s)%positive →
  (next_loc w ≤ n')%positive → (next_loc w ≤ s')%positive →
  list_rep true w' (b_loc b) (b_ents b ++ [(n, s); (n', s')]) (flat (b_kvs b) ++ [k; t]) →
  hash_after ∅ w w' h tb (<[k := t]> m).
Proof.
  intros Hm S Hh Hn Hs Hn' Hs' Hl. pose proof HB as [B1 B2 B3].
  assert (k ∉ (b_kvs b).*1) as Hk.
  { intros ([k0 v] & Heq & Hin)%list_elem_of_fmap. simpl in Heq. subst k0.
    apply bucket_map in Hin; [|done]. by rewrite Hm in Hin. }
  set (b' := Bucket (b_loc b) (b_ents b ++ [(n, s); (n', s')]) (b_kvs b ++ [(k, t)])).
  split.
  { eapply hstep_trans; [done|by apply hstep_refl|exact S|within_tac| | |within_tac];
      apply within_sub.
    - exact (all_of_lookup o_ents tb _ _ Hb).
    - exact (all_of_lookup o_lists tb _ _ Hb). }
  exists (<[i := Some b']> tb).
  assert (within w (o_strs (Some b')) (o_strs (Some b))) as W1
    by (simpl; rewrite str_locs_app, !str_locs_cons; within_tac).
  assert (within w (o_ents (Some b')) (o_ents (Some b))) as W2
    by (simpl; rewrite ent_locs_app, !ent_locs_cons; within_tac).
  split; [split|split_and!; (eapply all_of_insert_within; [exact Hb|done || within_tac])].
  - rewrite Hh, bucket_ptrs_insert, map_size_insert, Hm. simpl. rewrite list_insert_id.
    + do 2 f_equal. lia.
    + unfold bucket_ptrs. rewrite list_lookup_fmap. unfold i. by rewrite Hb.
  - eapply (table_rep_update ∅ _ _ {[h]} w w' tb m _ i (Some b) b');
      [done|exact S|done|done|within_tac|within_tac|within_tac| |done|done|within_tac| |].
    + split; simpl.
      * by rewrite flat_app.
      * rewrite fmap_app. apply NoDup_app. split_and!; [done| |by apply NoDup_singleton].
        intros x Hx. by intros ->%list_elem_of_singleton.
      * intros k'. rewrite fmap_app. intros [Hin|Hin]%elem_of_app; [by apply B3|].
        apply list_elem_of_singleton in Hin as ->. symmetry. apply slot_nat.
    + intros k' u Hk'. rewrite slot_nat in Hk'. simpl.
      rewrite elem_of_app, list_elem_of_singleton. destruct (decide (k' = k)) as [->|Hne].
      * rewrite lookup_insert_eq. rewrite <- bucket_map, Hm by done. naive_solver.
      * rewrite lookup_insert_ne by done. rewrite (bucket_map k' u Hk'). naive_solver.
    + intros k' Hk'. apply lookup_insert_slot. by rewrite <- slot_nat.
Qed.

End set.

(** A string that does not own its text may be assigned. *)
Lemma sstep_unowned w l s0 s1 :
  ready w → strs w !! l = Some s0 → str_owner s1 = false → sstep {[l]} w (upd_strs <[l := s1]> w).
Proof.
  intros [[] Ho] Hl Hs.
  assert (∀ p b, owns (upd_strs <[l := s1]> w) p b → owns w p b) as Hown.
  { intros p b (s & o & Hp & Hos & Hv). simpl in Hp. destruct (decide (p = l)) as [->|Hne].
    - rewrite lookup_insert_eq in Hp. simplify_eq. by rewrite Hs in Hos.
    - rewrite lookup_insert_ne in Hp by done. by exists s, o. }
  split; [|split; [|done]].
  - split; [|done]. split; simpl; try done.
    + intros p Hp. destruct (decide (p = l)) as [->|Hne]; [by rewrite wf_strs in Hl|].
      rewrite lookup_insert_ne; auto.
    + intros p1 p2 b H1 H2. eapply wf_own; by apply Hown.
    + intros p b H1. by eapply wf_own_bound, Hown.
  - split; simpl; [lia| |done|intros p b Hb; left; by apply Hown].
    intros p _ Hp. apply lookup_insert_ne. set_solver.
Qed.

Lemma wp_set_unowned w l s0 f (Q : unit → world → Prop) E :
  ready w → strs w !! l = Some s0 → str_owner (f s0) = false →
  (∀ w', strs w' !! l = Some (f s0) → sstep {[l]} w w' → Q tt w') →
  wp (mod_str (Some l) f) Q E w.
Proof.
  intros Hr Hl Ho HQ. eapply wp_set_obj; [done|]. apply HQ.
  - apply lookup_insert_eq.
  - by eapply sstep_unowned.
Qed.

Lemma str_alias_ok w l s0 c k E :
  ready w → strs w !! l = Some s0 → readable w {[l]} c k → Z.of_nat (length k) < STRING_MAX →
  wp (str_alias (Some l) (Some c)) (λ r w', r = 0 ∧
    strs w' !! l =
      Some (mk_string_t (Some c) (Z.of_nat (length k) + 1) (Z.of_nat (length k)) false) ∧
    sstep {[l]} w w') E w.
Proof.
  intros Hr Hl Hc Hk. apply wp_func_body.
  wp_next. eapply wp_set_unowned; [done|done|done|]. intros w1 H1 S1.
  wp_next. eapply wp_set_unowned; [ready|done|done|]. intros w2 H2 S2.
  assert (readable w1 {[l]} c k) as Hc1
    by (eapply readable_step; [done|by apply (sstep_lstep _ ∅ ∅)|done|within_tac]).
  assert (readable w2 {[l]} c k) as [Hc2 _]
    by (eapply (readable_step {[l]} ∅ ∅ w1 w2); [ready|by apply sstep_lstep|done|within_tac]).
  wp_next. wp_call cbuf_len_ok. intros [r n] w3 (-> & -> & ->). simpl.
  wp_next. eapply (wp_set_unowned w2); [ready|done|done|]. intros w3 H3 S3.
  wp_next. apply wp_ret. eapply (wp_set_unowned w3); [ready|done|done|]. intros w4 H4 S4.
  split; [done|]. split; [done|].
  eapply sstep_trans; [exact S1|]. eapply sstep_trans; [exact S2|].
  eapply sstep_trans; [exact S3|exact S4].
Qed.

Lemma bucket_size w tb m b k :
  table_rep w tb m → tb !! Z.to_nat (slot k) = Some (Some b) → (length (b_kvs b) ≤ size m)%nat.
Proof.
  intros T Hb. destruct (tr_bucket _ _ _ T _ _ Hb) as [_ Hnd Hslot].
  rewrite <- (length_fmap fst), <- (size_list_to_set (C := gset bytes) _ Hnd), <- size_dom.
  apply subseteq_size. intros k' Hk'%elem_of_list_to_set. apply elem_of_dom.
  pose proof (Hslot k' Hk') as Hs. apply list_elem_of_fmap in Hk' as ([k0 v] & -> & Hin).
  exists v. apply (tr_map _ _ _ T). exists b. simpl in *. rewrite Hs, Nat2Z.id. done.
Qed.

Lemma flat_length kvs : length (flat kvs) = (2 * length kvs)%nat.
Proof. induction kvs as [|[] kvs IH]; simpl; lia. Qed.

Section set_spec.
Context (h q l : loc) (c : cptr) (k t : bytes) (m : gmap bytes bytes).
Hypothesis Hf : findable m k.
Hypothesis Hk : Z.of_nat (length k) < STRING_MAX.
Hypothesis Hsize : Z.of_nat (size m) < 2 ^ 31 - 1.

(** The branch of [hash_set] that adds a pair. *)
Lemma hash_add_ok w tb b s0 E :
  ready w → hash_rep w h tb m → tb !! Z.to_nat (slot k) = Some (Some b) → m !! k = None →
  strs w !! l = Some s0 → l ∉ tb_strs tb → readable w {[l]} c k → str_rep w q t → q ≠ l →
  wp (try_ (str_alias (Some l) (Some c));;
      try_ (list_push (Some (b_loc b)) (Some l));;
      rc ← list_push (Some (b_loc b)) (Some q);
      when (rc <? 0) (
        l ← get_list (Some (b_loc b));
        try_ (list_entry_delete (Some (b_loc b)) (list_tail l));;
        throw "error inserting a new entry into the hash table");;
      mod_hash (Some h) (λ h, mk_hash_t (hash_bucket h) (size_t (hash_count h + 1))))
    (λ _ w', hash_after {[l]} w w' h tb (<[k := t]> m)) E w.
Proof.
  intros Hr HR Hb Hm Hl Hln Hc Hq Hql. wp_next. wp_try_call str_alias_ok.
  intros r w1 (-> & Hl1 & S1). apply (sstep_lstep _ ∅ ∅) in S1.
  assert (hash_rep w1 h tb m) as HR1 by (eapply hash_rep_lstep; [done|exact S1|done|set_solver..]).
  assert (readable w1 ∅ c k) as [Hc1 Hn1] by (eapply readable_step; [done|exact S1|done|within_tac]).
  assert (str_rep w1 q t) as Hq1 by (eapply lstep_rep; [done|exact S1|set_solver|done]).
  pose proof (hr_table _ _ _ _ HR1) as T1. pose proof (tr_bucket _ _ _ T1 _ _ Hb) as [B1 B2 B3].
  pose proof (bucket_size _ _ _ _ _ T1 Hb) as Hlen. pose proof (list_rep_length _ _ _ _ _ B1) as Hlen'.
  rewrite flat_length in Hlen'. cbn.
  assert (str_view w1 ∅ l k) as Hv.
  { exists c, (Z.of_nat (length k) + 1), false. split_and!; [done|done|done|lia|lia]. }
  wp_next. wp_try_call (list_push_view true w1); [ready|lia|].
  intros r w2 (-> & n & s & Hn & Hs & L2 & S2). cbn.
  assert (str_rep w2 q t) as Hq2 by (eapply (lstep_rep _ _ _ w1 w2); [ready|exact S2|set_solver|done]).
  wp_next. wp_call (list_push_ok true w2); [ready|rewrite length_app; simpl; lia|].
  intros r w3 (-> & n' & s' & Hn' & Hs' & L3 & S3). cbn.
  pose proof (lstep_next _ _ _ _ _ S2). rewrite <- !app_assoc in L3.
  assert (lstep ∅ (ent_locs (b_ents b)) {[b_loc b]} w1 w3) as S13.
  { eapply (lstep_trans _ _ _ ∅ (ent_locs (b_ents b ++ [(n, s)])) {[b_loc b]} w1 w2 w3);
      [ready|exact S2|exact S3|within_tac| |within_tac].
    rewrite ent_locs_app, ent_locs_cons. within_tac. }
  assert (hashes w3 !! h = Some (mk_hash_t (bucket_ptrs tb) (Z.of_nat (size m)))) as Hh3
    by (destruct S13 as (_ & _ & [_ _ -> _ _]); apply HR1).
  eapply wp_mod_hash; [ready|done|]. intros w4 H4 S4 L4. cbn in H4.
  eapply (hash_after_pre {[l]} {[l]} ∅ ∅ ∅ w w1 w4 h tb tb);
    [done|by apply lstep_hstep|within_tac..|].
  apply (set_new w1 w4 h tb m k t b ltac:(ready) HR1 Hb n s n' s'); [done| | |done|done|lia|lia|by apply L4].
  - eapply (hstep_trans _ _ _ _ _ _ _ _ w1 w3); [ready|by apply lstep_hstep|exact S4|within_tac..].
  - rewrite H4, lookup_insert_eq. do 2 f_equal. unfold size_t. apply Z.mod_small. lia.
Qed.

(** The part of [hash_set] after its bucket exists. *)
Lemma hash_put_ok w tb b s0 :
  ready w → hash_rep w h tb m → tb !! Z.to_nat (slot k) = Some (Some b) →
  strs w !! l = Some s0 → l ∉ tb_strs tb → readable w {[l]} c k → str_rep w q t → q ≠ l →
  q ∉ tb_strs tb →
  wp (cur ← bucket_search (Some (b_loc b)) (Some c);
      if negb (is_null cur) then
        e ← get_ent cur;
        v ← get_ent (ent_next e);
        try_ (str_copy (ent_value v) (Some q));;
        return_ 0
      else
        try_ (str_alias (Some l) (Some c));;
        try_ (list_push (Some (b_loc b)) (Some l));;
        rc ← list_push (Some (b_loc b)) (Some q);
        when (rc <? 0) (
          l ← get_list (Some (b_loc b));
          try_ (list_entry_delete (Some (b_loc b)) (list_tail l));;
          throw "error inserting a new entry into the hash table");;
        mod_hash (Some h) (λ h, mk_hash_t (hash_bucket h) (size_t (hash_count h + 1))))
    (λ _ w', hash_after {[l]} w w' h tb (<[k := t]> m))
    (λ x w', x = Finally 0 ∧ hash_after {[l]} w w' h tb (<[k := t]> m)) w.
Proof.
  intros Hr HR Hb Hl Hln Hc Hq Hql Hqs. pose proof (hr_table _ _ _ _ HR) as T.
  wp_next. wp_call bucket_search_key; [apply Hc|]. intros p w' (-> & Hp).
  destruct (m !! k) as [v|] eqn:Hm.
  - destruct Hp as (n & s & n' & s' & e1 & e2 & a1 & a2 & -> & Hloc). rewrite is_null_some.
    destruct (located_entries _ _ _ _ _ _ _ _ _ _ _ _ _ (tr_bucket _ _ _ T _ _ Hb) Hloc)
      as (pv & pv' & Hn & Hn' & Hs & Hs'). simpl.
    wp_next. eapply wp_get_ent; [done|]. simpl. wp_next. eapply wp_get_ent; [done|]. simpl.
    wp_next. wp_try_call str_copy_ok.
    { intros ->. apply Hqs. apply (all_of_lookup o_strs tb _ _ Hb). simpl.
      rewrite (at_ents _ _ _ _ _ _ _ _ _ _ _ Hloc), str_locs_app, !str_locs_cons. set_solver. }
    intros r w1 (-> & Hs1 & S1). cbn. split; [done|].
    eapply (hash_after_pre {[l]} ∅ ∅ ∅ ∅ w w w1); [done|by apply hstep_refl|within_tac..|].
    by eapply set_existing.
  - subst p. simpl. by eapply hash_add_ok.
Qed.

End set_spec.

Lemma all_of_lt w tb m :
  ready w → table_rep w tb m → ∀ x, x ∈ tb_strs tb → (x < next_loc w)%positive.
Proof.
  intros Hr T x (i & o & Hi & Hx)%elem_of_all_of. destruct o as [b|]; [|by apply elem_of_empty in Hx].
  by apply (bucket_bounds w i b Hr (tr_bucket _ _ _ T _ _ Hi)).
Qed.

Lemma readable_hstep X N L H w w' Y c t :
  ready w → hstep X N L H w w' → readable w X c t → within w Y X → readable w' Y c t.
Proof.
  intros Hr (_ & S & _) Hc HY. exact (readable_step X N L w _ Y c t Hr S Hc HY).
Qed.

Lemma hash_set_ok w h tb m c k q t E :
  ready w → hash_rep w h tb m → findable m k → readable w ∅ c k →
  Z.of_nat (length k) < STRING_MAX → str_rep w q t → q ∉ tb_strs tb →
  Z.of_nat (size m) < 2 ^ 31 - 1 →
  wp (hash_set (Some h) (Some c) (Some q))
    (λ r w', r = 0 ∧ hash_after ∅ w w' h tb (<[k := t]> m)) E w.
Proof.
  intros Hr HR Hf Hc Hk Hq Hqs Hsize. apply wp_func, wp_local_str; [done|].
  intros l w1 Hle Hl S1 Hl1. pose proof (str_rep_lt _ _ _ (proj1 Hr) Hq) as Hqlt.
  pose proof (all_of_lt _ _ _ Hr (hr_table _ _ _ _ HR)) as Hlt.
  assert (l ∉ tb_strs tb) as Hln by (intros Hin%Hlt; lia).
  assert (hash_rep w1 h tb m) as HR1 by (eapply hash_rep_lstep; [done|exact S1|done|set_solver..]).
  assert (readable w1 {[l]} c k) as Hc1 by (eapply readable_step; [done|exact S1|done|within_tac]).
  assert (str_rep w1 q t) as Hq1 by (eapply lstep_rep; [done|exact S1|set_solver|done]).
  apply (wp_conseq _ (λ r w2, r = 0 ∧ hash_after {[l]} w1 w2 h tb (<[k := t]> m))).
  - apply wp_body. wp_next. wp_call hash_function_ok; [apply Hc1|]. intros z w2 (-> & ->).
    eapply wp_ensure_bucket; [ready|done|].
    intros w2 tb2 b S2 HR2 Hb2 V1 V2 V3.
    assert (l ∉ tb_strs tb2) as Hln2 by (intros Hin%V1; destruct Hin; [done|lia]).
    assert (q ∉ tb_strs tb2) as Hqs2.
    { intros Hin%V1. pose proof (lstep_next _ _ _ _ _ S1). destruct Hin; [done|lia]. }
    pose proof (hstep_next _ _ _ _ _ _ S2).
    assert (hstep {[l]} ∅ ∅ {[h]} w1 w2) as S2'
      by (eapply hstep_trans; [ready|apply hstep_refl; ready|exact S2|within_tac..]).
    assert (readable w2 {[l]} c k) as Hc2
      by (eapply (readable_hstep _ _ _ _ w1 w2); [ready|exact S2'|done|within_tac]).
    assert (str_rep w2 q t) as Hq2 by (eapply (hstep_rep _ _ _ _ w1 w2); [ready|exact S2|set_solver|done]).
    assert (strs w2 !! l = Some EMPTY_STRING) as Hl2.
    { destruct S2 as (_ & (_ & F & _) & _). rewrite <- Hl. apply (fr_strs _ _ _ F); [done|set_solver]. }
    pose proof HR2 as [Hh2 _]. wp_next. eapply wp_get_hash; [done|].
    wp_next. eapply wp_bucket_at; [done|]. cbn [fmap option_fmap option_map].
    assert (∀ w', hash_after {[l]} w2 w' h tb2 (<[k := t]> m) →
      hash_after {[l]} w1 w' h tb (<[k := t]> m)) as Hpre.
    { intros w' A. eapply (hash_after_pre {[l]} ∅ {[l]} ∅ ∅ w1 w2 w' h tb tb2);
        [ready|exact S2|within_tac..|done|done|done|within_tac|exact A]. }
    eapply wp_mono; [eapply (hash_put_ok h q l c k t m Hf Hk Hsize w2 tb2 b);
      [by eapply hstep_ready|done|done|done|done|done|done| |done]| |].
    + intros ->. lia.
    + intros [] w' A. split; [done|]. by apply Hpre.
    + intros x w' [-> A]. simpl. split; [done|]. by apply Hpre.
  - intros r w2 (-> & A). split; [done|].
    eapply (hash_after_pre ∅ ∅ {[l]} ∅ ∅ w w1 _ h tb tb);
      [done|by apply lstep_hstep|within_tac..|].
    eapply hash_after_post; [ready|exact A|done|done|set_solver|].
    apply pop_step; [|set_solver]. by destruct (ha_step _ _ _ _ _ _ A).
Qed.

(** * Deleting *)

Lemma table_rep_remove X N L H w w' tb m k v b n s n' s' e1 e2 a1 a2 :
  ready w → hstep X N L H w w' → table_rep w tb m →
  tb !! Z.to_nat (slot k) = Some (Some b) → located b k v n s n' s' e1 e2 a1 a2 →
  X ⊆ str_locs (b_ents b) → N ⊆ ent_locs (b_ents b) → L ⊆ {[b_loc b]} →
  list_rep true w' (b_loc b) (e1 ++ e2) (flat a1 ++ flat a2) →
  table_rep w' (<[Z.to_nat (slot k) := Some (Bucket (b_loc b) (e1 ++ e2) (a1 ++ a2))]> tb)
    (delete k m).
Proof.
  intros Hr S T Hb Hloc HX HN HL Hl. pose proof Hloc as [Le Lk Ll].
  pose proof (tr_bucket _ _ _ T _ _ Hb) as [B1 B2 B3].
  assert (Z.of_nat (Z.to_nat (slot k)) = slot k) as Hi by (pose proof (slot_range k); lia).
  eapply (table_rep_update X N L H w w' tb m _ _ (Some b));
    [done|exact S|done|done|by apply within_sub..| | | |by apply within_sub| |].
  - split; simpl.
    + by rewrite flat_app.
    + rewrite Lk, fmap_app in B2. rewrite fmap_app. simpl in B2.
      apply NoDup_app in B2 as (N1 & N2 & N3). apply NoDup_cons in N3 as [_ N3].
      apply NoDup_app. split_and!; [done| |done]. intros x Hx Hx'. apply (N2 x Hx). by right.
    + rewrite Lk, fmap_app in B3. simpl in B3. intros k'. rewrite fmap_app. intros Hk'. apply B3.
      apply elem_of_app in Hk' as [?|?]; apply elem_of_app; [by left|right; by right].
  - apply within_sub. simpl. rewrite Le, !str_locs_app, !str_locs_cons. clear. set_solver.
  - apply within_sub. simpl. rewrite Le, !ent_locs_app, !ent_locs_cons. clear. set_solver.
  - intros k' u Hk'. rewrite Hi in Hk'. simpl. destruct (decide (k' = k)) as [->|Hne].
    + rewrite lookup_delete_eq. split; [done|]. intros Hin. exfalso. revert Hin.
      apply (kvs_once k v). by rewrite <- Lk.
    + rewrite lookup_delete_ne, (tr_map _ _ _ T k' u), Hk', Hb by done. split.
      * intros (b0 & ? & Hin). simplify_eq. rewrite Lk in Hin. set_solver.
      * intros Hin. exists b. split; [done|]. rewrite Lk. set_solver.
  - intros k' Hk'. apply lookup_delete_ne. intros ->. by rewrite Hi in Hk'.
Qed.

(** Both entries of a pair are removed. *)
Lemma delete_pair_ok w b k v n s n' s' e1 e2 a1 a2 i (Q : unit → world → Prop) (rest : M unit) E :
  ready w → bucket_ok w i b → located b k v n s n' s' e1 e2 a1 a2 →
  (∀ w', list_rep true w' (b_loc b) (e1 ++ e2) (flat a1 ++ flat a2) →
     lstep (str_locs (b_ents b)) (ent_locs (b_ents b)) {[b_loc b]} w w' → wp rest Q E w') →
  wp (try_ (list_entry_delete (Some (b_loc b)) (Some n'));;
      try_ (list_entry_delete (Some (b_loc b)) (Some n));; rest) Q E w.
Proof.
  intros Hr [B1 _ _] [Le Lk Ll] Hrest. rewrite Le, Lk, flat_app in B1. simpl in B1.
  assert (list_rep true w (b_loc b) ((e1 ++ [(n, s)]) ++ (n', s') :: e2)
    ((flat a1 ++ [k]) ++ v :: flat a2)) as B1' by (by rewrite <- !app_assoc).
  wp_next. wp_try_call list_entry_delete_ok; [rewrite !length_app; simpl; lia|].
  intros r w1 (-> & L1 & S1). cbn. rewrite <- !app_assoc in L1. simpl in L1.
  wp_next. wp_try_call (list_entry_delete_ok w1); [ready|].
  intros r w2 (-> & L2 & S2). cbn. apply Hrest; [done|]. rewrite Le.
  rewrite <- app_assoc in S1. simpl in S1.
  eapply (lstep_trans _ _ _ _ _ _ w w1 w2);
    [done|eapply lstep_weaken; [done|exact S1|..]|exact S2|..]; apply within_sub;
    rewrite ?str_locs_app, ?str_locs_cons, ?ent_locs_app, ?ent_locs_cons; clear; set_solver.
Qed.

Lemma hash_delete_ok w h tb m c k E :
  ready w → hash_rep w h tb m → findable m k → cstr_at w c = Some k → is_Some (m !! k) →
  Z.of_nat (size m) < 2 ^ 64 →
  wp (hash_delete (Some h) (Some c))
    (λ r w', r = 0 ∧ hash_after ∅ w w' h tb (delete k m)) E w.
Proof.
  intros Hr HR Hf Hc [v Hv] Hsize. pose proof HR as [Hh T]. apply wp_func_body. wp_next.
  wp_call hash_entry_search_ok. rewrite Hv. intros [[rc bp] ep] w' (-> & H).
  destruct H as (b & n & s & n' & s' & e1 & e2 & a1 & a2 & -> & -> & -> & Hb & Hloc).
  pose proof (tr_bucket _ _ _ T _ _ Hb) as HB.
  destruct (located_entries _ _ _ _ _ _ _ _ _ _ _ _ _ HB Hloc) as (pv & pv' & Hn & _). simpl.
  wp_next. eapply wp_get_ent; [done|]. simpl. eapply delete_pair_ok; [done|done|done|].
  intros w1 L1 S1.
  assert (hashes w1 !! h = Some (mk_hash_t (bucket_ptrs tb) (Z.of_nat (size m)))) as Hh1
    by (destruct S1 as (_ & _ & [_ _ -> _ _]); done).
  eapply wp_mod_hash; [ready|done|]. intros w2 H2 S2 L2. cbn in H2. split; [done|].
  assert (hstep (str_locs (b_ents b)) (ent_locs (b_ents b)) {[b_loc b]} {[h]} w w2) as S
    by (eapply hstep_trans; [done|by apply lstep_hstep|exact S2|within_tac..]).
  split.
  - eapply hstep_trans; [done|by apply hstep_refl|exact S|..|within_tac]; apply within_sub.
    + rewrite union_empty_l_L. exact (all_of_lookup o_strs tb _ _ Hb).
    + exact (all_of_lookup o_ents tb _ _ Hb).
    + exact (all_of_lookup o_lists tb _ _ Hb).
  - eexists. split; [split; [|by eapply table_rep_remove; [..|apply L2]]|].
    + rewrite H2, lookup_insert_eq, bucket_ptrs_insert, list_insert_id.
      * rewrite map_size_delete, Hv. simpl. do 2 f_equal. unfold size_t.
        assert (size m ≠ 0%nat) by (intros Hz%map_size_empty_inv; by rewrite Hz in Hv).
        rewrite Z.mod_small; lia.
      * unfold bucket_ptrs. by rewrite list_lookup_fmap, Hb.
    + pose proof (at_ents _ _ _ _ _ _ _ _ _ _ _ Hloc) as Le.
      split_and!; (eapply all_of_insert_within; [exact Hb|]); apply within_sub; simpl; [..|done];
        rewrite Le, ?str_locs_app, ?str_locs_cons, ?ent_locs_app, ?ent_locs_cons; clear; set_solver.
Qed.

Lemma hash_delete_missing w h tb m c k E :
  hash_rep w h tb m → findable m k → cstr_at w c = Some k → m !! k = None →
  wp (hash_delete (Some h) (Some c)) (λ r w', r = -1 ∧ w' = w) E w.
Proof.
  intros HR Hf Hc Hv. apply wp_func_body. wp_next. wp_call hash_entry_search_ok.
  rewrite Hv. intros [[rc bp] ep] w' (-> & ->). simpl. by apply wp_leave.
Qed.

(** * Creating and emptying *)

(** Counters grow, and nothing else changes. *)
Lemma lstep_counters w n a :
  ready w → (next_loc w ≤ n)%positive → lstep ∅ ∅ ∅ w (upd_next (λ _, n) (upd_allocs (λ _, a) w)).
Proof.
  intros [Hwf Ho] Hn. split; [split; [split|done]|split; split]; simpl; try done;
    try (intros; apply Hwf; lia); try apply Hwf.
  - intros p b Hb. apply (wf_own_bound w Hwf) in Hb. lia.
  - intros p b Hb. by left.
Qed.

Lemma wp_calloc_hash w z (Q : ptr → world → Prop) E :
  ready w →
  (∀ h w1, (next_loc w ≤ h)%positive → hashes w1 !! h = Some z → hstep ∅ ∅ ∅ ∅ w w1 →
     Q (Some h) w1) →
  wp (calloc_obj upd_hashes z) Q E w.
Proof.
  intros Hr HQ. wp_next. apply wp_allocator; [done|]. simpl. apply HQ; simpl.
  - lia.
  - by rewrite lookup_insert_eq.
  - pose proof (lstep_counters w (Pos.succ (next_loc w)) (S (allocs w)) Hr ltac:(lia)) as S.
    split; [|split; [exact S|]].
    + destruct S as ([[] Ho] & _). split; [split; try done|done]. simpl in *. intros l Hl.
      rewrite lookup_insert_ne by lia. auto.
    + intros h Hh _. simpl. apply lookup_insert_ne. lia.
Qed.

Lemma table_rep_empty w : table_rep w (replicate 256 None) ∅.
Proof.
  split.
  - apply length_replicate.
  - intros i b Hi. by apply lookup_replicate in Hi as [? _].
  - intros i j o1 o2 _ H1 H2. apply lookup_replicate in H1 as [-> _], H2 as [-> _].
    by repeat split.
  - intros k v. rewrite lookup_empty. split; [done|]. intros (b & Hb & _).
    by apply lookup_replicate in Hb as [? _].
Qed.

Lemma hash_new_ok w E :
  ready w →
  wp (hash_new None) (λ '(r, p) w', r = 0 ∧ ∃ h, p = Some h ∧ (next_loc w ≤ h)%positive ∧
    hash_rep w' h (replicate 256 None) ∅ ∧ hstep ∅ ∅ ∅ ∅ w w') E w.
Proof.
  intros Hr. wp_next. apply wp_calloc_hash; [done|]. intros h w1 Hle Hh S.
  split; [done|]. exists h. split; [done|]. split; [done|]. split; [|done]. split.
  - by rewrite Hh, map_size_empty.
  - apply table_rep_empty.
Qed.

Lemma table_rep_ext w tb m m' : table_rep w tb m → m = m' → table_rep w tb m'.
Proof. by intros ? <-. Qed.

(** What is left of a table when the slots below [i] are empty. *)
Definition from_slot (i : Z) (m : gmap bytes bytes) : gmap bytes bytes :=
  filter (λ kv, i ≤ slot (fst kv)) m.

Lemma from_slot_lookup i m k : from_slot i m !! k = if decide (i ≤ slot k) then m !! k else None.
Proof.
  unfold from_slot. case_decide as H.
  - destruct (m !! k) as [v|] eqn:Hm.
    + by apply map_lookup_filter_Some.
    + by apply map_lookup_filter_None; left.
  - apply map_lookup_filter_None. right. intros v _. done.
Qed.

Lemma from_slot_end m : from_slot 256 m = ∅.
Proof.
  apply map_eq. intros k. rewrite from_slot_lookup, lookup_empty.
  pose proof (slot_range k). by rewrite decide_False by lia.
Qed.

Lemma from_slot_start m : from_slot 0 m = m.
Proof.
  apply map_eq. intros k. rewrite from_slot_lookup. pose proof (slot_range k).
  by rewrite decide_True by lia.
Qed.

(** The state after the first [i] iterations of [hash_truncate]. *)
Record emptied (w w' : world) (h : loc) (tb : table) (m : gmap bytes bytes) (i : Z)
    (tb' : table) : Prop := {
  em_hash : hashes w' !! h = Some (mk_hash_t (bucket_ptrs tb') (Z.of_nat (size m)));
  em_table : table_rep w' tb' (from_slot i m);
  em_step : hstep (tb_strs tb) (tb_ents tb) (tb_lists tb) {[h]} w w';
  em_strs : within w (tb_strs tb') (tb_strs tb);
  em_ents : within w (tb_ents tb') (tb_ents tb);
  em_lists : within w (tb_lists tb') (tb_lists tb);
}.

Lemma truncate_slot_ok w w1 h tb m i tb1 E :
  ready w → 0 ≤ i < 256 → emptied w w1 h tb m i tb1 →
  wp (h ← get_hash (Some h);
      b ← bucket_at h i;
      when (negb (is_null b)) (try_ (list_truncate b)))
    (λ _ w2, ∃ tb2, emptied w w2 h tb m (i + 1) tb2) E w1.
Proof.
  intros Hr Hi [Hh T S V1 V2 V3]. pose proof (hstep_ready _ _ _ _ _ _ S) as Hr1.
  wp_next. eapply wp_get_hash; [done|]. wp_next.
  destruct (lookup_lt_is_Some_2 tb1 (Z.to_nat i)) as [o Ho]; [rewrite (tr_length _ _ _ T); lia|].
  unfold bucket_at, bucket_ptrs. simpl. rewrite list_lookup_fmap, Ho. apply wp_ret.
  destruct o as [b|]; cbn [fmap option_fmap option_map].
  - rewrite is_null_some. apply wp_when; [intros _|done].
    pose proof (tr_bucket _ _ _ T _ _ Ho) as [B1 _ _].
    wp_try_call list_truncate_ok. intros r w2 (-> & L2 & S2). cbn.
    set (b' := Bucket (b_loc b) [] []). exists (<[Z.to_nat i := Some b']> tb1).
    pose proof (hstep_next _ _ _ _ _ _ S).
    pose proof (all_of_lookup o_strs tb1 _ _ Ho) as I1.
    pose proof (all_of_lookup o_ents tb1 _ _ Ho) as I2.
    pose proof (all_of_lookup o_lists tb1 _ _ Ho) as I3. simpl in I1, I2, I3.
    split.
    + destruct S2 as (_ & _ & [_ _ -> _ _]). rewrite Hh, bucket_ptrs_insert, list_insert_id; [done|].
      unfold bucket_ptrs. by rewrite list_lookup_fmap, Ho.
    + eapply (table_rep_update _ _ _ ∅ w1 w2 tb1 (from_slot i m) _ (Z.to_nat i) (Some b) b');
        [done|by apply lstep_hstep|done|done|by apply within_sub..| | | | | |].
      * split; [done|constructor|]. intros k' Hk'. by apply elem_of_nil in Hk'.
      * simpl. rewrite str_locs_nil. apply within_empty.
      * simpl. rewrite ent_locs_nil. apply within_empty.
      * by apply within_sub.
      * intros k v Hk. rewrite from_slot_lookup, decide_False by lia. simpl. set_solver.
      * intros k Hk. rewrite !from_slot_lookup. repeat case_decide; done || lia.
    + eapply hstep_trans; [done|exact S|by apply (lstep_hstep _ _ _ ∅)|..|apply within_empty];
        intros x Hx; [apply V1|apply V2|apply V3]; set_solver.
    + eapply within_trans; [done|eapply all_of_insert_within; [done|]|exact V1].
      simpl. rewrite str_locs_nil. apply within_empty.
    + eapply within_trans; [done|eapply all_of_insert_within; [done|]|exact V2].
      simpl. rewrite ent_locs_nil. apply within_empty.
    + eapply within_trans; [done|eapply all_of_insert_within; [done|]|exact V3].
      by apply within_sub.
  - apply wp_when; [done|intros _]. exists tb1. split; [done| |done..].
    eapply table_rep_ext; [done|]. apply map_eq. intros k. rewrite !from_slot_lookup.
    destruct (decide (slot k = i)) as [Hk|Hk]; [|repeat case_decide; done || lia].
    rewrite decide_True, decide_False by lia. destruct (m !! k) as [v|] eqn:Hm; [|done].
    assert (from_slot i m !! k = Some v) as Hf by (by rewrite from_slot_lookup, decide_True by lia).
    apply (tr_map _ _ _ T) in Hf as (b & Hb & _). rewrite Hk in Hb. simplify_eq.
Qed.

Lemma hash_truncate_ok w h tb m E :
  ready w → hash_rep w h tb m →
  wp (hash_truncate (Some h)) (λ r w', r = 0 ∧ hash_after ∅ w w' h tb ∅) E w.
Proof.
  intros Hr [Hh T]. apply wp_func_body. wp_next.
  eapply (wp_conseq _ (λ _ w1, ∃ tb1, emptied w w1 h tb m 256 tb1)).
  { eapply wp_loop with (n := 256%nat) (I := λ n i w1, 0 ≤ i ≤ 256 ∧ Z.of_nat n = 256 - i ∧
      ∃ tb1, emptied w w1 h tb m i tb1); [|split_and!; [lia|lia|lia|]|lia].
    - intros n i w1 (Hi & Hn & tb1 & Hem). destruct (Z.ltb_spec i 256).
      + wp_next. eapply wp_conseq; [apply (truncate_slot_ok w w1 h tb m i tb1); [done|lia|done]|].
        intros [] w2 Hem2. apply wp_ret. exists (n - 1)%nat. split; [lia|]. by split_and!; [lia..|].
      + apply wp_ret. exists tb1. by replace 256 with i by lia.
    - exists tb. split; [done|by rewrite from_slot_start|by apply hstep_refl|by apply within_sub..]. }
  intros [] w1 (tb1 & [Hh1 T1 S1 V1 V2 V3]). rewrite from_slot_end in T1.
  pose proof (hstep_ready _ _ _ _ _ _ S1). eapply wp_mod_hash; [done|done|].
  intros w2 H2 S2 L2. split; [done|]. split.
  - rewrite union_empty_l_L. eapply hstep_trans; [done|exact S1|exact S2|within_tac..].
  - exists tb1. split; [|done]. split; [by rewrite H2, lookup_insert_eq|].
    eapply table_rep_step; [done|exact S2|done|set_solver..].
Qed.

(** * Membership *)

Lemma hash_key_exists_ok w h tb m c k E :
  ready w → hash_rep w h tb m → findable m k → readable w ∅ c k →
  wp (hash_key_exists (Some h) (Some c)) (λ '(rc, res) w', rc = 0 ∧
    res = Some (bool_decide (is_Some (m !! k))) ∧ lstep ∅ ∅ ∅ w w') E w.
Proof.
  intros Hr HR Hf Hc. wp_next. wp_call str_new_ok.
  intros [rc p] w1 (-> & l & -> & Hle & Hl & S1). cbn. apply (sstep_lstep _ ∅ ∅) in S1.
  assert (hash_rep w1 h tb m) as HR1 by (eapply hash_rep_lstep; [done|exact S1|done|set_solver..]).
  assert (readable w1 ∅ c k) as [Hc1 _] by (eapply readable_step; [done|exact S1|done|within_tac]).
  assert (l ∉ tb_strs tb) as Hn.
  { intros Hin. pose proof (all_of_lt _ _ _ Hr (hr_table _ _ _ _ HR) _ Hin). lia. }
  wp_next. eapply (wp_conseq _ (λ r w2, negb (r <? 0) = bool_decide (is_Some (m !! k)) ∧
    (∃ bs, str_rep w2 l bs) ∧ lstep {[l]} ∅ ∅ w1 w2)).
  { destruct (m !! k) as [v|] eqn:Hm.
    - wp_call hash_get_ok; [ready|]. intros r w2 (-> & Hl2 & S2). split; [done|].
      split; [by eexists|by apply sstep_lstep].
    - wp_call hash_get_missing. intros r w2 (-> & ->). split; [done|].
      split; [by eexists|apply lstep_refl; ready]. }
  intros r w2 (Hres & [bs Hl2] & S2). wp_next.
  wp_call (str_destroy_ok w2 l bs); [ready|]. intros [rc p] w3 (-> & -> & _ & S3). cbn.
  split; [done|]. split; [by rewrite Hres|]. chain.
Qed.
