(* ===== verification/HashPairs.v ===== *)
(** The traversal of a hash table: [hash_get_keys] and [hash_get_values] list
    the pairs of the map, each once, bucket by bucket. *)

From S2P Require Import Prelude Types Machine Wp StringOps StringFacts ListOps HashOps ListRep.
From S2P Require Import ListFacts ListEdit HashRep HashFacts.

Open Scope Z_scope.

(** * The pairs of a table *)

Definition bucket_pairs (o : option bucket_t) : list (bytes * bytes) :=
  match o with Some b => b_kvs b | None => [] end.

(** In the order of the traversal. *)
Definition table_pairs (tb : table) : list (bytes * bytes) := tb ≫= bucket_pairs.

Lemma pairs_snoc tb o : table_pairs (tb ++ [o]) = table_pairs tb ++ bucket_pairs o.
Proof. unfold table_pairs. rewrite bind_app. simpl. by rewrite app_nil_r. Qed.

Lemma elem_of_pairs tb kv : kv ∈ table_pairs tb ↔ ∃ i b, tb !! i = Some (Some b) ∧ kv ∈ b_kvs b.
Proof.
  unfold table_pairs. rewrite list_elem_of_bind. split.
  - intros ([b|] & Hkv & [i Hi]%list_elem_of_lookup); [by exists i, b|by apply not_elem_of_nil in Hkv].
  - intros (i & b & Hi & Hkv). exists (Some b). split; [done|]. by eapply list_elem_of_lookup_2.
Qed.

Lemma pairs_nodup w tb m n : table_rep w tb m → (n ≤ 256)%nat → NoDup (table_pairs (take n tb)).*1.
Proof.
  intros [T1 T2 _ _]. induction n as [|n IH]; intros Hn; [constructor|].
  destruct (lookup_lt_is_Some_2 tb n) as [o Ho]; [lia|].
  rewrite (take_S_r _ _ _ Ho), pairs_snoc, fmap_app. apply NoDup_app. split; [apply IH; lia|].
  destruct o as [b|]; [|split; [intros k _; apply not_elem_of_nil|constructor]].
  destruct (T2 _ _ Ho) as [_ B2 B3]. split; [|done].
  intros k ([k' v] & -> & (i & b' & Hi & Hin)%elem_of_pairs)%list_elem_of_fmap Hk.
  apply lookup_take_Some in Hi as [Hi Hlt]. pose proof (bo_slot _ _ _ (T2 _ _ Hi) k') as Hs.
  specialize (B3 _ Hk). simpl in B3. rewrite Hs in B3; [lia|]. apply list_elem_of_fmap. by exists (k', v).
Qed.

(** They are those of the map. *)
Lemma pairs_map w tb m : table_rep w tb m → table_pairs tb ≡ₚ map_to_list m.
Proof.
  intros T. apply NoDup_Permutation.
  - apply (NoDup_fmap_1 fst). rewrite <- (take_ge tb 256); [by eapply pairs_nodup|]. by rewrite (tr_length _ _ _ T).
  - apply NoDup_map_to_list.
  - intros [k v]. rewrite elem_of_map_to_list, (tr_map _ _ _ T), elem_of_pairs. split.
    + intros (i & b & Hi & Hin). exists b. split; [|done].
      rewrite (bo_slot _ _ _ (tr_bucket _ _ _ T _ _ Hi) k), Nat2Z.id; [done|].
      apply list_elem_of_fmap. by exists (k, v).
    + intros (b & Hb & Hin). by exists (Z.to_nat (slot k)), b.
Qed.

(** * The traversal *)

Section gather.
Context (w : world) (h : loc) (tb : table) (m : gmap bytes bytes) (l : loc).
Context (Hr : ready w) (HR : hash_rep w h tb m) (Hl : l ∉ tb_lists tb).
Context (Hsize : Z.of_nat (size m) < 2 ^ 32).
(** The values, or the keys. *)
Context (values : bool).

Definition part (kv : bytes * bytes) : bytes := if values then kv.2 else kv.1.
Definition pick (e v : list_entry_t) : ptr := if values then ent_value v else ent_value e.

(** The list [l] has the texts [ts], and nothing else has changed. *)
Definition gathered (ts : list bytes) (w1 : world) : Prop :=
  ∃ es, list_rep true w1 l es ts ∧ lstep ∅ ∅ {[l]} w w1 ∧ within w (ent_locs es) ∅.

Lemma gathered_hash ts w1 : gathered ts w1 → hash_rep w1 h tb m ∧ ready w1.
Proof.
  intros (es & _ & S & _). split; [|by eapply lstep_ready].
  eapply hash_rep_lstep; [done|exact S|done|set_solver..].
Qed.

Lemma gather_one ts w1 q t E :
  gathered ts w1 → str_rep w1 q t → Z.of_nat (S (length ts)) < 2 ^ 32 →
  wp (try_ (list_push (Some l) (Some q))) (λ _ w2, gathered (ts ++ [t]) w2) E w1.
Proof.
  intros (es & L & S & W) Hq Hlen. pose proof (lstep_ready _ _ _ _ _ S) as R1.
  pose proof (list_rep_length _ _ _ _ _ L) as He.
  apply wp_try. eapply wp_conseq; [apply (list_push_ok true w1 l es ts q t); [done|done|done|lia]|].
  intros r w2 (-> & n & s & Hn & Hs & L2 & S2). cbn [Z.eqb]. pose proof (lstep_next _ _ _ _ _ S).
  exists (es ++ [(n, s)]). split; [done|]. split.
  - eapply lstep_trans; [done|exact S|exact S2|apply within_empty|done|by apply within_sub].
  - rewrite ent_locs_app, ent_locs_cons, ent_locs_nil, union_empty_r_L.
    apply within_union; [done|]. apply within_fresh. lia.
Qed.

(** The part of [for_pairs] for a bucket. *)
Definition bucket_loop (b : ptr) : M unit :=
  l0 ← get_list b;
  fuel ← ents_fuel;
  loop fuel (λ ent,
    if is_null ent then mret (inr tt) else
    e ← get_ent ent;
    v ← get_ent (ent_next e);
    try_ (list_push (Some l) (pick e v));;
    mret (inl (ent_next v))) (list_head l0).

Lemma gather_bucket i b ts w1 E :
  tb !! i = Some (Some b) → gathered ts w1 → Z.of_nat (length ts + length (b_kvs b)) < 2 ^ 32 →
  wp (bucket_loop (Some (b_loc b))) (λ _ w2, gathered (ts ++ (part <$> b_kvs b)) w2) E w1.
Proof.
  intros Hb HG Hlen. destruct (gathered_hash _ _ HG) as [HR1 R1].
  destruct (tr_bucket _ _ _ (hr_table _ _ _ _ HR1) _ _ Hb) as [B1 _ _].
  pose proof (list_rep_length _ _ _ _ _ B1) as Hel. pose proof (flat_length (b_kvs b)) as Hfl.
  wp_next. eapply wp_get_list; [apply B1|]. cbn [list_head]. wp_next. apply wp_get_ents_fuel.
  pose proof (seg_size _ _ _ _ _ (lr_seg _ _ _ _ _ B1) (lr_nodup _ _ _ _ _ B1)) as Hfuel.
  eapply wp_loop with (n := length (b_kvs b)) (I := λ n x w2, ∃ e1 e2 a1 a2,
    b_ents b = e1 ++ e2 ∧ b_kvs b = a1 ++ a2 ∧ length e1 = length (flat a1) ∧ n = length a2 ∧
    x = hd_ptr e2 None ∧ gathered (ts ++ (part <$> a1)) w2).
  - intros n x w2 (e1 & e2 & a1 & a2 & He & Ha & Hl1 & -> & -> & HG2).
    rewrite Ha in Hlen. rewrite He, Ha, flat_app, !length_app in Hel. rewrite length_app in Hlen.
    destruct a2 as [|[k v] a2].
    { destruct e2 as [|[n s] e2]; simpl in Hel; [|lia]. apply wp_ret. rewrite Ha, app_nil_r. exact HG2. }
    destruct e2 as [|[n s] [|[n' s'] e2]]; simpl in Hel; [lia|lia|].
    destruct (gathered_hash _ _ HG2) as [HR2 R2].
    pose proof (tr_bucket _ _ _ (hr_table _ _ _ _ HR2) _ _ Hb) as B2.
    assert (located b k v n s n' s' e1 e2 a1 a2) as Hloc by by split.
    destruct (located_entries _ _ _ _ _ _ _ _ _ _ _ _ _ B2 Hloc) as (pv & pv' & Hn & Hn' & Hs & Hs').
    cbn [hd_ptr]. rewrite is_null_some. wp_next. eapply wp_get_ent; [exact Hn|]. cbn [ent_next].
    wp_next. eapply wp_get_ent; [exact Hn'|]. wp_next. eapply wp_conseq.
    { unfold pick. cbn [ent_value].
      replace (if values then Some s' else Some s) with (Some (if values then s' else s)) by by destruct values.
      eapply (gather_one _ _ _ (part (k, v))); [exact HG2|unfold part; by destruct values|].
      rewrite length_app, length_fmap. simpl in Hlen. lia. }
    intros [] w3 HG3. apply wp_ret. cbn [ent_next]. exists (length a2). split; [simpl; lia|].
    exists (e1 ++ [(n, s); (n', s')]), e2, (a1 ++ [(k, v)]), a2.
    split_and!; [by rewrite <- app_assoc|by rewrite <- app_assoc| |done|done|].
    + rewrite flat_app, !length_app. simpl. lia.
    + by rewrite fmap_app, app_assoc.
  - exists [], (b_ents b), [], (b_kvs b). rewrite app_nil_r. done.
  - lia.
Qed.

Lemma pairs_length : length (table_pairs tb) = size m.
Proof. rewrite (pairs_map _ _ _ (hr_table _ _ _ _ HR)). apply length_map_to_list. Qed.

Lemma pairs_prefix n o : tb !! n = Some o →
  (length (table_pairs (take n tb)) + length (bucket_pairs o) ≤ size m)%nat.
Proof.
  intros Ho. rewrite <- pairs_length, <- length_app, <- pairs_snoc, <- (take_S_r _ _ _ Ho).
  rewrite <- (take_drop (S n) tb) at 2. unfold table_pairs. rewrite bind_app, length_app. lia.
Qed.

Lemma gather_slot i w1 E :
  0 ≤ i < 256 → gathered (part <$> table_pairs (take (Z.to_nat i) tb)) w1 →
  wp (hd ← get_hash (Some h);
      b ← bucket_at hd i;
      when (negb (is_null b)) (bucket_loop b))
    (λ _ w2, gathered (part <$> table_pairs (take (Z.to_nat (i + 1)) tb)) w2) E w1.
Proof.
  intros Hi HG. destruct (gathered_hash _ _ HG) as [[Hh T] R1].
  destruct (lookup_lt_is_Some_2 tb (Z.to_nat i)) as [o Ho]; [rewrite (tr_length _ _ _ T); lia|].
  replace (Z.to_nat (i + 1)) with (S (Z.to_nat i)) by lia.
  rewrite (take_S_r _ _ _ Ho), pairs_snoc, fmap_app. pose proof (pairs_prefix _ _ Ho) as Hlen.
  wp_next. eapply wp_get_hash; [done|]. wp_next.
  unfold bucket_at, bucket_ptrs. simpl. rewrite list_lookup_fmap, Ho. apply wp_ret.
  destruct o as [b|]; cbn [fmap option_fmap option_map].
  - rewrite is_null_some. apply wp_when; [intros _|done].
    eapply gather_bucket; [exact Ho|done|]. rewrite length_fmap. simpl in Hlen. lia.
  - apply wp_when; [done|intros _]. by rewrite app_nil_r.
Qed.

Lemma for_pairs_ok w1 E :
  gathered [] w1 →
  wp (for_pairs (Some h) (λ e v, try_ (list_push (Some l) (pick e v))))
    (λ _ w2, gathered (part <$> table_pairs tb) w2) E w1.
Proof.
  intros HG. pose proof (tr_length _ _ _ (hr_table _ _ _ _ HR)) as Hlen.
  eapply wp_loop with (n := 256%nat) (I := λ n i w1, 0 ≤ i ≤ 256 ∧ Z.of_nat n = 256 - i ∧
    gathered (part <$> table_pairs (take (Z.to_nat i) tb)) w1); [|split_and!; [lia|lia|lia|exact HG]|lia].
  intros n i w2 (Hi & Hn & HG2). destruct (Z.ltb_spec i 256).
  - wp_next. eapply wp_conseq; [apply (gather_slot i w2); [lia|done]|].
    intros [] w3 HG3. apply wp_ret. exists (n - 1)%nat. split; [lia|]. by split_and!; [lia..|].
  - apply wp_ret. rewrite take_ge in HG2 by lia. done.
Qed.
End gather.

(** * The two operations *)

Section listing.
Context (w : world) (h : loc) (tb : table) (m : gmap bytes bytes).
Context (l : loc) (k : bool) (es : entries) (old : list bytes).
Context (Hr : ready w) (HR : hash_rep w h tb m) (HL : list_rep k w l es old).
Context (Hl : l ∉ tb_lists tb) (He : ent_locs es ## tb_ents tb) (Hs : str_locs es ## tb_strs tb).
Context (Hsize : Z.of_nat (size m) < 2 ^ 32).

Lemma listing_ok values E :
  wp (func (body (
    try_ (list_truncate (Some l));;
    for_pairs (Some h) (λ e v, try_ (list_push (Some l) (pick values e v))))))
    (λ r w', r = 0 ∧ ready w' ∧ hash_rep w' h tb m ∧
      ∃ es', list_rep true w' l es' (part values <$> table_pairs tb)) E w.
Proof.
  apply wp_func_body. wp_next. wp_try_call list_truncate_ok. intros r w1 (-> & L1 & S1). cbn [Z.eqb].
  pose proof (lstep_ready _ _ _ _ _ S1) as R1.
  assert (hash_rep w1 h tb m) as HR1 by (eapply hash_rep_lstep; [exact Hr|exact S1|done|set_solver..]).
  eapply wp_conseq; [apply (for_pairs_ok w1 h tb m l R1 HR1 Hl Hsize values)|].
  - exists []. split; [done|]. split; [by apply lstep_refl|]. rewrite ent_locs_nil. apply within_empty.
  - intros [] w2 HG. destruct (gathered_hash w1 h tb m l R1 HR1 Hl Hsize _ _ HG) as [HR2 R2].
    destruct HG as (es' & L2 & _). by eauto 6.
Qed.

Lemma hash_get_keys_ok E :
  wp (hash_get_keys (Some l) (Some h)) (λ r w', r = 0 ∧ ready w' ∧ hash_rep w' h tb m ∧
    ∃ es', list_rep true w' l es' (table_pairs tb).*1) E w.
Proof. exact (listing_ok false E). Qed.

Lemma hash_get_values_ok E :
  wp (hash_get_values (Some l) (Some h)) (λ r w', r = 0 ∧ ready w' ∧ hash_rep w' h tb m ∧
    ∃ es', list_rep true w' l es' (table_pairs tb).*2) E w.
Proof. exact (listing_ok true E). Qed.
End listing.

(** * A table with one bucket *)

Lemma table_rep_one w i b :
  (i < 256)%nat → bucket_ok w i b → table_rep w (<[i := Some b]> (replicate 256 None)) (list_to_map (b_kvs b)).
Proof.
  intros Hi HB. set (tb := <[i := Some b]> _).
  assert (∀ j o, tb !! j = Some o → (j = i ∧ o = Some b) ∨ (j ≠ i ∧ o = None)) as Hlook.
  { intros j o Hj. apply list_lookup_insert_Some in Hj as [(-> & -> & _)|[Hne [-> _]%lookup_replicate_1]]; auto. }
  assert (tb !! i = Some (Some b)) as Hb by (apply list_lookup_insert_eq; by rewrite length_replicate).
  split.
  - unfold tb. by rewrite length_insert, length_replicate.
  - intros j b' Hj. destruct (Hlook _ _ Hj) as [[-> [= ->]]|[_ [=]]]. done.
  - intros j1 j2 o1 o2 Hne H1 H2. unfold apart.
    destruct (Hlook _ _ H1) as [[-> ->]|[_ ->]], (Hlook _ _ H2) as [[-> ->]|[_ ->]];
      simpl; split_and!; done || apply disjoint_empty_l || apply disjoint_empty_r.
  - intros k v. rewrite <- elem_of_list_to_map by apply HB. split.
    + intros Hin. exists b. split; [|done]. rewrite (bo_slot _ _ _ HB k), Nat2Z.id; [done|].
      apply list_elem_of_fmap. by exists (k, v).
    + intros (b' & Hb' & Hin). destruct (Hlook _ _ Hb') as [[_ [= ->]]|[_ [=]]]. done.
Qed.
