(* ===== verification/HashRefine.v ===== *)
(** A hash table and the strings of its client, as an abstract machine: any
    sequence of calls on a [hash_t] behaves like the same sequence on a finite
    map and an environment of variables. *)

From S2P Require Import Prelude Types Machine Wp StringOps StringFacts ListOps HashOps ListRep.
From S2P Require Import ListFacts ListEdit HashRep HashFacts.

Open Scope Z_scope.

(** * The calls *)

(** Keys are literals, values go through the client's strings. *)
Inductive hcmd :=
| HSet (k : bytes) (q : loc) | HGet (q : loc) (k : bytes) | HDelete (k : bytes)
| HExists (k : bytes) | HTruncate.

(** What the call does in the program: its result, and what it stores in a
    result parameter of type [bool]. *)
Definition hcall (h : loc) (c : hcmd) : M (Z * option bool) :=
  match c with
  | HSet k q => r ← hash_set (Some h) (Some (CLit k 0)) (Some q); mret (r, None)
  | HGet q k => r ← hash_get (Some q) (Some h) (Some (CLit k 0)); mret (r, None)
  | HDelete k => r ← hash_delete (Some h) (Some (CLit k 0)); mret (r, None)
  | HExists k => hash_key_exists (Some h) (Some (CLit k 0))
  | HTruncate => r ← hash_truncate (Some h); mret (r, None)
  end.

Fixpoint hcalls (h : loc) (cs : list hcmd) : M (list (Z * option bool)) :=
  match cs with
  | [] => mret []
  | c :: cs => r ← hcall h c; rs ← hcalls h cs; mret (r :: rs)
  end.

(** * The abstract machine *)

Record hmodel := HModel { pairs : gmap bytes bytes; hvars : gmap loc bytes }.

Definition hmodel_step (c : hcmd) (a : hmodel) : (Z * option bool) * hmodel :=
  let m := pairs a in
  match c with
  | HSet k q => ((0, None), HModel (<[k := default [] (hvars a !! q)]> m) (hvars a))
  | HGet q k =>
      match m !! k with
      | Some v => ((0, None), HModel m (<[q := v]> (hvars a)))
      | None => ((-1, None), a)
      end
  | HDelete k =>
      match m !! k with
      | Some _ => ((0, None), HModel (delete k m) (hvars a))
      | None => ((-1, None), a)
      end
  | HExists k => ((0, Some (bool_decide (is_Some (m !! k)))), a)
  | HTruncate => ((0, None), HModel ∅ (hvars a))
  end.

Fixpoint hmodel_run (cs : list hcmd) (a : hmodel) : list (Z * option bool) * hmodel :=
  match cs with
  | [] => ([], a)
  | c :: cs =>
      let '(r, a') := hmodel_step c a in
      let '(rs, a'') := hmodel_run cs a' in (r :: rs, a'')
  end.

(** A key that a call may name in the state [a]. *)
Definition usable (k : bytes) (a : hmodel) : Prop :=
  nonul k ∧ Z.of_nat (length k) < STRING_MAX ∧ findable (pairs a) k ∧
  Z.of_nat (size (pairs a)) < 2 ^ 31 - 1.

Definition hadmissible (c : hcmd) (a : hmodel) : Prop :=
  match c with
  | HSet k q | HGet q k => usable k a ∧ is_Some (hvars a !! q)
  | HDelete k | HExists k => usable k a
  | HTruncate => True
  end.

Fixpoint all_hadmissible (cs : list hcmd) (a : hmodel) : Prop :=
  match cs with
  | [] => True
  | c :: cs => hadmissible c a ∧ all_hadmissible cs (snd (hmodel_step c a))
  end.

#[export] Instance findable_dec m k : Decision (findable m k).
Proof. apply (decide (map_Forall (λ k' v, slot k' = slot k → v ≠ k) m)). Defined.
#[export] Instance usable_dec k a : Decision (usable k a).
Proof. unfold usable. apply _. Defined.
#[export] Instance hadmissible_dec c a : Decision (hadmissible c a).
Proof. destruct c; simpl; apply _. Defined.
#[export] Instance all_hadmissible_dec cs a : Decision (all_hadmissible cs a).
Proof. revert a. induction cs; intros a'; simpl; apply _. Defined.

(** * The simulation *)

Definition hvars_ok (w : world) (tb : table) (m : gmap loc bytes) : Prop :=
  ∀ q t, m !! q = Some t → str_rep w q t ∧ q ∉ tb_strs tb.

(** The memory implements the abstract state. *)
Definition himplements (h : loc) (w : world) (a : hmodel) : Prop :=
  ready w ∧ ∃ tb, hash_rep w h tb (pairs a) ∧ hvars_ok w tb (hvars a).

(** The client's strings are not touched by an operation on the table. *)
Lemma himplements_after w w' h tb m' a :
  ready w → hash_after ∅ w w' h tb m' → hvars_ok w tb (hvars a) →
  himplements h w' (HModel m' (hvars a)).
Proof.
  intros Hr [S (tb' & HR & V & _)] Hv. split; [by eapply hstep_ready|].
  exists tb'. split; [done|]. intros q t Hq. destruct (Hv q t Hq) as [Ht Hn].
  rewrite union_empty_l_L in S. split; [by eapply hstep_rep|].
  intros Hin. destruct (V q Hin) as [|Hge]; [done|].
  pose proof (str_rep_lt _ _ _ (proj1 Hr) Ht). lia.
Qed.

Lemma himplements_lstep w w' h tb a :
  ready w → lstep ∅ ∅ ∅ w w' → hash_rep w h tb (pairs a) → hvars_ok w tb (hvars a) →
  himplements h w' a.
Proof.
  intros Hr S HR Hv. split; [by eapply lstep_ready|]. exists tb.
  split; [eapply hash_rep_lstep; [done|exact S|done|set_solver..]|].
  intros q t Hq. destruct (Hv q t Hq). split; [|done].
  eapply lstep_rep; [done|exact S|set_solver|done].
Qed.

Lemma usable_readable w k a : usable k a → readable w ∅ (CLit k 0) k.
Proof. intros (? & _). by apply readable_lit. Qed.

Section step.
Context (h : loc) (w : world) (tb : table) (a : hmodel) (E : exit → world → Prop).
Hypothesis Hr : ready w.
Hypothesis HR : hash_rep w h tb (pairs a).
Hypothesis Hv : hvars_ok w tb (hvars a).

Definition hsimulates (c : hcmd) : Prop :=
  wp (hcall h c) (λ r w', r = fst (hmodel_step c a) ∧ himplements h w' (snd (hmodel_step c a))) E w.

Lemma hunchanged : himplements h w a.
Proof. split; [done|]. by exists tb. Qed.

Lemma set_simulates k q : hadmissible (HSet k q) a → hsimulates (HSet k q).
Proof.
  intros [Hk [t Hq]]. pose proof (usable_readable w _ _ Hk) as Hc.
  destruct Hk as (_ & Hlen & Hf & Hs), (Hv _ _ Hq) as [Ht Hn].
  wp_next. wp_call hash_set_ok. intros r w' (-> & A). split; [done|].
  cbn -[hvars]. rewrite Hq. by eapply himplements_after.
Qed.

Lemma hget_simulates k q : hadmissible (HGet q k) a → hsimulates (HGet q k).
Proof.
  intros [Hk [t Hq]]. pose proof (usable_readable w _ _ Hk) as [Hc _].
  destruct Hk as (_ & Hlen & Hf & Hs), (Hv _ _ Hq) as [Ht Hn].
  unfold hsimulates. cbn -[hvars hash_get]. destruct (pairs a !! k) as [v|] eqn:Hm; wp_next.
  - wp_call hash_get_ok. intros r w' (-> & Hq' & S). apply wp_ret. split; [done|].
    apply (sstep_lstep _ ∅ ∅) in S. split; [ready|]. exists tb. simpl.
    assert (tb_strs tb ## {[q]}) by set_solver.
    split; [eapply hash_rep_lstep; [done|exact S|done|set_solver..]|].
    intros p u Hp. destruct (decide (p = q)) as [->|Hne].
    + rewrite lookup_insert_eq in Hp. by simplify_eq.
    + rewrite lookup_insert_ne in Hp by done. destruct (Hv p u Hp).
      split; [|done]. eapply lstep_rep; [done|exact S|set_solver|done].
  - wp_call hash_get_missing. intros r w' (-> & ->). apply wp_ret. split; [done|apply hunchanged].
Qed.

Lemma hdelete_simulates k : hadmissible (HDelete k) a → hsimulates (HDelete k).
Proof.
  intros Hk. pose proof (usable_readable w _ _ Hk) as [Hc _].
  destruct Hk as (_ & Hlen & Hf & Hs).
  unfold hsimulates. cbn -[hvars hash_delete]. destruct (pairs a !! k) as [v|] eqn:Hm; wp_next.
  - wp_call hash_delete_ok; [lia|]. intros r w' (-> & A). apply wp_ret. split; [done|].
    by eapply himplements_after.
  - wp_call hash_delete_missing. intros r w' (-> & ->). apply wp_ret.
    split; [done|apply hunchanged].
Qed.

Lemma exists_simulates k : hadmissible (HExists k) a → hsimulates (HExists k).
Proof.
  intros Hk. pose proof (usable_readable w _ _ Hk) as Hc. destruct Hk as (_ & Hlen & Hf & Hs).
  unfold hsimulates, hcall. wp_call hash_key_exists_ok. intros [r f] w' (-> & -> & S).
  split; [done|]. by eapply himplements_lstep.
Qed.

Lemma htruncate_simulates : hsimulates HTruncate.
Proof.
  wp_next. wp_call hash_truncate_ok. intros r w' (-> & A). split; [done|].
  by eapply himplements_after.
Qed.
End step.

Lemma hcall_simulates h w a c E :
  himplements h w a → hadmissible c a →
  wp (hcall h c) (λ r w', r = fst (hmodel_step c a) ∧ himplements h w' (snd (hmodel_step c a))) E w.
Proof.
  intros (Hr & tb & HR & Hv). destruct c; intros Hc.
  - by eapply set_simulates.
  - by eapply hget_simulates.
  - by eapply hdelete_simulates.
  - by eapply exists_simulates.
  - by eapply htruncate_simulates.
Qed.

Lemma hcalls_simulate h cs w a E :
  himplements h w a → all_hadmissible cs a →
  wp (hcalls h cs)
    (λ rs w', rs = fst (hmodel_run cs a) ∧ himplements h w' (snd (hmodel_run cs a))) E w.
Proof.
  revert w a. induction cs as [|c cs IH]; intros w a Hi; simpl.
  { intros _. by apply wp_ret. }
  intros [Hc Hcs]. apply wp_bind. eapply wp_conseq; [by eapply hcall_simulates|].
  intros r w1 [-> H1]. apply wp_bind. eapply wp_conseq; [by eapply IH|].
  intros rs w2 [-> H2]. apply wp_ret.
  destruct (hmodel_step c a) as [r a']. simpl in *. by destruct (hmodel_run cs a').
Qed.
