(* ===== verification/FileFacts.v ===== *)
(** Specifications of the file operations: what they ask of the system, in
    which order, and what they answer. *)

From S2P Require Import Prelude Types Machine Wp StringOps StringFacts StringMore ListOps.
From S2P Require Import ListRep ListFacts ListEdit PasswdOps FileOps.

Open Scope Z_scope.

(** * Steps that talk to the system *)

(** Strings outside [X] are as before; the system may have been called. *)
Definition fstep (X : gset loc) (w w' : world) : Prop := ready w' ∧ frame X w w'.

Lemma fstep_refl X w : ready w → fstep X w w.
Proof. intros H. split; [done|apply frame_refl]. Qed.

Lemma fstep_trans X w1 w2 w3 : fstep X w1 w2 → fstep X w2 w3 → fstep X w1 w3.
Proof. intros [_ F1] [R F2]. split; [done|by eapply frame_trans]. Qed.

Lemma fstep_fresh X l w w' :
  ready w → (next_loc w ≤ l)%positive → fstep ({[l]} ∪ X) w w' → fstep X w w'.
Proof. intros [Hwf _] Hl [R F]. split; [done|by eapply frame_fresh]. Qed.

Lemma fstep_mono X Y w w' : X ⊆ Y → fstep X w w' → fstep Y w w'.
Proof. intros H [R F]. split; [done|by eapply frame_mono]. Qed.

Lemma sstep_fstep X w w' : sstep X w w' → fstep X w w'.
Proof. by intros (R & F & _). Qed.

Lemma fstep_rep X w w' p bs : ready w → fstep X w w' → p ∉ X → str_rep w p bs → str_rep w' p bs.
Proof. intros [Hwf _] [_ F]. by apply str_rep_frame. Qed.

Lemma fstep_sys w f : ready w → fstep ∅ w (upd_sys f w).
Proof.
  intros [[] Ho]. split; [by split; [split|]|]. split; try done. intros. by left.
Qed.

Lemma fstep_files w f : ready w → fstep ∅ w (upd_files f w).
Proof.
  intros [[] Ho]. split; [by split; [split|]|]. split; try done. intros. by left.
Qed.

Definition call_t : Type := string * list sysarg.

(** The system after a call with the reply [r]. *)
Definition heard (c : call_t) (r : sysret) (s : system) : system :=
  mk_system (tail (answers s)) (c :: trace s) (if sys_ret r <? 0 then sys_errno r else errno s).

Lemma wp_syscall w name args r rest (Q : sysret → world → Prop) E :
  ready w → answers (sys w) = r :: rest →
  (∀ w', sys w' = heard (name, args) r (sys w) → files w' = files w → fstep ∅ w w' → Q r w') →
  wp (syscall name args) Q E w.
Proof.
  intros Hr Ha HQ. unfold wp, syscall. rewrite Ha. apply HQ; [|done|by apply fstep_sys].
  unfold heard. simpl. by rewrite Ha.
Qed.

Lemma wp_path_of w p bs (Q : bytes → world → Prop) E :
  str_rep w p bs → Q bs w → wp (path_of (Some p)) Q E w.
Proof.
  intros Hp HQ. destruct (str_rep_get _ _ _ Hp) as (b & sz & Hs & Hc & _).
  wp_next. eapply wp_deref; [done|]. by eapply wp_c_str.
Qed.

Lemma wp_str_empty w p bs (Q : bool → world → Prop) E :
  str_rep w p bs → Q (bool_decide (bs = [])) w → wp (str_empty (Some p)) Q E w.
Proof.
  intros Hp HQ. destruct (str_rep_get _ _ _ Hp) as (b & sz & Hs & Hc & _).
  wp_next. eapply wp_deref; [done|]. apply wp_ret. simpl.
  replace (Z.of_nat (length bs) =? 0) with (bool_decide (bs = [])); [done|].
  destruct bs; [done|]. by rewrite bool_decide_eq_false_2.
Qed.

(** The rule for [string_t *buf;] around system calls. *)
Lemma wp_auto_str_sys w k (R : Z → world → Prop) E :
  ready w →
  (∀ l w1, (next_loc w ≤ l)%positive → str_rep w1 l [] → sstep ∅ w w1 →
     wp (k (Some l)) (λ z w2, ready w2 ∧ (∃ bs, str_rep w2 l bs) ∧
       ∀ w3, sstep {[l]} w2 w3 → R z w3) E w1) →
  wp (auto_str k) R E w.
Proof.
  intros Hr Hk. apply wp_auto. wp_call str_new_ok.
  intros [r p] w1 (-> & l & -> & Hl & Hrep & S1). simpl.
  eapply wp_conseq; [by apply Hk|]. intros z w2 (R2 & (bs & Hrep2) & HR). cbn beta.
  wp_call (str_destroy_ok w2 l bs). intros [r p'] w3 (-> & -> & _ & S3). simpl. by apply HR.
Qed.

(** * Writing a file *)

Lemma omap_some (d : bytes) : omap id (Some <$> d : list cell) = d.
Proof. induction d as [|c d IH]; [done|]. cbn. by f_equal. Qed.

Lemma file_puts_ok w fd q d r rest E :
  ready w → str_rep w q d → d ≠ [] → answers (sys w) = r :: rest →
  wp (file_puts fd (Some q)) (λ z w', z = (if sys_ret r <? 0 then -1 else 0) ∧
    sys w' = heard ("write", [AInt fd; AStr d]) r (sys w) ∧ fstep ∅ w w') E w.
Proof.
  intros Hr Hq Hd Ha. destruct (str_rep_get _ _ _ Hq) as (b & sz & Hs & Hc & _).
  apply wp_func_body. wp_next. eapply wp_deref; [done|]. simpl.
  wp_next. apply wp_when; [destruct d; done|intros _].
  wp_next. eapply (wp_read_cstr _ _ d); [done|lia|].
  wp_next. eapply wp_syscall; [done|done|]. intros w' Hsys _ S.
  rewrite Nat2Z.id, take_ge in Hsys by done.
  rewrite omap_some in Hsys. apply wp_when; intros ->; [apply wp_leave|]; done.
Qed.

(** rename(2), link(2) and symlink(2). *)
Lemma two_paths_ok name w p q a b r rest E :
  ready w → str_rep w p a → str_rep w q b → a ≠ [] → b ≠ [] → answers (sys w) = r :: rest →
  wp (two_paths name (Some p) (Some q)) (λ z w', z = (if sys_ret r <? 0 then -1 else 0) ∧
    sys w' = heard (name, [AStr a; AStr b]) r (sys w) ∧ fstep ∅ w w') E w.
Proof.
  intros Hr Hp Hq Hea Heb Ha. apply wp_func_body. wp_next. wp_next.
  eapply wp_str_empty; [done|]. rewrite bool_decide_eq_false_2 by done.
  eapply wp_str_empty; [done|]. rewrite bool_decide_eq_false_2 by done.
  wp_next. apply wp_when; [done|intros _]. wp_next. eapply wp_path_of; [done|].
  wp_next. eapply wp_path_of; [done|]. wp_next. eapply wp_syscall; [done|done|].
  intros w' Hsys _ S. apply wp_when; intros ->; [apply wp_leave|]; done.
Qed.

(** The calls of [file_write], and how far it gets with the replies of the
    system. *)
Definition mk_call : call_t := ("mkstemp", [AStr (B "%s.tmpXXXXXXXXXX")]).
Definition write_call (fd : Z) (d : bytes) : call_t := ("write", [AInt fd; AStr d]).
Definition close_call (fd : Z) : call_t := ("close", [AInt fd]).
Definition rename_call (tmp p : bytes) : call_t := ("rename", [AStr tmp; AStr p]).

(** The result and the calls, latest first, once the temporary file exists;
    and from the start. *)
Definition save_outcome (p d tmp : bytes) (fd wr cl rn : Z) : Z * list call_t :=
  if wr <? 0 then (-1, [write_call fd d])
  else if cl <? 0 then (-1, [close_call fd; write_call fd d])
  else (if rn <? 0 then -1 else 0, [rename_call tmp p; close_call fd; write_call fd d]).

Definition write_outcome (p d tmp : bytes) (fd wr cl rn : Z) : Z * list call_t :=
  if fd <? 0 then (-1, [mk_call])
  else let '(z, calls) := save_outcome p d tmp fd wr cl rn in (z, calls ++ [mk_call]).

(** The state after a part of the function: the temporary name is a string, and
    the calls [calls] have been made since [w]. *)
Definition progress (l : loc) (w w' : world) (calls : list call_t) : Prop :=
  fstep ∅ w w' ∧ (∃ bs, str_rep w' l bs) ∧ trace (sys w') = calls ++ trace (sys w).

Section write.
Context (w : world) (l pp dp : loc) (tmp p d : bytes) (fd : Z) (wr cl rn : sysret)
  (rest : list sysret).
Hypothesis Hr : ready w.
Hypothesis Hl : str_rep w l tmp.
Hypothesis Hp : str_rep w pp p.
Hypothesis Hd : str_rep w dp d.
Hypothesis Hne : tmp ≠ [] ∧ p ≠ [] ∧ d ≠ [].
Hypothesis Ha : answers (sys w) = wr :: cl :: rn :: rest.

Lemma save_ok :
  let '(z, calls) := save_outcome p d tmp fd (sys_ret wr) (sys_ret cl) (sys_ret rn) in
  wp (try_ (file_puts fd (Some dp));;
      c ← syscall "close" [AInt fd];
      when (sys_ret c <? 0) (throw_errno "close(2)");;
      try_ (file_rename (Some l) (Some pp)))
    (λ _ w', z = 0 ∧ progress l w w' calls)
    (λ x w', z = -1 ∧ (x = Leave (-1) ∨ x = Catch) ∧ progress l w w' calls) w.
Proof.
  destruct Hne as (Hn1 & Hn2 & Hn3). unfold save_outcome.
  assert (∀ w1 q t, fstep ∅ w w1 → str_rep w q t → str_rep w1 q t) as Hkeep
    by (intros w1 q t F; by apply (fstep_rep ∅ w w1)).
  destruct (Z.ltb_spec (sys_ret wr) 0) as [Hwr|Hwr].
  { wp_next. apply wp_try. wp_call file_puts_ok. intros r w1 (-> & Hs1 & F1).
    rewrite (proj2 (Z.ltb_lt _ _) Hwr). simpl. split; [done|]. split; [by left|].
    split; [done|]. split; [eexists; by eapply Hkeep|]. by rewrite Hs1. }
  apply Z.ltb_ge in Hwr. destruct (Z.ltb_spec (sys_ret cl) 0) as [Hcl|Hcl].
  - wp_next. apply wp_try. wp_call file_puts_ok. intros r w1 (-> & Hs1 & F1). rewrite Hwr.
    simpl. wp_next. eapply wp_syscall; [apply F1|rewrite Hs1; simpl; by rewrite Ha|]. intros w2 Hs2 _ F2.
    rewrite (proj2 (Z.ltb_lt _ _) Hcl). simpl. split; [done|]. split; [by right|].
    split; [by eapply fstep_trans|]. split; [|by rewrite Hs2, Hs1].
    eexists. eapply Hkeep; [by eapply fstep_trans|done].
  - apply Z.ltb_ge in Hcl.
    wp_next. apply wp_try. wp_call file_puts_ok. intros r w1 (-> & Hs1 & F1). rewrite Hwr.
    simpl. wp_next. eapply wp_syscall; [apply F1|rewrite Hs1; simpl; by rewrite Ha|]. intros w2 Hs2 _ F2.
    rewrite Hcl. simpl. apply wp_try. pose proof (fstep_trans _ _ _ _ F1 F2) as F12.
    wp_call two_paths_ok; [apply F2|rewrite Hs2, Hs1; simpl; by rewrite Ha|].
    intros r w3 (-> & Hs3 & F3). pose proof (fstep_trans _ _ _ _ F12 F3) as F13.
    assert (progress l w w3 [rename_call tmp p; close_call fd; write_call fd d]) as HP.
    { split; [done|]. split; [eexists; by eapply Hkeep|]. by rewrite Hs3, Hs2, Hs1. }
    destruct (sys_ret rn <? 0); simpl; [split; [done|split; [by left|done]]|done].
Qed.

End write.

Lemma file_write_ok w pp dp p d mk wr cl rn rest E :
  ready w → str_rep w pp p → str_rep w dp d → p ≠ [] → d ≠ [] →
  answers (sys w) = mk :: wr :: cl :: rn :: rest →
  nonul (sys_data mk) → sys_data mk ≠ [] → Z.of_nat (length (sys_data mk)) < STRING_MAX →
  wp (file_write (Some pp) (Some dp))
    (λ r w', (r, trace (sys w')) = (let '(z, calls) :=
       write_outcome p d (sys_data mk) (sys_ret mk) (sys_ret wr) (sys_ret cl) (sys_ret rn) in
       (z, calls ++ trace (sys w))) ∧ fstep ∅ w w') E w.
Proof.
  intros Hr Hp Hd Hpn Hdn Ha Hm Hmn Hml. unfold write_outcome.
  apply wp_func, wp_auto_str_sys; [done|]. intros l w1 Hle Hl S1.
  pose proof (sstep_ready _ _ _ S1) as R1. apply sstep_fstep in S1 as F1.
  assert (sys w1 = sys w) as Hs1 by apply S1.
  pose proof (str_rep_lt _ _ _ (proj1 Hr) Hp). pose proof (str_rep_lt _ _ _ (proj1 Hr) Hd).
  assert (∀ w2 q t, q ≠ l → fstep {[l]} w1 w2 → str_rep w q t → str_rep w2 q t) as Hkeep.
  { intros w2 q t Hq F Ht. apply (fstep_rep {[l]} w1 w2); [done|done|set_solver|].
    by apply (fstep_rep ∅ w w1). }
  assert (∀ w4, fstep {[l]} w1 w4 → fstep ∅ w w4) as Hforget.
  { intros w4 F4. apply (fstep_fresh ∅ l); [done|done|]. rewrite union_empty_r_L.
    eapply fstep_trans; [eapply fstep_mono; [apply empty_subseteq|exact F1]|exact F4]. }
  assert (∀ w4 w5, fstep {[l]} w1 w4 → sstep {[l]} w4 w5 → fstep ∅ w w5) as Hend.
  { intros w4 w5 F4 S5. apply Hforget. eapply fstep_trans; [exact F4|by apply sstep_fstep]. }
  apply wp_body. wp_next. eapply wp_syscall; [done|by rewrite Hs1|].
  intros w2 Hs2 _ F2. rewrite Hs1 in Hs2. pose proof (proj1 F2) as R2.
  assert (str_rep w2 l []) as Hl2 by (by apply (fstep_rep ∅ w1 w2)).
  wp_next. destruct (sys_ret mk <? 0).
  { simpl. split; [done|]. split; [by eexists|].
    intros w3 S3. split; [|eapply Hend; [eapply fstep_mono; [apply empty_subseteq|exact F2]|exact S3]].
    destruct S3 as (_ & _ & [_ _ _ _ ->]). by rewrite Hs2. }
  apply wp_ret. wp_next. wp_try_call str_cpy_ok; [by apply cstr_at_lit|done|].
  intros r w3 (-> & Hl3 & S3). cbn. pose proof (sstep_ready _ _ _ S3) as R3.
  assert (fstep {[l]} w1 w3) as F13.
  { eapply fstep_trans; [by eapply fstep_mono, F2|by apply sstep_fstep]. }
  assert (sys w3 = heard mk_call mk (sys w)) as Hs3 by (etrans; [apply S3|exact Hs2]).
  pose proof (save_ok w3 l pp dp (sys_data mk) p d (sys_ret mk) wr cl rn rest) as Hsave.
  destruct (save_outcome _ _ _ _ _ _ _) as [z calls].
  eapply wp_mono; [apply Hsave; [done|done|apply Hkeep; [lia|done|done]|apply Hkeep; [lia|done|done]|
    done|rewrite Hs3; simpl; by rewrite Ha]| |].
  - intros [] w4 (-> & F4 & Hl4 & Ht4). split; [apply F4|]. split; [done|].
    intros w5 S5. split; [|eapply Hend; [eapply fstep_trans; [exact F13|eapply fstep_mono; [apply empty_subseteq|exact F4]]|exact S5]].
    destruct S5 as (_ & _ & [_ _ _ _ ->]). by rewrite Ht4, Hs3, <- app_assoc.
  - intros x w4 (-> & Hx & F4 & Hl4 & Ht4).
    assert (trace (sys w4) = (calls ++ [mk_call]) ++ trace (sys w)) as Ht
      by (by rewrite Ht4, Hs3, <- app_assoc).
    destruct Hx as [-> | ->]; simpl; [split; [by rewrite Ht|]|].
    + apply Hforget. eapply fstep_trans; [exact F13|eapply fstep_mono; [apply empty_subseteq|exact F4]].
    + split; [apply F4|]. split; [done|].
      intros w5 S5. split; [|eapply Hend; [eapply fstep_trans; [exact F13|eapply fstep_mono; [apply empty_subseteq|exact F4]]|exact S5]].
      destruct S5 as (_ & _ & [_ _ _ _ ->]). by rewrite Ht.
Qed.

(** * Listing a directory *)

Lemma wp_syscall_eq w name args r rest (Q : sysret → world → Prop) E :
  answers (sys w) = r :: rest → Q r (upd_sys (heard (name, args) r) w) →
  wp (syscall name args) Q E w.
Proof.
  intros Ha HQ. unfold wp, syscall. rewrite Ha. unfold upd_sys, heard in HQ.
  rewrite Ha in HQ. exact HQ.
Qed.

Lemma ready_sys w f : ready w → ready (upd_sys f w).
Proof. intros H. by apply (fstep_sys w f). Qed.

Lemma seg_same k w w' p es q : ents w' = ents w → seg k w p es q → seg k w' p es q.
Proof.
  intros He. revert p. induction es as [|[n s] es IH]; [done|]. intros p (H & Hs). simpl.
  rewrite He. split; [done|by apply IH].
Qed.

(** Lists do not depend on files and the system. *)
Lemma list_rep_same k w w' l es ss :
  lists w' = lists w → ents w' = ents w → (∀ p t, str_rep w p t → str_rep w' p t) →
  list_rep k w l es ss → list_rep k w' l es ss.
Proof.
  intros Hl He Ht [H1 H2 H3 H4 H5 H6].
  split; [by rewrite Hl|by eapply seg_same|done|done| |done].
  eapply Forall2_impl; [exact H5|]. intros e t. apply Ht.
Qed.

Lemma list_rep_sys k w f l es ss : list_rep k w l es ss → list_rep k (upd_sys f w) l es ss.
Proof. by apply list_rep_same. Qed.

(** A function with a [finally] block and no [catch] block. *)
Lemma wp_labels b fin Q E w :
  wp b (λ _ w', wp fin (λ _ w2, Q 0 w2) E w')
    (λ x w', match x with
       | Leave z => E (Leave z) w'
       | Finally z => wp fin (λ _ w2, Q z w2) E w'
       | Catch => wp fin (λ _ w2, Q (-1) w2) E w'
       end) w →
  wp (labels b (mret tt) fin) Q E w.
Proof.
  unfold wp, labels. destruct (b w) as [? w1|[z|z|] w1| |]; try done; simpl;
    by destruct (fin w1).
Qed.

(** What the system replies for the entries of a directory, and at its end. *)
Definition entry_reply : bytes → sysret := reply_data 0.
Definition end_reply (r : sysret) : Prop := 0 ≤ sys_ret r ∧ (sys_ret r ≠ 0 ∨ sys_data r = []).
Definition file_name (t : bytes) : Prop :=
  t ≠ [] ∧ nonul t ∧ Z.of_nat (length t) < STRING_MAX.

(** The first entry is expected to be [name]. *)
Definition unless (name t : bytes) : list bytes := if decide (t = name) then [] else [t].

Section ls.
Context (l : loc) (d : Z) (tr : list call_t).
Definition dir_call : call_t := ("readdir_r", [AInt d]).

(** [n] entries have been read, of which [ss] were kept; [rest] is to come. *)
Definition listing (n : nat) (ss : list bytes) (rest : list sysret) (w : world) : Prop :=
  ready w ∧ (∃ es, list_rep true w l es ss) ∧
  answers (sys w) = rest ∧ trace (sys w) = replicate n dir_call ++ tr.

Lemma readdir_ok n ss r rest w (Q : sysret → world → Prop) E :
  listing n ss (r :: rest) w → (∀ w', listing (S n) ss rest w' → Q r w') →
  wp (readdir_r d) Q E w.
Proof.
  intros (Hr & (es & Hl) & Ha & Ht) HQ. eapply wp_syscall_eq; [done|]. apply HQ.
  split; [by apply ready_sys|]. split; [exists es; by apply list_rep_sys|].
  simpl. by rewrite Ha, Ht.
Qed.

Lemma keep_entry_ok n ss rest w t (Q : unit → world → Prop) E :
  listing n ss rest w → file_name t → Z.of_nat (S (length ss)) < 2 ^ 32 →
  (∀ w', listing n (ss ++ [t]) rest w' → Q tt w') →
  wp (try_ (list_cat (Some l) (Some (CLit t 0)))) Q E w.
Proof.
  intros (Hr & (es & Hl) & Ha & Ht) (_ & Hn & Hlen) Hmax HQ. pose proof (texts_length _ _ _ (lr_texts _ _ _ _ _ Hl)).
  wp_try_call (list_cat_ok true w l es ss (CLit t 0) t); [by split; [apply cstr_at_lit|]|lia|].
  intros r w1 ((-> & m & s & _ & _ & Hl1) & S1). simpl. apply HQ.
  split; [ready|]. split; [by eexists|]. by rewrite (lf_sys _ _ _ _ (proj2 (proj2 S1))).
Qed.

Lemma read_past_ok n ss rest w name t (Q : unit → world → Prop) E :
  listing n ss (entry_reply t :: rest) w → file_name t → Z.of_nat (S (length ss)) < 2 ^ 32 →
  (∀ w', listing (S n) (ss ++ unless name t) rest w' → Q tt w') →
  wp (read_past (Some l) d name) Q E w.
Proof.
  intros HI Ht Hmax HQ. wp_next. eapply readdir_ok; [done|]. intros w1 H1. simpl.
  wp_next. apply wp_ret. wp_next. apply wp_when; [|intros _].
  { intros [=]%bool_decide_eq_true. by destruct Ht. }
  simpl. rewrite upto_nul_nonul by apply Ht. unfold unless in HQ.
  apply wp_when; intros Hd.
  - apply negb_true_iff, bool_decide_eq_false in Hd. rewrite decide_False in HQ by done.
    by eapply keep_entry_ok.
  - apply negb_false_iff, bool_decide_eq_true in Hd. rewrite decide_True in HQ by done.
    apply HQ. by rewrite app_nil_r.
Qed.

Lemma scan_ok n ss names e rest w fuel (Q : Z → world → Prop) E :
  listing n ss (map entry_reply names ++ e :: rest) w → end_reply e → Forall file_name names →
  Z.of_nat (length ss + length names) < 2 ^ 32 → (length names < fuel)%nat →
  (∀ w', listing (n + length names + 1) (ss ++ names) rest w' → Q (sys_ret e) w') →
  wp (loop fuel (λ _ : unit,
      r ← readdir_r d;
      if (sys_ret r =? 0) && negb (no_entry r) then
        try_ (list_cat (Some l) (Some (CLit (sys_data r) 0)));;
        mret (inl tt)
      else mret (inr (sys_ret r))) tt) Q E w.
Proof.
  intros HI He. revert n ss names w HI. induction fuel as [|fuel IH];
    intros n ss names w HI Hns Hmax Hf HQ; [lia|]. cbn [loop]. wp_next. wp_next.
  destruct names as [|t names]; cbn [map app length] in *.
  - eapply readdir_ok; [done|]. intros w1 H1.
    assert ((sys_ret e =? 0) && negb (no_entry e) = false) as ->.
    { destruct He as [_ [He|He]]; [by rewrite (proj2 (Z.eqb_neq _ _) He)|].
      unfold no_entry. by rewrite bool_decide_eq_true_2, andb_false_r. }
    apply wp_ret, wp_ret, HQ. by rewrite app_nil_r, Nat.add_0_r, Nat.add_1_r.
  - apply Forall_cons in Hns as [Ht Hns]. eapply readdir_ok; [done|]. intros w1 H1.
    unfold entry_reply at 1 2, no_entry. simpl. rewrite bool_decide_eq_false_2 by apply Ht. simpl.
    wp_next. eapply keep_entry_ok; [done|done|lia|]. intros w2 H2. apply wp_ret.
    eapply IH; [done|done|rewrite length_app; simpl; lia|lia|]. intros w3 H3. apply HQ.
    rewrite <- app_assoc in H3. by replace (n + S (length names) + 1)%nat with (S n + length names + 1)%nat by lia.
Qed.

End ls.

Lemma file_ls_ok w l es old q p d a b names e c rest E :
  ready w → list_rep true w l es old → str_rep w q p → q ∉ str_locs es →
  answers (sys w) =
    reply d :: entry_reply a :: entry_reply b :: map entry_reply names ++ e :: c :: rest →
  0 ≤ d → Forall file_name (a :: b :: names) → end_reply e → Z.of_nat (length names + 2) < 2 ^ 32 →
  wp (file_ls (Some l) (Some q)) (λ r w', r = 0 ∧
    (∃ es', list_rep true w' l es' (unless (B ".") a ++ unless (B "..") b ++ names)) ∧
    trace (sys w') = ("closedir", [AInt d]) ::
      replicate (length names + 3) (dir_call d) ++ ("opendir", [AStr p]) :: trace (sys w)) E w.
Proof.
  intros Hr Hl Hq Hqs Ha Hd Hns He Hmax.
  apply Forall_cons in Hns as [Hna [Hnb Hns]%Forall_cons]. apply wp_func. wp_next.
  wp_try_call list_truncate_ok. intros r w1 (-> & Hl1 & S1). simpl.
  pose proof (lf_sys _ _ _ _ (proj2 (proj2 S1))) as Hs1.
  wp_next. eapply wp_path_of; [keep|]. wp_next. eapply wp_syscall_eq; [by rewrite Hs1|].
  simpl. rewrite (proj2 (Z.ltb_ge _ _)) by done. apply wp_labels.
  assert (∀ s t : bytes, length (unless s t) ≤ 1)%nat as Hu.
  { intros s t. unfold unless. by case_decide; simpl; lia. }
  pose proof (Hu (B ".") a). pose proof (Hu (B "..") b).
  wp_next. eapply (read_past_ok l d _ 0 [] _ _ _ a); [|done|simpl; lia|].
  { split; [apply ready_sys; ready|]. split; [exists []; by apply list_rep_sys|].
    split; [simpl; rewrite Hs1, Ha; reflexivity|]. reflexivity. }
  intros w2 H2. wp_next. eapply read_past_ok; [exact H2|done|simpl in *; lia|]. intros w3 H3.
  wp_next. wp_next. eapply scan_ok; [exact H3|done|done|rewrite length_app; simpl in *; lia| |].
  { destruct H3 as (_ & _ & -> & _). rewrite length_app, length_map. simpl. lia. }
  intros w4 (R4 & (es4 & Hl4) & Ha4 & Ht4).
  apply wp_when; [rewrite Z.ltb_lt; destruct He; lia|intros _].
  wp_next. eapply wp_syscall_eq; [done|]. apply wp_ret. split; [done|].
  split; [exists es4; apply list_rep_sys; by rewrite <- app_assoc in Hl4|]. simpl. rewrite Ht4.
  simpl. do 2 f_equal. replace (length names + 3)%nat with (2 + length names + 1)%nat by lia.
  by rewrite Hs1.
Qed.

(** * File objects *)

Lemma wp_mod_file w f o g (Q : unit → world → Prop) E :
  files w !! f = Some o → Q tt (upd_files <[f := g o]> w) → wp (mod_file (Some f) g) Q E w.
Proof. apply wp_set_obj. Qed.

Lemma ready_files w f : ready w → ready (upd_files f w).
Proof. intros H. by apply (fstep_files w f). Qed.

(** The object after [file_open], its path string aside, and after
    [file_close]. *)
Definition opened (r flags : Z) (o : file_t) : file_t :=
  if r <? 0 then set_file_fd (-1) o else set_file_flags flags (set_file_fd r o).

Definition closed (c : sysret) (o : file_t) : file_t :=
  if sys_ret c <? 0 then o else set_file_fd (-1) o.

Lemma file_open_ok w f o q p fp old flags mode r rest E :
  ready w → files w !! f = Some o → file_path o = Some fp → str_rep w fp old →
  str_rep w q p → p ≠ [] → fp ≠ q → answers (sys w) = r :: rest →
  wp (file_open (Some f) (Some q) flags mode) (λ z w', z = (if sys_ret r <? 0 then -1 else 0) ∧
    fstep {[fp]} w w' ∧ files w' !! f = Some (opened (sys_ret r) flags o) ∧
    str_rep w' fp (if sys_ret r <? 0 then old else p) ∧ str_rep w' q p ∧
    sys w' = heard ("open", [AStr p; AInt flags; AInt mode]) r (sys w)) E w.
Proof.
  intros Hr Hf Hfp Hold Hq Hp Hne Ha. apply wp_func_body. wp_next. eapply wp_str_empty; [done|].
  rewrite bool_decide_eq_false_2 by done. wp_next. apply wp_when; [done|intros _].
  wp_next. eapply wp_path_of; [done|]. wp_next. eapply wp_syscall_eq; [done|].
  wp_next. eapply wp_mod_file; [done|]. unfold opened. wp_next. apply wp_when; intros Hs; rewrite Hs.
  { wp_next. eapply wp_mod_file; [apply lookup_insert_eq|]. apply wp_leave.
    split; [done|]. split; [|split; [by etrans; [apply lookup_insert_eq|]|done]].
    apply (fstep_mono ∅); [apply empty_subseteq|]. eapply fstep_trans; [by apply fstep_sys|].
    eapply fstep_trans; [by apply fstep_files, ready_sys|]. by apply fstep_files, ready_files, ready_sys. }
  wp_next. eapply wp_mod_file; [apply lookup_insert_eq|].
  wp_next. eapply wp_deref; [apply lookup_insert_eq|]. simpl. rewrite Hfp.
  wp_try_call (str_copy_ok _ fp q old p); [by do 2 apply ready_files; apply ready_sys|].
  intros z w1 (-> & Hp1 & S1). simpl. split; [done|]. split.
  { eapply fstep_trans; [|by apply sstep_fstep].
    apply (fstep_mono ∅); [apply empty_subseteq|]. eapply fstep_trans; [by apply fstep_sys|].
    eapply fstep_trans; [by apply fstep_files, ready_sys|]. by apply fstep_files, ready_files, ready_sys. }
  destruct S1 as (R1 & F1 & [_ _ _ Hfs Hsys]). rewrite Hfs, Hsys.
  split; [by apply lookup_insert_eq|]. split; [done|]. split; [|done].
  eapply (str_rep_frame {[fp]} _ w1); [|exact F1|set_solver|exact Hq].
  by do 2 apply ready_files; apply ready_sys.
Qed.

Lemma file_close_ok w f o c rest E :
  files w !! f = Some o → 0 ≤ file_fd o → answers (sys w) = c :: rest →
  wp (file_close (Some f)) (λ z w', z = (if sys_ret c <? 0 then -1 else 0) ∧
    files w' !! f = Some (closed c o) ∧
    sys w' = heard ("close", [AInt (file_fd o)]) c (sys w)) E w.
Proof.
  intros Hf Hfd Ha. apply wp_func_body. wp_next. eapply wp_deref; [done|].
  wp_next. apply wp_when; [rewrite Z.ltb_lt; lia|intros _]. wp_next. wp_next.
  eapply wp_syscall_eq; [done|]. unfold closed. apply wp_when; intros ->; [by apply wp_leave|].
  eapply wp_mod_file; [done|]. split; [done|]. split; [|done]. by apply lookup_insert_eq.
Qed.

(** A file without a descriptor needs no call. *)
Lemma file_close_closed w f o :
  files w !! f = Some o → file_fd o < 0 → file_close (Some f) w = Ok 0 w.
Proof.
  intros Hf Hfd. unfold file_close, func, body, labels, get_file, deref_obj, mbind, M_bind.
  rewrite Hf. unfold when. by rewrite (proj2 (Z.ltb_lt _ _) Hfd).
Qed.

Lemma file_lock_ok w f o type pid r rest E :
  files w !! f = Some o → answers (sys w) = pid :: r :: rest →
  wp (file_lock (Some f) type) (λ z w',
    if file_fd o <? 0 then z = -1 ∧ w' = upd_sys (heard ("getpid", []) pid) w else
    z = (if sys_ret r <? 0 then -1 else 0) ∧
    files w' !! f = Some (if sys_ret r <? 0 then o else set_file_locked true o) ∧
    trace (sys w') = ("fcntl", [AInt (file_fd o); AInt F_SETLKW; AInt type; AInt (sys_ret pid)]) ::
      ("getpid", []) :: trace (sys w)) E w.
Proof.
  intros Hf Ha. apply wp_func_body. wp_next. eapply wp_syscall_eq; [done|].
  wp_next. eapply wp_deref; [done|]. wp_next. apply wp_when; intros ->; [done|].
  wp_next. eapply wp_syscall_eq; [simpl; by rewrite Ha|].
  wp_next. apply wp_when; intros ->; [by apply wp_leave|].
  eapply wp_mod_file; [done|]. split; [done|]. split; [|done]. by apply lookup_insert_eq.
Qed.

(** * Path names *)

Definition legal_char (a : ascii) : Prop := a ∈ ftext.

#[export] Instance legal_char_dec a : Decision (legal_char a).
Proof. unfold legal_char. apply _. Defined.

Lemma strchr_ftext a : a ≠ NUL → strchr ftext a = bool_decide (legal_char a).
Proof.
  intros Ha. unfold strchr, legal_char. apply bool_decide_ext.
  rewrite elem_of_app, list_elem_of_singleton. naive_solver.
Qed.

Lemma valid_pathname_ok w c s E :
  cstr_at w c = Some s →
  wp (valid_pathname (Some c)) (λ r w', w' = w ∧
    r = if decide (Z.of_nat (length s) ≤ PATH_MAX ∧ Forall legal_char s) then 0 else -1) E w.
Proof.
  intros Hs. pose proof (cstr_at_nonul _ _ _ Hs) as Hn. apply wp_func_body.
  wp_next. apply wp_when; [done|intros _]. wp_next. eapply wp_c_str; [done|].
  wp_next. apply wp_when; intros Hmax.
  { apply Z.ltb_lt in Hmax. apply wp_throw. split; [done|]. rewrite decide_False by lia. done. }
  apply Z.ltb_ge in Hmax.
  eapply wp_loop with (n := length s) (I := λ n i w', w' = w ∧ 0 ≤ i ∧
    i = Z.of_nat (length s) - Z.of_nat n ∧ Forall legal_char (take (Z.to_nat i) s));
    [|split; [done|]; split_and!; [lia..|by rewrite take_0]|lia].
  intros n i w' (-> & Hi0 & Hi & Hpre). destruct (Z.ltb_spec i (Z.of_nat (length s))) as [Hlt|Hge].
  - wp_next. eapply wp_load; [done|lia|]. intros a Ha.
    rewrite lookup_app_l in Ha by lia. pose proof (Forall_lookup_1 _ _ _ _ Hn Ha) as Hna.
    wp_next. rewrite strchr_ftext by done. apply wp_when; intros Hb.
    + apply negb_true_iff, bool_decide_eq_false in Hb. apply wp_throw. split; [done|].
      rewrite decide_False; [done|]. intros [_ Hall]. by eapply Hb, Forall_lookup_1.
    + apply negb_false_iff, bool_decide_eq_true in Hb. apply wp_ret. exists (n - 1)%nat.
      split; [lia|]. split; [done|]. split; [lia|]. split; [lia|].
      replace (Z.to_nat (i + 1)) with (S (Z.to_nat i)) by lia.
      rewrite (take_S_r _ _ a) by done. apply Forall_app. split; [done|by constructor].
  - apply wp_ret. split; [done|]. rewrite decide_True; [done|]. split; [done|].
    rewrite <- (take_ge s (Z.to_nat i)) by lia. done.
Qed.
