(* ===== verification/NumberFacts.v ===== *)
(** Numbers as decimal texts: strtoul(3) on what "%u" prints, and
    [str_to_uint32]. *)

From S2P Require Import Prelude Types Machine Wp StringOps StringFacts StringMore EscapeFacts.
From S2P Require Import UidMapOps.

Open Scope Z_scope.

(** [errno = 0;] *)
Definition no_error (s : system) : system := mk_system (answers s) (trace s) 0.

Lemma digits_app l : forallb isdigit l = true → ∀ acc n r,
  digits acc n (l ++ r) = digits (fst (fst (digits acc n l))) (snd (fst (digits acc n l))) r.
Proof.
  induction l as [|c l IH]; [done|]. simpl. rewrite andb_true_iff. intros [Hc Hl] acc n r.
  rewrite Hc. by apply IH.
Qed.

Lemma digits_count l : forallb isdigit l = true → ∀ acc n,
  snd (fst (digits acc n l)) = (n + length l)%nat ∧ snd (digits acc n l) = [].
Proof.
  induction l as [|c l IH]; simpl; [intros; split; [lia|done]|].
  rewrite andb_true_iff. intros [Hc Hl] acc n.
  rewrite Hc. destruct (IH Hl (acc * 10 + digit_val c) (S n)) as [-> ->]. split; [lia|done].
Qed.

Lemma digit_char d : 0 ≤ d < 10 →
  isdigit (char_of_int (48 + d)) = true ∧ digit_val (char_of_int (48 + d)) = d.
Proof.
  intros H. assert (d ∈ [0; 1; 2; 3; 4; 5; 6; 7; 8; 9]) as Hin
    by (assert (d = 0 ∨ d = 1 ∨ d = 2 ∨ d = 3 ∨ d = 4 ∨ d = 5 ∨ d = 6 ∨ d = 7 ∨ d = 8 ∨ d = 9) by lia;
        set_solver).
  clear H. revert d Hin. apply Forall_forall. by repeat constructor.
Qed.

Lemma digits_rev_spec f n : (0 < f)%nat → 0 ≤ n < 10 ^ Z.of_nat f →
  let l := reverse (digits_rev f n) in
  forallb isdigit l = true ∧ fst (fst (digits 0 0 l)) = n ∧ (0 < length l)%nat.
Proof.
  revert n. induction f as [|f IH]; [lia|]. intros n _ Hn. cbn [digits_rev].
  pose proof (Z.mod_pos_bound n 10 ltac:(lia)) as Hm.
  destruct (digit_char (n mod 10) Hm) as [Hd Hv]. cbv zeta. rewrite reverse_cons.
  destruct (Z.ltb_spec n 10) as [Hlt|Hge].
  - rewrite reverse_nil. cbn. rewrite Hd, Hv. rewrite Z.mod_small by lia. split_and!; [done|cbn [fst]; lia|lia].
  - assert (0 < f)%nat by (destruct f; [simpl in Hn; lia|lia]).
    assert (0 ≤ n / 10 < 10 ^ Z.of_nat f) as Hq.
    { rewrite Nat2Z.inj_succ, Z.pow_succ_r in Hn by lia. split; [by apply Z.div_pos; lia|].
      apply Z.div_lt_upper_bound; lia. }
    destruct (IH (n / 10) ltac:(done) Hq) as (H1 & H2 & H3).
    rewrite forallb_app, H1, digits_app by done. cbn [forallb digits]. rewrite Hd, H2. cbn [fst].
    split_and!; [done| |rewrite length_app; lia]. rewrite Hv.
    pose proof (Z.div_mod n 10 ltac:(lia)). lia.
Qed.

Lemma isdigit_plain c : isdigit c = true → isspace c = false ∧ c ≠ "-"%char ∧ c ≠ "+"%char ∧ c ≠ NUL.
Proof. all_chars c; done. Qed.

(** strtoul(3) reads a text of decimal digits to its end. *)
Lemma strtoul_digits l :
  forallb isdigit l = true → (0 < length l)%nat → fst (fst (digits 0 0 l)) < 2 ^ 64 →
  0 ≤ fst (fst (digits 0 0 l)) →
  strtoul l = (fst (fst (digits 0 0 l)), false, []).
Proof.
  intros Hl Hlen Hmax Hmin. destruct l as [|c l]; [simpl in Hlen; lia|].
  pose proof Hl as Hl'. cbn [forallb] in Hl'. apply andb_true_iff in Hl' as [Hc _].
  destruct (isdigit_plain c Hc) as (H1 & H2 & H3 & _).
  destruct (digits_count (c :: l) Hl 0 0) as [Hn Hr].
  unfold strtoul, strto. simpl skip_space. rewrite H1. simpl opt_sign.
  rewrite !decide_False by done. destruct (digits 0 0 (c :: l)) as [[v n] rest].
  cbn [fst snd] in *. subst rest n. cbn [length Nat.add].
  unfold ULONG_MAX. rewrite (proj2 (Z.ltb_ge _ _)) by lia. by rewrite Z.mod_small by lia.
Qed.

Lemma str_to_uint32_digits w p l v E :
  str_rep w p l → l ≠ [] → strtoul l = (v, false, []) → v < 2 ^ 32 → 0 ≤ v →
  wp (str_to_uint32 (Some p)) (λ r w', r = (0, Some v) ∧ w' = upd_sys no_error w) E w.
Proof.
  intros Hp Hl Hs Hv Hv0. wp_next. wp_next. change (set_errno 0) with (modify (upd_sys no_error)).
  unfold wp at 1, modify. assert (str_rep (upd_sys no_error w) p l) as Hp1 by exact Hp.
  destruct (str_rep_get _ _ _ Hp1) as (b & sz & Hget & Hc & _).
  wp_next. eapply wp_deref; [done|]. wp_next. eapply wp_c_str; [done|]. rewrite Hs.
  wp_next. apply wp_when; [done|intros _]. wp_next. eapply wp_load; [done|lia|].
  intros a Ha. destruct l as [|c l]; [done|]. simpl in Ha. injection Ha as <-.
  pose proof (str_rep_nonul _ _ _ Hp) as [Hc0 _]%nonul_cons.
  rewrite bool_decide_eq_false_2 by done. simpl. wp_next.
  unfold wp at 1, get_errno. simpl. apply wp_ret.
  simpl. unfold UINT_MAX. rewrite (proj2 (Z.ltb_ge _ _)) by lia. apply wp_ret.
  by rewrite Z.mod_small by lia.
Qed.

(** A number that was printed with "%u" is read back. *)
Lemma str_to_uint32_print_ok w p n E :
  0 ≤ n < 2 ^ 32 → str_rep w p (format_u n) →
  wp (str_to_uint32 (Some p)) (λ r w', r = (0, Some n) ∧ w' = upd_sys no_error w) E w.
Proof.
  intros Hn Hp. unfold format_u in Hp. rewrite Z.mod_small in Hp by done.
  destruct (digits_rev_spec 10 n ltac:(lia) ltac:(simpl; lia)) as (H1 & H2 & H3).
  set (l := reverse (digits_rev 10 n)) in *.
  assert (l ≠ []) as Hl by (intros Heq; rewrite Heq in H3; simpl in H3; lia).
  apply (str_to_uint32_digits w p l n); [done|done| |lia|lia].
  rewrite strtoul_digits; rewrite ?H2; done || lia.
Qed.

(** The text of a number has only digits. *)
Lemma format_u_digits n : 0 ≤ n < 2 ^ 32 → forallb isdigit (format_u n) = true.
Proof.
  intros Hn. unfold format_u. rewrite Z.mod_small by done.
  by destruct (digits_rev_spec 10 n ltac:(lia) ltac:(simpl; lia)).
Qed.
