(* ===== verification/NetFacts.v ===== *)
(** Specifications of the conversions of addresses, of sockets and
    processes. *)

From S2P Require Import Prelude Types Machine Wp StringOps StringFacts StringMore ListOps ListRep.
From S2P Require Import ListFacts ListEdit ListText PasswdOps FileOps FileFacts UidMapOps InetOps.
From S2P Require Import DnsOps SocketOps SessionOps ProcessOps ServerOps.

Open Scope Z_scope.

(** * Objects of the network *)

Lemma wp_get_sock w k o (Q : socket_t → world → Prop) E :
  socks (net w) !! k = Some o → Q o w → wp (get_sock (Some k)) Q E w.
Proof. apply (wp_deref (λ w, socks (net w))). Qed.

Lemma wp_mod_sock w k o g (Q : unit → world → Prop) E :
  socks (net w) !! k = Some o → Q tt (upd_net (upd_socks <[k := g o]>) w) →
  wp (mod_sock (Some k) g) Q E w.
Proof. apply (wp_set_obj (λ w, socks (net w)) (in_net upd_socks)). Qed.

Lemma ready_net w f : ready w → ready (upd_net f w).
Proof. intros [[H1 H2 H3 H4 H5 H6 H7] Ho]. by repeat split. Qed.

Lemma loop_S {A B} n (f : A → M (A + B)) a :
  loop (S n) f a = (r ← f a; match r with inl a' => loop n f a' | inr b => mret b end).
Proof. done. Qed.

(** Only the system and the objects of the network may differ. *)
Record quiet (w w' : world) : Prop := {
  qt_strs : strs w' = strs w;
  qt_blocks : blocks w' = blocks w;
  qt_ents : ents w' = ents w;
  qt_lists : lists w' = lists w;
  qt_hashes : hashes w' = hashes w;
  qt_next : next_loc w' = next_loc w;
  qt_oom : oom w' = oom w;
}.

#[export] Instance quiet_refl : Reflexive quiet.
Proof. by split. Qed.

#[export] Instance quiet_trans : Transitive quiet.
Proof. intros w1 w2 w3 [] []. split; congruence. Qed.

Lemma quiet_net f w : quiet w (upd_net f w).
Proof. by split. Qed.

Lemma quiet_sys f w : quiet w (upd_sys f w).
Proof. by split. Qed.

#[export] Hint Resolve quiet_net quiet_sys : core.

Lemma quiet_rep w w' p t : quiet w w' → str_rep w p t → str_rep w' p t.
Proof.
  intros [H1 H2 _ _ _ _ _] (b & junk & [Hs Hb] & H). exists b, junk. split; [|done].
  split; [by rewrite H1|by rewrite H2].
Qed.

Lemma quiet_ready w w' : quiet w w' → ready w → ready w'.
Proof.
  intros [Q1 Q2 Q3 Q4 Q5 Q6 Q7] [[H1 H2 H3 H4 H5 H6 H7] Ho]. unfold owns in *.
  split; [|by rewrite Q7]. split; rewrite ?Q6, ?Q1, ?Q2, ?Q3, ?Q4, ?Q5; try done;
    intros *; unfold owns; rewrite Q1; [apply H6|apply H7].
Qed.

Lemma wp_ret_errno w (Q : Z → world → Prop) E : Q (errno (sys w)) w → wp get_errno Q E w.
Proof. done. Qed.

(** An automatic list of a function that calls the system. *)
Lemma wp_auto_list_sys w k (R : Z → world → Prop) E :
  ready w →
  (∀ l w1, (next_loc w ≤ l)%positive → list_rep true w1 l [] [] → lstep ∅ ∅ ∅ w w1 →
     wp (k (Some l)) (λ z w2, ready w2 ∧ ∃ es ss, list_rep true w2 l es ss ∧
       ∀ w3, lstep (str_locs es) (ent_locs es) {[l]} w2 w3 → R z w3) E w1) →
  wp (auto_list k) R E w.
Proof.
  intros Hr Hk. apply wp_auto. wp_call list_new_ok.
  intros [r p] w1 (-> & l & -> & Hl & Hrep & S1). simpl.
  eapply wp_conseq; [by apply Hk|]. intros z w2 (R2 & es & ss & Hrep2 & HR). cbn beta.
  wp_call (list_destroy_ok true w2 l es ss). intros [r p'] w3 (-> & -> & _ & S3). simpl. by apply HR.
Qed.

(** A step of a function that calls the system: it may modify the strings of [X]
    and the objects of the network. *)
Definition nstep (X : gset loc) (w w' : world) : Prop :=
  ready w' ∧ frame X w w' ∧ ents w' = ents w ∧ lists w' = lists w.

Lemma sstep_nstep X w w' : sstep X w w' → nstep X w w'.
Proof. by intros (R & F & []). Qed.

Lemma quiet_nstep X w w' : ready w → quiet w w' → nstep X w w'.
Proof.
  intros Hr Hq. split; [by eapply quiet_ready|]. destruct Hq as [H1 H2 H3 H4 H5 H6 H7].
  split; [|done]. split; [lia|by rewrite H1|by rewrite H2|].
  intros p b. unfold owns. rewrite H1. by left.
Qed.

Lemma nstep_trans X w1 w2 w3 : nstep X w1 w2 → nstep X w2 w3 → nstep X w1 w3.
Proof.
  intros (_ & F1 & E1 & L1) (R & F2 & E2 & L2). split; [done|].
  split; [by eapply frame_trans|]. split; congruence.
Qed.

Lemma nstep_rep X w w' p t : ready w → nstep X w w' → p ∉ X → str_rep w p t → str_rep w' p t.
Proof. intros [Hwf _] (_ & F & _) Hp. by apply (str_rep_frame X w w'). Qed.

Lemma texts_frame X w w' es ss :
  ready w → frame X w w' → str_locs es ## X → texts w es ss → texts w' es ss.
Proof.
  intros [Hwf _] F Hd H. revert Hd. induction H as [|[n s] t es ss Ht H IH]; intros Hd; [constructor|].
  rewrite str_locs_cons in Hd. constructor; [|apply IH; set_solver].
  eapply str_rep_frame; [done|done|set_solver|done].
Qed.

Lemma nstep_list k X w w' l es ss :
  ready w → nstep X w w' → str_locs es ## X → list_rep k w l es ss → list_rep k w' l es ss.
Proof.
  intros Hr (_ & F & HE & HL) HX [H1 H2 H3 H4 H5 H6].
  split; [by rewrite HL|by eapply seg_same|done|done|by eapply texts_frame|done].
Qed.

(** * Addresses *)

Lemma octet_bound a i : 0 ≤ octet a i < 256.
Proof.
  unfold octet. rewrite (Z.land_ones _ 8) by lia. apply Z.mod_pos_bound. lia.
Qed.

Lemma digits_base_stop b acc s r :
  digits_base b acc (s ++ B "." ++ r) = (λ '(v, t), (v, t ++ B "." ++ r)) (digits_base b acc s).
Proof.
  revert acc. induction s as [|c s IH]; intros acc; [done|]. cbn [app digits_base].
  destruct (hexval c) as [d|]; [|done]. destruct (d <? b); [apply IH|done].
Qed.

(** Numbers below 256 are read back from their digits. *)
Definition small_ok (o : Z) : bool :=
  bool_decide (nonul (format_u o)) && bool_decide (digits_base 10 0 (format_u o) = (o, [])) &&
  match format_u o with
  | c :: t => isdigit c && (negb (bool_decide (c = "0"%char)) || bool_decide (format_u o = B "0" ∧ o = 0))
  | [] => false
  end.

Lemma small_numbers : forallb (λ n, small_ok (Z.of_nat n)) (seq 0 256) = true.
Proof. by vm_compute. Qed.

Definition reads_back (o : Z) : Prop :=
  (∀ r, c_number (format_u o ++ B "." ++ r) = (o, B "." ++ r)) ∧ c_number (format_u o) = (o, []) ∧
  (∃ c t, format_u o = c :: t ∧ isdigit c = true) ∧ nonul (format_u o).

Lemma octet_number o : 0 ≤ o < 256 → reads_back o.
Proof.
  intros H. assert (small_ok o = true) as Hok.
  { rewrite <- (Z2Nat.id o) by lia. apply (proj1 (forallb_forall _ _) small_numbers).
    apply in_seq. lia. }
  unfold small_ok in Hok. rewrite !andb_true_iff, !bool_decide_eq_true in Hok.
  destruct Hok as [[Hn Hd] Hc]. unfold reads_back. destruct (format_u o) as [|c t] eqn:Ho; [done|].
  rewrite andb_true_iff, orb_true_iff, negb_true_iff, bool_decide_eq_true, bool_decide_eq_false in Hc.
  destruct Hc as [Hdc [Hz|[[= -> ->] ->]]].
  - assert (∀ s, c_number (c :: s) = digits_base 10 0 (c :: s)) as Hnum.
    { intros s. unfold c_number. by rewrite decide_False. }
    split; [|split; [by rewrite Hnum|split; [by do 2 eexists|done]]].
    intros r. change ((c :: t) ++ B "." ++ r) with (c :: (t ++ B "." ++ r)). rewrite Hnum.
    change (c :: (t ++ B "." ++ r)) with ((c :: t) ++ B "." ++ r). by rewrite digits_base_stop, Hd.
  - split; [by intros [|]|split; [done|split; [by do 2 eexists|done]]].
Qed.

(** One part before a dot, and the last part. *)
Lemma inet_parts_step dots acc o r : 0 ≤ o < 256 →
  inet_parts (S dots) acc (format_u o ++ B "." ++ r) = inet_parts dots (acc ++ [o]) r.
Proof.
  intros Ho. destruct (octet_number o Ho) as (Hr & _ & (c & t & Hc & Hd) & _).
  rewrite Hc. cbn [app inet_parts]. rewrite Hd.
  change (c :: t ++ B "." ++ r) with ((c :: t) ++ B "." ++ r). rewrite <- Hc, Hr.
  cbn -[Z.leb]. by rewrite (proj2 (Z.leb_le _ _)) by lia.
Qed.

Lemma inet_parts_last acc o : 0 ≤ o < 256 → inet_parts 0 acc (format_u o) = Some (acc ++ [o]).
Proof.
  intros Ho. destruct (octet_number o Ho) as (_ & Hr & (c & t & Hc & Hd) & _).
  rewrite Hc. cbn [inet_parts]. rewrite Hd, <- Hc, Hr. cbn -[Z.ltb Z.modulo].
  rewrite (proj2 (Z.ltb_lt _ _)) by lia. by rewrite Z.mod_small.
Qed.

Lemma from_octets_octets a : 0 ≤ a < 2 ^ 32 → from_octets (octets a) = a.
Proof.
  intros Ha. cbn -[octet Z.mul]. unfold octet.
  rewrite !(Z.land_ones _ 8), !Z.shiftr_div_pow2 by lia.
  change (2 ^ (8 * 0)) with 1. change (2 ^ (8 * 1)) with 256. change (2 ^ (8 * 2)) with (256 * 256).
  change (2 ^ (8 * 3)) with (256 * 256 * 256). change (2 ^ 8) with 256. rewrite Z.div_1_r.
  rewrite <- !Z.div_div by lia.
  pose proof (Z.div_mod a 256). pose proof (Z.div_mod (a / 256) 256). pose proof (Z.div_mod (a / 256 / 256) 256).
  rewrite (Z.mod_small (a / 256 / 256 / 256)); [lia|].
  split; [repeat apply Z.div_pos; lia|]. repeat (apply Z.div_lt_upper_bound; [lia|]). lia.
Qed.

Lemma inet_addr_ntop a : 0 ≤ a < 2 ^ 32 → inet_addr (inet_ntop a) = a.
Proof.
  intros Ha. unfold inet_addr. rewrite <- (from_octets_octets a Ha) at 2. unfold inet_ntop, octets.
  cbn [fmap list_fmap]. rewrite !inet_parts_step, inet_parts_last by apply octet_bound. done.
Qed.

Lemma inet_ntop_nonul a : nonul (inet_ntop a).
Proof.
  unfold inet_ntop, octets. cbn [fmap list_fmap].
  rewrite !nonul_app; repeat split;
    first [apply octet_number, octet_bound | by apply (bool_decide_unpack _)].
Qed.

Lemma length_digits_rev fuel n : (length (digits_rev fuel n) ≤ fuel)%nat.
Proof.
  revert n. induction fuel as [|f IH]; intros n; cbn [digits_rev length]; [done|].
  destruct (n <? 10); [cbn; lia|]. specialize (IH (n / 10)). lia.
Qed.

Lemma length_ntop_bound a : (length (inet_ntop a) ≤ 43)%nat.
Proof.
  assert (∀ o, length (format_u o) ≤ 10)%nat as H.
  { intros o. unfold format_u. rewrite length_reverse. apply length_digits_rev. }
  unfold inet_ntop, octets. cbn [fmap list_fmap]. rewrite !length_app. cbn [length B String.list_ascii_of_string].
  pose proof (H (octet a 0)). pose proof (H (octet a 1)). pose proof (H (octet a 2)).
  pose proof (H (octet a 3)). lia.
Qed.

Lemma length_inet_ntop a : Z.of_nat (length (inet_ntop a)) < STRING_MAX.
Proof. pose proof (length_ntop_bound a). unfold STRING_MAX. lia. Qed.

Lemma str_from_inet_ok w q bs a E :
  ready w → str_rep w q bs →
  wp (str_from_inet (Some q) a)
    (λ r w', r = 0 ∧ str_rep w' q (inet_ntop a) ∧ sstep {[q]} w w') E w.
Proof.
  intros Hr Hq. apply wp_func_body.
  wp_try_call (str_cpy_ok w q bs (CLit (inet_ntop a) 0) (inet_ntop a));
    [apply cstr_at_lit, inet_ntop_nonul|done|apply length_inet_ntop|].
  by intros r w' (-> & Hq' & S).
Qed.

Lemma to_signed_none a : 0 ≤ a < 2 ^ 32 → to_signed 32 a = -1 → a = 2 ^ 32 - 1.
Proof.
  intros Ha. unfold to_signed. rewrite Z.mod_small by lia. destruct (_ <? _); lia.
Qed.

Lemma str_to_inet_ok w q a E :
  str_rep w q (inet_ntop a) → 0 ≤ a < 2 ^ 32 →
  wp (str_to_inet (Some q)) (λ '(r, b) w', r = 0 ∧ b = a ∧ w' = w) E w.
Proof.
  intros Hq Ha. destruct (str_rep_get _ _ _ Hq) as (b & sz & Hs & Hc & _).
  wp_next. eapply wp_deref; [exact Hs|]. cbn [str_value]. wp_next. eapply wp_c_str; [exact Hc|].
  rewrite (inet_addr_ntop a Ha). wp_next.
  eapply (wp_conseq _ (λ r w', r = 0 ∧ w' = w)); [|by intros r w' [-> ->]].
  apply wp_func_body, wp_when; [|done]. intros H%Z.eqb_eq. apply (to_signed_none a Ha) in H. wp_next.
  wp_call (str_cmp_ok w q (inet_ntop a) (CLit (B "255.255.255.255") 0) (B "255.255.255.255")).
  intros r w' [-> ->]. rewrite H. apply wp_when; [|done]. by vm_compute.
Qed.

(** * Writing to a socket *)

Definition socket_write_call (o : socket_t) (s : bytes) : call_t :=
  ("write", [AInt (sock_fd o); AStr s]).

(** One call of write(2), and success if it took everything. *)
Lemma socket_write_ok w k o c s r rest E :
  socks (net w) !! k = Some o → cstr_at w c = Some s → s ≠ [] → answers (sys w) = r :: rest →
  wp (socket_write (Some k) (Some c) (Z.of_nat (length s)))
    (λ z w', z = (if sys_ret r =? Z.of_nat (length s) then 0 else -1) ∧
       w' = upd_sys (heard (socket_write_call o s) r) w) E w.
Proof.
  intros Hk Hc Hne Ha. assert (0 < Z.of_nat (length s)) by (destruct s; [done|cbn; lia]).
  apply wp_func_body. wp_next. apply wp_when; [lia|intros _].
  wp_next. eapply wp_get_sock; [exact Hk|]. wp_next. unfold write_from. wp_next.
  eapply wp_read_cstr; [exact Hc|lia|]. rewrite Nat2Z.id, firstn_all, omap_some.
  eapply wp_syscall_eq; [exact Ha|]. wp_next. apply wp_when; [|intros Hr%Z.leb_gt].
  - intros Hr%Z.leb_le. apply wp_leave. by rewrite (proj2 (Z.eqb_neq _ _)) by lia.
  - apply wp_when; [|by intros ->%negb_false_iff]. intros Hs%negb_true_iff. apply wp_throw. by rewrite Hs.
Qed.

(** * Accepting a client *)

Definition interruptions (n : nat) : list sysret := replicate n (reply_error EINTR).
Definition accept_call (o : socket_t) : call_t := ("accept", [AInt (sock_fd o)]).

(** The loop of [socket_accept], when [n] calls were interrupted before [r]. *)
Lemma accept_loop_ok n d k od okk r rest w fuel (Q : unit → world → Prop) E :
  socks (net w) !! d = Some od → socks (net w) !! k = Some okk → d ≠ k →
  answers (sys w) = interruptions n ++ r :: rest → (n < fuel)%nat →
  (sys_ret r < 0 → sys_errno r ≠ EINTR) →
  (∀ w', quiet w w' → socks (net w') !! d = Some (set_sock_fd od (sys_ret r)) →
     socks (net w') !! k = Some okk → answers (sys w') = rest →
     trace (sys w') = replicate (S n) (accept_call okk) ++ trace (sys w) →
     if 0 <=? sys_ret r then Q tt w' else
     if sys_errno r =? ECONNABORTED then
       E (Finally 0) (upd_net (upd_socks <[d := set_sock_connected (set_sock_fd od (sys_ret r)) 0]>) w')
     else E Catch w') →
  wp (loop fuel (λ _ : unit,
      r ← syscall "accept" [AInt (sock_fd okk)];
      mod_sock (Some d) (λ o, set_sock_fd o (sys_ret r));;
      if 0 <=? sys_ret r then mret (inr tt) else
      e ← get_errno;
      if e =? EINTR then mret (inl tt)
      else if e =? ECONNABORTED then mod_sock (Some d) (λ o, set_sock_connected o 0);; return_ 0
      else throw_errno "accept(2)") tt) Q E w.
Proof.
  revert w fuel od. induction n as [|n IH]; intros w [|fuel] od Hd Hk Hne Ha Hfuel Hr HQ; try lia;
    rewrite loop_S; wp_next; wp_next; (eapply wp_syscall_eq; [exact Ha|]); wp_next;
    (eapply wp_mod_sock; [exact Hd|]); set (w1 := upd_net _ _).
  - assert (socks (net w1) !! d = Some (set_sock_fd od (sys_ret r))) as Hd1 by apply lookup_insert_eq.
    specialize (HQ w1). cbn [replicate app] in *.
    assert (quiet w w1) as Hq by by split.
    assert (socks (net w1) !! k = Some okk) as Hk1 by (cbn; by rewrite lookup_insert_ne).
    specialize (HQ Hq Hd1 Hk1). cbn in HQ. rewrite Ha in HQ. specialize (HQ eq_refl eq_refl).
    destruct (0 <=? sys_ret r) eqn:H0; [exact HQ|]. apply Z.leb_gt in H0. wp_next. apply wp_ret_errno.
    cbn. rewrite (proj2 (Z.ltb_lt _ _)) by done.
    rewrite (proj2 (Z.eqb_neq _ _)) by auto. destruct (_ =? ECONNABORTED); [|exact HQ].
    wp_next. eapply wp_mod_sock; [exact Hd1|]. exact HQ.
  - cbn [sys_ret reply_error]. rewrite (proj2 (Z.leb_gt _ _)) by lia. wp_next. apply wp_ret_errno.
    change (errno (sys w1)) with EINTR. rewrite Z.eqb_refl. apply wp_ret. cbn beta iota.
    apply (IH w1 fuel (set_sock_fd od (-1))); try done; [apply lookup_insert_eq|by cbn; rewrite lookup_insert_ne|cbn; by rewrite Ha|lia|].
    intros w' Hq Hd' Hk' Ha' Ht'. apply HQ; try done; [by transitivity w1; [split|]|]. rewrite Ht'. cbn [trace sys w1 upd_net upd_sys heard].
    by rewrite (replicate_S_end (S n)), <- app_assoc.
Qed.

(** What [socket_accept] answers, and the socket [o] of the client. *)
Definition accept_result (okk : socket_t) (r g : sysret) : Z :=
  if sys_ret r <? 0 then if sys_errno r =? ECONNABORTED then 0 else -1
  else if (sock_family okk =? PF_INET) && (sys_ret g <? 0) then -1 else 0.

Definition client_of (od okk : socket_t) (r g : sysret) : socket_t :=
  let o := set_sock_fd od (sys_ret r) in
  if sys_ret r <? 0 then if sys_errno r =? ECONNABORTED then set_sock_connected o 0 else o else
  let o := set_sock_family (set_sock_direction (set_sock_connected o 1) CONNECT) (sock_family okk) in
  if (sock_family okk =? PF_INET) && negb (sys_ret g <? 0)
  then set_sock_remote o (addr_of_bytes (sys_data g)) else o.

Definition accept_calls (n : nat) (okk : socket_t) (r : sysret) : list call_t :=
  (if (0 <=? sys_ret r) && (sock_family okk =? PF_INET)
   then [("getpeername", [AInt (sys_ret r)])] else []) ++ replicate (S n) (accept_call okk).

Definition accept_done (n : nat) (d : loc) (od okk : socket_t) (r g : sysret) (w w' : world) : Prop :=
  socks (net w') !! d = Some (client_of od okk r g) ∧
  trace (sys w') = accept_calls n okk r ++ trace (sys w).

Lemma accept_done_sstep n d od okk r g w w1 w2 X :
  sstep X w1 w2 → accept_done n d od okk r g w w1 → accept_done n d od okk r g w w2.
Proof. intros (_ & _ & [_ _ _ _ S N]). unfold accept_done. by rewrite S, N. Qed.

(** The rest, when there is a client. *)
Lemma accept_client_ok n d k p od okk r g rest w0 w E :
  ready w → str_rep w p [] → d ≠ k → 0 ≤ sys_ret r →
  socks (net w) !! d = Some (set_sock_fd od (sys_ret r)) → socks (net w) !! k = Some okk →
  answers (sys w) = g :: rest → trace (sys w) = replicate (S n) (accept_call okk) ++ trace (sys w0) →
  let ok z w' := z = accept_result okk r g ∧ ready w' ∧ (∃ bs, str_rep w' p bs) ∧
    accept_done n d od okk r g w0 w' in
  wp (mod_sock (Some d) (λ o, set_sock_connected o 1);;
      mod_sock (Some d) (λ o, set_sock_direction o CONNECT);;
      o ← get_sock (Some k);
      mod_sock (Some d) (λ d, set_sock_family d (sock_family o));;
      when (sock_family o =? PF_INET) (
        d1 ← get_sock (Some d);
        r ← syscall "getpeername" [AInt (sock_fd d1)];
        when (sys_ret r <? 0) (throw_errno "getpeername(2)");;
        mod_sock (Some d) (λ o, set_sock_remote o (addr_of_bytes (sys_data r)));;
        d ← get_sock (Some d);
        try_ (str_from_inet (Some p) (sin_addr (sock_remote d)))))
    (λ _ w', ok 0 w') (bexit ok E) w.
Proof.
  intros Hr Hp Hne H0 Hd Hk Ha Ht ok.
  assert (∀ (f : socket_t → socket_t) w' (o : socket_t) (Q : unit → world → Prop) E',
    socks (net w') !! d = Some o → socks (net w') !! k = Some okk →
    (let w2 := upd_net (upd_socks <[d := f o]>) w' in
     socks (net w2) !! d = Some (f o) → socks (net w2) !! k = Some okk → Q tt w2) →
    wp (mod_sock (Some d) f) Q E' w') as Hmod.
  { intros f w' o Q E' Hd' Hk' HQ. eapply wp_mod_sock; [exact Hd'|]. apply HQ; cbn; [apply lookup_insert_eq|].
    by rewrite lookup_insert_ne. }
  assert (∀ f w', (str_rep w' p [] → str_rep (upd_net f w') p [])) as Hnet by (intros; by eapply quiet_rep).
  wp_next. eapply Hmod; [exact Hd|exact Hk|]. intros w1 Hd1 Hk1.
  wp_next. eapply Hmod; [exact Hd1|exact Hk1|]. intros w2 Hd2 Hk2.
  wp_next. eapply wp_get_sock; [exact Hk2|]. wp_next.
  eapply Hmod; [exact Hd2|exact Hk2|]. intros w3 Hd3 Hk3.
  assert (ready w3) as R3 by (do 3 apply ready_net; done).
  assert (str_rep w3 p []) as Hp3 by (do 3 apply Hnet; done).
  unfold ok, accept_result, accept_done, client_of, accept_calls. rewrite (proj2 (Z.leb_le _ _) H0).
  rewrite (proj2 (Z.ltb_ge _ _) H0). cbn [andb negb].
  apply wp_when; intros Hfam; rewrite Hfam; cbn [andb]; [|by eauto 10].
  wp_next. eapply wp_get_sock; [exact Hd3|]. wp_next. eapply wp_syscall_eq; [exact Ha|].
  set (w4 := upd_sys _ w3). wp_next. apply wp_when; intros Hg; rewrite Hg; cbn [negb].
  - apply wp_leave. cbn [bexit]. split; [done|]. split; [by apply ready_sys|].
    split; [exists []; by eapply quiet_rep|]. split; [exact Hd3|]. cbn. by rewrite Ht.
  - wp_next. eapply (Hmod _ w4); [exact Hd3|exact Hk3|]. intros w5 Hd5 Hk5.
    wp_next. eapply wp_get_sock; [exact Hd5|].
    assert (ready w5) as R5 by (by apply ready_net, ready_sys).
    assert (str_rep w5 p []) as Hp5 by (apply Hnet; by eapply quiet_rep).
    wp_try_call (str_from_inet_ok w5 p []).
    intros z w6 (-> & Hp6 & S6). cbn. split; [done|]. split; [ready|]. split; [by eexists|].
    destruct S6 as (_ & _ & [_ _ _ _ SS SN]). rewrite SS, SN. split; [exact Hd5|]. cbn. by rewrite Ht.
Qed.

Lemma socket_accept_ok n d k od okk r g rest w E :
  ready w → socks (net w) !! d = Some od → socks (net w) !! k = Some okk → d ≠ k →
  answers (sys w) = interruptions n ++ r :: g :: rest → (sys_ret r < 0 → sys_errno r ≠ EINTR) →
  wp (socket_accept (Some d) (Some k))
    (λ z w', z = accept_result okk r g ∧ accept_done n d od okk r g w w') E w.
Proof.
  intros Hr Hd Hk Hne Ha Herr. apply wp_func, wp_auto_str_sys; [done|]. intros p w1 _ Hp S1.
  pose proof S1 as (R1 & _ & [_ _ _ _ SS SN]).
  apply wp_body. wp_next. eapply wp_get_sock; [by rewrite SN|]. wp_next. apply wp_ret. wp_next.
  assert (∀ z w', z = accept_result okk r g ∧ ready w' ∧ (∃ bs, str_rep w' p bs) ∧
    accept_done n d od okk r g w w' →
    ready w' ∧ (∃ bs, str_rep w' p bs) ∧ ∀ w3, sstep {[p]} w' w3 →
      z = accept_result okk r g ∧ accept_done n d od okk r g w w3) as finish.
  { intros z w' (-> & R' & Hp' & Hdone). split; [done|]. split; [done|]. intros w3 S3. split; [done|].
    by eapply accept_done_sstep. }
  eapply (accept_loop_ok n d k od okk r (g :: rest) w1); try done;
    rewrite ?SN, ?SS; try done.
  { rewrite Ha, length_app. unfold interruptions. rewrite length_replicate. lia. }
  intros w2 Hq Hd2 Hk2 Ha2 Ht2. pose proof (quiet_ready _ _ Hq R1) as R2.
  pose proof (quiet_rep _ _ _ _ Hq Hp) as Hp2.
  destruct (Z.leb_spec 0 (sys_ret r)) as [H0|H0].
  - eapply wp_mono; [eapply (accept_client_ok n d k p od okk r g rest w w2)| |]; try done.
    + intros [] w3 H3. exact (finish 0 w3 H3).
    + intros [z|z|] w3 H3; [exact H3|exact (finish z w3 H3)|exact (finish (-1) w3 H3)].
  - assert (∀ w3, quiet w2 w3 → trace (sys w3) = trace (sys w2) →
      socks (net w3) !! d = Some (client_of od okk r g) →
      ready w3 ∧ (∃ bs, str_rep w3 p bs) ∧ accept_done n d od okk r g w w3) as Hend.
    { intros w3 Hq3 Ht3 Hd3. split; [by eapply quiet_ready|]. split; [exists []; by eapply quiet_rep|].
      split; [done|]. unfold accept_calls. by rewrite Ht3, Ht2, (proj2 (Z.leb_gt _ _) H0). }
    assert (accept_result okk r g = if sys_errno r =? ECONNABORTED then 0 else -1) as Hres.
    { unfold accept_result. by rewrite (proj2 (Z.ltb_lt _ _) H0). }
    assert (client_of od okk r g = if sys_errno r =? ECONNABORTED
      then set_sock_connected (set_sock_fd od (sys_ret r)) 0 else set_sock_fd od (sys_ret r)) as Hcl.
    { unfold client_of. by rewrite (proj2 (Z.ltb_lt _ _) H0). }
    destruct (sys_errno r =? ECONNABORTED); cbn [bexit fexit].
    + apply (finish 0 _). split; [done|]. apply Hend; [by split|done|]. rewrite Hcl. apply lookup_insert_eq.
    + apply (finish (-1) _). split; [done|]. apply Hend; [done|done|by rewrite Hcl].
Qed.

(** * fork(2) *)

(** [n] failures for which [process_create] waits, then the replies [rest]. *)
Fixpoint busy (n : nat) (rest : list sysret) : list sysret :=
  match n with
  | O => rest
  | S n => reply_error EAGAIN :: reply 0 :: busy n rest
  end.

Definition fork_call : call_t := ("fork", []).
Definition wait_calls : list call_t := [("sleep", [AInt 2]); fork_call].

(** The reply [r] ends the attempts, the [n]th of which it follows. *)
Definition last_attempt (n : nat) (r : sysret) : Prop :=
  sys_ret r < 0 → sys_errno r ≠ EAGAIN ∨ n = 30%nat.

Lemma concat_replicate_swap {A} n (x t : list A) :
  concat (replicate n x) ++ x ++ t = x ++ concat (replicate n x) ++ t.
Proof. induction n as [|n IH]; [done|]. cbn. by rewrite <- !app_assoc, IH. Qed.

Lemma fork_loop_ok n m r rest w fuel (Q : Z → world → Prop) E :
  answers (sys w) = busy n (r :: rest) → (n < fuel)%nat → (m + n ≤ 30)%nat → last_attempt (m + n) r →
  (∀ w', quiet w w' → net w' = net w → answers (sys w') = rest →
     trace (sys w') = fork_call :: concat (replicate n wait_calls) ++ trace (sys w) →
     if sys_ret r <? 0 then E (Leave (-1)) w' else Q (sys_ret r) w') →
  wp (loop fuel (λ retries,
      pid ← syscall "fork" [];
      if negb (sys_ret pid <? 0) then mret (inr (sys_ret pid)) else
      e ← get_errno;
      if (e =? EAGAIN) && (retries <? 30) then
        _ ← syscall "sleep" [AInt 2]; mret (inl (retries + 1))
      else throw "Unable to fork(2)") (Z.of_nat m)) Q E w.
Proof.
  revert m w fuel. induction n as [|n IH]; intros m w [|fuel] Ha Hfuel Hmn Hlast HQ; try lia;
    rewrite loop_S; cbn [busy] in Ha; wp_next; wp_next; (eapply wp_syscall_eq; [exact Ha|]);
    set (w1 := upd_sys _ w).
  - specialize (HQ w1 (quiet_sys _ _) eq_refl). cbn in HQ. rewrite Ha in HQ. specialize (HQ eq_refl eq_refl).
    destruct (sys_ret r <? 0) eqn:Hr; cbn [negb]; [|exact HQ]. wp_next. apply wp_ret_errno.
    apply Z.ltb_lt in Hr. replace (_ && _) with false; [exact HQ|]. symmetry. apply andb_false_iff.
    cbn. rewrite (proj2 (Z.ltb_lt _ _)) by done.
    destruct (Hlast Hr) as [H|H]; [left; by apply Z.eqb_neq|right; apply Z.ltb_ge; lia].
  - cbn [sys_ret reply_error negb Z.ltb Z.compare]. wp_next. apply wp_ret_errno.
    change (errno (sys w1)) with EAGAIN. rewrite Z.eqb_refl, (proj2 (Z.ltb_lt _ _)) by lia. cbn [andb].
    wp_next. eapply wp_syscall_eq; [by cbn; rewrite Ha|]. set (w2 := upd_sys _ w1). apply wp_ret. cbn beta iota.
    replace (Z.of_nat m + 1) with (Z.of_nat (S m)) by lia.
    apply IH; [cbn; by rewrite Ha|lia|lia|by rewrite <- Nat.add_succ_comm in Hlast|].
    intros w' Hq Hn Ha' Ht. apply HQ; [by transitivity w2; [split|]|by rewrite Hn|done|].
    rewrite Ht. change (trace (sys w2)) with (wait_calls ++ trace (sys w)).
    by rewrite concat_replicate_swap, app_assoc.
Qed.

Lemma process_create_ok n v x f r rest w E :
  vars (net w) !! v = Some x → answers (sys w) = busy n (r :: rest) → (n ≤ 30)%nat →
  last_attempt n r → sys_ret r ≠ 0 →
  wp (process_create (Some v) f)
    (λ z w', z = (if sys_ret r <? 0 then -1 else 0) ∧
       vars (net w') !! v = Some (if sys_ret r <? 0 then x else sys_ret r) ∧ answers (sys w') = rest ∧
       trace (sys w') = fork_call :: concat (replicate n wait_calls) ++ trace (sys w)) E w.
Proof.
  intros Hv Ha Hn Hlast H0. apply wp_func_body. wp_next.
  eapply (fork_loop_ok n 0 r rest w 32); [done|lia|lia|done|]. intros w' Hq Hnet Ha' Ht.
  destruct (Z.ltb_spec (sys_ret r) 0) as [Hr|Hr]; [by rewrite Hnet|]. wp_next.
  apply wp_when; [|intros H%Z.ltb_ge; lia]. intros _. rewrite is_null_some. cbn [negb when]. wp_next.
  eapply (wp_set_obj (λ w, vars (net w))); [by rewrite Hnet|]. apply wp_leave. cbn.
  by rewrite lookup_insert_eq.
Qed.

(** * The multiplexer *)

(** A server whose fields hold texts. *)
Definition server_texts (w : world) (srv : ptr) : Prop := ∃ p v a b c d ta tb tc td,
  srv = Some p ∧ servers (net w) !! p = Some v ∧
  srv_uid v = Some a ∧ srv_gid v = Some b ∧ srv_service v = Some c ∧ srv_address v = Some d ∧
  str_rep w a ta ∧ str_rep w b tb ∧ str_rep w c tc ∧ str_rep w d td.

Lemma server_dump_ok w srv : server_texts w srv → server_dump srv w = Ok 0 w.
Proof.
  intros (p & v & a & b & c & d & ta & tb & tc & td & -> & Hp & Ha & Hb & Hc & Hd & Ra & Rb & Rc & Rd).
  assert (wp (server_dump (Some p)) (λ z w', z = 0 ∧ w' = w) no_exit w) as H.
  { apply wp_func_body. wp_next. eapply wp_deref; [exact Hp|]. rewrite Ha, Hb, Hc, Hd.
    do 4 (wp_next; eapply wp_path_of; [done|]). by apply wp_ret. }
  by destruct (wp_ok _ _ _ H) as (z & w' & Hrun & -> & ->).
Qed.

(** Without a descriptor to read from, [examine] leaves the array. *)
Lemma examine_overrun `{Hooks} handler revents i w :
  0 < i → (∀ n, (n < length handler)%nat → pollfd_bit (nth n revents NUL) POLLIN = false) →
  Forall (server_texts w) handler → examine handler revents i w = Crash BadAccess.
Proof.
  intros Hi Hev Hsrv. unfold examine. rewrite Forall_lookup in Hsrv.
  set (step := λ '(n, j), _). assert (∀ m n fuel, (length handler = n + m)%nat → (m < fuel)%nat →
    loop fuel step (Z.of_nat n, 0) w = Crash BadAccess) as Hloop.
  { intros m. induction m as [|m IH]; intros n [|fuel] Hlen Hfuel; try lia; rewrite loop_S;
      unfold mbind at 1, M_bind at 1; unfold step at 1; cbn beta iota;
      rewrite (proj2 (Z.leb_le _ _)), (proj2 (Z.ltb_lt 0 i)) by lia; cbn [andb]; rewrite Nat2Z.id.
    - by rewrite lookup_ge_None_2 by lia.
    - destruct (handler !! n) as [srv|] eqn:Hs; [|apply lookup_ge_None in Hs; lia].
      rewrite Hev by lia. cbn beta iota. specialize (IH (S n) fuel ltac:(lia) ltac:(lia)).
      replace (Z.of_nat (S n)) with (Z.of_nat n + 1) in IH by lia.
      unfold mbind, M_bind, when, try_. destruct (_ || _); [|exact IH].
      unfold mbind, M_bind. rewrite (server_dump_ok _ _ (Hsrv _ _ Hs)). exact IH. }
  apply (Hloop (length handler) 0%nat); lia.
Qed.

(** The servers that have something to read, in the order of the array. *)
Fixpoint readable_servers (handler : list ptr) (revents : bytes) : list ptr :=
  match handler with
  | [] => []
  | srv :: rest =>
      if pollfd_bit (hd NUL revents) POLLIN then srv :: readable_servers rest (tail revents)
      else readable_servers rest (tail revents)
  end.

Definition no_errors (ev : ascii) : Prop :=
  pollfd_bit ev POLLERR = false ∧ pollfd_bit ev POLLHUP = false ∧ pollfd_bit ev POLLNVAL = false.

Section examine.
Context `{Hooks}.

Fixpoint accept_all (srvs : list ptr) : M unit :=
  match srvs with
  | [] => mret tt
  | srv :: rest => _ ← server_accept srv; accept_all rest
  end.

(** The traversal from the index [n] on, where [j] of [i] were accepted. *)
Definition accept_rest (srvs : list ptr) (i j : Z) : M Z :=
  accept_all (take (Z.to_nat (i - j)) srvs);;
  if i - j <=? Z.of_nat (length srvs) then mret i else crash_with BadAccess.

Lemma examine_loop handler revents i m n j fuel w :
  Forall no_errors revents → (length handler = n + m)%nat → (S m < fuel)%nat → j ≤ i →
  loop fuel (λ '(n, j),
    if (n <=? Z.of_nat (length handler)) && (j <? i) then
      match handler !! Z.to_nat n with
      | None => crash_with BadAccess
      | Some srv =>
          let ev := nth (Z.to_nat n) revents NUL in
          if pollfd_bit ev POLLIN then _ ← server_accept srv; mret (inl (n + 1, j + 1))
          else
            when (pollfd_bit ev POLLERR || pollfd_bit ev POLLHUP || pollfd_bit ev POLLNVAL)
              (try_ (server_dump srv));;
            mret (inl (n + 1, j))
      end
    else mret (inr j)) (Z.of_nat n, j) w =
  accept_rest (readable_servers (drop n handler) (drop n revents)) i j w.
Proof.
  intros Hev. revert n j fuel w. induction m as [|m IH]; intros n j [|fuel] w Hlen Hfuel Hj; try lia;
    rewrite loop_S; unfold mbind at 1, M_bind at 1; cbn beta iota.
  all: rewrite (proj2 (Z.leb_le _ _)) by lia; cbn [andb]; unfold accept_rest;
    destruct (Z.ltb_spec j i) as [Hlt|Hge];
    [|assert (i = j) as -> by lia; rewrite Z.sub_diag; cbn; by rewrite (proj2 (Z.leb_le 0 _)) by lia].
  - rewrite Nat2Z.id, lookup_ge_None_2 by lia. rewrite (drop_ge handler) by lia. cbn [readable_servers].
    rewrite take_nil. cbn. by rewrite (proj2 (Z.leb_gt _ _)) by lia.
  - rewrite Nat2Z.id. destruct (handler !! n) as [srv|] eqn:Hs; [|apply lookup_ge_None in Hs; lia].
    rewrite (drop_S _ _ _ Hs). cbn [readable_servers].
    assert (hd NUL (drop n revents) = nth n revents NUL ∧ tail (drop n revents) = drop (S n) revents) as [-> ->].
    { clear. revert n. induction revents as [|c r IHr]; intros [|n]; try done. apply IHr. }
    replace (Z.of_nat n + 1) with (Z.of_nat (S n)) by lia.
    destruct (pollfd_bit (nth n revents NUL) POLLIN).
    + replace (Z.to_nat (i - j)) with (S (Z.to_nat (i - (j + 1)))) by lia. cbn [take accept_all length].
      unfold mbind, M_bind. destruct (server_accept srv w) as [z w1|x w1| |]; try done. cbn beta iota.
      pose proof (IH (S n) (j + 1) fuel w1 ltac:(lia) ltac:(lia) ltac:(lia)) as He.
      etrans; [exact He|]. unfold accept_rest, mbind, M_bind.
      replace (i - j <=? Z.of_nat (S (length (readable_servers (drop (S n) handler) (drop (S n) revents)))))
        with (i - (j + 1) <=? Z.of_nat (length (readable_servers (drop (S n) handler) (drop (S n) revents)))); [done|].
      apply eq_true_iff_eq. rewrite !Z.leb_le. lia.
    + assert (no_errors (nth n revents NUL)) as (E1 & E2 & E3).
      { destruct (nth_in_or_default n revents NUL) as [Hin| ->]; [|done].
        rewrite Forall_forall in Hev. by apply Hev, list_elem_of_In. }
      rewrite E1, E2, E3. cbn [orb when]. unfold mbind at 1, M_bind at 1. cbn beta iota.
      exact (IH (S n) j fuel w ltac:(lia) ltac:(lia) Hj).
Qed.

Lemma examine_accept_rest handler revents i w :
  Forall no_errors revents → 0 ≤ i →
  examine handler revents i w = accept_rest (readable_servers handler revents) i 0 w.
Proof.
  intros Hev Hi. rewrite <- (drop_0 handler) at 2. rewrite <- (drop_0 revents) at 2.
  apply (examine_loop _ _ _ (length handler) 0%nat); [done|lia|lia|done].
Qed.
End examine.
