(* ===== verification/FileRead.v ===== *)
(** Reading: [str_read] from a descriptor and [file_read] of a whole file. *)

From S2P Require Import Prelude Types Machine Wp StringOps StringFacts StringMore ListOps ListRep.
From S2P Require Import ListFacts PasswdOps FileOps FileFacts NetFacts.

Open Scope Z_scope.

(** A reply of read(2) for at most [size] characters: an error, or data. *)
Definition read_reply (size : Z) (r : sysret) : Prop :=
  nonul (sys_data r) ∧
  (0 ≤ sys_ret r → sys_ret r = Z.of_nat (length (sys_data r)) ∧ sys_ret r ≤ size).

Definition read_call (fd size : Z) : call_t := ("read", [AInt fd; AInt size]).

(** The text read, and the result. *)
Definition read_text (r : sysret) : bytes := if sys_ret r <? 0 then [] else sys_data r.
Definition read_code (r : sysret) : Z :=
  if sys_ret r <? 0 then if sys_errno r =? EAGAIN then 1 else -1 else 0.

Lemma str_read_ok w q bs fd size r rest E :
  ready w → str_rep w q bs → 0 ≤ size < STRING_MAX → answers (sys w) = r :: rest → read_reply size r →
  wp (str_read (Some q) fd size) (λ z w', z = read_code r ∧ str_rep w' q (read_text r) ∧
    nstep {[q]} w w' ∧ files w' = files w ∧ sys w' = heard (read_call fd size) r (sys w)) E w.
Proof.
  intros Hr Hq Hsize Ha [Hnul Hret]. unfold STRING_MAX in Hsize. apply wp_func_body.
  wp_next. apply wp_when; [intros H%Z.ltb_lt; unfold STRING_MAX in H; lia|intros _]. wp_next.
  wp_try_call (str_truncate_ok w q bs). intros z w1 (-> & Hq1 & S1). cbn [Z.eqb].
  destruct Hq1 as (b & junk & Hc1 & _ & _). wp_next.
  apply wp_try. eapply wp_conseq.
  { apply (str_resize_cells w1 q b (cells_of [] ++ junk) 0 (size + 1)); [ready|exact Hc1|unfold STRING_MAX; lia]. }
  intros z w2 (-> & b' & Hc2 & S2). cbn [Z.eqb]. set (cs := resized _ _) in Hc2.
  assert (size < Z.of_nat (length cs)) as Hcs by (unfold cs; rewrite length_resized; lia).
  assert (ready w2) as R2 by ready.
  pose proof S1 as (_ & _ & [SE1 SL1 _ SF1 SS1 _]). pose proof S2 as (_ & _ & [SE2 SL2 _ SF2 SS2 _]).
  wp_next. eapply wp_syscall_eq; [by rewrite SS2, SS1|]. set (w3 := upd_sys _ w2).
  assert (nstep {[q]} w w3) as N3.
  { eapply nstep_trans; [by apply sstep_nstep|]. eapply nstep_trans; [by apply sstep_nstep|].
    by apply quiet_nstep, quiet_sys. }
  assert (ready w3) as R3 by apply N3.
  assert (sys w3 = heard (read_call fd size) r (sys w)) as Hs3 by (cbn; by rewrite SS2, SS1).
  assert (files w3 = files w) as Hf3 by (cbn; by rewrite SF2, SF1).
  assert (str_cells w3 q b' cs 0) as Hc3 by exact Hc2.
  wp_next. eapply wp_deref; [exact (proj1 Hc3)|]. unfold read_code, read_text. cbn [str_value].
  destruct (Z.ltb_spec (sys_ret r) 0) as [H0|H0].
  - wp_next. apply wp_ret_errno. rewrite Hs3. cbn [errno heard]. rewrite (proj2 (Z.ltb_lt _ _)) by done.
    assert (str_rep w3 q []) as Hq3.
    { destruct (resized_prefix (cells_of [] ++ junk) (size + 1)) as [tl Htl].
      apply (str_rep_of_cells w3 q b' [] (junk ++ tl)); [|constructor|done].
      rewrite app_assoc, <- Htl. exact Hc3. }
    destruct (sys_errno r =? EAGAIN); by apply wp_leave.
  - destruct (Hret H0) as [Hlen Hle]. rewrite take_ge by lia. wp_next.
    eapply wp_store; [exact Hc3|exact R3|lia|rewrite length_fmap; lia|].
    intros w4 Hc4 S4. apply wp_try. eapply wp_conseq.
    { eapply (str_set_len_cells w4 q b'); [ready|exact Hc4| |unfold STRING_MAX; lia].
      rewrite length_splice; [lia|rewrite length_fmap; lia]. }
    intros z w5 (-> & Hc5 & S5). cbn [Z.eqb]. split; [done|].
    pose proof S4 as (_ & _ & [_ _ _ SF4 SS4 _]). pose proof S5 as (_ & _ & [_ _ _ SF5 SS5 _]).
    split; [|split; [|by rewrite SF5, SF4, SS5, SS4]].
    + pose proof (append_cells [] (sys_data r) cs) as Happ. cbn [fmap list_fmap app length Nat.add] in Happ.
      rewrite Hlen, Nat2Z.id in Hc5. change (Z.to_nat 0) with 0%nat in Hc5. rewrite Happ in Hc5 by lia.
      eapply str_rep_of_cells; [exact Hc5|done|unfold STRING_MAX; lia].
    + eapply nstep_trans; [exact N3|]. eapply nstep_trans; by apply sstep_nstep.
Qed.

(** * File objects *)

Definition new_file (fp : loc) : file_t := mk_file_t (-1) 0 (Some fp) zero_stat false.

Lemma wp_calloc_file w z (Q : ptr → world → Prop) E :
  ready w →
  (∀ w1, files w1 !! next_loc w = Some z → fstep ∅ w w1 → sys w1 = sys w → Q (Some (next_loc w)) w1) →
  wp (calloc_obj upd_files z) Q E w.
Proof.
  intros Hr HQ. wp_next. apply wp_allocator; [done|]. apply HQ; simpl; [by rewrite lookup_insert_eq| |done].
  destruct Hr as [Hwf Hoom].
  split; [split; [split|done]|split]; simpl; try done; try (intros; apply Hwf; lia); try apply Hwf.
  - intros p b Ho. apply (wf_own_bound w Hwf) in Ho. lia.
  - lia.
  - intros p b H. by left.
Qed.

Lemma file_new_ok w E :
  ready w →
  wp (file_new None) (λ '(r, p) w', r = 0 ∧ ∃ f fp, p = Some f ∧ (next_loc w ≤ fp)%positive ∧
    files w' !! f = Some (new_file fp) ∧ str_rep w' fp [] ∧ fstep ∅ w w' ∧ sys w' = sys w) E w.
Proof.
  intros Hr. wp_next. apply wp_calloc_file; [done|]. intros w1 Hf1 F1 Hs1. cbn beta iota.
  set (f := next_loc w) in *. wp_next. eapply wp_mod_file; [exact Hf1|].
  wp_next. eapply wp_deref; [apply lookup_insert_eq|]. cbn [file_path set_file_fd].
  set (w2 := upd_files _ w1). pose proof (fstep_files w1 <[f := set_file_fd (-1) (mk_file_t 0 0 None zero_stat false)]> (proj1 F1)) as F2.
  fold w2 in F2. wp_next. eapply wp_conseq; [apply str_new_ok, F2|].
  intros [r p] w3 (-> & l & -> & Hl & Hrep & S3). pose proof (sstep_fstep _ _ _ S3) as F3.
  destruct S3 as (R3 & _ & [_ _ _ Hf3 Hs3 _]). wp_next.
  eapply wp_mod_file; [rewrite Hf3; apply lookup_insert_eq|]. cbn [Z.eqb negb]. apply wp_ret.
  split; [done|]. exists f, l. split; [done|]. split.
  { pose proof (fr_next _ _ _ (proj2 F1)). pose proof (fr_next _ _ _ (proj2 F2)). lia. }
  split; [apply lookup_insert_eq|]. split; [exact Hrep|]. split; [|cbn; by rewrite Hs3].
  eapply fstep_trans; [exact F1|]. eapply fstep_trans; [exact F2|]. eapply fstep_trans; [exact F3|].
  by apply fstep_files.
Qed.

Lemma file_destroy_ok w f o fp t c rest E :
  ready w → files w !! f = Some o → file_path o = Some fp → str_rep w fp t → 0 ≤ file_fd o →
  answers (sys w) = c :: rest →
  wp (file_destroy (Some f)) (λ '(r, _) w', r = 0 ∧ fstep {[fp]} w w' ∧
    sys w' = heard (close_call (file_fd o)) c (sys w)) E w.
Proof.
  intros Hr Hf Hfp Ht Hfd Ha. wp_next. eapply wp_deref; [exact Hf|].
  wp_next. rewrite (proj2 (Z.leb_le _ _) Hfd). cbn [when]. wp_next.
  eapply (wp_conseq _ (λ _ w1, fstep ∅ w w1 ∧ files w1 !! f = Some (closed c o) ∧ strs w1 = strs w ∧
    blocks w1 = blocks w ∧ sys w1 = heard (close_call (file_fd o)) c (sys w))).
  { apply wp_func_body. wp_next. eapply wp_deref; [exact Hf|].
    wp_next. apply wp_when; [rewrite Z.ltb_lt; lia|intros _]. wp_next. wp_next.
    eapply wp_syscall_eq; [done|]. unfold closed. apply wp_when; intros ->.
    - apply wp_leave. split; [by apply fstep_sys|done].
    - eapply wp_mod_file; [exact Hf|]. split; [|split; [apply lookup_insert_eq|done]].
      eapply fstep_trans; [by apply fstep_sys|]. by apply fstep_files, ready_sys. }
  intros _ w1 (F1 & Hf1 & Hs1 & Hb1 & Hsys1). apply wp_ret. wp_next. eapply wp_deref; [exact Hf1|].
  replace (file_path (closed c o)) with (Some fp) by (unfold closed; by destruct (_ <? _)).
  assert (str_rep w1 fp t) as Ht1 by (eapply fstep_rep; [exact Hr|exact F1|apply not_elem_of_empty|exact Ht]).
  wp_next. eapply wp_conseq; [eapply (str_destroy_ok w1 fp t); [apply F1|exact Ht1]|].
  intros [r p] w2 (-> & -> & _ & S2). pose proof (sstep_fstep _ _ _ S2) as F2.
  destruct S2 as (R2 & _ & [_ _ _ Hf2 Hs2 _]).
  wp_next. eapply wp_mod_file; [rewrite Hf2; exact Hf1|]. cbn [Z.eqb negb]. wp_next.
  unfold wp at 1, free_obj. cbn [upd_files files]. rewrite lookup_insert_eq.
  split; [done|]. split; [|cbn; by rewrite Hs2].
  eapply fstep_trans; [eapply fstep_mono; [apply empty_subseteq|exact F1]|].
  eapply fstep_trans; [exact F2|].
  eapply fstep_mono; [apply empty_subseteq|]. eapply fstep_trans; [by apply fstep_files|].
  by apply fstep_files, ready_files.
Qed.

(** * A whole file *)

Definition open_call (p : bytes) (flags mode : Z) : call_t := ("open", [AStr p; AInt flags; AInt mode]).
Definition stat_call (p : bytes) : call_t := ("stat", [AStr p]).

(** The attributes of a file of a known type. *)
Definition stat_reply (s : sysret) : Prop :=
  0 ≤ sys_ret s ∧ is_Some (type_of_mode (st_mode (sys_stat s))).

Lemma file_fstat_ok w f o fp p s rest E :
  files w !! f = Some o → 0 ≤ file_fd o → file_path o = Some fp → str_rep w fp p →
  answers (sys w) = s :: rest → stat_reply s →
  wp (file_fstat (Some f)) (λ z w', z = 0 ∧ ∃ st, stat_size st = st_size (sys_stat s) ∧
    w' = upd_files <[f := set_file_st st o]> (upd_sys (heard (stat_call p) s) w)) E w.
Proof.
  intros Hf Hfd Hfp Ht Ha [Hret [t Hty]]. apply wp_func_body. wp_next. eapply wp_deref; [exact Hf|].
  rewrite Hfp. wp_next. apply wp_when; [rewrite Z.ltb_lt; lia|intros _]. wp_next. wp_next. wp_next.
  eapply wp_path_of; [exact Ht|]. eapply wp_syscall_eq; [done|].
  rewrite (proj2 (Z.ltb_ge _ _)) by done. cbv zeta. rewrite Hty. apply wp_ret.
  wp_next. eapply wp_mod_file; [exact Hf|]. apply wp_try, wp_ret. cbn [Z.eqb]. split; [done|]. eexists. by split; [|reflexivity].
Qed.

Definition reads (p : bytes) (op s rd : sysret) : list call_t :=
  (if sys_ret rd <? 0 then [] else [close_call (sys_ret op)]) ++
  [read_call (sys_ret op) (st_size (sys_stat s)); stat_call p; open_call p O_RDONLY 0].

(** The file is opened, and its size asked for. *)
Lemma open_and_fstat_ok w f q p fp op s rest E :
  ready w → files w !! f = Some (new_file fp) → file_path (new_file fp) = Some fp → str_rep w fp [] →
  str_rep w q p → p ≠ [] → fp ≠ q → answers (sys w) = op :: s :: rest → 0 ≤ sys_ret op → stat_reply s →
  wp (try_ (file_open (Some f) (Some q) O_RDONLY 0);; try_ (file_fstat (Some f))) (λ _ w', ∃ o,
    files w' !! f = Some o ∧ file_fd o = sys_ret op ∧ file_path o = Some fp ∧
    stat_size (file_st o) = st_size (sys_stat s) ∧ str_rep w' fp p ∧ fstep {[fp]} w w' ∧
    sys w' = heard (stat_call p) s (heard (open_call p O_RDONLY 0) op (sys w))) E w.
Proof.
  intros Hr Hf Hfp Hfp0 Hq Hp Hne Ha Hop Hs. wp_next. apply wp_try. eapply wp_conseq.
  { by eapply (file_open_ok w f (new_file fp) q p fp []). }
  intros z w1 (-> & F1 & Hf1 & Hp1 & _ & Hs1). unfold opened in Hf1.
  rewrite (proj2 (Z.ltb_ge _ _)) in * by done. cbn [Z.eqb]. apply wp_try. eapply wp_conseq.
  { eapply (file_fstat_ok w1 f _ fp p s); [exact Hf1|done|done|exact Hp1| |exact Hs]. by rewrite Hs1; cbn; rewrite Ha. }
  intros z w2 (-> & st & Hst & Hw2). cbn [Z.eqb].
  assert (fstep ∅ w1 w2) as F2.
  { rewrite Hw2. eapply fstep_trans; [apply fstep_sys, F1|]. apply fstep_files, ready_sys, F1. }
  eexists. split; [rewrite Hw2; apply lookup_insert_eq|]. split_and!; try done.
  - eapply fstep_rep; [apply F1|exact F2|apply not_elem_of_empty|exact Hp1].
  - eapply fstep_trans; [exact F1|eapply fstep_mono; [apply empty_subseteq|exact F2]].
  - by rewrite Hw2; cbn; rewrite Hs1.
Qed.

Lemma file_read_ok w d old q p op s rd cl rest E :
  ready w → str_rep w d old → str_rep w q p → p ≠ [] →
  answers (sys w) = op :: s :: rd :: cl :: rest → 0 ≤ sys_ret op → stat_reply s →
  0 ≤ st_size (sys_stat s) < STRING_MAX → read_reply (st_size (sys_stat s)) rd →
  wp (file_read (Some d) (Some q)) (λ z w', z = (if sys_ret rd <? 0 then -1 else 0) ∧
    str_rep w' d (read_text rd) ∧ fstep {[d]} w w' ∧ trace (sys w') = reads p op s rd ++ trace (sys w) ∧
    answers (sys w') = if sys_ret rd <? 0 then cl :: rest else rest) E w.
Proof.
  intros Hr Hd Hq Hp Ha Hop Hs Hsize Hrd. apply wp_func, wp_auto. unfold reads.
  eapply wp_conseq; [by apply file_new_ok|]. intros [r f'] w1 (-> & f & fp & -> & Hfp & Hf1 & Hp1 & F1 & Hs1).
  cbn [Z.eqb]. assert (d ≠ fp ∧ q ≠ fp) as [Hdf Hqf].
  { pose proof (str_rep_lt _ _ _ (proj1 Hr) Hd). pose proof (str_rep_lt _ _ _ (proj1 Hr) Hq). split; intros ->; lia. }
  assert (∀ v t, str_rep w v t → str_rep w1 v t) as K1
    by (intros v t; apply (fstep_rep ∅); [done|done|apply not_elem_of_empty]).
  apply wp_body, wp_two. eapply wp_conseq.
  { eapply (open_and_fstat_ok w1 f q p fp op s); eauto; [apply F1|by rewrite Hs1]. }
  intros _ w3 (o & Hf3 & Hfd & Hfp3 & Hst & Hp3 & F13 & Hs3).
  assert (fstep ∅ w w3) as F03.
  { apply (fstep_fresh ∅ fp); [done|lia|]. rewrite union_empty_r_L.
    eapply fstep_trans; [eapply fstep_mono; [apply empty_subseteq|exact F1]|exact F13]. }
  wp_next. eapply wp_deref; [exact Hf3|].
  rewrite Hst, Hfd. unfold STRING_MAX in *.
  wp_next. apply wp_when; [rewrite Z.ltb_lt; lia|intros _]. unfold size_t. rewrite (Z.mod_small _ (2 ^ 64)) by lia.
  apply wp_try. eapply wp_conseq.
  { eapply (str_read_ok w3 d old _ _ rd); [apply F03|eapply fstep_rep; [exact Hr|exact F03|apply not_elem_of_empty|exact Hd]|
      done|by rewrite Hs3, Hs1; cbn; rewrite Ha|exact Hrd]. }
  intros z w4 (-> & Hd4 & N4 & Hfl4 & Hs4).
  assert (fstep {[d]} w3 w4) as F4 by (split; apply N4).
  assert (fstep {[d]} w w4) as F04
    by (eapply fstep_trans; [eapply fstep_mono; [apply empty_subseteq|exact F03]|exact F4]).
  assert (trace (sys w4) = [read_call (sys_ret op) (st_size (sys_stat s)); stat_call p; open_call p O_RDONLY 0] ++ trace (sys w)) as Ht4
    by (by rewrite Hs4, Hs3, Hs1).
  assert (answers (sys w4) = cl :: rest) as Ha4 by (by rewrite Hs4, Hs3, Hs1; cbn; rewrite Ha).
  unfold read_code, read_text in *. destruct (sys_ret rd <? 0) eqn:Hneg.
  { by destruct (sys_errno rd =? EAGAIN). }
  cbn [Z.eqb]. eapply wp_conseq.
  { eapply (file_destroy_ok w4 f o fp p cl rest); [apply F4|by rewrite Hfl4|done| |by rewrite Hfd|exact Ha4].
    eapply fstep_rep; [apply F03|exact F4|by apply not_elem_of_singleton_2|exact Hp3]. }
  intros [z ?] w5 (-> & F5 & Hs5). cbn [Z.eqb]. split; [done|]. split; [|split; [|split]].
  - eapply fstep_rep; [apply F4|exact F5|by apply not_elem_of_singleton_2|exact Hd4].
  - apply (fstep_fresh _ fp); [done|lia|].
    eapply fstep_trans; [eapply fstep_mono; [apply union_subseteq_r|exact F04]|].
    eapply fstep_mono; [apply union_subseteq_l|exact F5].
  - rewrite Hs5. cbn [trace heard]. by rewrite Ht4, Hfd.
  - rewrite Hs5. cbn [answers heard]. by rewrite Ha4.
Qed.
