(* ===== verification/LineFacts.v ===== *)
(** The line reader of socket.c: the buffer of a socket as a list of lines of
    which the last may be incomplete ([buffer_rep], [reader]), and what
    [socket_readline] makes of it and of the data that arrive. *)

From S2P Require Import Prelude Types Machine Wp StringOps StringFacts StringMore ListOps ListRep.
From S2P Require Import EscapeFacts ListFacts ListEdit ListText PasswdOps FileOps FileFacts InetOps DnsOps SocketOps NetFacts.

Open Scope Z_scope.

(** * The list of a buffer *)

(** The first entry has no predecessor. *)
Definition first_prev (w : world) (es : entries) : Prop :=
  match es with
  | [] => True
  | (n, _) :: _ => ∃ e, ents w !! n = Some e ∧ ent_prev e = None
  end.

(** A list as [list_merge] leaves it: only the forward pointers can be relied
    upon, and the tail [tl] is lost when an empty list was merged last. *)
Record buffer_rep (w : world) (l : loc) (tl : ptr) (es : entries) (ss : list bytes) : Prop := {
  br_head : lists w !! l = Some (mk_list_t (Z.of_nat (length es)) (hd_ptr es None) tl);
  br_tail : tl = last_ptr es None ∨ tl = None;
  br_first : first_prev w es;
  br_seg : seg false w None es None;
  br_nodup : NoDup (fst <$> es);
  br_nodup_str : NoDup (snd <$> es);
  br_texts : texts w es ss;
  br_bound : Z.of_nat (length es) < 2 ^ 32;
}.

Lemma list_buffer w l es ss : list_rep true w l es ss → buffer_rep w l (last_ptr es None) es ss.
Proof.
  intros [Hh Hs Hn Hns Ht Hb]. split; try done; [by left| |by eapply seg_weak].
  destruct es as [|[n s] es]; [done|]. apply seg_cons in Hs as [(pv & Hn' & Hp) _].
  eexists. split; [exact Hn'|]. by rewrite (Hp eq_refl).
Qed.

Lemma first_prev_ext w w' es :
  (∀ m, m ∈ ent_locs es → ents w' !! m = ents w !! m) → first_prev w es → first_prev w' es.
Proof.
  destruct es as [|[n s] es]; [done|]. intros H (e & He & Hp). exists e. split; [|done].
  rewrite H; [done|]. rewrite ent_locs_cons. set_solver.
Qed.

(** The buffer is not affected by what leaves its parts alone. *)
Lemma buffer_rep_mono X N L w w' l tl es ss :
  ready w → lstep X N L w w' → buffer_rep w l tl es ss →
  l ∉ L → ent_locs es ## N → str_locs es ## X → buffer_rep w' l tl es ss.
Proof.
  intros Hr S [Hh Hl Hf Hs Hn Hns Ht Hb] HlL HN HX. pose proof S as (_ & F & G).
  assert (∀ m, m ∈ ent_locs es → ents w' !! m = ents w !! m) as Hsame.
  { intros m Hm. apply (lf_ents _ _ _ _ G); [|set_solver].
    eapply seg_lt; [done|exact Hs|by apply elem_of_ent_locs]. }
  split; try done.
  - rewrite (lf_lists _ _ _ _ G l); [done|by eapply ready_lt_lists|done].
  - by eapply first_prev_ext.
  - eapply seg_ext; [|done]. intros m Hm. by apply Hsame, elem_of_ent_locs.
  - by eapply texts_mono.
Qed.

Lemma buffer_locs w l tl es ss :
  ready w → buffer_rep w l tl es ss →
  (∀ x, x ∈ ent_locs es → (x < next_loc w)%positive) ∧
  (∀ x, x ∈ str_locs es → (x < next_loc w)%positive).
Proof.
  intros Hr [_ _ _ Hs _ _ Ht _]. split; intros x Hx.
  - eapply seg_lt; [done|exact Hs|by apply elem_of_ent_locs].
  - eapply texts_lt; [done|exact Ht|by apply elem_of_str_locs].
Qed.

(** ** Removing the first entry *)

Definition tail_after (n : loc) (tl : ptr) : ptr := if ptr_eqb tl (Some n) then None else tl.

Lemma tail_after_ok n s es tl :
  NoDup (fst <$> (n, s) :: es) → tl = last_ptr ((n, s) :: es) None ∨ tl = None →
  (tl = last_ptr ((n, s) :: es) None → tail_after n tl = last_ptr es None) ∧
  (tail_after n tl = last_ptr es None ∨ tail_after n tl = None).
Proof.
  intros Hnd Htl. assert (tail_after n (last_ptr ((n, s) :: es) None) = last_ptr es None) as H.
  { unfold tail_after. rewrite last_ptr_cons. destruct es as [|[m t] es _] using rev_ind.
    - cbn. unfold ptr_eqb. by rewrite bool_decide_true.
    - rewrite !last_ptr_snoc. cbn in *. unfold ptr_eqb. rewrite bool_decide_false; [done|].
      intros [= ->]. apply NoDup_cons in Hnd as [Hn _]. apply Hn.
      rewrite fmap_app. apply elem_of_app. right. by left. }
  split; [by intros ->|]. destruct Htl as [->| ->]; [by left|by right].
Qed.

Lemma buffer_delete_head w l tl n s es t ss E :
  ready w → buffer_rep w l tl ((n, s) :: es) (t :: ss) →
  wp (list_entry_delete (Some l) (Some n))
    (λ r w', r = 0 ∧ buffer_rep w' l (tail_after n tl) es ss ∧
       lstep {[s]} (ent_locs ((n, s) :: es)) {[l]} w w') E w.
Proof.
  intros Hr Hl. pose proof Hl as [Hh Htl (e & He & Hp) Hs Hnd Hnds Ht Hb].
  apply seg_cons in Hs as [(pv & Hn & _) Hsb]. rewrite Hn in He. injection He as <-.
  cbn in Hp. subst pv. inversion Ht as [|? ? ? ? Htn Ht2]; subst. simpl in Htn.
  pose proof Hnd as [Hn1 Hnd']%NoDup_cons. pose proof Hnds as [Hs1 Hnds']%NoDup_cons.
  cbn [fst snd] in Hn1, Hs1. rewrite <- elem_of_ent_locs in Hn1. rewrite <- elem_of_str_locs in Hs1.
  destruct (tail_after_ok n s es tl Hnd Htl) as [_ Htl'].
  apply wp_func_body. wp_next. eapply wp_get_ent; [done|]. cbn [ent_next ent_prev].
  wp_next. apply (wp_when_ent (ent_locs es)); [done| |].
  { intros m Hm. by apply (hd_ptr_in _ _ _ _ _ _ Hsb). }
  intros w1 L1 S1 H1. rewrite is_null_none. wp_next. apply wp_ret.
  wp_next. eapply wp_get_list; [by rewrite L1|]. cbn [list_head list_tail hd_ptr]. wp_next.
  eapply wp_when_list; [ready|by rewrite L1|]. intros w3 L3 E3 S3.
  wp_next. eapply wp_when_list; [ready|done|]. intros w4 L4 E4 S4.
  wp_next. eapply wp_mod_list; [ready|done|]. intros w5 L5 E5 T5 S5.
  assert (lists w5 !! l = Some (mk_list_t (Z.of_nat (length es)) (hd_ptr es None)
    (tail_after n tl))) as Hl5.
  { rewrite L5, lookup_insert_eq. unfold ptr_eqb, tail_after. rewrite (bool_decide_true _ eq_refl).
    fold (ptr_eqb tl (Some n)). destruct (ptr_eqb tl (Some n)); cbn;
      cbn in Hb; rewrite size_t_small by lia; do 2 f_equal; lia. }
  assert (ents w5 = ents w1) as E51 by congruence.
  assert (ents w5 !! n = Some (mk_list_entry_t (Some s) (hd_ptr es None) None)) as Hn5.
  { rewrite E51. erewrite H1; [|done]. rewrite decide_False; [done|].
    intros H. by apply (hd_ptr_in _ _ _ _ _ _ Hsb) in H as []. }
  assert (seg false w5 None es None) as Hseg.
  { eapply seg_weak, (seg_relink_prev false w w5 (Some n) None); [exact Hsb|done|].
    intros m e Hm He. rewrite E51. by apply H1. }
  assert (first_prev w5 es) as Hf5.
  { destruct es as [|[m sm] es]; [done|]. apply seg_cons in Hsb as [(pv & Hm & _) _].
    eexists. rewrite E51. split; [by apply H1|]. by rewrite decide_True. }
  assert (lstep ∅ (ent_locs ((n, s) :: es)) {[l]} w w5) as S15 by chain. clear S1 S3 S4 S5.
  assert (str_rep w5 s t) as Ht5 by (eapply lstep_rep; [done|exact S15|set_solver|done]).
  wp_try_call list_entry_destroy_ok; [ready|]. intros r w6 (-> & _ & S6). cbn.
  assert (lstep {[s]} (ent_locs ((n, s) :: es)) {[l]} w w6) as S by chain.
  split; [done|]. split; [|done].
  apply (buffer_rep_mono {[s]} {[n]} ∅ w5 w6); [ready|exact S6| |set_solver|set_solver|set_solver].
  split; try done.
  - eapply texts_mono; [done|exact S15|set_solver|done].
  - cbn in Hb. lia.
Qed.

(** [list_shift] of a buffer. *)
Lemma buffer_shift w l tl n s es t ss q bs E :
  ready w → buffer_rep w l tl ((n, s) :: es) (t :: ss) →
  str_rep w q bs → q ∉ str_locs ((n, s) :: es) →
  wp (list_shift (Some q) (Some l))
    (λ r w', r = 0 ∧ str_rep w' q t ∧ buffer_rep w' l (tail_after n tl) es ss ∧
       lstep {[q; s]} (ent_locs ((n, s) :: es)) {[l]} w w') E w.
Proof.
  intros Hr Hl Hq Hqs. pose proof Hl as [Hh Htl Hf Hs Hnd Hnds Ht Hb]. apply wp_func_body.
  pose proof Hs as [(pv & Hn & _) _]%seg_cons. inversion Ht as [|? ? ? ? Htn Ht2]; subst.
  assert (q ≠ s) by (autorewrite with nc_locs in Hqs; set_solver).
  wp_next. eapply wp_get_list; [done|]. cbn [list_count]. wp_next.
  apply wp_when; [simpl; lia|intros _]. wp_next. apply wp_try_out.
  eapply (wp_conseq _ (λ '(r, p) w', r = 0 ∧ p = Some n ∧ w' = w)).
  { wp_next. eapply wp_get_list; [done|]. cbn [list_count list_head hd_ptr].
    rewrite (proj2 (Z.leb_gt _ _)) by (simpl; lia). wp_next. apply wp_get_ents_fuel.
    rewrite loop_S. cbn beta iota. rewrite is_null_some. by wp_next. }
  intros [r p] w0 (-> & -> & ->). cbn. wp_next. eapply wp_get_ent; [done|]. wp_next.
  cbn [ent_value]. wp_try_call (str_move_ok w q s bs t). intros r w1 (-> & Hq1 & Hs1 & S1). cbn.
  assert (buffer_rep w1 l tl ((n, s) :: es) ([] :: ss)) as Hl1.
  { pose proof S1 as (_ & F & [SE SL _ _ _ _]).
    split; try done; [by rewrite SL|by eapply first_prev_ext; [by intros; rewrite SE|]
      |by eapply seg_same|].
    constructor; [done|]. eapply texts_mono; [done|exact (sstep_lstep _ ∅ ∅ _ _ S1)| |done].
    apply NoDup_cons in Hnds as [Hns _]. cbn [snd] in Hns. rewrite <- elem_of_str_locs in Hns.
    autorewrite with nc_locs in Hqs. set_solver. }
  wp_try_call (buffer_delete_head w1 l tl n s es [] ss); [ready|].
  intros r w2 (-> & Hl2 & S2). cbn in *.
  split; [done|]. split; [keep|]. split; [done|]. chain.
Qed.

(** ** Adding the entries of another list *)

Lemma nodup_join (es0 es : entries) :
  NoDup (fst <$> es0) → NoDup (fst <$> es) → ent_locs es ## ent_locs es0 → NoDup (fst <$> (es0 ++ es)).
Proof.
  intros H0 H Hd. rewrite fmap_app. apply NoDup_app. split_and!; [done| |done].
  intros x Hx%elem_of_ent_locs Hy%elem_of_ent_locs. set_solver.
Qed.

Lemma nodup_join_str (es0 es : entries) :
  NoDup (snd <$> es0) → NoDup (snd <$> es) → str_locs es ## str_locs es0 → NoDup (snd <$> (es0 ++ es)).
Proof.
  intros H0 H Hd. rewrite fmap_app. apply NoDup_app. split_and!; [done| |done].
  intros x Hx%elem_of_str_locs Hy%elem_of_str_locs. set_solver.
Qed.

(** The first assignment of [list_merge]: the entries become one chain. *)
Lemma buffer_link w d es0 ss0 es h (Q : unit → world → Prop) E :
  ready w → buffer_rep w d (last_ptr es0 None) es0 ss0 → h = hd_ptr es None → first_prev w es →
  ent_locs es ## ent_locs es0 →
  (∀ w1, lstep ∅ (ent_locs es0) {[d]} w w1 →
     lists w1 !! d = Some (mk_list_t (Z.of_nat (length es0)) (hd_ptr (es0 ++ es) None) (last_ptr es0 None)) →
     seg false w1 None es0 (hd_ptr es None) → first_prev w1 (es0 ++ es) →
     (∀ m, m ∈ ent_locs es → ents w1 !! m = ents w !! m) → Q tt w1) →
  wp (if Z.of_nat (length es0) =? 0
      then mod_list (Some d) (λ l, mk_list_t (list_count l) h (list_tail l))
      else mod_ent (last_ptr es0 None) (set_ent_next h)) Q E w.
Proof.
  intros Hr [Dh _ Df Ds Dnd Dnds Dt Db] -> Hf HN HQ. destruct es0 as [|[m sm] es0 _] using rev_ind.
  - cbn. eapply wp_mod_list; [done..|]. intros w1 L1 E1 _ S1.
    apply HQ; [chain|by rewrite L1, lookup_insert_eq|done| |by rewrite E1].
    eapply first_prev_ext; [|exact Hf]. by rewrite E1.
  - rewrite last_ptr_snoc, length_app in *. cbn in Db |- *.
    rewrite (proj2 (Z.eqb_neq _ _)) by lia. pose proof Ds as [_ [(pv & Hm & _) _]%seg_cons]%seg_app.
    eapply wp_mod_ent; [done..|]. intros w1 E1 L1 _ S1.
    assert (∀ m', m' ≠ m → ents w1 !! m' = ents w !! m') as Hother
      by (intros m' Hm'; rewrite E1; by apply lookup_insert_ne).
    assert (ents w1 !! m = Some (mk_list_entry_t (Some sm) (hd_ptr es None) pv)) as Hm1
      by (rewrite E1; apply lookup_insert_eq).
    apply HQ.
    + eapply lstep_weaken; [done|exact S1|within_tac|within_tac|within_tac].
    + rewrite L1, Dh. by rewrite <- app_assoc; destruct es0 as [|[]].
    + eapply seg_relink_next; [exact Ds|done|]. rewrite last_ptr_snoc. intros m' e _ He.
      destruct (decide (m' = m)) as [->|Hmm].
      * rewrite decide_True by done. rewrite Hm1. by rewrite Hm in He; simplify_eq.
      * rewrite decide_False by (cbn; congruence). by rewrite Hother.
    + destruct es0 as [|[m0 s0] es0]; destruct Df as (e0 & He0 & Hp0); cbn in *.
      * rewrite Hm in He0. injection He0 as <-. by eexists.
      * exists e0. split; [|done]. rewrite Hother; [done|]. intros ->.
        apply NoDup_cons in Dnd as [Hnd _]. apply Hnd. rewrite fmap_app. apply elem_of_app. right. by left.
    + intros m' Hm'. apply Hother. locs.
Qed.

Lemma buffer_merge w d es0 ss0 k es ss E :
  ready w → buffer_rep w d (last_ptr es0 None) es0 ss0 →
  buffer_rep w k (last_ptr es None) es ss → d ≠ k →
  ent_locs es ## ent_locs es0 → str_locs es ## str_locs es0 →
  Z.of_nat (length es0 + length es) < 2 ^ 32 →
  wp (list_merge (Some d) (Some k))
    (λ r w', r = 0 ∧ buffer_rep w' d (last_ptr es None) (es0 ++ es) (ss0 ++ ss) ∧
       list_rep true w' k [] [] ∧ lstep ∅ (ent_locs es0) {[d; k]} w w') E w.
Proof.
  intros Hr HD HK Hne HN HX Hmax.
  pose proof HD as [Dh _ Df Ds Dnd Dnds Dt Db]. pose proof HK as [Kh _ Kf Ks Knd Knds Kt Kb].
  apply wp_func_body. wp_next. eapply wp_get_list; [done|]. wp_next.
  eapply wp_get_list; [done|]. cbn [list_count list_head list_tail]. wp_next.
  eapply buffer_link; [done|exact HD|done..|]. intros w1 S1 L1 Ds1 F1 Hsame.
  assert (lists w1 !! k = Some (mk_list_t (Z.of_nat (length es)) (hd_ptr es None)
    (last_ptr es None))) as Kh1 by keep.
  wp_next. eapply wp_get_list; [done|]. wp_next. cbn.
  eapply (wp_mod_list w1 d); [ready|done|]. intros w2 L2 E2 _ S2. cbn in L2.
  eapply (wp_mod_list w2 k); [ready|by rewrite L2, lookup_insert_ne|]. intros w3 L3 E3 _ S3.
  assert (lstep ∅ (ent_locs es0) {[d; k]} w w3) as S by chain.
  assert (ents w3 = ents w1) as E31 by congruence.
  split; [done|]. split; [|split; [|done]].
  - split.
    + rewrite L3, lookup_insert_ne, L2, lookup_insert_eq by done.
      rewrite length_app, size_t_small by lia. do 2 f_equal. lia.
    + destruct es as [|e es]; [by right|left]. rewrite last_ptr_app. by apply last_ptr_ne.
    + eapply first_prev_ext; [|exact F1]. by rewrite E31.
    + apply seg_app. split; [eapply seg_ext; [|exact Ds1]; by rewrite E31|].
      eapply seg_weak, seg_ext; [|exact Ks]. intros m Hm%elem_of_ent_locs. by rewrite E31, Hsame.
    + by apply nodup_join.
    + by apply nodup_join_str.
    + apply Forall2_app; eapply texts_mono; [done|exact S|set_solver|done|done|exact S|set_solver|done].
    + rewrite length_app. lia.
  - split; try done; try constructor. by rewrite L3, lookup_insert_eq.
Qed.

(** * The text of a buffer *)

(** The lines of a buffer, with or without a line end after the last. *)
Definition buffer_text (fragment : bool) (ss : list bytes) : bytes :=
  if fragment then join [LF] ss else concat ((λ s, s ++ [LF]) <$> ss).

Definition ended (data : bytes) : bool := bool_decide (last data = Some LF).

Lemma join_concat d (ss : list bytes) t : join d (ss ++ [t]) = concat ((λ s, s ++ d) <$> ss) ++ t.
Proof.
  induction ss as [|s ss IH]; [done|]. cbn [app fmap list_fmap concat].
  destruct (ss ++ [t]) as [|u r] eqn:Hr; [by destruct ss|]. rewrite join_cons, IH.
  by rewrite <- !app_assoc.
Qed.

Lemma buffer_text_app b ss0 ss :
  ss ≠ [] → buffer_text b (ss0 ++ ss) = buffer_text false ss0 ++ buffer_text b ss.
Proof.
  intros Hne. destruct b; cbn; [|by rewrite fmap_app, concat_app].
  destruct ss as [|x ss _] using rev_ind; [done|].
  by rewrite app_assoc, !join_concat, fmap_app, concat_app, <- app_assoc.
Qed.

Lemma buffer_text_cons b t ss :
  (b = true → ss ≠ []) → buffer_text b (t :: ss) = t ++ LF :: buffer_text b ss.
Proof.
  intros H. destruct b; cbn.
  - destruct ss; [by destruct (H eq_refl)|]. done.
  - by rewrite <- app_assoc.
Qed.

Lemma buffer_text_head b f t ss : buffer_text b ((f ++ t) :: ss) = f ++ buffer_text b (t :: ss).
Proof. destruct b, ss; cbn; by rewrite <- ?app_assoc. Qed.

(** What is read is the text of its pieces. *)
Lemma split_on_sub d s t : t ∈ split_on d s → d ∉ t ∧ ∀ c, c ∈ t → c ∈ s.
Proof.
  revert t. induction s as [|c s IH]; intros t Ht; cbn in Ht.
  - apply list_elem_of_singleton in Ht as ->. by split; [apply not_elem_of_nil|].
  - case_decide as Hd.
    + apply elem_of_cons in Ht as [->|Ht]; [by split; [|intros ? ?%elem_of_nil]; try apply not_elem_of_nil|].
      destruct (IH t Ht) as [H1 H2]. split; [done|]. intros x Hx. right. by apply H2.
    + destruct (split_on_cons d s) as (t0 & ts & Hs). rewrite Hs in Ht, IH.
      apply elem_of_cons in Ht as [->|Ht].
      * destruct (IH t0) as [H1 H2]; [by left|]. split; [apply not_elem_of_cons; split; [by intros ->|done]|].
        intros x [->|Hx]%elem_of_cons; [by left|right; by apply H2].
      * destruct (IH t) as [H1 H2]; [by right|]. split; [done|]. intros x Hx. right. by apply H2.
Qed.

Lemma chomp1_absent c s : c ∉ s → chomp1 c s = s.
Proof.
  intros Hs. apply chomp1_other. intros H. apply Hs. apply last_Some in H as [y ->].
  apply elem_of_app. right. by left.
Qed.

Lemma pieces_plain data :
  CR ∉ data → pieces (int_of_char LF) data = split_on LF (chomp1 LF data).
Proof.
  intros Hcr. unfold pieces, chomp. change (char_of_int (int_of_char LF)) with LF.
  assert (CR ∉ chomp1 LF data) as Hc.
  { destruct (chomp1_prefix LF data) as [r Hr]. intros H. apply Hcr. rewrite Hr. apply elem_of_app. by left. }
  rewrite (chomp1_absent CR _ Hc). rewrite <- (list_fmap_id (split_on LF _)) at 2.
  apply Forall_fmap_ext_1, Forall_forall. intros t Ht. destruct (split_on_sub _ _ _ Ht) as [H1 H2].
  unfold trim. rewrite Z.eqb_refl. unfold chomp. rewrite (chomp1_absent LF t H1).
  apply chomp1_absent. intros H. by apply Hc, H2.
Qed.

Lemma split_on_long d s : d ∈ s → ∃ t u ts, split_on d s = t :: u :: ts.
Proof.
  induction s as [|c s IH]; intros H; [by apply elem_of_nil in H|]. cbn.
  destruct (split_on_cons d s) as (t0 & ts & Hs). rewrite Hs in *.
  case_decide as Hd; [by do 3 eexists|]. apply elem_of_cons in H as [->|H]; [done|].
  destruct (IH H) as (t & u & ts' & [= -> ->]). by do 3 eexists.
Qed.

Lemma split_text data ts :
  ts = split_on LF (chomp1 LF data) → LF ∈ data →
  buffer_text (negb (ended data)) ts = data ∧ Forall (λ t, LF ∉ t) ts ∧ ts ≠ [] ∧
  (ended data = false → ∃ t u r, ts = t :: u :: r).
Proof.
  intros -> Hin. destruct (split_on_cons LF (chomp1 LF data)) as (t0 & ts & Hs).
  split; [|split; [apply Forall_forall; intros t; apply split_on_sub|split; [by rewrite Hs|]]].
  - unfold ended. destruct (decide (last data = Some LF)) as [He|He].
    + rewrite bool_decide_true by done. apply last_Some in He as [x ->]. rewrite chomp1_snoc. cbn.
      destruct (split_on LF x) as [|y r _] eqn:Hx using rev_ind.
      { by destruct (split_on_cons LF x) as (? & ? & Hc); rewrite Hx in Hc. }
      rewrite fmap_app, concat_app. cbn. rewrite app_nil_r.
      rewrite <- (join_split LF x), Hx, join_concat. by rewrite <- !app_assoc.
    + rewrite bool_decide_false, chomp1_other by done. cbn. apply join_split.
  - unfold ended. rewrite bool_decide_eq_false. intros He. rewrite chomp1_other by done.
    by apply split_on_long.
Qed.

(** * Joining the fragment with the first piece *)

Lemma buffer_rep_last w w' l es n s ss x y :
  ready w → buffer_rep w l (Some n) (es ++ [(n, s)]) (ss ++ [x]) →
  sstep {[s]} w w' → str_rep w' s y → buffer_rep w' l (Some n) (es ++ [(n, s)]) (ss ++ [y]).
Proof.
  intros Hr [Hh Hl Hf Hs Hn Hns Ht Hb] S Hy. pose proof S as (_ & F & [SE SL _ _ _ _]).
  assert (length es = length ss) as Hlen.
  { apply Forall2_length in Ht. rewrite !length_app in Ht. cbn in Ht. lia. }
  apply Forall2_app_inv in Ht as [Ht _]; [|done].
  split; try done; [by rewrite SL|by eapply first_prev_ext; [by intros; rewrite SE|]|by eapply seg_same|].
  apply Forall2_app; [|by repeat constructor].
  eapply texts_mono; [done|exact (sstep_lstep _ ∅ ∅ _ _ S)| |done].
  apply (nodup_mid_str es [] n s) in Hns as (_ & Hns & _). rewrite <- elem_of_str_locs in Hns. set_solver.
Qed.

Lemma join_fragment_ok w l es n s ss x k m sm new t ts f bs (Q : unit → world → Prop) E :
  ready w → buffer_rep w l (Some n) (es ++ [(n, s)]) (ss ++ [x]) →
  list_rep true w k ((m, sm) :: new) (t :: ts) → str_rep w f bs →
  f ∉ str_locs (es ++ [(n, s)]) → f ∉ str_locs ((m, sm) :: new) → l ≠ k →
  ent_locs ((m, sm) :: new) ## ent_locs (es ++ [(n, s)]) →
  str_locs ((m, sm) :: new) ## str_locs (es ++ [(n, s)]) →
  Z.of_nat (length x + length t) < STRING_MAX →
  (∀ w', buffer_rep w' l (Some n) (es ++ [(n, s)]) (ss ++ [x ++ t]) → list_rep true w' k new ts →
     str_rep w' f t → lstep {[s; f; sm]} (ent_locs ((m, sm) :: new)) {[k]} w w' → Q tt w') →
  wp (rb ← get_list (Some l);
      when (is_null (list_tail rb)) (throw "logic error; an empty list cannot contain a fragment");;
      t ← get_list (Some k);
      when (is_null (list_head t)) (throw "logic error; the token list has no head");;
      last ← get_ent (list_tail rb);
      first ← get_ent (list_head t);
      try_ (str_append (ent_value last) (ent_value first));;
      try_ (list_shift (Some f) (Some k))) Q E w.
Proof.
  intros Hr HB HK Hf Hfe Hfn Hlk HN HX Hmax HQ.
  pose proof HB as [Bh _ _ Bs _ Bnds Bt _]. pose proof HK as [Kh Ks _ _ Kt _].
  apply seg_app in Bs as [_ [(pv & Hn & _) _]%seg_cons]. apply seg_cons in Ks as [(pv' & Hm & _) _].
  apply Forall2_app_inv_l in Bt as (y & z & _ & Hz & Hss).
  inversion Hz as [|? ? ? ? Hsx Hnil]; subst. inversion Hnil; subst. apply app_inj_tail in Hss as [<- <-].
  inversion Kt as [|? ? ? ? Hst _]; subst. cbn [snd] in *.
  assert (s ∈ str_locs (es ++ [(n, s)])) as Hs.
  { apply elem_of_str_locs. rewrite fmap_app. apply elem_of_app. right. by left. }
  assert (s ∉ str_locs ((m, sm) :: new)) as Hs' by (intros H; exact (HX s H Hs)).
  assert (s ≠ sm) by (intros ->; apply Hs', elem_of_str_locs; by left).
  assert (s ≠ f) by (intros ->; done).
  wp_next. eapply wp_get_list; [done|]. cbn [list_tail]. wp_next. rewrite is_null_some. apply wp_ret.
  wp_next. eapply wp_get_list; [done|]. cbn [list_head hd_ptr]. wp_next. rewrite is_null_some. apply wp_ret.
  wp_next. eapply wp_get_ent; [done|]. wp_next. eapply wp_get_ent; [done|]. cbn [ent_value].
  wp_next. wp_try_call (str_append_ok w s sm x t). intros r w1 (-> & Hs1 & S1). cbn.
  pose proof (buffer_rep_last w w1 l es n s ss x (x ++ t) Hr HB S1 Hs1) as HB1.
  assert (list_rep true w1 k ((m, sm) :: new) (t :: ts)) as HK1.
  { eapply (list_rep_mono _ {[s]} ∅ ∅ w w1); [done|by apply sstep_lstep|done|apply not_elem_of_empty
      |apply disjoint_empty_r|by apply disjoint_singleton_r]. }
  wp_try_call (list_shift_ok w1 k m sm new ts t f bs); [ready|eapply sstep_rep; [apply Hr|exact S1|set_solver|done]|].
  intros r w2 (-> & Hf2 & HK2 & S2). cbn.
  apply HQ; [|done|done|chain].
  eapply (buffer_rep_mono _ _ _ w1 w2); [ready|exact S2|exact HB1|set_solver|set_solver|].
  intros z Hz1 [->%elem_of_singleton|Hz2%elem_of_singleton]%elem_of_union; [by apply Hfe|].
  subst z. apply (HX sm); [|done]. apply elem_of_str_locs. by left.
Qed.

(** The texts of the buffer and of the pieces left, after the fragment was
    completed. *)
Definition joined (fr : bool) (ss ts ss1 ts1 : list bytes) : Prop :=
  if fr then ∃ ss0 x t, ss = ss0 ++ [x] ∧ ts = t :: ts1 ∧ ss1 = ss0 ++ [x ++ t]
  else ss = [] ∧ ss1 = [] ∧ ts1 = ts.

Definition no_lf (ss : list bytes) : Prop := Forall (λ t, LF ∉ t) ss.

Lemma joined_text fr ss data ts ss1 ts1 :
  let fr' := negb (ended data) in
  joined fr ss ts ss1 ts1 → ts = split_on LF (chomp1 LF data) → LF ∈ data → no_lf ss →
  buffer_text fr' (ss1 ++ ts1) = buffer_text fr ss ++ data ∧ no_lf (ss1 ++ ts1) ∧
  (fr' = true → ts1 ≠ []) ∧ ∃ t r, ss1 ++ ts1 = t :: r ∧ (fr' = true → r ≠ []).
Proof.
  intros fr' Hj Hts Hin Hss. destruct (split_text data ts Hts Hin) as (Ht & Hlf & Hne & Hlong).
  fold fr' in Ht. assert (fr' = true → ∃ t u r, ts = t :: u :: r) as Hlong'
    by (intros Hf; apply Hlong, negb_true_iff, Hf).
  clear Hlong Hts. destruct fr; cbn in Hj.
  - destruct Hj as (ss0 & x & t & -> & -> & ->). apply Forall_cons in Hlf as [Hlt Hlf].
    apply Forall_app in Hss as [Hss0 Hx]. rewrite Forall_singleton in Hx. split_and!.
    + rewrite <- app_assoc. cbn [app]. rewrite buffer_text_app, buffer_text_head, Ht by done. cbn.
      by rewrite join_concat, <- app_assoc.
    + repeat (apply Forall_app; split); [done| |done]. apply Forall_singleton.
      rewrite elem_of_app. intros [H|H]; [exact (Hx H)|exact (Hlt H)].
    + intros (? & ? & ? & [= -> ->])%Hlong'. done.
    + assert (fr' = true → ts1 ≠ []) as H1 by (intros (? & ? & ? & [= -> ->])%Hlong'; done).
      destruct ss0 as [|t0 ss0]; cbn; do 2 eexists; (split; [done|]); [done|].
      intros _. by destruct ss0.
  - destruct Hj as (-> & -> & ->). cbn [app]. split_and!; [|done|done|].
    + rewrite Ht. by cbn.
    + destruct ts as [|t r]; [done|]. exists t, r. split; [done|].
      intros (? & ? & ? & [= -> ->])%Hlong'. done.
Qed.

Lemma length_buffer_text b ss : (length ss ≤ S (length (buffer_text b ss)))%nat.
Proof.
  assert (∀ ss, length ss ≤ length (buffer_text false ss))%nat as H.
  { intros ss'. induction ss' as [|s ss' IH]; [done|]. cbn in *. rewrite !length_app. cbn. lia. }
  destruct b; [|specialize (H ss); lia]. destruct ss as [|x ss _] using rev_ind; [cbn; lia|].
  specialize (H ss). cbn in *. rewrite join_concat, !length_app. cbn. lia.
Qed.

Lemma readline_join_ok w l es ss (fr : bool) tk new ts f fs (Q : unit → world → Prop) E :
  ready w → buffer_rep w l (last_ptr es None) es ss → (if fr then es ≠ [] else es = []) →
  list_rep true w tk new ts → ts ≠ [] → str_rep w f fs →
  f ∉ str_locs es → f ∉ str_locs new → l ≠ tk →
  ent_locs new ## ent_locs es → str_locs new ## str_locs es →
  (∀ x t, last ss = Some x → head ts = Some t → Z.of_nat (length x + length t) < STRING_MAX) →
  (∀ w' ss1 new1 ts1 gs, joined fr ss ts ss1 ts1 → buffer_rep w' l (last_ptr es None) es ss1 →
     list_rep true w' tk new1 ts1 → str_rep w' f gs →
     ent_locs new1 ⊆ ent_locs new → str_locs new1 ⊆ str_locs new →
     lstep (str_locs es ∪ {[f]} ∪ str_locs new) (ent_locs new) {[tk]} w w' → Q tt w') →
  wp (when fr (
      rb ← get_list (Some l);
      when (is_null (list_tail rb)) (throw "logic error; an empty list cannot contain a fragment");;
      t ← get_list (Some tk);
      when (is_null (list_head t)) (throw "logic error; the token list has no head");;
      last ← get_ent (list_tail rb);
      first ← get_ent (list_head t);
      try_ (str_append (ent_value last) (ent_value first));;
      try_ (list_shift (Some f) (Some tk)))) Q E w.
Proof.
  intros Hr HB He HK Hts Hf Hfe Hfn Hl HN HX Hmax HQ. destruct fr; cbn [when].
  - destruct es as [|[n s] es _] using rev_ind; [done|]. rewrite last_ptr_snoc in *. cbn [fst] in *.
    destruct ts as [|t ts]; [done|].
    assert (∃ ss0 x, ss = ss0 ++ [x]) as (ss0 & x & ->).
    { pose proof (Forall2_length _ _ _ (br_texts _ _ _ _ _ HB)) as Hlen.
      rewrite length_app in Hlen. destruct ss as [|x ss _] using rev_ind; cbn in Hlen; [lia|eauto]. }
    pose proof (list_rep_length _ _ _ _ _ HK) as Hlen. destruct new as [|[m sm] new]; [done|].
    eapply (join_fragment_ok w l es n s ss0 x tk m sm new t ts f fs); try done.
    { apply Hmax; [apply last_snoc|done]. }
    intros w' HB' HK' Hf' S'.
    eapply (HQ w' (ss0 ++ [x ++ t]) new ts t); [by do 3 eexists|done..| | |].
    + rewrite ent_locs_cons. set_solver.
    + rewrite str_locs_cons. set_solver.
    + eapply lstep_weaken; [done|exact S'| |by apply within_sub|by apply within_sub].
      apply within_sub. rewrite str_locs_app, !str_locs_cons. set_solver.
  - subst es. assert (ss = []) as -> by exact (Forall2_nil_inv_l _ _ (br_texts _ _ _ _ _ HB)).
    eapply (HQ w [] new ts fs); try done. by apply lstep_refl.
Qed.

(** * Sockets *)

Lemma buffer_rep_same w w' l tl es ss :
  lists w' = lists w → ents w' = ents w → (∀ p t, str_rep w p t → str_rep w' p t) →
  buffer_rep w l tl es ss → buffer_rep w' l tl es ss.
Proof.
  intros Hl He Ht [H1 H2 H3 H4 H5 H6 H7 H8]. split; try done; [by rewrite Hl| |by eapply seg_same|].
  - eapply first_prev_ext; [|exact H3]. by rewrite He.
  - eapply Forall2_impl; [exact H7|]. intros e t. apply Ht.
Qed.

Lemma str_cmp_terminator_ok w p s c E :
  str_rep w p s → s ≠ [] →
  wp (str_cmp_terminator (Some p) (int_of_char c))
    (λ r w', r = (if decide (last s = Some c) then 0 else -1) ∧ w' = w) E w.
Proof.
  intros Hs Hne. destruct (str_rep_get _ _ _ Hs) as (b & sz & Hp & Hc & _).
  destruct s as [|a s _] using rev_ind; [done|]. apply wp_func_body. wp_next.
  eapply wp_deref; [done|]. cbn [str_len str_value]. rewrite length_app. cbn [length].
  apply wp_when; [intros _|rewrite Z.ltb_ge; lia]. wp_next.
  eapply wp_load; [exact Hc|rewrite length_app; cbn; lia|]. intros x Hx.
  replace (Z.to_nat _) with (length s) in Hx by lia.
  rewrite <- app_assoc, lookup_app_r, Nat.sub_diag in Hx by lia. injection Hx as <-.
  rewrite last_snoc. apply wp_when; rewrite ?negb_true_iff, ?negb_false_iff, ?Z.eqb_neq, ?Z.eqb_eq; intros H.
  - apply wp_leave. by rewrite decide_False by (intros [= ->]; done).
  - rewrite decide_True; [done|]. by rewrite <- (char_of_int_of_char a), H, char_of_int_of_char.
Qed.

(** The socket [k] is connected; its buffer [l] has the entries [es] and stands for
    the text [u] that arrived and was not yet handed out.  [fr] tells whether
    the last line is incomplete. *)
Definition reader (w : world) (k l : loc) (es : entries) (fr : bool) (u : bytes) : Prop :=
  ∃ o tl ss, socks (net w) !! k = Some o ∧ sock_read_buf o = Some l ∧ sock_connected o ≠ 0 ∧
    fr = negb (sock_fragmented o =? 0) ∧ buffer_rep w l tl es ss ∧ no_lf ss ∧
    (fr = true → tl = last_ptr es None ∧ es ≠ []) ∧ u = buffer_text fr ss.

(** * After the data arrived *)

(** What is left of the automatic objects of [socket_readline]. *)
Definition temporaries (w : world) (p f tk : loc) : Prop :=
  (∃ bs, str_rep w p bs) ∧ (∃ bs, str_rep w f bs) ∧ list_rep true w tk [] [].

(** The line [t] was handed out to [q]; the text [v] was at hand for it. *)
Definition handed_out (w w' : world) (k l q : loc) (es : entries) (v : bytes) : Prop :=
  ∃ t es' fr' u', str_rep w' q t ∧ LF ∉ t ∧ v = t ++ LF :: u' ∧ reader w' k l es' fr' u' ∧
    q ∉ str_locs es' ∧ within w (ent_locs es') (ent_locs es) ∧ within w (str_locs es') (str_locs es).

Lemma hand_out_ok w k o l tl es fr t ss q bs (Q : unit → world → Prop) E :
  ready w → socks (net w) !! k = Some o → sock_read_buf o = Some l → sock_connected o ≠ 0 →
  fr = negb (sock_fragmented o =? 0) → buffer_rep w l tl es (t :: ss) → no_lf (t :: ss) →
  (fr = true → tl = last_ptr es None ∧ ss ≠ []) → str_rep w q bs → q ∉ str_locs es →
  (∀ w' es' n s, es = (n, s) :: es' → str_rep w' q t → LF ∉ t →
     reader w' k l es' fr (buffer_text fr ss) → lstep {[q; s]} (ent_locs es) {[l]} w w' → Q tt w') →
  wp (try_ (list_shift (Some q) (Some l))) Q E w.
Proof.
  intros Hr Hk Hl Hc Hfr HB [Hlf Hlfs]%Forall_cons Htl Hq Hqe HQ.
  destruct es as [|[n s] es]; [by apply br_texts, Forall2_length in HB|].
  wp_try_call (buffer_shift w l tl n s es t ss q bs). intros r w1 (-> & Hq1 & HB1 & S1). cbn.
  eapply (HQ w1 es n s); try done. exists o, (tail_after n tl), ss. split_and!; try done.
  - destruct S1 as (_ & _ & G). by rewrite (lf_net _ _ _ _ G).
  - intros Hf. destruct (Htl Hf) as [Ht Hne]. split.
    + by apply (tail_after_ok n s es tl); [by destruct HB|destruct HB|].
    + intros ->. apply Hne. exact (Forall2_nil_inv_l _ _ (br_texts _ _ _ _ _ HB1)).
Qed.

(** What [socket_readline] does once a line end arrived. *)
Definition deliver (dest line fragment tok sock : ptr) : M unit :=
  try_ (str_split tok line (int_of_char LF));;
  s ← get_sock sock;
  let read_buf := sock_read_buf s in
  when (negb (sock_fragmented s =? 0)) (
    rb ← get_list read_buf;
    when (is_null (list_tail rb)) (throw "logic error; an empty list cannot contain a fragment");;
    t ← get_list tok;
    when (is_null (list_head t)) (throw "logic error; the token list has no head");;
    last ← get_ent (list_tail rb);
    first ← get_ent (list_head t);
    try_ (str_append (ent_value last) (ent_value first));;
    try_ (list_shift fragment tok));;
  try_ (list_merge read_buf tok);;
  rc ← str_cmp_terminator line (int_of_char LF);
  mod_sock sock (λ o, set_sock_fragmented o (if rc =? 0 then 0 else 1));;
  try_ (list_shift dest read_buf).

Section deliver.
Context (w : world) (k p f tk q l : loc) (o : socket_t) (es : entries) (ss : list bytes)
  (data fs bs : bytes).
Let fr := negb (sock_fragmented o =? 0).
Context (Hr : ready w) (Hk : socks (net w) !! k = Some o) (Hl : sock_read_buf o = Some l)
  (Hc : sock_connected o ≠ 0) (HB : buffer_rep w l (last_ptr es None) es ss) (Hss : no_lf ss)
  (Hfr : if fr then es ≠ [] else es = [])
  (Hp : str_rep w p data) (Hlf : LF ∈ data) (Hcr : CR ∉ data)
  (Hf : str_rep w f fs) (HK : list_rep true w tk [] []) (Hq : str_rep w q bs)
  (Hltk : l ≠ tk) (Hpe : p ∉ str_locs es) (Hfe : f ∉ str_locs es) (Hqe : q ∉ str_locs es)
  (Hpf : p ≠ f) (Hqf : q ≠ f) (Hpq : p ≠ q)
  (Hmax : Z.of_nat (length (buffer_text fr ss) + length data) < STRING_MAX).

Lemma data_nonempty : data ≠ [].
Proof. intros H. rewrite H in Hlf. by apply elem_of_nil in Hlf. Qed.

(** The buffer and the pieces before they are joined. *)
Definition pieces_read (w1 : world) (new : entries) (ts : list bytes) : Prop :=
  lstep ∅ ∅ {[tk]} w w1 ∧ all_new w new ∧ list_rep true w1 tk new ts ∧
  ts = split_on LF (chomp1 LF data).

Lemma new_disjoint new :
  all_new w new → ent_locs new ## ent_locs es ∧ str_locs new ## str_locs es.
Proof.
  intros [H1 H2]. destruct (buffer_locs _ _ _ _ _ Hr HB) as [H3 H4].
  split; intros x Hx Hy; [pose proof (H1 x Hx); pose proof (H3 x Hy)|pose proof (H2 x Hx); pose proof (H4 x Hy)]; lia.
Qed.

Lemma old_not_new new x bs' : all_new w new → str_rep w x bs' → x ∉ str_locs new.
Proof.
  intros [_ H] Hx Hin. pose proof (H x Hin). pose proof (str_rep_lt w x bs' (proj1 Hr) Hx). lia.
Qed.

Lemma fragment_bound ts x t :
  ts = split_on LF (chomp1 LF data) → last ss = Some x → head ts = Some t →
  Z.of_nat (length x + length t) < STRING_MAX.
Proof.
  intros -> Hx Ht. destruct (split_on_cons LF (chomp1 LF data)) as (t0 & ts & Hs).
  rewrite Hs in Ht. injection Ht as ->.
  pose proof (length_piece _ _ _ _ Hs). destruct (chomp1_prefix LF data) as [r Hd].
  apply (f_equal length) in Hd. rewrite length_app in Hd.
  apply last_Some in Hx as [ss0 ->]. rewrite buffer_text_app, !length_app in Hmax by done.
  assert (length x ≤ length (buffer_text fr [x]))%nat.
  { destruct fr; cbn; [done|]. rewrite !length_app. lia. }
  lia.
Qed.

Lemma pieces_bound ts : ts = split_on LF (chomp1 LF data) → (length ts ≤ S (length data))%nat.
Proof.
  intros ->. pose proof (length_split_on LF (chomp1 LF data)). destruct (chomp1_prefix LF data) as [r Hd].
  apply (f_equal length) in Hd. rewrite length_app in Hd. lia.
Qed.

Lemma split_stage (Q : unit → world → Prop) E :
  (∀ w1 new ts, pieces_read w1 new ts → Q tt w1) →
  wp (try_ (str_split (Some tk) (Some p) (int_of_char LF))) Q E w.
Proof.
  intros HQ. pose proof data_nonempty.
  wp_try_call (str_split_ok true w tk [] [] p data (int_of_char LF)); [lia|].
  intros r w1 ((-> & new & Hnew & HK1) & S1). cbn. eapply (HQ w1 new). split; [exact S1|].
  split; [done|]. split; [done|]. by apply pieces_plain.
Qed.

(** The buffer holds all the lines, and the flag is set. *)
Definition all_joined (w3 : world) (new1 : entries) (ss1 ts1 : list bytes) : Prop :=
  ready w3 ∧ buffer_rep w3 l (last_ptr new1 None) (es ++ new1) (ss1 ++ ts1) ∧
  list_rep true w3 tk [] [] ∧ str_rep w3 p data ∧ (∃ gs, str_rep w3 f gs) ∧ str_rep w3 q bs ∧
  joined fr ss (split_on LF (chomp1 LF data)) ss1 ts1 ∧ length new1 = length ts1 ∧
  (∀ x, x ∈ ent_locs new1 → (next_loc w ≤ x)%positive) ∧
  (∀ x, x ∈ str_locs new1 → (next_loc w ≤ x)%positive) ∧
  sys w3 = sys w ∧ net w3 = net w ∧ (next_loc w ≤ next_loc w3)%positive.

Lemma join_stage w1 new ts (Q : unit → world → Prop) E :
  pieces_read w1 new ts →
  (∀ w3 new1 ss1 ts1, all_joined w3 new1 ss1 ts1 → Q tt w3) →
  wp (when fr (
        rb ← get_list (Some l);
        when (is_null (list_tail rb)) (throw "logic error; an empty list cannot contain a fragment");;
        t ← get_list (Some tk);
        when (is_null (list_head t)) (throw "logic error; the token list has no head");;
        last ← get_ent (list_tail rb);
        first ← get_ent (list_head t);
        try_ (str_append (ent_value last) (ent_value first));;
        try_ (list_shift (Some f) (Some tk)));;
      try_ (list_merge (Some l) (Some tk))) Q E w1.
Proof.
  intros (S1 & Hnew & HK1 & Hts) HQ. destruct (new_disjoint new Hnew) as [HN HX].
  pose proof (pieces_bound ts Hts). pose proof (list_rep_length _ _ _ _ _ HK1) as Hlen.
  assert (ready w1) as R1 by ready.
  assert (∀ x t, str_rep w x t → str_rep w1 x t) as Keep1
    by (intros x t; eapply lstep_rep; [done|exact S1|apply not_elem_of_empty]).
  wp_next. eapply (readline_join_ok w1 l es ss fr tk new ts f fs); try done; eauto.
  { eapply buffer_rep_mono; [exact Hr|exact S1|exact HB|by apply not_elem_of_singleton
      |apply disjoint_empty_r|apply disjoint_empty_r]. }
  { rewrite Hts. by destruct (split_on_cons LF (chomp1 LF data)) as (? & ? & ->). }
  { by eapply old_not_new. }
  { intros x t. by apply fragment_bound. }
  intros w2 ss1 new1 ts1 gs Hj HB2 HK2 Hf2 Hsub1 Hsub2 S2.
  assert (ready w2) as R2 by ready.
  pose proof (list_rep_length _ _ _ _ _ HK2) as Hlen2.
  assert (length ts1 ≤ length ts)%nat.
  { destruct fr; cbn in Hj; [destruct Hj as (? & ? & ? & _ & -> & _); cbn; lia|by destruct Hj as (_ & _ & ->)]. }
  assert (∀ x t, x ≠ f → x ∉ str_locs es → str_rep w x t → str_rep w2 x t) as Keep2.
  { intros x t Hxf Hxe Hx. pose proof (old_not_new new x t Hnew Hx).
    eapply lstep_rep; [exact R1|exact S2|set_solver|by apply Keep1]. }
  wp_try_call (buffer_merge w2 l es ss1 tk new1 ts1); [by apply list_buffer|set_solver|set_solver| |].
  { pose proof (length_buffer_text fr ss). pose proof (Forall2_length _ _ _ (br_texts _ _ _ _ _ HB)). 
    unfold STRING_MAX in Hmax. lia. }
  intros r w3 (-> & HB3 & HK3 & S3). cbn.
  assert (∀ x t, str_rep w2 x t → str_rep w3 x t) as Keep3
    by (intros x t; eapply lstep_rep; [exact R2|exact S3|apply not_elem_of_empty]).
  eapply (HQ w3 new1 ss1 ts1). split; [ready|]. split; [done|]. split; [done|].
  split; [by apply Keep3, Keep2|]. split; [exists gs; by apply Keep3|]. split; [by apply Keep3, Keep2|].
  split; [by rewrite <- Hts|]. split; [done|].
  split; [intros x Hx; by apply (proj1 Hnew), Hsub1|].
  split; [intros x Hx; by apply (proj2 Hnew), Hsub2|].
  destruct S1 as (_ & F1 & G1), S2 as (_ & F2 & G2), S3 as (_ & F3 & G3).
  rewrite (lf_sys _ _ _ _ G3), (lf_sys _ _ _ _ G2), (lf_sys _ _ _ _ G1).
  rewrite (lf_net _ _ _ _ G3), (lf_net _ _ _ _ G2), (lf_net _ _ _ _ G1).
  split; [done|]. split; [done|]. pose proof (fr_next _ _ _ F1). pose proof (fr_next _ _ _ F2).
  pose proof (fr_next _ _ _ F3). lia.
Qed.

Lemma deliver_ok E :
  wp (deliver (Some q) (Some p) (Some f) (Some tk) (Some k))
    (λ _ w', ready w' ∧ handed_out w w' k l q es (buffer_text fr ss ++ data) ∧
       temporaries w' p f tk ∧ sys w' = sys w) E w.
Proof.
  unfold deliver. wp_next. apply split_stage. intros w1 new ts H1.
  assert (socks (net w1) !! k = Some o) as Hk1
    by (destruct H1 as ((_ & _ & G) & _); by rewrite (lf_net _ _ _ _ G)).
  wp_next. eapply wp_get_sock; [exact Hk1|]. cbn zeta. rewrite Hl. fold fr.
  apply wp_two. eapply join_stage; [exact H1|].
  intros w3 new1 ss1 ts1 (R3 & HB3 & HK3 & Hp3 & (gs & Hf3) & Hq3 & Hj & Hlen & Hn1 & Hn2 & Hsys & Hnet & Hle).
  destruct (joined_text fr ss data _ ss1 ts1 Hj eq_refl Hlf Hss) as (Htext & Hnolf & Hlast & t & r & Hall & Hrest).
  wp_next. wp_call (str_cmp_terminator_ok w3 p data LF); [by apply data_nonempty|].
  intros rc w3' [-> ->]. wp_next. eapply wp_mod_sock; [by rewrite Hnet|].
  set (z := if decide (last data = Some LF) then 0 else -1).
  set (fr' := negb (ended data)) in *.
  rewrite Hall in *. eapply (hand_out_ok _ k _ l (last_ptr new1 None) (es ++ new1) fr' t r q bs).
  all: cbn [net strs lists ents upd_net].
  - by apply ready_net.
  - cbn. apply lookup_insert_eq.
  - exact Hl.
  - exact Hc.
  - unfold fr', z, ended. cbn [sock_fragmented set_sock_fragmented].
    destruct (decide (last data = Some LF)); [by rewrite bool_decide_true|by rewrite bool_decide_false].
  - by eapply buffer_rep_same; [..|exact HB3].
  - done.
  - intros Hf'. specialize (Hlast Hf'). specialize (Hrest Hf'). split; [|done].
    rewrite last_ptr_app. apply last_ptr_ne. intros ->. by destruct ts1.
  - exact Hq3.
  - rewrite str_locs_app. intros [?|Hin]%elem_of_union; [done|]. pose proof (Hn2 _ Hin).
    pose proof (str_rep_lt w q bs (proj1 Hr) Hq). lia.
  - intros w5 es' n s Hes Hq5 Ht Hrd S5. split; [ready|].
    assert (∀ x, x ∈ ent_locs (es ++ new1) → x ∈ ent_locs es ∨ (next_loc w ≤ x)%positive) as He.
    { intros x. rewrite ent_locs_app. intros [?|Hx]%elem_of_union; [by left|right; by apply Hn1]. }
    assert (∀ x, x ∈ str_locs (es ++ new1) → x ∈ str_locs es ∨ (next_loc w ≤ x)%positive) as Hs.
    { intros x. rewrite str_locs_app. intros [?|Hx]%elem_of_union; [by left|right; by apply Hn2]. }
    rewrite Hes, ent_locs_cons in He. rewrite Hes, str_locs_cons in Hs.
    assert (∀ x t0 t1, str_rep w x t0 → x ≠ q → x ∉ str_locs es → str_rep w3 x t1 → str_rep w5 x t1) as Keep.
    { intros x t0 t1 Hx Hxq Hxe Hx3. pose proof (str_rep_lt w x t0 (proj1 Hr) Hx).
      eapply lstep_rep; [by apply ready_net; exact R3|exact S5| |exact Hx3].
      intros [->%elem_of_singleton| ->%elem_of_singleton]%elem_of_union; [done|].
      destruct (Hs s) as [|]; [set_solver|done|lia]. }
    split; [|split].
    + exists t, es', fr', (buffer_text fr' r). split; [done|]. split; [done|].
      split; [by rewrite <- Htext, buffer_text_cons|]. split; [done|]. split; [|split].
      * intros Hin. pose proof (str_rep_lt w q bs (proj1 Hr) Hq).
        destruct (Hs q) as [|]; [set_solver|done|lia].
      * intros x Hx. apply He. set_solver.
      * intros x Hx. apply Hs. set_solver.
    + split; [|split].
      * exists data. by eapply Keep.
      * exists gs. by eapply Keep.
      * eapply list_rep_mono; [by apply ready_net; exact R3|exact S5|by eapply list_rep_same; [..|exact HK3]
          |by apply not_elem_of_singleton|apply disjoint_empty_l|apply disjoint_empty_l].
    + destruct S5 as (_ & _ & G5). by rewrite (lf_sys _ _ _ _ G5).
Qed.
End deliver.

(** * The data that arrive *)

(** What one call of read(2) gives: some characters, none of them NUL or a
    carriage return. *)
Definition chunk (d : bytes) : Prop :=
  d ≠ [] ∧ nonul d ∧ CR ∉ d ∧ Z.of_nat (length d) < RECV_BUF_SIZE.

(** The replies [rs] bring the text [data], whose line ends are all in the last
    reply; a call may be interrupted by a signal. *)
Inductive arrival : list sysret → bytes → Prop :=
| arrived d : chunk d → LF ∈ d → arrival [reply_data (Z.of_nat (length d)) d] d
| arriving d rs data : chunk d → LF ∉ d → arrival rs data →
    arrival (reply_data (Z.of_nat (length d)) d :: rs) (d ++ data)
| interrupted rs data : arrival rs data → arrival (reply_error EINTR :: rs) data.

Lemma strchr_lf s : strchr s LF = bool_decide (LF ∈ s).
Proof.
  unfold strchr. apply bool_decide_ext. rewrite elem_of_app, list_elem_of_singleton.
  split; [by intros [|]|by left].
Qed.

Lemma arrival_text rs data : arrival rs data → LF ∈ data ∧ CR ∉ data.
Proof.
  induction 1 as [d (_ & _ & Hc & _) Hl|d rs data (_ & _ & Hc & _) _ _ [IH1 IH2]|]; [done| |done].
  rewrite !elem_of_app. split; [by right|]. intros [|]; done.
Qed.

(** The state while [line] collects the data. *)
Definition collecting (w : world) (p : loc) (got : bytes) (rs rest : list sysret) (w1 : world) : Prop :=
  ready w1 ∧ frame {[p]} w w1 ∧ ents w1 = ents w ∧ lists w1 = lists w ∧ net w1 = net w ∧
  str_rep w1 p got ∧ answers (sys w1) = rs ++ rest.

Lemma frame_sys_l X f w w' : frame X (upd_sys f w) w' → frame X w w'.
Proof. intros [H1 H2 H3 H4]. by split. Qed.

Lemma frame_sys_r X f w w' : frame X w w' → frame X w (upd_sys f w').
Proof. intros [H1 H2 H3 H4]. by split. Qed.

Lemma collecting_buffer w p got rs rest w1 l tl es ss :
  ready w → collecting w p got rs rest w1 → p ∉ str_locs es →
  buffer_rep w l tl es ss → buffer_rep w1 l tl es ss.
Proof.
  intros Hr (_ & F & HE & HL & _) Hp [H1 H2 H3 H4 H5 H6 H7 H8].
  split; try done; [by rewrite HL|eapply first_prev_ext; [|exact H3]; by rewrite HE|by eapply seg_same|].
  eapply texts_frame; [done|exact F|set_solver|done].
Qed.

Section reading.
Context (w : world) (k p : loc) (o : socket_t) (whole : bytes) (rest : list sysret).
Context (Hk : socks (net w) !! k = Some o) (Hc : sock_connected o ≠ 0)
  (Hmax : Z.of_nat (length whole) < STRING_MAX).

(** A reply with data: [more] tells whether there is no line end yet. *)
Lemma read_more_data got d rs w1 (Q : bool → world → Prop) E :
  collecting w p got (reply_data (Z.of_nat (length d)) d :: rs) rest w1 → chunk d → LF ∉ got →
  (length (got ++ d) ≤ length whole)%nat →
  (∀ w2, collecting w p (got ++ d) rs rest w2 → Q (negb (bool_decide (LF ∈ d))) w2) →
  wp (read_more (Some p) (Some k)) Q E w1.
Proof.
  intros (R1 & F1 & HE & HL & HN & Hp & Ha) (Hne & Hnul & Hcr & Hlen) Hgot Hle HQ.
  assert (0 < Z.of_nat (length d)) as Hpos by (destruct d; [done|cbn; lia]).
  assert (∀ w', net w' = net w → socks (net w') !! k = Some o) as Hk' by (by intros w' ->).
  unfold read_more. wp_next. eapply wp_get_sock; [by apply Hk'|]. wp_next.
  eapply wp_syscall_eq; [exact Ha|]. set (w2 := upd_sys _ w1). cbn zeta. cbn [sys_ret sys_data reply_data].
  assert (ready w2) as R2 by (by apply ready_sys).
  rewrite (proj2 (Z.ltb_ge _ 0)) by lia. wp_next. apply wp_ret. cbn [andb]. wp_next. apply wp_ret. wp_next.
  rewrite (proj2 (Z.ltb_lt 0 _)) by lia.
  rewrite take_ge by lia. rewrite length_app in Hle.
  wp_try_call (str_cat_ok w2 p got (CLit d 0) d);
    [by apply cstr_at_lit|done|lia|].
  intros r w3 (-> & Hp3 & S3). cbn.
  destruct (str_rep_get _ _ _ Hp3) as (b & sz & Hs3 & Hc3 & _).
  assert (net w3 = net w) as HN3.
  { destruct S3 as (_ & _ & [_ _ _ _ _ HN3]). by rewrite HN3. }
  wp_next. eapply wp_deref; [exact Hs3|]. cbn [str_len str_value].
  wp_next. eapply wp_get_sock; [by apply Hk'|]. rewrite length_app.
  rewrite (proj2 (Z.eqb_neq _ 0)) by lia. cbn [andb]. wp_next. apply wp_ret.
  wp_next. eapply wp_c_str; [exact Hc3|]. apply wp_ret. rewrite strchr_lf.
  rewrite (proj2 (Z.eqb_neq _ 0)) by done. cbn [negb andb].
  rewrite (bool_decide_ext (LF ∈ got ++ d) (LF ∈ d)) by (rewrite elem_of_app; naive_solver).
  apply HQ. destruct S3 as (R3 & F3 & [SE SL _ _ SS _]).
  split; [done|]. split; [|split; [by rewrite SE|split; [by rewrite SL|split; [done|split; [done|]]]]].
  - eapply frame_trans; [exact F1|]. by eapply frame_sys_l.
  - by rewrite SS; cbn; rewrite Ha.
Qed.

Lemma read_more_interrupted got rs w1 (Q : bool → world → Prop) E :
  collecting w p got (reply_error EINTR :: rs) rest w1 →
  (∀ w2, collecting w p got rs rest w2 → Q true w2) →
  wp (read_more (Some p) (Some k)) Q E w1.
Proof.
  intros (R1 & F1 & HE & HL & HN & Hp & Ha) HQ. unfold read_more.
  wp_next. eapply wp_get_sock; [by rewrite HN|]. wp_next.
  eapply wp_syscall_eq; [exact Ha|]. cbn zeta. cbn [sys_ret reply_error]. wp_next. cbn.
  apply HQ. split; [by apply ready_sys|]. split; [by apply frame_sys_r|]. do 3 (split; [done|]).
  split; [done|]. cbn. by rewrite Ha.
Qed.

(** The loop ends when a line end arrived, with all the data in [line]. *)
Lemma collect_ok rs fuel (Q : unit → world → Prop) E :
  collecting w p [] rs rest w → arrival rs whole → (length rs < fuel)%nat →
  (∀ w2, collecting w p whole [] rest w2 → Q tt w2) →
  wp (loop fuel (λ _ : unit,
        more ← read_more (Some p) (Some k);
        mret (if (more : bool) then inl tt else inr tt)) tt) Q E w.
Proof.
  intros H0 Harr Hfuel HQ.
  eapply (wp_loop (λ n _ w1, ∃ got rs data, collecting w p got rs rest w1 ∧ arrival rs data ∧
    LF ∉ got ∧ got ++ data = whole ∧ n = length rs)); [|by exists [], rs, whole; split_and!; try done; apply not_elem_of_nil|done].
  intros n [] w1 (got & rs1 & data & Hcol & Ha & Hgot & Hw & ->). wp_next.
  apply (f_equal length) in Hw as Hlen. destruct Ha as [d Hd Hl|d rs' data Hd Hl Ha|rs' data Ha].
  - eapply read_more_data; [exact Hcol|done|done|lia|]. intros w2 H2. rewrite bool_decide_true by done.
    apply wp_ret. apply HQ. by rewrite <- Hw.
  - eapply read_more_data; [exact Hcol|done|done|rewrite !length_app in *; lia|].
    intros w2 H2. rewrite bool_decide_false by done. apply wp_ret.
    exists (length rs'). split; [cbn; lia|]. exists (got ++ d), rs', data. split_and!; try done.
    + rewrite elem_of_app. by intros [|].
    + by rewrite <- app_assoc.
  - eapply read_more_interrupted; [exact Hcol|]. intros w2 H2. apply wp_ret.
    exists (length rs'). split; [cbn; lia|]. by exists got, rs', data.
Qed.
End reading.

(** * Reading a line *)

Lemma reader_step X N L w w' k l es fr u :
  ready w → lstep X N L w w' → l ∉ L → ent_locs es ## N → str_locs es ## X →
  reader w k l es fr u → reader w' k l es fr u.
Proof.
  intros Hr S Hl HN HX (o & tl & ss & Hk & H2 & H3 & H4 & HB & H).
  exists o, tl, ss. split; [|do 3 (split; [done|]); split; [by eapply buffer_rep_mono|done]].
  destruct S as (_ & _ & G). by rewrite (lf_net _ _ _ _ G).
Qed.

(** What frees the temporaries does not touch what was handed out. *)
Lemma handed_out_free X L w0 w1 w2 k l q es v :
  ready w1 → lstep X ∅ L w1 w2 → l ∉ L →
  (∀ x, x ∈ X → (x < next_loc w0)%positive ∧ x ∉ str_locs es ∧ x ≠ q) →
  handed_out w0 w1 k l q es v → handed_out w0 w2 k l q es v.
Proof.
  intros Hr S Hl HX (t & es' & fr' & u' & Hq & Ht & Hv & Hrd & Hqe & HN & HS).
  exists t, es', fr', u'. split_and!; try done.
  - eapply lstep_rep; [done|exact S| |done]. intros H. by destruct (HX q H) as (_ & _ & ?).
  - eapply reader_step; [done|exact S|done|apply disjoint_empty_r| |done].
    intros x Hx Hx'. destruct (HX x Hx') as (Hlt & Hxe & _). destruct (HS x Hx) as [|]; [done|lia].
Qed.

Lemma handed_out_mono w0 w1 w2 k l q es v :
  (next_loc w0 ≤ next_loc w1)%positive → handed_out w1 w2 k l q es v → handed_out w0 w2 k l q es v.
Proof.
  intros Hle (t & es' & fr' & u' & Hq & Ht & Hv & Hrd & Hqe & HN & HS).
  exists t, es', fr', u'. split_and!; try done.
  - intros x Hx. destruct (HN x Hx); [by left|right; lia].
  - intros x Hx. destruct (HS x Hx); [by left|right; lia].
Qed.

(** The replies that the next line needs, and the text they bring: none when a
    complete line is at hand. *)
Inductive awaited (fr : bool) (u : bytes) : list sysret → bytes → Prop :=
| at_hand : fr = false → u ≠ [] → awaited fr u [] []
| to_arrive rs data : fr = true ∨ u = [] → arrival rs data → awaited fr u rs data.

(** The body of [socket_readline]. *)
Definition readline_body (dest line fragment tok sock : ptr) : M unit :=
  s ← get_sock sock;
  rb ← get_list (sock_read_buf s);
  when ((0 <? list_count rb) && (sock_fragmented s =? 0)) (
    try_ (list_shift dest (sock_read_buf s));;
    return_ 0);;
  w ← get_world;
  loop (S (length (answers (sys w)))) (λ _,
    more ← read_more line sock;
    mret (if (more : bool) then inl tt else inr tt)) tt;;
  deliver dest line fragment tok sock.

(** The state when the body ends. *)
Definition line_read (w w' : world) (k l q p f tk : loc) es v rest : Prop :=
  ready w' ∧ handed_out w w' k l q es v ∧ temporaries w' p f tk ∧ answers (sys w') = rest.

Section body.
Context (w : world) (k l p f tk q : loc) (es : entries) (fr : bool) (u bs data : bytes)
  (rs rest : list sysret).
Context (Hr : ready w) (Hrd : reader w k l es fr u) (Hq : str_rep w q bs) (Hqe : q ∉ str_locs es)
  (Hp : str_rep w p []) (Hf : str_rep w f []) (HK : list_rep true w tk [] [])
  (Hpe : p ∉ str_locs es) (Hfe : f ∉ str_locs es) (Hltk : l ≠ tk)
  (Hpf : p ≠ f) (Hqf : q ≠ f) (Hpq : p ≠ q)
  (Haw : awaited fr u rs data) (Ha : answers (sys w) = rs ++ rest)
  (Hmax : Z.of_nat (length u + length data) < STRING_MAX).

Lemma readline_body_ok :
  wp (readline_body (Some q) (Some p) (Some f) (Some tk) (Some k))
    (λ _ w', line_read w w' k l q p f tk es (u ++ data) rest)
    (λ x w', x = Finally 0 ∧ line_read w w' k l q p f tk es (u ++ data) rest) w.
Proof.
  destruct Hrd as (o & tl & ss & Hk & Hl & Hc & Hfr & HB & Hss & Htl & Hu).
  pose proof (br_head _ _ _ _ _ HB) as Hh.
  pose proof (Forall2_length _ _ _ (br_texts _ _ _ _ _ HB)) as Hlen.
  unfold readline_body. wp_next. eapply wp_get_sock; [exact Hk|]. wp_next. rewrite Hl.
  eapply wp_get_list; [exact Hh|]. cbn [list_count]. wp_next.
  destruct Haw as [Hnf Hne|rs' data' Hcase Harr].
  - rewrite Hnf in *. symmetry in Hfr. apply negb_false_iff in Hfr. rewrite Hfr.
    destruct ss as [|t ss]; [done|]. rewrite (proj2 (Z.ltb_lt _ _)) by (cbn in Hlen; lia).
    cbn [andb when]. wp_next.
    eapply (hand_out_ok w k o l tl es false t ss q bs); try done; [by rewrite Hfr|].
    intros w' es' n s Hes Hq' Ht Hrd' S. split; [done|]. split; [ready|]. rewrite app_nil_r. split; [|split].
    + exists t, es', false, (buffer_text false ss). split_and!; try done.
      * by rewrite Hu, buffer_text_cons.
      * subst es. rewrite str_locs_cons in Hqe. set_solver.
      * subst es. rewrite ent_locs_cons. apply within_sub. set_solver.
      * subst es. rewrite str_locs_cons. apply within_sub. set_solver.
    + assert (s ∈ str_locs es) as Hs by (subst es; rewrite str_locs_cons; set_solver).
      split; [|split].
      * exists []. eapply lstep_rep; [done|exact S|set_solver|done].
      * exists []. eapply lstep_rep; [done|exact S|set_solver|done].
      * eapply list_rep_mono; [done|exact S|done|set_solver|apply disjoint_empty_l|apply disjoint_empty_l].
    + destruct S as (_ & _ & G). by rewrite (lf_sys _ _ _ _ G), Ha.
  - assert (if fr then es ≠ [] else es = []) as Hes.
    { destruct fr; [by apply Htl|]. destruct Hcase as [|Hu0]; [done|]. rewrite Hu in Hu0.
      destruct ss as [|t ss]; [by destruct es|]. apply (f_equal length) in Hu0. cbn in Hu0.
      rewrite !length_app in Hu0. cbn in Hu0. lia. }
    assert (tl = last_ptr es None) as ->.
    { destruct fr; [by apply Htl|]. subst es. by destruct (br_tail _ _ _ _ _ HB). }
    rewrite (proj2 (andb_false_iff _ _)).
    2: { destruct fr; [right; by symmetry in Hfr; apply negb_true_iff in Hfr|left; by subst es]. }
    apply wp_ret. wp_next. apply (wp_ret w). wp_next.
    destruct (arrival_text _ _ Harr) as [Hlf Hcr].
    eapply (collect_ok w k p o data' rest Hk Hc); [lia|split_and!; try done|exact Harr|rewrite Ha, length_app; lia|].
    { apply frame_refl. }
    intros w2 Hcol. pose proof Hcol as (R2 & F2 & HE2 & HL2 & HN2 & Hp2 & Ha2).
    assert (∀ x t, x ≠ p → str_rep w x t → str_rep w2 x t) as Keep.
    { intros x t Hx. eapply str_rep_frame; [apply Hr|exact F2|set_solver]. }
    eapply wp_mono; [eapply (deliver_ok w2 k p f tk q l o es ss data' [] bs) with (E := no_exit)| |]; try done.
    + by rewrite HN2.
    + eapply (collecting_buffer w); [exact Hr|exact Hcol|exact Hpe|exact HB].
    + by rewrite <- Hfr.
    + by apply Keep.
    + destruct HK as [K1 _ _ _ _ _]. split; try done; try constructor. by rewrite HL2.
    + apply Keep; [done|exact Hq].
    + by rewrite <- Hfr, <- Hu.
    + intros _ w3 (R3 & Hh3 & T3 & Hs3). rewrite <- Hfr, <- Hu in Hh3. split; [done|].
      split; [eapply handed_out_mono; [apply F2|exact Hh3]|]. split; [done|]. by rewrite Hs3, Ha2.
Qed.
End body.

Lemma readline_ok w k l es fr u q bs rs data rest E :
  ready w → reader w k l es fr u → str_rep w q bs → q ∉ str_locs es →
  awaited fr u rs data → answers (sys w) = rs ++ rest →
  Z.of_nat (length u + length data) < STRING_MAX →
  wp (socket_readline (Some q) (Some k))
    (λ r w', r = 0 ∧ ready w' ∧ handed_out w w' k l q es (u ++ data) ∧ answers (sys w') = rest) E w.
Proof.
  intros Hr Hrd Hq Hqe Haw Ha Hmax. pose proof Hrd as (o & tl & ss & _ & _ & _ & _ & HB & _).
  destruct (buffer_locs _ _ _ _ _ Hr HB) as [Hel Hsl].
  pose proof (str_rep_lt w q bs (proj1 Hr) Hq) as Hql.
  pose proof (ready_lt_lists _ _ _ Hr (br_head _ _ _ _ _ HB)) as Hll.
  apply wp_func, wp_auto_str_sys; [done|]. intros p w1 Hpl Hp S1. pose proof (sstep_next _ _ _ S1).
  apply wp_auto_str_sys; [ready|]. intros f w2 Hfl Hf S2. pose proof (sstep_next _ _ _ S2).
  pose proof (str_rep_lt w1 p [] (proj1 (sstep_ready _ _ _ S1)) Hp) as Hpl'.
  pose proof (str_rep_lt w2 f [] (proj1 (sstep_ready _ _ _ S2)) Hf) as Hfl'.
  apply wp_auto_list_sys; [ready|]. intros tk w3 Htl HK S3. pose proof (lstep_next _ _ _ _ _ S3).
  assert (lstep ∅ ∅ ∅ w w3) as S by chain.
  assert (p ∉ str_locs es ∧ f ∉ str_locs es) as [Hpe Hfe].
  { split; intros Hin; pose proof (Hsl _ Hin); lia. }
  assert (∀ w4, line_read w3 w4 k l q p f tk es (u ++ data) rest →
    ready w4 ∧ ∃ es4 ss4, list_rep true w4 tk es4 ss4 ∧ ∀ w5, lstep (str_locs es4) (ent_locs es4) {[tk]} w4 w5 →
      ready w5 ∧ (∃ bs', str_rep w5 f bs') ∧ ∀ w6, sstep {[f]} w5 w6 →
        ready w6 ∧ (∃ bs', str_rep w6 p bs') ∧ ∀ w7, sstep {[p]} w6 w7 →
          0 = 0 ∧ ready w7 ∧ handed_out w w7 k l q es (u ++ data) ∧ answers (sys w7) = rest) as finish.
  { intros w4 (R4 & H4 & ((bp & Hp4) & (bf & Hf4) & HK4) & Ha4).
    split; [done|]. exists [], []. split; [done|]. intros w5 S5. assert (ready w5) as R5 by ready. split; [done|].
    assert (str_rep w5 f bf) as Hf5 by (by eapply lstep_rep; [exact R4|exact S5|..]).
    assert (str_rep w5 p bp) as Hp5 by (by eapply lstep_rep; [exact R4|exact S5|..]).
    split; [by exists bf|]. intros w6 S6. assert (ready w6) as R6 by ready. split; [done|].
    split; [exists bp; eapply sstep_rep; [apply R5|exact S6|set_solver by lia|done]|].
    intros w7 S7. split; [done|]. split; [ready|]. split.
    - apply (handed_out_mono w w3); [lia|]. eapply (handed_out_free {[p]} ∅ w3 w6 w7); [done|by apply sstep_lstep|apply not_elem_of_empty| |].
      { intros x ->%elem_of_singleton. split; [lia|]. split; [done|]. lia. }
      eapply (handed_out_free {[f]} ∅ w3 w5 w6); [done|by apply sstep_lstep|apply not_elem_of_empty| |].
      { intros x ->%elem_of_singleton. split; [lia|]. split; [done|]. lia. }
      eapply (handed_out_free ∅ {[tk]} w3 w4 w5); [done|done|set_solver by lia|set_solver|done].
    - destruct S5 as (_ & _ & G5), S6 as (_ & _ & G6), S7 as (_ & _ & G7).
      by rewrite (sr_sys _ _ G7), (sr_sys _ _ G6), (lf_sys _ _ _ _ G5). }
  apply wp_body.
  eapply wp_mono; [eapply (readline_body_ok w3 k l p f tk q es fr u bs data rs rest); try done| |].
  - ready.
  - by eapply (reader_step ∅ ∅ ∅ w w3); [..|exact Hrd].
  - by eapply lstep_rep; [..|exact Hq].
  - eapply lstep_rep; [|exact S3| |eapply sstep_rep; [|exact S2| |exact Hp]]; try done; ready || apply S1.
  - eapply lstep_rep; [|exact S3| |exact Hf]; [ready|done].
  - lia.
  - lia.
  - lia.
  - lia.
  - destruct S as (_ & _ & G). by rewrite (lf_sys _ _ _ _ G).
  - intros [] w4 Hend. exact (finish w4 Hend).
  - intros x w4 [Hx Hend]. rewrite Hx. exact (finish w4 Hend).
Qed.

(** * The end of the connection *)

(** The peer closed the connection and no complete line can be handed out. *)
Definition cut_off (w w' : world) (k : loc) (o : socket_t) (rest : list sysret) : Prop :=
  ∃ w1, lstep ∅ ∅ ∅ w w1 ∧ quiet w1 w' ∧ socks (net w') !! k = Some (set_sock_connected o 0) ∧
    sessions (net w') = sessions (net w) ∧ answers (sys w') = rest.

Lemma readline_eof w k o l d q rest E :
  ready w → socks (net w) !! k = Some o → sock_read_buf o = Some l → lists w !! l = Some d →
  list_count d = 0 ∨ sock_fragmented o ≠ 0 → answers (sys w) = reply 0 :: rest →
  wp (socket_readline q (Some k)) (λ r w', r = -1 ∧ cut_off w w' k o rest) E w.
Proof.
  intros Hr Hk Hl Hd Hcase Ha.
  apply wp_func, wp_auto_str_sys; [done|]. intros p w1 Hpl Hp S1.
  apply wp_auto_str_sys; [ready|]. intros f w2 Hfl Hf S2.
  apply wp_auto_list_sys; [ready|]. intros tk w3 Htl HK S3.
  assert (lstep ∅ ∅ ∅ w w3) as S by chain. pose proof S as (R3 & _ & G).
  assert (str_rep w3 p []) as Hp3.
  { apply (lstep_rep ∅ ∅ ∅ w2); [ready|done|done|]. eapply sstep_rep; [|exact S2|done|done]. apply S1. }
  assert (socks (net w3) !! k = Some o) as Hk3 by (by rewrite (lf_net _ _ _ _ G)).
  apply wp_body.
  eapply (wp_conseq (readline_body q (Some p) (Some f) (Some tk) (Some k)) (λ _ _, False)); [|done].
  unfold readline_body. wp_next. eapply wp_get_sock; [exact Hk3|]. rewrite Hl. wp_next.
  eapply wp_get_list; [eapply lstep_list; [exact Hr|exact S|done|exact Hd]|].
  replace (_ && _) with false.
  2: { symmetry. apply andb_false_iff. destruct Hcase as [->|H]; [by left|right; by apply Z.eqb_neq]. }
  wp_next. apply wp_ret. wp_next. apply wp_ret. wp_next. rewrite loop_S. wp_next. wp_next.
  unfold read_more. wp_next. eapply wp_get_sock; [exact Hk3|]. wp_next.
  eapply wp_syscall_eq; [by rewrite (lf_sys _ _ _ _ G)|]. set (w4 := upd_sys _ w3). cbn zeta.
  cbn [sys_ret reply Z.ltb Z.compare andb]. wp_next. apply wp_ret. wp_next. apply wp_ret. wp_next.
  change (0 =? 0) with true. cbn [when]. eapply wp_mod_sock; [exact Hk3|]. set (w5 := upd_net _ w4).
  assert (socks (net w5) !! k = Some (set_sock_connected o 0)) as Hk5 by apply lookup_insert_eq.
  destruct (str_rep_get _ _ _ Hp3) as (b & sz & Hs & _).
  wp_next. eapply wp_deref; [exact Hs|]. cbn [str_len length Z.of_nat].
  wp_next. eapply wp_get_sock; [exact Hk5|]. cbn [negb andb Z.eqb when]. wp_next. wp_next.
  eapply wp_mod_sock; [exact Hk5|]. apply wp_throw. cbn [bexit fexit]. split; [done|].
  exists w3. split; [done|]. split; [by split|]. split; [apply lookup_insert_eq|].
  cbn. rewrite (lf_net _ _ _ _ G), (lf_sys _ _ _ _ G). by rewrite Ha.
Qed.
