(* ===== verification/SessionFacts.v ===== *)
(** Specifications of sessions: the controller table and its hooks, closing a
    session, and the handler of a client that is gone. *)

From S2P Require Import Prelude Types Machine Wp StringOps StringFacts StringMore ListOps ListRep.
From S2P Require Import ListFacts ListEdit ListText PasswdOps FileOps FileFacts InetOps DnsOps SocketOps.
From S2P Require Import UidMapOps SessionOps NetFacts LineFacts.

Open Scope Z_scope.

Lemma wp_get_session w s o (Q : session_t → world → Prop) E :
  sessions (net w) !! s = Some o → Q o w → wp (get_session (Some s)) Q E w.
Proof. apply (wp_deref (λ w, sessions (net w))). Qed.

Lemma wp_mod_session w s o g (Q : unit → world → Prop) E :
  sessions (net w) !! s = Some o → Q tt (upd_net (upd_sessions <[s := g o]>) w) →
  wp (mod_session (Some s) g) Q E w.
Proof. apply (wp_set_obj (λ w, sessions (net w)) (in_net upd_sessions)). Qed.

(** * Controllers *)

(** The world after the registration of [ctl] with the handle [n]. *)
Definition registered (n : Z) (ctl : session_controller_t) (w : world) : world :=
  upd_net (upd_table ((n + 1) mod 2 ^ 32) (<[Z.to_nat n := ctl]> (CONTROLLER (net w)))) w.

Lemma register_ok ctl w :
  session_controller_register ctl w =
    if CONTROLLER_MAX <=? CONTROLLER_COUNT (net w) then Ok (-1, None) w
    else Ok (0, Some (CONTROLLER_COUNT (net w))) (registered (CONTROLLER_COUNT (net w)) ctl w).
Proof.
  unfold session_controller_register, mbind, M_bind, get_world. cbn beta iota.
  by destruct (CONTROLLER_MAX <=? _).
Qed.

Section invoke.
Context `{Hooks}.

(** The call of a hook, as the caller sees it. *)
Definition hook_result (r : res Z) : res Z :=
  match r with
  | Ok rc w => Ok (if rc =? 0 then 0 else -1) w
  | Exit (Leave z) w => Ok z w
  | Exit (Finally z) w => Ok z w
  | Exit Catch w => Ok (-1) w
  | r => r
  end.

Lemma invoke_ok s o f arg ctl fn optional w :
  sessions (net w) !! s = Some o → 0 < s_controller_handle o < CONTROLLER_COUNT (net w) →
  CONTROLLER (net w) !! Z.to_nat (s_controller_handle o) = Some ctl →
  hook_of ctl f = Some (fn, optional) → f < SESSION_HOOK_MAX →
  session_controller_invoke (Some s) f arg w =
    if fn =? 0 then if (optional : bool) then Ok 0 w else Crash NullDeref
    else hook_result (hook_code fn (Some s) arg w).
Proof.
  intros Hs Hh Hc Hf Hmax.
  unfold session_controller_invoke, func, body, labels, mbind, M_bind, get_session, deref_obj. rewrite Hs.
  rewrite (proj2 (Z.eqb_neq _ _)) by lia. unfold get_world. cbn [when]. unfold mret, M_ret. cbn beta iota.
  rewrite (proj2 (Z.leb_gt _ _)) by lia. cbn [when]. rewrite (proj2 (Z.leb_gt _ _)) by done. cbn [when].
  rewrite Hc, Hf. unfold mret, M_ret. cbn beta iota. destruct (fn =? 0).
  - by destruct optional.
  - destruct (hook_code fn (Some s) arg w) as [rc w0|[] w0| |]; try reflexivity. cbn. by destruct (rc =? 0).
Qed.

(** A session without a controller has no hooks. *)
Lemma invoke_none s o f arg w :
  sessions (net w) !! s = Some o → s_controller_handle o = 0 →
  session_controller_invoke (Some s) f arg w = Ok 0 w.
Proof.
  intros Hs Hh. unfold session_controller_invoke, func, body, labels, mbind, M_bind, get_session, deref_obj.
  by rewrite Hs, Hh.
Qed.
End invoke.

(** * Closing *)

Lemma session_close_closed s o w :
  sessions (net w) !! s = Some o → s_session_state o = SESSION_CLOSED →
  session_close (Some s) w = Ok 0 w.
Proof.
  intros Hs Hst. unfold session_close, func, body, labels, mbind, M_bind, get_session, deref_obj.
  by rewrite Hs, Hst.
Qed.

Lemma session_close_undefined s o w :
  sessions (net w) !! s = Some o → s_session_state o = SESSION_UNDEF →
  session_close (Some s) w = Ok (-1) w.
Proof.
  intros Hs Hst. unfold session_close, func, body, labels, mbind, M_bind, get_session, deref_obj.
  by rewrite Hs, Hst.
Qed.

Definition close_socket (c : sysret) (o : socket_t) : socket_t :=
  if sys_ret c <? 0 then o else set_sock_fd o (-1).

Lemma socket_close_ok w k o c rest E :
  socks (net w) !! k = Some o → 0 ≤ sock_fd o → answers (sys w) = c :: rest →
  wp (socket_close (Some k))
    (λ z w', z = (if sys_ret c <? 0 then -1 else 0) ∧ quiet w w' ∧
       socks (net w') !! k = Some (close_socket c o) ∧ sessions (net w') = sessions (net w) ∧
       sys w' = heard (close_call (sock_fd o)) c (sys w)) E w.
Proof.
  intros Hk Hfd Ha. apply wp_func_body. wp_next. eapply wp_get_sock; [exact Hk|]. wp_next.
  apply wp_when; [intros H%Z.ltb_lt; lia|intros _]. unfold checked. wp_next. wp_next.
  eapply wp_syscall_eq; [exact Ha|]. apply wp_when; intros Hc; unfold close_socket; rewrite Hc.
  - by apply wp_leave.
  - eapply wp_mod_sock; [exact Hk|]. split; [done|]. split; [by split|]. split; [apply lookup_insert_eq|done].
Qed.

(** An open session [s] with the user [u] of the name [t] and the groups [ss]. *)
Definition open_session (w : world) (s u g k : loc) (o : session_t) (t : bytes) (ss : list bytes) : Prop :=
  sessions (net w) !! s = Some o ∧ s_session_state o ≠ SESSION_UNDEF ∧
  s_session_state o ≠ SESSION_CLOSED ∧ s_user o = Some u ∧ s_groups o = Some g ∧ s_sock o = Some k ∧
  str_rep w u t ∧ ∃ es, list_rep true w g es ss ∧ u ∉ str_locs es.

Lemma session_close_ok w s u g k o ok t ss c rest E :
  ready w → open_session w s u g k o t ss → socks (net w) !! k = Some ok → 0 ≤ sock_fd ok →
  answers (sys w) = c :: rest →
  wp (session_close (Some s))
    (λ z w', z = (if sys_ret c <? 0 then -1 else 0) ∧ ready w' ∧ str_rep w' u [] ∧
       list_rep true w' g [] [] ∧ socks (net w') !! k = Some (close_socket c ok) ∧
       sessions (net w') !! s = Some (if sys_ret c <? 0 then o else set_session_state SESSION_CLOSED o) ∧
       sys w' = heard (close_call (sock_fd ok)) c (sys w)) E w.
Proof.
  intros Hr (Hs & Hn1 & Hn2 & Hu & Hg & Hk & Hrep & es & Hl & Hue) Hsk Hfd Ha. apply wp_func_body.
  wp_next. eapply wp_get_session; [exact Hs|]. rewrite Hu, Hg, Hk.
  rewrite (proj2 (Z.eqb_neq _ _) Hn1), (proj2 (Z.eqb_neq _ _) Hn2). wp_next. apply wp_ret. wp_next. apply wp_ret.
  wp_next. wp_try_call (str_truncate_ok w u t). intros r w1 (-> & Hu1 & S1). cbn.
  assert (list_rep true w1 g es ss) as Hl1.
  { eapply (list_rep_mono _ {[u]} ∅ ∅); [done|by apply sstep_lstep|done|set_solver|set_solver|set_solver]. }
  wp_next. wp_try_call (list_truncate_ok true w1 g es ss); [ready|]. intros r w2 (-> & Hl2 & S2). cbn.
  assert (str_rep w2 u []) as Hu2 by (eapply lstep_rep; [|exact S2|done|done]; ready).
  assert (ready w2) as R2 by ready.
  destruct S1 as (_ & _ & [_ _ _ _ SS1 SN1]), S2 as (_ & _ & [_ _ _ _ SS2 SN2]).
  wp_next. wp_try_call (socket_close_ok w2 k ok c rest); [by rewrite SN2, SN1|by rewrite SS2, SS1|].
  intros z w3 (-> & Hq & Hk3 & Hs3 & Hsys). rewrite SN2, SN1 in Hs3. rewrite SS2, SS1 in Hsys.
  pose proof (quiet_ready _ _ Hq R2) as R3. pose proof (quiet_rep _ _ _ _ Hq Hu2) as Hu3.
  assert (list_rep true w3 g [] []) as Hl3.
  { destruct Hq. eapply list_rep_same; [done|done| |exact Hl2]. intros p x. apply quiet_rep. by split. }
  destruct (sys_ret c <? 0); cbn.
  - split; [done|]. rewrite Hs3. by split_and!.
  - eapply wp_mod_session; [by rewrite Hs3|]. split; [done|]. split; [by apply ready_net|].
    split; [done|]. split; [by eapply list_rep_same; [..|exact Hl3]|]. split; [done|].
    split; [apply lookup_insert_eq|done].
Qed.

(** * A client that is gone *)

(** The session [s] expects a request, and its socket has no complete line. *)
Definition waiting (w : world) (s k l : loc) : Prop :=
  ready w ∧ ∃ o ok d, sessions (net w) !! s = Some o ∧ s_session_state o = SESSION_READ ∧
    s_sock o = Some k ∧ socks (net w) !! k = Some ok ∧ sock_read_buf ok = Some l ∧
    lists w !! l = Some d ∧ (list_count d = 0 ∨ sock_fragmented ok ≠ 0).

Section handler.
Context `{Hooks}.

Lemma process_request_eof w s k l rest :
  waiting w s k l → answers (sys w) = reply 0 :: rest →
  ∃ w', session_process_request (Some s) w = Ok (-1) w' ∧ waiting w' s k l ∧ answers (sys w') = rest.
Proof.
  intros (Hr & o & ok & d & Hs & Hst & Hk & Hok & Hl & Hd & Hcase) Ha.
  assert (wp (session_process_request (Some s))
    (λ r w', r = -1 ∧ waiting w' s k l ∧ answers (sys w') = rest) no_exit w) as Hwp.
  { apply wp_func, wp_auto_str_sys; [done|]. intros p w1 Hpl Hp S1.
    pose proof S1 as (R1 & _ & [_ SL _ _ SS SN]).
    apply wp_body. eapply (wp_conseq _ (λ _ _, False)); [|done].
    wp_next. eapply wp_get_session; [by rewrite SN|]. rewrite Hk. wp_next.
    wp_try_call (readline_eof w1 k ok l d (Some p) rest); [by rewrite SN|by rewrite SL|by rewrite SS|].
    intros r w2 (-> & w1' & S & Hq & Hok2 & Hs2 & Ha2). cbn. split; [done|]. split; [|done].
    split; [eapply quiet_ready; [exact Hq|ready]|].
    exists o, (set_sock_connected ok 0), d. rewrite Hs2, SN. split_and!; try done.
    rewrite (qt_lists _ _ Hq). eapply lstep_list; [exact R1|exact S|done|by rewrite SL]. }
  destruct (wp_ok _ _ _ Hwp) as (r & w' & Hrun & -> & H'). by exists w'.
Qed.

Definition serve_requests (fuel : nat) (s : ptr) : M unit :=
  loop fuel (λ _,
    o ← get_session s;
    if s_session_state o =? SESSION_READ
    then _ ← session_process_request s; mret (inl tt)
    else mret (inr tt)) tt.

Lemma serve_requests_eof fuel m w s k l rest :
  waiting w s k l → answers (sys w) = replicate m (reply 0) ++ rest → (fuel ≤ m)%nat →
  serve_requests fuel (Some s) w = NoFuel.
Proof.
  revert m w. induction fuel as [|fuel IH]; intros m w Hw Ha Hle; [done|].
  destruct m as [|m]; [lia|]. destruct (process_request_eof w s k l _ Hw Ha) as (w' & Hrun & Hw' & Ha').
  destruct Hw as (_ & o & ok & d & Hs & Hst & _).
  unfold serve_requests. rewrite loop_S. unfold mbind at 1, M_bind at 1.
  unfold mbind at 1, M_bind at 1, get_session, deref_obj. rewrite Hs, Hst. cbn [Z.eqb].
  change (SESSION_READ =? SESSION_READ) with true. cbn beta iota.
  unfold mbind at 1, M_bind at 1. rewrite Hrun. cbn beta iota. apply (IH m w'); [done|done|lia].
Qed.

(** After a greeting, whatever it sent. *)
Lemma handler_eof fuel m w w2 s o k l rest :
  sessions (net w) !! s = Some o →
  session_greeting (Some s) (upd_net (upd_sessions <[s := set_session_state SESSION_GREETING o]>) w) = Ok 0 w2 →
  waiting w2 s k l → answers (sys w2) = replicate m (reply 0) ++ rest → (fuel ≤ m)%nat →
  session_handler fuel (Some s) w = NoFuel.
Proof.
  intros Hs Hg Hw Ha Hle. pose proof (serve_requests_eof fuel m w2 s k l rest Hw Ha Hle) as Hl.
  unfold session_handler, func, body, labels. unfold mbind at 1, M_bind at 1, mod_session, set_obj.
  rewrite Hs. unfold mbind at 1, M_bind at 1. unfold try_, mbind at 1, M_bind at 1. unfold in_net.
  rewrite Hg. unfold mbind at 1, M_bind at 1. unfold serve_requests in Hl. cbn -[loop]. by rewrite Hl.
Qed.
End handler.

(** * The loopback test *)

Lemma session_is_loopback_ok w s k o ok E :
  ready w → sessions (net w) !! s = Some o → s_sock o = Some k → socks (net w) !! k = Some ok →
  let a := sin_addr (sock_remote ok) in
  wp (session_is_loopback (Some s))
    (λ r w', r = (if strcmp (inet_ntop a) (B "127.0.0.1") <? 0 then -1 else 0)) E w.
Proof.
  intros Hr Hs Hk Hok a. apply wp_func, wp_auto_str_sys; [done|]. intros p w1 _ Hp S1.
  pose proof S1 as (R1 & _ & [_ _ _ _ SS SN]). apply wp_body.
  wp_next. eapply wp_get_session; [by rewrite SN|]. rewrite Hk. wp_next.
  eapply wp_get_sock; [by rewrite SN|]. fold a. wp_next.
  wp_try_call (str_from_inet_ok w1 p [] a). intros r w2 (-> & Hp2 & S2). cbn [Z.eqb].
  assert (ready w2) as R2 by ready. wp_next.
  wp_call (str_cmp_ok w2 p (inet_ntop a) (CLit (B "127.0.0.1") 0) (B "127.0.0.1")).
  intros r w3 [-> ->]. apply wp_when; intros Hcmp; [apply wp_leave|]; cbn beta iota delta [bexit]; rewrite Hcmp;
    (split; [done|]; split; [by eexists|done]).
Qed.

(** The order of the texts is decided by their first three characters. *)
Lemma strcmp_prefix a b r s :
  length a = length b → strcmp a b = 1 → strcmp (a ++ r) (b ++ s) = 1.
Proof.
  revert b. induction a as [|x a IH]; intros [|y b] Hlen H; try done. cbn in *.
  destruct (decide (x = y)); [|done]. by apply IH; [lia|].
Qed.

Lemma high_octet o : 128 ≤ o < 256 → length (format_u o) = 3%nat ∧ strcmp (format_u o) (B "127") = 1.
Proof.
  intros H. assert (forallb (λ n, (length (format_u (Z.of_nat n)) =? 3)%nat &&
    (strcmp (format_u (Z.of_nat n)) (B "127") =? 1)) (seq 128 128) = true) as Hall by (by vm_compute).
  rewrite forallb_forall in Hall. specialize (Hall (Z.to_nat o)).
  rewrite Z2Nat.id, andb_true_iff, Nat.eqb_eq, Z.eqb_eq in Hall by lia.
  apply Hall, in_seq. lia.
Qed.

Lemma high_address a : 128 ≤ octet a 0 → strcmp (inet_ntop a) (B "127.0.0.1") = 1.
Proof.
  intros H. destruct (high_octet (octet a 0)) as [Hl Hc]; [pose proof (octet_bound a 0); lia|].
  unfold inet_ntop, octets. cbn [fmap list_fmap]. change (B "127.0.0.1") with (B "127" ++ B ".0.0.1").
  by apply strcmp_prefix.
Qed.
