(* ===== verification/DnsFacts.v ===== *)
(** The block lists of dns.c: which names [dns_query_blocklist] looks up for
    the address of a client, and what it concludes. *)

From S2P Require Import Prelude Types Machine Wp StringOps StringFacts StringMore ListOps ListRep.
From S2P Require Import EscapeFacts ListFacts ListEdit ListText PasswdOps FileOps FileFacts UidMapOps.
From S2P Require Import InetOps DnsOps SocketOps NetFacts.

Open Scope Z_scope.

(** * Reversing an address *)

Definition dot : Z := int_of_char ".".

Definition digits_only (s : bytes) : bool := forallb isdigit s.

Lemma octet_digits o : 0 ≤ o < 256 → digits_only (format_u o) = true ∧ format_u o ≠ [].
Proof.
  intros H. assert (forallb (λ n, digits_only (format_u (Z.of_nat n)) &&
    negb (bool_decide (format_u (Z.of_nat n) = []))) (seq 0 256) = true) as Hall by (by vm_compute).
  rewrite forallb_forall in Hall. specialize (Hall (Z.to_nat o)).
  rewrite Z2Nat.id, andb_true_iff, negb_true_iff, bool_decide_eq_false in Hall by lia.
  apply Hall, in_seq. lia.
Qed.

(** The texts of the octets. *)
Definition quad (a : Z) : list bytes := format_u <$> octets a.

Lemma quad_digits a : Forall (λ s, digits_only s = true ∧ s ≠ []) (quad a).
Proof.
  unfold quad. apply Forall_fmap, Forall_forall. intros o Ho.
  apply list_elem_of_fmap in Ho as (i & -> & _). by apply octet_digits, octet_bound.
Qed.

Lemma inet_ntop_quad a : inet_ntop a = join (B ".") (quad a).
Proof. done. Qed.

Lemma digits_no c s : isdigit c = false → digits_only s = true → c ∉ s.
Proof.
  unfold digits_only. rewrite forallb_forall. intros Hc Hs Hin%list_elem_of_In%Hs. congruence.
Qed.

Lemma join_no c d (ss : list bytes) : c ∉ d → Forall (λ s, c ∉ s) ss → c ∉ join d ss.
Proof.
  intros Hd. induction 1 as [|s ss Hs Hss IH]; [apply not_elem_of_nil|].
  destruct ss as [|t ss]; [done|]. rewrite join_cons, !elem_of_app. naive_solver.
Qed.

(** Splitting the text at the dots gives the octets back. *)
Lemma quad_pieces a : pieces dot (inet_ntop a) = quad a.
Proof.
  assert (∀ c, isdigit c = false → c ∉ B "." → c ∉ inet_ntop a) as Hno.
  { intros c Hc Hd. rewrite inet_ntop_quad. apply join_no; [done|].
    eapply Forall_impl; [apply quad_digits|]. intros s [Hs _]. by apply digits_no. }
  assert (∀ c s, c ∉ s → chomp1 c s = s) as Hch.
  { intros c s Hs. apply chomp1_other. intros H. apply Hs. apply last_Some in H as [y ->].
    apply elem_of_app. right. by left. }
  unfold pieces, chomp. rewrite (Hch LF), (Hch CR) by (apply Hno; [done|by apply (bool_decide_unpack _)]).
  change (char_of_int dot) with "."%char. rewrite inet_ntop_quad.
  change (B ".") with ["."%char]. rewrite split_join; [|by destruct a| ].
  - rewrite <- (list_fmap_id (quad a)) at 2. by apply list_fmap_ext.
  - eapply Forall_impl; [apply quad_digits|]. intros s [Hs _]. by apply digits_no.
Qed.

Lemma inet_ntop_nonempty a : inet_ntop a ≠ [].
Proof.
  intros H. apply (f_equal length) in H. unfold inet_ntop, octets in H. cbn [fmap list_fmap] in H.
  rewrite !length_app in H. cbn in H. lia.
Qed.

(** The octets from the last to the first, with dots between them. *)
Definition reversed (a : Z) : bytes := join (B ".") (reverse (quad a)).

Example reversed_loopback : reversed 16777343 = B "1.0.0.127".
Proof. reflexivity. Qed.

Lemma length_join d (ss : list bytes) : length (join [d] ss) = (sum_list (length <$> ss) + (length ss - 1))%nat.
Proof.
  induction ss as [|s ss IH]; [done|]. destruct ss as [|t ss]; [cbn; lia|].
  rewrite join_cons, !length_app, IH. cbn. lia.
Qed.

Lemma length_reversed a : length (reversed a) = length (inet_ntop a).
Proof.
  unfold reversed. rewrite inet_ntop_quad. change (B ".") with ["."%char].
  rewrite !length_join, length_reverse. f_equal. by rewrite fmap_reverse, reverse_Permutation.
Qed.

Lemma reversed_nonul a : nonul (reversed a).
Proof.
  apply join_nonul; [by apply (bool_decide_unpack _)|]. apply Forall_reverse.
  eapply Forall_impl; [apply quad_digits|]. intros s [Hs _]. apply Forall_forall. intros c Hc ->.
  by eapply (digits_no NUL s).
Qed.

(** * Looking up the domains *)

(** The domains of [ss] that are looked up, when the replies are [rs], and
    whether the last of them was found. *)
Fixpoint listed (ss : list bytes) (rs : list sysret) : bool * list bytes :=
  match ss, rs with
  | d :: ss, r :: rs =>
      if 0 <=? sys_ret r then (true, [d])
      else let '(b, ds) := listed ss rs in (b, d :: ds)
  | _, _ => (false, [])
  end.

Definition lookup_call (name : bytes) : call_t := ("gethostbyname", [AStr name]).

(** The calls, the last first. *)
Definition lookups (prefix : bytes) (ds : list bytes) : list call_t :=
  reverse ((λ d, lookup_call (prefix ++ B "." ++ d)) <$> ds).

Lemma lookups_cons prefix d ds : lookups prefix (d :: ds) = lookups prefix ds ++ [lookup_call (prefix ++ B "." ++ d)].
Proof. unfold lookups. by rewrite fmap_cons, reverse_cons. Qed.

Section queries.
Context (rv q v : loc) (R : bytes).
Hypothesis Hrq : rv ≠ q.

(** One look-up; the result tells whether to go on. *)
Definition query_domain (domain : ptr) : M bool :=
  try_ (str_sprintf (Some q) (r ← path_of (Some rv); d ← path_of domain; mret (r ++ B "." ++ d)));;
  q ← path_of (Some q);
  answer ← syscall "gethostbyname" [AStr q];
  if 0 <=? sys_ret answer then set_var (Some v) 1;; mret false else mret true.

Lemma query_domain_ok s d old x r rest w (Q : bool → world → Prop) E :
  ready w → str_rep w rv R → str_rep w s d → s ≠ q → str_rep w q old →
  vars (net w) !! v = Some x → answers (sys w) = r :: rest →
  Z.of_nat (length (R ++ B "." ++ d)) ≤ STRING_MAX →
  (∀ w', nstep {[q]} w w' → (∃ t, str_rep w' q t) →
     vars (net w') !! v = Some (if 0 <=? sys_ret r then 1 else x) → answers (sys w') = rest →
     trace (sys w') = lookup_call (R ++ B "." ++ d) :: trace (sys w) → Q (negb (0 <=? sys_ret r)) w') →
  wp (query_domain (Some s)) Q E w.
Proof.
  intros Hr Hrv Hs Hsq Hq Hv Ha Hmax HQ. unfold query_domain.
  assert (nonul (R ++ B "." ++ d)) as Hnul.
  { rewrite !nonul_app. split; [by eapply str_rep_nonul|]. split; [by apply (bool_decide_unpack _)|by eapply str_rep_nonul]. }
  wp_next. wp_try_call (str_sprintf_ok w q old _ (R ++ B "." ++ d)).
  { intros w' S'. wp_next. eapply wp_path_of; [eapply sstep_rep; [apply Hr|exact S'|set_solver|exact Hrv]|].
    wp_next. eapply wp_path_of; [eapply sstep_rep; [apply Hr|exact S'|set_solver|exact Hs]|]. by apply wp_ret. }
  intros z w1 (-> & Hq1 & S1). cbn. pose proof S1 as (R1 & _ & [_ _ _ _ SS SN]).
  wp_next. eapply wp_path_of; [exact Hq1|]. wp_next. eapply wp_syscall_eq; [by rewrite SS|].
  set (w2 := upd_sys _ w1).
  assert (nstep {[q]} w w2) as N2.
  { eapply nstep_trans; [by apply sstep_nstep|]. by apply quiet_nstep, quiet_sys. }
  assert (trace (sys w2) = lookup_call (R ++ B "." ++ d) :: trace (sys w)) as Ht by (cbn; by rewrite SS).
  assert (answers (sys w2) = rest) as Ha2 by (cbn; by rewrite SS, Ha).
  destruct (0 <=? sys_ret r) eqn:H0.
  - wp_next. eapply (wp_set_obj (λ w, vars (net w))); [by cbn; rewrite SN|]. apply wp_ret.
    apply (HQ (in_net upd_vars <[v:=1]> w2)); [|exists (R ++ B "." ++ d)|apply lookup_insert_eq|exact Ha2|exact Ht].
    + eapply nstep_trans; [exact N2|]. apply quiet_nstep, quiet_net. apply N2.
    + exact Hq1.
  - apply wp_ret. apply HQ; [exact N2|by exists (R ++ B "." ++ d)|by cbn; rewrite SN|done|done].
Qed.

Lemma lookup_loop_ok k es : ∀ w ss rs p old x fuel (Q : unit → world → Prop) E,
  ready w → seg k w p es None → texts w es ss → q ∉ str_locs es → str_rep w rv R → str_rep w q old →
  vars (net w) !! v = Some x → answers (sys w) = rs → (length ss ≤ length rs)%nat → (length es < fuel)%nat →
  Forall (λ d : bytes, Z.of_nat (length (R ++ B "." ++ d)) ≤ STRING_MAX) ss →
  (∀ w', nstep {[q]} w w' → (∃ t, str_rep w' q t) →
     let '(b, ds) := listed ss rs in
     vars (net w') !! v = Some (if b then 1 else x) →
     trace (sys w') = lookups R ds ++ trace (sys w) → Q tt w') →
  wp (loop fuel (λ cur,
    if is_null cur then mret (inr tt) else
    e ← get_ent cur;
    go ← query_domain (ent_value e);
    if (go : bool) then e ← get_ent cur; mret (inl (ent_next e)) else mret (inr tt)) (hd_ptr es None)) Q E w.
Proof.
  induction es as [|[n s] es IH]; intros w ss rs p old x [|fuel] Q E Hr Hs Ht Hqe Hrv Hq Hv Ha Hlen Hfuel Hmax HQ;
    try (cbn in Hfuel; lia); rewrite loop_S; wp_next.
  - inversion Ht; subst ss. cbn [hd_ptr]. rewrite is_null_none. apply wp_ret. apply wp_ret.
    eapply (HQ w); [by apply quiet_nstep|by eexists|done|done].
  - apply seg_cons in Hs as [(pv & Hn & Hpv) Hs]. inversion Ht as [|? d ? ss' Htd Ht']; subst. cbn in Htd.
    rewrite str_locs_cons in Hqe. apply Forall_cons in Hmax as [Hmd Hmax].
    destruct (answers (sys w)) as [|r rest] eqn:Ha; [cbn in Hlen; lia|].
    cbn [hd_ptr]. rewrite is_null_some. wp_next. eapply wp_get_ent; [exact Hn|]. cbn [ent_value]. wp_next.
    eapply query_domain_ok; try done; [set_solver|]. intros w' N' [t Hq'] Hv' Ha' Ht1. cbn [listed] in HQ.
    destruct (0 <=? sys_ret r); cbn [negb].
    + apply wp_ret. apply wp_ret. apply (HQ w'); [done|by exists t|done|]. by rewrite Ht1.
    + wp_next. eapply wp_get_ent; [destruct N' as (_ & _ & -> & _); exact Hn|]. apply wp_ret. cbn [ent_next].
      assert (ready w') as R' by apply N'.
      eapply (IH w' ss' rest (Some n) t x); try done.
      * eapply seg_same; [apply N'|exact Hs].
      * eapply texts_frame; [exact Hr|apply N'|set_solver|exact Ht'].
      * set_solver.
      * eapply nstep_rep; [exact Hr|exact N'|set_solver|exact Hrv].
      * cbn in Hlen. lia.
      * cbn in Hfuel. lia.
      * intros w2 N2 Hq2. destruct (listed ss' rest) as [b ds]. intros Hv2 Ht2.
        apply (HQ w2); [by eapply nstep_trans|done|done|].
        by rewrite Ht2, Ht1, lookups_cons, <- app_assoc.
Qed.
End queries.

(** * The block list *)

(** What is left of the automatic objects of [dns_query_blocklist]. *)
Definition query_temporaries (w : world) (p1 p2 p3 tk : loc) : Prop :=
  (∃ t, str_rep w p1 t) ∧ (∃ t, str_rep w p2 t) ∧ (∃ t, str_rep w p3 t) ∧
  ∃ es ss, list_rep true w tk es ss ∧ p1 ∉ str_locs es ∧ p2 ∉ str_locs es ∧ p3 ∉ str_locs es.

Definition queried (v : loc) (a : Z) (ss : list bytes) (rs : list sysret) (w w' : world) : Prop :=
  vars (net w') !! v = Some (if fst (listed ss rs) then 1 else 0) ∧
  trace (sys w') = lookups (reversed a) (snd (listed ss rs)) ++ trace (sys w).

(** The octets of an address, in a list, last one first. *)
Lemma reversed_quad_ok w p1 tk t a E :
  ready w → str_rep w p1 t → list_rep true w tk [] [] →
  wp (try_ (str_from_inet (Some p1) a);;
      try_ (str_split (Some tk) (Some p1) dot);;
      try_ (list_reverse (Some tk)))
    (λ _ w', (∃ u, str_rep w' p1 u) ∧ (∃ new, list_rep true w' tk new (reverse (quad a)) ∧
       ∀ x, x ∈ str_locs new → (next_loc w ≤ x)%positive) ∧ lstep {[p1]} ∅ {[tk]} w w') E w.
Proof.
  intros Hr Hp Htk. wp_next. wp_try_call (str_from_inet_ok w p1 t a). intros r1 w1 (-> & Hp1 & S1). cbn.
  pose proof (inet_ntop_nonempty a). assert (ready w1) as R1 by ready.
  assert (list_rep true w1 tk [] []) as Htk1.
  { eapply (list_rep_mono _ {[p1]} ∅ ∅ w); [done|by apply sstep_lstep|done|apply not_elem_of_empty|
      apply disjoint_empty_r|apply disjoint_empty_l]. }
  wp_next. wp_try_call (str_split_ok true w1 tk [] [] p1 (inet_ntop a) dot); [apply length_inet_ntop|].
  intros r2 w2 ((-> & new & [Hn1 Hn2] & Htk2) & S2). cbn. rewrite quad_pieces in Htk2.
  wp_try_call (list_reverse_ok w2 tk new (quad a)); [ready|]. intros r3 w3 (-> & Htk3 & S3). cbn.
  pose proof (sstep_next _ _ _ S1). split; [|split].
  - exists (inet_ntop a). eapply lstep_rep; [|exact S3|done|eapply lstep_rep; [|exact S2|done|exact Hp1]]; ready.
  - exists (reverse new). split; [done|]. intros x Hx. assert (x ∈ str_locs new) as Hx'.
    { revert Hx. rewrite !elem_of_str_locs, fmap_reverse. apply elem_of_reverse. }
    pose proof (Hn2 _ Hx'). lia.
  - assert (lstep ∅ ∅ {[tk]} w1 w3) as S13.
    { eapply lstep_trans; [exact R1|exact S2|exact S3|..]; try apply within_empty; try (by apply within_sub).
      intros x Hx. right. by apply Hn1. }
    eapply lstep_trans; [exact Hr|by apply (sstep_lstep _ ∅ {[tk]})|exact S13|..];
      [apply within_empty|apply within_empty|by apply within_sub].
Qed.

Section body.
Context (w : world) (v k l p1 p2 p3 tk : loc) (o : socket_t) (kl : bool) (es : entries)
  (ss : list bytes) (x : Z).
Let a := sin_addr (sock_remote o).
Context (Hr : ready w) (Hv : vars (net w) !! v = Some x) (Hk : socks (net w) !! k = Some o)
  (Hl : list_rep kl w l es ss) (H1 : str_rep w p1 []) (H2 : str_rep w p2 []) (H3 : str_rep w p3 [])
  (Htk : list_rep true w tk [] []) (H12 : p1 ≠ p2) (H13 : p1 ≠ p3) (H23 : p2 ≠ p3) (Hltk : l ≠ tk)
  (He1 : p1 ∉ str_locs es) (He2 : p2 ∉ str_locs es) (He3 : p3 ∉ str_locs es)
  (Hlen : (length ss ≤ length (answers (sys w)))%nat)
  (Hmax : Forall (λ d : bytes, Z.of_nat (length (reversed a ++ B "." ++ d)) ≤ STRING_MAX) ss).

Lemma blocklist_body_ok E :
  wp (set_var (Some v) 0;;
      s ← get_sock (Some k);
      try_ (str_from_inet (Some p1) (sin_addr (sock_remote s)));;
      try_ (str_split (Some tk) (Some p1) dot);;
      try_ (list_reverse (Some tk));;
      try_ (str_join (Some p2) (Some tk) dot);;
      for_items (Some l) (query_domain p2 p3 v))
    (λ _ w', ready w' ∧ query_temporaries w' p1 p2 p3 tk ∧ queried v a ss (answers (sys w)) w w') E w.
Proof.
  wp_next. eapply (wp_set_obj (λ w, vars (net w))); [exact Hv|]. set (w0 := in_net _ _ w).
  assert (vars (net w0) !! v = Some 0) as Hv0 by apply lookup_insert_eq.
  assert (ready w0) as R0 by (by apply ready_net).
  assert (∀ p t, str_rep w p t → str_rep w0 p t) as Keep0 by (intros p t; by apply quiet_rep).
  assert (list_rep true w0 tk [] []) as Htk0 by (by revert Htk; apply list_rep_same).
  assert (list_rep kl w0 l es ss) as Hl0 by (by revert Hl; apply list_rep_same).
  wp_next. eapply wp_get_sock; [exact Hk|]. fold a. apply wp_two_steps. eapply wp_conseq.
  { by apply (reversed_quad_ok w0 p1 tk []); [|apply Keep0|]. }
  intros _ w3 ((t1 & Ht1) & (new & Htk3 & Hfresh) & S3).
  assert (∀ p t, p ≠ p1 → str_rep w p t → str_rep w3 p t) as Keep3.
  { intros p t Hp Ht. eapply lstep_rep; [exact R0|exact S3|by apply not_elem_of_singleton|by apply Keep0]. }
  assert (∀ p t, str_rep w p t → p ∉ str_locs new) as Hnew.
  { intros p t Hp%Keep0 Hin%Hfresh. pose proof (str_rep_lt w0 p t (proj1 R0) Hp). lia. }
  pose proof (length_ntop_bound a) as Hla. wp_next. apply wp_try. eapply wp_conseq.
  { apply (str_join_ok true w3 tk new (reverse (quad a)) p2 [] dot); [ready|exact Htk3|by apply Keep3|by eapply Hnew|done|].
    change (Z.of_nat (length (reversed a)) + 1 < STRING_MAX). rewrite length_reversed. clear -Hla.
    unfold STRING_MAX. lia. }
  intros r4 w4 (-> & Hr4 & S4). cbn.
  change (str_rep w4 p2 (join (B ".") (reverse (quad a)) ++ [])) in Hr4. rewrite app_nil_r in Hr4.
  fold (reversed a) in Hr4. assert (ready w3) as R3 by ready. assert (ready w4) as R4 by ready.
  assert (∀ p t, p ≠ p2 → str_rep w3 p t → str_rep w4 p t) as Keep4.
  { intros p t Hp Ht. by eapply sstep_rep; [apply R3|exact S4|apply not_elem_of_singleton|]. }
  assert (list_rep kl w4 l es ss) as Hl4.
  { apply (list_rep_mono _ {[p2]} ∅ ∅ w3); [done|by apply sstep_lstep| |apply not_elem_of_empty|apply disjoint_empty_r|by apply disjoint_singleton_r].
    apply (list_rep_mono _ {[p1]} ∅ {[tk]} w0); [done|exact S3|done|by apply not_elem_of_singleton|apply disjoint_empty_r|by apply disjoint_singleton_r]. }
  assert (list_rep true w4 tk new (reverse (quad a))) as Htk4.
  { apply (list_rep_mono _ {[p2]} ∅ ∅ w3); [done|by apply sstep_lstep|done|apply not_elem_of_empty|apply disjoint_empty_r|].
    by eapply disjoint_singleton_r, Hnew. }
  destruct S3 as (_ & _ & [_ _ _ _ SS3 SN3]), S4 as (_ & _ & [_ _ _ _ SS4 SN4]).
  assert (net w4 = net w0) as HN by congruence. assert (sys w4 = sys w0) as HS by congruence.
  pose proof Hl4 as [Hh Hseg _ _ Ht _].
  wp_next. eapply wp_get_list; [exact Hh|]. cbn [list_head]. wp_next. apply wp_get_ents_fuel.
  eapply (lookup_loop_ok p2 p3 v (reversed a) H23 kl es w4 ss (answers (sys w)) None [] 0); try done.
  - apply Keep4; [done|]. by apply Keep3.
  - by rewrite HN.
  - by rewrite HS.
  - by eapply list_rep_fuel.
  - intros w5 N5 [t5 Ht5]. destruct (listed ss (answers (sys w))) as [b ds] eqn:Hlist. intros Hv5 Htr5.
    assert (ready w5) as R5 by apply N5. split; [done|]. split; [|split].
    + split; [eexists; eapply nstep_rep; [exact R4|exact N5|by apply not_elem_of_singleton|by apply Keep4]|].
      split; [eexists; eapply nstep_rep; [exact R4|exact N5|by apply not_elem_of_singleton|exact Hr4]|].
      split; [by eexists|]. exists new, (reverse (quad a)).
      split; [eapply nstep_list; [exact R4|exact N5| |exact Htk4]; by eapply disjoint_singleton_r, Hnew|].
      split_and!; by eapply Hnew.
    + by rewrite Hlist.
    + by rewrite Hlist, Htr5, HS.
Qed.
End body.

Lemma queried_same v a ss rs w w1 w2 :
  net w2 = net w1 → sys w2 = sys w1 → queried v a ss rs w w1 → queried v a ss rs w w2.
Proof. unfold queried. by intros -> ->. Qed.

Lemma query_blocklist_ok w v k l o kl es ss x E :
  let a := sin_addr (sock_remote o) in
  ready w → vars (net w) !! v = Some x → socks (net w) !! k = Some o → list_rep kl w l es ss →
  (length ss ≤ length (answers (sys w)))%nat →
  Forall (λ d : bytes, Z.of_nat (length (reversed a ++ B "." ++ d)) ≤ STRING_MAX) ss →
  wp (dns_query_blocklist (Some v) (Some l) (Some k))
    (λ r w', r = 0 ∧ queried v a ss (answers (sys w)) w w') E w.
Proof.
  intros a Hr Hv Hk Hl Hlen Hmax. destruct (list_rep_locs _ _ _ _ _ Hr Hl) as [Hel Hsl].
  pose proof (ready_lt_lists _ _ _ Hr (lr_head _ _ _ _ _ Hl)) as Hll.
  apply wp_func, wp_auto_str_sys; [done|]. intros p1 w1 Hp1 Q1 S1. pose proof (sstep_next _ _ _ S1).
  assert (ready w1) as R1 by ready. pose proof (str_rep_lt w1 p1 [] (proj1 R1) Q1).
  apply wp_auto_str_sys; [done|]. intros p2 w2 Hp2 Q2 S2. pose proof (sstep_next _ _ _ S2).
  assert (ready w2) as R2 by ready. pose proof (str_rep_lt w2 p2 [] (proj1 R2) Q2).
  apply wp_auto_str_sys; [done|]. intros p3 w3 Hp3 Q3 S3. pose proof (sstep_next _ _ _ S3).
  assert (ready w3) as R3 by ready. pose proof (str_rep_lt w3 p3 [] (proj1 R3) Q3).
  apply wp_auto_list_sys; [done|]. intros tk w4 Htk Ltk S4. pose proof (lstep_next _ _ _ _ _ S4).
  assert (lstep ∅ ∅ ∅ w w4) as S by chain. pose proof S as (R4 & _ & G).
  assert (∀ p, (next_loc w ≤ p)%positive → p ∉ str_locs es) as Hfr.
  { intros p Hp Hin. pose proof (Hsl _ Hin). lia. }
  apply wp_body. eapply wp_conseq.
  { apply (blocklist_body_ok w4 v k l p1 p2 p3 tk o kl es ss x); try done; try lia; try (apply Hfr; lia).
    - by rewrite (lf_net _ _ _ _ G).
    - by rewrite (lf_net _ _ _ _ G).
    - eapply list_rep_mono; [exact Hr|exact S|exact Hl|apply not_elem_of_empty|apply disjoint_empty_r..].
    - eapply lstep_rep; [|exact S4|done|]; [done|]. eapply sstep_rep; [|exact S3|done|]; [apply R2|].
      eapply sstep_rep; [|exact S2|done|exact Q1]. apply R1.
    - eapply lstep_rep; [|exact S4|done|]; [done|]. eapply sstep_rep; [|exact S3|done|exact Q2]. apply R2.
    - by eapply lstep_rep; [|exact S4|..].
    - by rewrite (lf_sys _ _ _ _ G). }
  rewrite (lf_sys _ _ _ _ G). fold a. intros _ w5 (R5 & ((t1 & T1) & (t2 & T2) & (t3 & T3) & es' & ss' & L5 & N1 & N2 & N3) & Hq).
  assert (queried v a ss (answers (sys w)) w w5) as Hq'.
  { unfold queried in *. by rewrite (lf_sys _ _ _ _ G) in Hq. }
  split; [done|]. exists es', ss'. split; [done|]. intros w6 S6. assert (ready w6) as R6 by ready.
  split; [done|]. split; [exists t3; by eapply lstep_rep; [exact R5|exact S6|..]|].
  intros w7 S7. assert (ready w7) as R7 by ready. split; [done|].
  split. { exists t2. eapply sstep_rep; [apply R6|exact S7|apply not_elem_of_singleton; lia|].
    by eapply lstep_rep; [exact R5|exact S6|..]. }
  intros w8 S8. assert (ready w8) as R8 by ready. split; [done|].
  split. { exists t1. eapply sstep_rep; [apply R7|exact S8|apply not_elem_of_singleton; lia|].
    eapply sstep_rep; [apply R6|exact S7|apply not_elem_of_singleton; lia|].
    by eapply lstep_rep; [exact R5|exact S6|..]. }
  intros w9 S9. split; [done|]. eapply queried_same; [| |exact Hq'].
  - destruct S6 as (_ & _ & G6), S7 as (_ & _ & G7), S8 as (_ & _ & G8), S9 as (_ & _ & G9).
    by rewrite (sr_net _ _ G9), (sr_net _ _ G8), (sr_net _ _ G7), (lf_net _ _ _ _ G6).
  - destruct S6 as (_ & _ & G6), S7 as (_ & _ & G7), S8 as (_ & _ & G8), S9 as (_ & _ & G9).
    by rewrite (sr_sys _ _ G9), (sr_sys _ _ G8), (sr_sys _ _ G7), (lf_sys _ _ _ _ G6).
Qed.
