(* ===== verification/PacketFacts.v ===== *)
(** The answers to a query for mail exchangers (dns.c): what the parser makes of
    a packet, record by record. *)

From S2P Require Import Prelude Types Machine Wp StringOps StringFacts StringMore ListOps ListRep.
From S2P Require Import ListFacts ListEdit HashRep HashFacts PasswdOps FileOps FileFacts UidMapOps InetOps DnsOps NetFacts.

Open Scope Z_scope.

(** The packet has the 16-bit number [v] at the offset [i]. *)
Definition short_at (pkt : bytes) (i v : Z) : Prop := ∃ a b,
  0 ≤ i ∧ pkt !! Z.to_nat i = Some a ∧ pkt !! Z.to_nat (i + 1) = Some b ∧ v = uchar a * 256 + uchar b.

Lemma uchar_range a : 0 ≤ uchar a < 256.
Proof. unfold uchar. pose proof (N_ascii_bounded a). lia. Qed.

Lemma getshort_ok pkt i v (Q : Z → world → Prop) E w :
  short_at pkt i v → Q v w → wp (getshort pkt i) Q E w.
Proof.
  intros (a & b & Hi & Ha & Hb & ->) HQ. wp_next. unfold packet_byte. rewrite (proj2 (Z.ltb_ge _ _)), Ha by lia.
  apply wp_ret. wp_next. rewrite (proj2 (Z.ltb_ge _ _)), Hb by lia. by do 2 apply wp_ret.
Qed.

Section packets.
Context `{Resolver}.

(** [n] questions lead from one offset to another. *)
Inductive questions (pkt : bytes) : nat → Z → Z → Prop :=
| no_question cp : questions pkt 0 cp cp
| question n cp cp' :
    0 ≤ dn_skipname pkt cp → questions pkt n (cp + dn_skipname pkt cp + QFIXEDSZ) cp' →
    questions pkt (S n) cp cp'.

Lemma skip_questions_ok pkt n cp cp' (Q : Z → world → Prop) E w :
  questions pkt n cp cp' → Q cp' w → wp (skip_questions pkt n cp) Q E w.
Proof.
  induction 1 as [|n cp cp' Hs _ IH]; intros HQ; [done|]. cbn [skip_questions].
  rewrite (proj2 (Z.ltb_ge _ _)) by done. by apply IH.
Qed.

(** A record answers the question about [dom]. *)
Definition names_domain (name dom : bytes) : bool :=
  strncmp name dom (Z.of_nat (length dom) + 1) =? 0.

(** The records from an offset on: the hosts before the first one that is
    malformed, and the result: 0 if all [n] are well formed. *)
Inductive mx_records (pkt dom : bytes) : nat → Z → list bytes → Z → Prop :=
| mx_end cp : mx_records pkt dom 0 cp [] 0
| mx_record n cp len name rl pref exlen host hosts z :
    dn_expand pkt cp = Some (len, name) → names_domain name dom = true →
    short_at pkt (cp + len) T_MX → short_at pkt (cp + len + 2 + 2 + 4) rl →
    short_at pkt (cp + len + 2 + 2 + 4 + 2) pref →
    dn_expand pkt (cp + len + 2 + 2 + 4 + 4) = Some (exlen, host) →
    nonul host → Z.of_nat (length host) < STRING_MAX →
    mx_records pkt dom n (cp + len + 2 + 2 + 4 + 4 + exlen) hosts z →
    mx_records pkt dom (S n) cp (host :: hosts) z
| mx_no_name n cp : dn_expand pkt cp = None → mx_records pkt dom (S n) cp [] (-1)
| mx_extraneous n cp len name :
    dn_expand pkt cp = Some (len, name) → names_domain name dom = false →
    mx_records pkt dom (S n) cp [] (-1)
| mx_other_type n cp len name t :
    dn_expand pkt cp = Some (len, name) → names_domain name dom = true →
    short_at pkt (cp + len) t → t ≠ T_MX → mx_records pkt dom (S n) cp [] (-1)
| mx_no_host n cp len name rl pref :
    dn_expand pkt cp = Some (len, name) → names_domain name dom = true →
    short_at pkt (cp + len) T_MX → short_at pkt (cp + len + 2 + 2 + 4) rl →
    short_at pkt (cp + len + 2 + 2 + 4 + 2) pref →
    dn_expand pkt (cp + len + 2 + 2 + 4 + 4) = None → mx_records pkt dom (S n) cp [] (-1).

Section answers.
Context (pkt dom : bytes) (l v : loc) (k : bool).

(** The list holds [ss], and the local string [v] is none of its texts. *)
Definition collected (ss : list bytes) (w : world) : Prop :=
  ready w ∧ (∃ s, strs w !! v = Some s) ∧ ∃ es, list_rep k w l es ss ∧ v ∉ str_locs es.

(** A host is added to the list. *)
Lemma push_host_ok w ss host (Q : unit → world → Prop) E :
  collected ss w → nonul host → Z.of_nat (length host) < STRING_MAX → Z.of_nat (S (length ss)) < 2 ^ 32 →
  (∀ w', collected (ss ++ [host]) w' → sys w' = sys w → Q tt w') →
  wp (try_ (str_alias (Some v) (Some (CLit host 0)));; try_ (list_push (Some l) (Some v))) Q E w.
Proof.
  intros (Hr & (s & Hs) & es & Hl & Hv) Hn Hlen Hmax HQ.
  wp_next. apply wp_try. eapply wp_conseq; [apply (str_alias_ok w v s (CLit host 0) host); try done|].
  { split; [by apply cstr_at_lit|done]. }
  intros z w1 (-> & Hs1 & S1). cbn [Z.eqb]. pose proof (sstep_ready _ _ _ S1) as R1.
  assert (list_rep k w1 l es ss) as Hl1.
  { eapply list_rep_mono; [exact Hr|by apply (sstep_lstep _ ∅ ∅)|exact Hl|apply not_elem_of_empty|apply disjoint_empty_r|].
    by apply disjoint_singleton_r. }
  assert (str_view w1 ∅ v host) as Hv1.
  { exists (CLit host 0), (Z.of_nat (length host) + 1), false. split_and!; try done; [by apply cstr_at_lit|lia|lia]. }
  pose proof (list_rep_length _ _ _ _ _ Hl1) as Hlen1.
  apply wp_try. eapply wp_conseq; [apply (list_push_view k w1 l es ss v host); try done; lia|].
  intros z w2 (-> & n & t & _ & Ht & Hl2 & S2). cbn [Z.eqb].
  assert (v < next_loc w1)%positive as Hvlt.
  { destruct (decide (next_loc w1 ≤ v)%positive) as [Hge|]; [|lia]. by rewrite (wf_strs w1 (proj1 R1) v Hge) in Hs1. }
  apply HQ.
  - split; [apply S2|]. split.
    + exists (mk_string_t (Some (CLit host 0)) (Z.of_nat (length host) + 1) (Z.of_nat (length host)) false).
      rewrite (fr_strs _ _ _ (proj1 (proj2 S2))); [exact Hs1|exact Hvlt|apply not_elem_of_empty].
    + exists (es ++ [(n, t)]). split; [exact Hl2|]. rewrite str_locs_app, not_elem_of_union. split; [done|].
      rewrite str_locs_cons, str_locs_nil, union_empty_r_L, not_elem_of_singleton. intros ->. lia.
  - rewrite (lf_sys _ _ _ _ (proj2 (proj2 S2))). by destruct S1 as (_ & _ & [_ _ _ _ -> _]).
Qed.

Lemma mx_answers_ok n cp hosts z ss w :
  mx_records pkt dom n cp hosts z → collected ss w → Z.of_nat (length ss + n) < 2 ^ 32 →
  wp (mx_answers (Some l) (Some v) dom pkt n cp)
    (λ _ w', z = 0 ∧ collected (ss ++ hosts) w' ∧ sys w' = sys w)
    (λ x w', x = Leave (-1) ∧ z = -1 ∧ collected (ss ++ hosts) w' ∧ sys w' = sys w) w.
Proof.
  intros Hm. revert ss w. induction Hm as [cp|n cp len name rl pref exlen host hosts z H1 H2 H3 H4 H5 H6 Hn Hlen _ IH
    |n cp H1|n cp len name H1 H2|n cp len name t H1 H2 H3 Ht|n cp len name rl pref H1 H2 H3 H4 H5 H6];
    intros ss w Hc Hmax; rewrite ?app_nil_r; cbn [mx_answers]; try unfold names_domain in H2.
  - done.
  - wp_next. rewrite H1. apply wp_ret. wp_next. rewrite H2. apply wp_ret. wp_next. eapply getshort_ok; [exact H3|].
    wp_next. apply wp_ret. wp_next. eapply getshort_ok; [exact H4|]. wp_next. eapply getshort_ok; [exact H5|].
    wp_next. rewrite H6. apply wp_ret. apply wp_two. eapply push_host_ok; [exact Hc|done|done|lia|].
    intros w1 Hc1 Hs1. eapply wp_mono; [apply IH; [exact Hc1|rewrite length_app; cbn; lia]| |].
    + intros _ w2 (-> & Hc2 & Hs2). rewrite <- app_assoc in Hc2. by rewrite Hs2, Hs1.
    + intros x w2 (-> & -> & Hc2 & Hs2). rewrite <- app_assoc in Hc2. by rewrite Hs2, Hs1.
  - wp_next. rewrite H1. by apply wp_throw.
  - wp_next. rewrite H1. apply wp_ret. wp_next. rewrite H2. by apply wp_throw.
  - wp_next. rewrite H1. apply wp_ret. wp_next. rewrite H2. apply wp_ret. wp_next. eapply getshort_ok; [exact H3|].
    wp_next. rewrite (proj2 (Z.eqb_neq _ _) Ht). by apply wp_throw.
  - wp_next. rewrite H1. apply wp_ret. wp_next. rewrite H2. apply wp_ret. wp_next. eapply getshort_ok; [exact H3|].
    wp_next. apply wp_ret. wp_next. eapply getshort_ok; [exact H4|]. wp_next. eapply getshort_ok; [exact H5|].
    wp_next. rewrite H6. by apply wp_throw.
Qed.

End answers.

(** The response of the system to the query. *)
Definition response (r : sysret) : bytes := take (Z.to_nat (sys_ret r)) (sys_data r).
Definition mx_query (dom : bytes) : call_t := ("res_query", [AStr dom; AInt T_MX]).

(** The header and the questions of a response, and what its records say. *)
Definition mx_response (pkt dom : bytes) (hosts : list bytes) (z : Z) : Prop := ∃ qd an cp,
  short_at pkt 4 qd ∧ questions pkt (Z.to_nat qd) HFIXEDSZ cp ∧ short_at pkt 6 an ∧
  mx_records pkt dom (Z.to_nat an) cp hosts z.

Lemma collected_pop l v k ss w : collected l v k ss w →
  ready (upd_strs (delete v) w) ∧ ∃ es, list_rep k (upd_strs (delete v) w) l es ss.
Proof.
  intros (Hr & _ & es & Hl & Hv). assert (lstep {[v]} ∅ ∅ w (upd_strs (delete v) w)) as S
    by (apply pop_step; [done|by apply elem_of_singleton]).
  split; [apply S|]. exists es. eapply list_rep_mono; [exact Hr|exact S|exact Hl|apply not_elem_of_empty|apply disjoint_empty_r|].
  by apply disjoint_singleton_r.
Qed.

Lemma dns_get_mx_list_ok w l k es old q dom r rest hosts z E :
  ready w → list_rep k w l es old → str_rep w q dom → dom ≠ [] → q ∉ str_locs es →
  answers (sys w) = r :: rest → 0 ≤ sys_ret r ≤ PACKETSZ → mx_response (response r) dom hosts z →
  wp (dns_get_mx_list (Some l) (Some q)) (λ z' w', z' = z ∧ ready w' ∧ (∃ es', list_rep true w' l es' hosts) ∧
    sys w' = heard (mx_query dom) r (sys w)) E w.
Proof.
  intros Hr Hl Hq Hne Hqs Ha Hret (qd & an & cp & Hqd & Hqs2 & Han & Hrec).
  apply wp_func, wp_local_str; [done|]. intros v w1 Hv Hv1 S1 Hvlt. pose proof (proj1 S1) as R1.
  assert (str_rep w1 q dom) as Hq1 by (eapply lstep_rep; [exact Hr|exact S1|apply not_elem_of_empty|exact Hq]).
  assert (list_rep k w1 l es old) as Hl1 by (eapply list_rep_mono; [exact Hr|exact S1|exact Hl|apply not_elem_of_empty|apply disjoint_empty_r..]).
  assert (v ∉ str_locs es) as Hvs.
  { intros Hin%elem_of_str_locs. eapply texts_lt in Hin; [|apply Hr|apply Hl]. lia. }
  destruct (str_rep_get _ _ _ Hq1) as (b & sz & Hs & _ & _).
  apply wp_body. wp_next. eapply wp_deref; [exact Hs|]. cbn [str_len]. wp_next. apply wp_require.
  { apply Z.ltb_lt. destruct dom; [done|cbn; lia]. }
  wp_next. apply wp_try. eapply wp_conseq; [by apply (list_truncate_ok k w1 l es old)|].
  intros ? w2 (-> & Hl2 & S2). cbn [Z.eqb]. pose proof (proj1 S2) as R2.
  wp_next. eapply wp_path_of; [eapply lstep_rep; [exact R1|exact S2|exact Hqs|exact Hq1]|].
  assert (sys w2 = sys w) as Hs2
    by (rewrite (lf_sys _ _ _ _ (proj2 (proj2 S2))), (lf_sys _ _ _ _ (proj2 (proj2 S1))); done).
  wp_next. eapply wp_syscall_eq; [by rewrite Hs2|]. set (w3 := upd_sys _ w2).
  assert (collected l v true [] w3) as Hc.
  { split; [by apply ready_sys|]. split; [|exists []; split; [by apply list_rep_sys|apply not_elem_of_empty]].
    exists EMPTY_STRING. cbn. rewrite (fr_strs _ _ _ (proj1 (proj2 S2))); done. }
  wp_next. apply wp_when; [rewrite Z.ltb_lt; lia|intros _]. wp_next. apply wp_when; [rewrite Z.ltb_lt; lia|intros _].
  fold (response r). wp_next. eapply getshort_ok; [exact Hqd|]. wp_next. eapply skip_questions_ok; [exact Hqs2|].
  wp_next. eapply getshort_ok; [exact Han|].
  assert (Z.of_nat (Z.to_nat an) < 2 ^ 32) as Hmax.
  { destruct Han as (x & y & _ & _ & _ & ->). pose proof (uchar_range x). pose proof (uchar_range y). lia. }
  eapply wp_mono; [apply (mx_answers_ok (response r) dom l v true _ cp hosts z [] w3); try done| |].
  - intros _ w4 (-> & Hc4 & Hs4). destruct (collected_pop _ _ _ _ _ Hc4) as [R5 Hl5].
    split; [done|]. split; [done|]. split; [done|]. cbn. by rewrite Hs4; cbn; rewrite Hs2.
  - intros x w4 (-> & -> & Hc4 & Hs4). destruct (collected_pop _ _ _ _ _ Hc4) as [R5 Hl5].
    split; [done|]. split; [done|]. split; [done|]. cbn. by rewrite Hs4; cbn; rewrite Hs2.
Qed.

End packets.
