(* ===== verification/Traces.v ===== *)
(** What a call may ask of the system, whatever the replies and whichever
    allocations fail: relations between the memories before and after a call
    that every primitive keeps are kept by every function. *)

From S2P Require Import Prelude Types Machine Wp StringOps StringFacts ListOps PasswdOps FileOps FileFacts.
From S2P Require Import UidMapOps InetOps DnsOps ProcessOps.

Open Scope Z_scope.

(** * Conversations *)

Definition exchange : Type := call_t * sysret.

(** Between [w] and [w'] the calls of [cs] were made and answered. *)
Definition talked (cs : list exchange) (w w' : world) : Prop :=
  answers (sys w) = cs.*2 ++ answers (sys w') ∧
  trace (sys w') = reverse cs.*1 ++ trace (sys w).

Definition talks (w w' : world) : Prop := ∃ cs, talked cs w w'.
Definition mute : world → world → Prop := talked [].

Lemma talked_app cs ds w1 w2 w3 : talked cs w1 w2 → talked ds w2 w3 → talked (cs ++ ds) w1 w3.
Proof.
  intros [A1 T1] [A2 T2]. split.
  - by rewrite A1, A2, fmap_app, <- app_assoc.
  - by rewrite T2, T1, fmap_app, reverse_app, <- app_assoc.
Qed.

Lemma mute_sys w w' : sys w' = sys w → mute w w'.
Proof. intros H. split; by rewrite H. Qed.

#[export] Instance mute_preorder : PreOrder mute.
Proof. split; [intros w; by split|]. intros x y z. apply (talked_app [] []). Qed.

#[export] Instance talks_preorder : PreOrder talks.
Proof.
  split; [intros w; by exists []|].
  intros x y z [cs H] [ds H']. exists (cs ++ ds). by eapply talked_app.
Qed.

Lemma talked_mute cs w1 w2 w3 : talked cs w1 w2 → mute w2 w3 → talked cs w1 w3.
Proof. intros H H'. rewrite <- (app_nil_r cs). by eapply talked_app. Qed.

(** A relation that holds when nothing is asked, and one that also allows
    calls. *)
Class Silent (R : world → world → Prop) : Prop := {
  silent_preorder :: PreOrder R;
  silent_mute w w' : mute w w' → R w w'
}.

Class Talking (R : world → world → Prop) : Prop := {
  talking_silent :: Silent R;
  talking_call name args w w' r : syscall name args w = Ok r w' → R w w'
}.

Lemma syscall_talked name args w w' r :
  syscall name args w = Ok r w' → talked [((name, args), r)] w w'.
Proof.
  unfold syscall. destruct (answers (sys w)) as [|r' rest] eqn:Ha; [done|].
  intros [= -> <-]. split; simpl; by rewrite ?Ha.
Qed.

#[export] Instance mute_silent : Silent mute.
Proof. split; [apply _|done]. Qed.

#[export] Instance talks_talking : Talking talks.
Proof.
  split; [split; [apply _|]|].
  - intros w w' H. by exists [].
  - intros name args w w' r H. eexists. by apply syscall_talked.
Qed.

(** * Computations that keep a relation *)

(** The exits of a statement, of a function before its last [return], and of a
    function. *)
Definition inside (x : exit) : Prop := ∀ z, x = Leave z → z = -1.
Definition leaving (x : exit) : Prop := x = Leave (-1).
Definition nowhere (_ : exit) : Prop := False.

(** However [c] ends, it does so in a memory related to the first. *)
Definition kept (R : world → world → Prop) (X : exit → Prop) (w : world) {A} (r : res A) : Prop :=
  match r with Ok _ w' => R w w' | Exit x w' => R w w' ∧ X x | _ => True end.
Definition keeps (R : world → world → Prop) (X : exit → Prop) {A} (c : M A) : Prop :=
  ∀ w, kept R X w (c w).

Create HintDb keeps.

Section keeps.
Context {R : world → world → Prop} `{!Silent R} {X : exit → Prop}.
Context {A : Type}.

Lemma keeps_weaken (c : M A) (Y : exit → Prop) : (∀ x, Y x → X x) → keeps R Y c → keeps R X c.
Proof. intros H Hc w. specialize (Hc w). unfold kept in *. destruct (c w); naive_solver. Qed.

Lemma keeps_pure (c : M A) :
  (∀ w, match c w with Ok _ w' => mute w w' | Exit _ _ => False | _ => True end) → keeps R X c.
Proof. intros H w. specialize (H w). unfold kept. destruct (c w); try done. by apply silent_mute. Qed.

Lemma keeps_ret (a : A) : keeps R X (mret a).
Proof. intros w. simpl. reflexivity. Qed.

Lemma keeps_bind {B} (c : M B) (k : B → M A) :
  keeps R X c → (∀ b, keeps R X (k b)) → keeps R X (c ≫= k).
Proof.
  intros Hc Hk w. specialize (Hc w). unfold kept, mbind, M_bind. destruct (c w) as [b w1|x w1| |]; try done.
  specialize (Hk b w1). unfold kept in *. destruct (k b w1); try done; [by etrans|]. destruct Hk. split; [by etrans|done].
Qed.

Lemma keeps_leave x : X x → keeps R X (leave x : M A).
Proof. intros Hx w. split; [reflexivity|done]. Qed.

Lemma keeps_loop {B} fuel (f : B → M (B + A)) a :
  (∀ b, keeps R X (f b)) → keeps R X (loop fuel f a).
Proof.
  intros Hf. revert a. induction fuel as [|n IH]; intros a; [by intros w|].
  cbn [loop]. apply keeps_bind; [apply Hf|]. intros [b|b]; [apply IH|apply keeps_ret].
Qed.

Lemma keeps_try (c : M Z) : keeps R nowhere c → X (Leave (-1)) → keeps R X (try_ c).
Proof.
  intros Hc HX. unfold try_. intros w. specialize (Hc w). unfold kept, mbind, M_bind.
  destruct (c w) as [z w1|x w1| |]; try done; [|by destruct Hc].
  destruct (z =? 0); [done|]. by split.
Qed.

Lemma keeps_func (c : M Z) : keeps R leaving c → keeps R X (func c).
Proof.
  intros Hc w. specialize (Hc w). unfold kept, func. destruct (c w) as [z w1|x w1| |]; try done.
  by destruct Hc as [Hr ->].
Qed.

Lemma keeps_then (w w1 : world) (c : M A) :
  R w w1 → keeps R X c → kept R X w (c w1).
Proof.
  intros Hr Hc. unfold kept. specialize (Hc w1). destruct (c w1); try done; [by etrans|].
  destruct Hc. split; [by etrans|done].
Qed.
End keeps.

Section functions.
Context {R : world → world → Prop} `{!Silent R} {X : exit → Prop}.

Lemma keeps_labels (b c f : M unit) :
  keeps R inside b → keeps R leaving c → keeps R leaving f → keeps R leaving (labels b c f).
Proof.
  intros Hb Hc Hf w. unfold labels. specialize (Hb w).
  assert (∀ w1 (z : Z), R w w1 →
    kept R leaving w (match f w1 with Ok _ w2 => Ok z w2 | Exit x w2 => Exit x w2 | Crash e => Crash e | NoFuel => NoFuel end)) as Hend.
  { intros w1 z Hr. pose proof (keeps_then w w1 f Hr Hf). by destruct (f w1). }
  destruct (b w) as [u w1|[z|z|] w1| |]; try done; try destruct Hb as [Hr Hx]; try by apply Hend.
  - split; [done|]. by rewrite (Hx z eq_refl).
  - pose proof (keeps_then w w1 c Hr Hc) as H2.
    destruct (c w1) as [u w2|x w2| |]; try done; [by apply Hend|]. destruct H2 as [H2 ->]. by split.
Qed.

Lemma keeps_body (b : M unit) : keeps R inside b → keeps R leaving (body b).
Proof. intros Hb. apply keeps_labels; [done| |]; apply keeps_ret. Qed.

Lemma keeps_auto new destroy k :
  (∀ p, keeps R nowhere (new p)) → (∀ p, keeps R nowhere (destroy p)) →
  (∀ p, keeps R leaving (k p)) → keeps R leaving (auto_ new destroy k).
Proof.
  intros Hn Hd Hk. unfold auto_.
  apply keeps_bind; [eapply keeps_weaken; [|apply Hn]; done|]. intros [rc p].
  destruct (negb (rc =? 0)); [by apply keeps_leave|].
  apply keeps_bind; [apply Hk|]. intros z.
  apply keeps_bind; [eapply keeps_weaken; [|apply Hd]; done|]. intros [rc' p'].
  destruct (negb (rc' =? 0)); [by apply keeps_leave|apply keeps_ret].
Qed.
End functions.

(** * Primitives *)

Section primitives.
Context {R : world → world → Prop} `{!Silent R} {X : exit → Prop}.

Lemma keeps_deref {A} (sel : world → gmap loc A) p : keeps R X (deref_obj sel p).
Proof.
  apply keeps_pure. intros w. unfold deref_obj. destruct p as [l|]; [|done]. by destruct (sel w !! l).
Qed.

Lemma keeps_modify f : (∀ w, sys (f w) = sys w) → keeps R X (modify f).
Proof. intros Hf. apply keeps_pure. intros w. simpl. by apply mute_sys. Qed.

Lemma keeps_set_obj {A} (sel : world → gmap loc A) upd p f :
  (∀ g w, sys (upd g w) = sys w) → keeps R X (set_obj sel upd p f).
Proof.
  intros Hu. apply keeps_pure. intros w. unfold set_obj. destruct p as [l|]; [|done].
  destruct (sel w !! l); [|done]. by apply mute_sys.
Qed.

Lemma keeps_free_obj {A} (sel : world → gmap loc A) upd p :
  (∀ g w, sys (upd g w) = sys w) → keeps R X (free_obj sel upd p).
Proof.
  intros Hu. apply keeps_pure. intros w. unfold free_obj. destruct p as [l|]; [|done].
  destruct (sel w !! l); [|done]. by apply mute_sys.
Qed.

Lemma keeps_get_world : keeps R X get_world.
Proof. by apply keeps_pure. Qed.

Lemma keeps_crash {A} e : keeps R X (crash_with e : M A).
Proof. done. Qed.

Lemma keeps_allocator : keeps R X allocator.
Proof. by apply keeps_pure. Qed.

Lemma keeps_fresh_loc : keeps R X fresh_loc.
Proof. by apply keeps_pure. Qed.

Lemma keeps_cells c : keeps R X (cells c).
Proof. apply keeps_pure. intros w. unfold cells. by destruct (cells_at w c). Qed.

Lemma keeps_c_str c : keeps R X (c_str c).
Proof. apply keeps_pure. intros w. unfold c_str. destruct c as [c|]; [|done]. by destruct (cstr_at w c). Qed.

Lemma keeps_store c i new : keeps R X (store c i new).
Proof.
  apply keeps_pure. intros w. unfold store. destruct c as [[b o|]|]; try done.
  destruct (blocks w !! b); [|done]. case_bool_decide; [|done]. by apply mute_sys.
Qed.

Lemma keeps_free c : keeps R X (free c).
Proof.
  apply keeps_pure. intros w. unfold free. destruct c as [[b o|]|]; try done.
  destruct (blocks w !! b) as [[? []]|]; try done. destruct (o =? 0); [|done]. by apply mute_sys.
Qed.

Lemma keeps_set_errno z : keeps R X (set_errno z).
Proof. by apply keeps_pure. Qed.

Lemma keeps_get_errno : keeps R X get_errno.
Proof. by apply keeps_pure. Qed.
End primitives.

Lemma keeps_syscall `{!Talking R} {X : exit → Prop} name args : keeps R X (syscall name args).
Proof.
  intros w. unfold kept. destruct (syscall name args w) as [r w'|x w'| |] eqn:He; try done.
  - by eapply talking_call.
  - exfalso. revert He. unfold syscall. by destruct (answers (sys w)).
Qed.

Lemma inside_leave : inside (Leave (-1)).
Proof. by intros z [= <-]. Qed.

Lemma inside_finally z : inside (Finally z).
Proof. by intros ? [=]. Qed.

Lemma inside_catch : inside Catch.
Proof. by intros ? [=]. Qed.

#[export] Hint Resolve inside_leave inside_finally inside_catch : keeps.
#[export] Hint Resolve keeps_deref keeps_get_world keeps_crash keeps_allocator keeps_fresh_loc
  keeps_cells keeps_c_str keeps_store keeps_free keeps_set_errno keeps_get_errno keeps_ret : keeps.
#[export] Hint Extern 1 (keeps _ _ (syscall _ _)) => (simple apply keeps_syscall) : keeps.

(** [keeps_go] follows the text of a function down to calls that the hints
    know. *)
Ltac keeps_exit := apply keeps_leave; solve [eauto with keeps | reflexivity].
Ltac keeps_step :=
  match goal with
  | |- ∀ _, _ => intros
  | |- keeps _ _ _ => solve [eauto 4 with keeps]
  | |- keeps _ _ (mbind _ _) => apply keeps_bind
  | |- keeps _ _ (loop _ _ _) => apply keeps_loop
  | |- keeps _ _ (try_ _) => apply keeps_try; [|solve [eauto with keeps | reflexivity]]
  | |- keeps _ _ (func _) => apply keeps_func
  | |- keeps _ _ (body _) => apply keeps_body
  | |- keeps _ _ (labels _ _ _) => apply keeps_labels
  | |- keeps _ _ (leave _) => keeps_exit
  | |- keeps _ _ (throw _) => keeps_exit
  | |- keeps _ _ (return_ _) => keeps_exit
  | |- keeps _ _ (throw_errno _) => keeps_exit
  | |- keeps _ _ throw_silent => keeps_exit
  | |- keeps _ _ (set_obj _ _ _ _) => apply keeps_set_obj; reflexivity
  | |- keeps _ _ (free_obj _ _ _) => apply keeps_free_obj; reflexivity
  | |- keeps _ _ (modify _) => apply keeps_modify; reflexivity
  | |- keeps _ _ (match ?x with _ => _ end) => destruct x
  | |- keeps _ _ (when _ _) => unfold when
  end.
Ltac keeps_go := repeat keeps_step.

(** * Strings *)

Section strings.
Context {R : world → world → Prop} `{!Silent R}.

Lemma keeps_malloc {X} n : keeps R X (malloc n).
Proof. unfold malloc. keeps_go. Qed.
#[local] Hint Resolve keeps_malloc : keeps.

Lemma keeps_calloc {X} {A} upd (z : A) dest rest :
  (∀ g w, sys (upd g w) = sys w) → (∀ p, keeps R X (rest p)) → keeps R X (mem_calloc upd z dest rest).
Proof.
  intros Hu Hr. unfold mem_calloc, calloc_obj. keeps_go; try apply Hr.
  apply keeps_modify. intros. apply Hu.
Qed.

Lemma keeps_non_null {X} {B} (c : option B) : keeps R X (non_null c).
Proof. unfold non_null. keeps_go. Qed.
#[local] Hint Resolve keeps_non_null : keeps.

Lemma keeps_load {X} c i : keeps R X (load c i).
Proof. unfold load. keeps_go. Qed.

Lemma keeps_read_cells {X} c n : keeps R X (read_cells c n).
Proof. unfold read_cells. keeps_go. Qed.
#[local] Hint Resolve keeps_load keeps_read_cells : keeps.

Lemma keeps_realloc {X} c n : keeps R X (realloc c n).
Proof. unfold realloc. keeps_go. Qed.

Lemma keeps_str_new {X} p : keeps R X (str_new p).
Proof. unfold str_new. apply keeps_calloc; [done|]. unfold mod_str. keeps_go. Qed.

Lemma keeps_str_destroy {X} p : keeps R X (str_destroy p).
Proof. unfold str_destroy, get_str. keeps_go. Qed.
End strings.

#[export] Hint Resolve talking_silent mute_silent talks_talking : keeps.
#[export] Hint Resolve keeps_malloc keeps_non_null keeps_load keeps_read_cells keeps_realloc
  keeps_str_new keeps_str_destroy : keeps.

(** Functions that ask nothing of the system. *)
Section silent.
Context {R : world → world → Prop} `{!Silent R}.

#[local] Ltac quiet_go := unfold mod_str, get_str, mod_ent, get_ent, mod_list, get_list, memset1, strlen; keeps_go.

Lemma keeps_str_truncate {X} p : keeps R X (str_truncate p).
Proof. unfold str_truncate. quiet_go. Qed.
#[local] Hint Resolve keeps_str_truncate : keeps.

Lemma keeps_str_resize {X} p n : keeps R X (str_resize p n).
Proof. unfold str_resize. quiet_go. Qed.
#[local] Hint Resolve keeps_str_resize : keeps.

Lemma keeps_str_ncpy {X} p c n : keeps R X (str_ncpy p c n).
Proof. unfold str_ncpy. quiet_go. Qed.
#[local] Hint Resolve keeps_str_ncpy : keeps.

Lemma keeps_cbuf_len {X} c : keeps R X (cbuf_len c).
Proof. unfold cbuf_len. quiet_go. Qed.
#[local] Hint Resolve keeps_cbuf_len : keeps.

Lemma keeps_try_out {X} {A} (c : M (Z * A)) : keeps R X c → X (Leave (-1)) → keeps R X (try_out c).
Proof. intros Hc HX. unfold try_out. keeps_go. Qed.

Lemma keeps_str_cpy {X} p c : keeps R X (str_cpy p c).
Proof.
  unfold str_cpy, require. quiet_go. apply keeps_try_out; auto with keeps.
Qed.

Lemma keeps_str_copy {X} p q : keeps R X (str_copy p q).
Proof. unfold str_copy. quiet_go. Qed.
#[local] Hint Resolve keeps_str_cpy keeps_str_copy : keeps.

Lemma keeps_str_cmp {X} p c : keeps R X (str_cmp p c).
Proof. unfold str_cmp. quiet_go. Qed.

Lemma keeps_str_sprintf {X} p render : (∀ Y, keeps R Y render) → keeps R X (str_sprintf p render).
Proof. intros Hr. unfold str_sprintf, str_vprintf. quiet_go; apply Hr. Qed.

Lemma keeps_str_from_inet {X} p a : keeps R X (str_from_inet p a).
Proof. unfold str_from_inet. quiet_go. Qed.

Lemma keeps_path_of {X} p : keeps R X (path_of p).
Proof. unfold path_of. quiet_go. Qed.

(** ** Lists *)

Lemma keeps_list_new {X} p : keeps R X (list_new p).
Proof. unfold list_new. apply keeps_calloc; [done|]. quiet_go. Qed.

Lemma keeps_list_entry_destroy {X} p : keeps R X (list_entry_destroy p).
Proof. unfold list_entry_destroy, throw_fatal. quiet_go. Qed.
#[local] Hint Resolve keeps_list_entry_destroy : keeps.

Lemma keeps_list_truncate {X} p : keeps R X (list_truncate p).
Proof. unfold list_truncate, ents_fuel. quiet_go. Qed.
#[local] Hint Resolve keeps_list_truncate : keeps.

Lemma keeps_list_destroy {X} p : keeps R X (list_destroy p).
Proof. unfold list_destroy. quiet_go. Qed.

Lemma keeps_list_entry_new {X} p q : keeps R X (list_entry_new p q).
Proof. unfold list_entry_new. apply keeps_calloc; [done|]. quiet_go. Qed.
#[local] Hint Resolve keeps_list_entry_new : keeps.

Lemma keeps_list_push {X} p q : keeps R X (list_push p q).
Proof.
  unfold list_push, list_entry_append. quiet_go. apply keeps_try_out; auto with keeps.
Qed.
End silent.

#[export] Hint Resolve keeps_str_truncate keeps_str_resize keeps_str_ncpy keeps_cbuf_len keeps_str_cpy keeps_str_copy keeps_str_cmp keeps_str_from_inet keeps_path_of
  keeps_list_new keeps_list_truncate keeps_list_destroy keeps_list_push : keeps.
#[export] Hint Extern 4 (keeps _ _ (try_out _)) => (apply keeps_try_out) : keeps.
#[export] Hint Extern 4 (keeps _ _ (str_sprintf _ _)) => (apply keeps_str_sprintf; keeps_go) : keeps.

Section automatic.
Context {R : world → world → Prop} `{!Silent R}.

Lemma keeps_auto_str k : (∀ p, keeps R leaving (k p)) → keeps R leaving (auto_str k).
Proof. apply keeps_auto; auto with keeps. Qed.

Lemma keeps_auto_list k : (∀ p, keeps R leaving (k p)) → keeps R leaving (auto_list k).
Proof. apply keeps_auto; auto with keeps. Qed.
End automatic.

(** * Functions that talk *)

Section talking.
Context {R : world → world → Prop} `{!Talking R}.

Lemma keeps_host_get_name {X} p : keeps R X (host_get_name p).
Proof. unfold host_get_name. keeps_go. Qed.
#[local] Hint Resolve keeps_host_get_name : keeps.

Lemma keeps_push_addrs p q l : keeps R inside (push_addrs p q l).
Proof. induction l as [|a l IH]; simpl; keeps_go. Qed.
#[local] Hint Resolve keeps_push_addrs : keeps.

Lemma keeps_dns_get_inet_by_name {X} p q : keeps R X (dns_get_inet_by_name p q).
Proof. unfold dns_get_inet_by_name. keeps_go. apply keeps_auto_str. keeps_go. Qed.
#[local] Hint Resolve keeps_dns_get_inet_by_name : keeps.

Lemma keeps_dns_library_init {X} : keeps R X dns_library_init.
Proof.
  unfold dns_library_init. keeps_go. apply keeps_auto_list. intros p. apply keeps_auto_str. keeps_go.
Qed.

Lemma keeps_thread_library_init {X} : keeps R X thread_library_init.
Proof. unfold thread_library_init. keeps_go. Qed.

Lemma keeps_passwd_get_id_by_name {X} p : keeps R X (passwd_get_id_by_name p).
Proof. unfold passwd_get_id_by_name, get_str. keeps_go. Qed.
#[local] Hint Resolve keeps_passwd_get_id_by_name : keeps.

Lemma keeps_passwd_exists {X} p : keeps R X (passwd_exists p).
Proof. unfold passwd_exists. keeps_go. Qed.

Lemma keeps_group_get_id_by_name {X} g p : keeps R X (group_get_id_by_name g p).
Proof. unfold group_get_id_by_name, __group_get_gev, get_str. keeps_go. Qed.
#[local] Hint Resolve keeps_group_get_id_by_name : keeps.

Lemma keeps_group_exists {X} p : keeps R X (group_exists p).
Proof. unfold group_exists. keeps_go. Qed.
End talking.

#[export] Hint Resolve keeps_dns_library_init keeps_thread_library_init keeps_passwd_get_id_by_name
  keeps_passwd_exists keeps_group_get_id_by_name keeps_group_exists : keeps.

(** * Runs that succeed *)

Lemma keeps_ok {R X A} (c : M A) w a w' : keeps R X c → c w = Ok a w' → R w w'.
Proof. intros Hc He. specialize (Hc w). by rewrite He in Hc. Qed.

Lemma bind_ok {A B} (c : M A) (k : A → M B) w b w' :
  (c ≫= k) w = Ok b w' → ∃ a w1, c w = Ok a w1 ∧ k a w1 = Ok b w'.
Proof. unfold mbind, M_bind. destruct (c w) as [a w1| | |]; try done. eauto. Qed.

Lemma when_leave_ok b x w w' : when b (leave x) w = Ok tt w' → b = false ∧ w' = w.
Proof. destruct b; simpl; [done|]. intros H. injection H as H. by split. Qed.

Lemma try_ok c w w' : try_ c w = Ok tt w' → c w = Ok 0 w'.
Proof.
  unfold try_, mbind, M_bind. destruct (c w) as [z w1| | |]; try done.
  destruct (Z.eqb_spec z 0) as [->|]; [|done]. intros H. by injection H as <-.
Qed.

Lemma try_out_ok {A} (c : M (Z * A)) w a w' : try_out c w = Ok a w' → c w = Ok (0, a) w'.
Proof.
  unfold try_out, mbind, M_bind. destruct (c w) as [[z a'] w1| | |]; try done.
  destruct (Z.eqb_spec z 0) as [->|]; [|done]. intros H. by injection H as <- <-.
Qed.

Lemma func_ok m w w' : keeps talks leaving m → func m w = Ok 0 w' → m w = Ok 0 w'.
Proof.
  intros Hm. specialize (Hm w). unfold func, kept in *. destruct (m w) as [z w1|[z|z|] w1| |]; try done.
  by destruct Hm as [_ [= ->]].
Qed.

Lemma auto_str_ok k w w' :
  auto_str k w = Ok 0 w' → ∃ p w1 w2, mute w w1 ∧ k p w1 = Ok 0 w2 ∧ mute w2 w'.
Proof.
  unfold auto_str, auto_. intros ([rc p] & w1 & Hn & H)%bind_ok.
  apply (keeps_ok (R := mute) (X := nowhere)) in Hn; [|apply keeps_str_new].
  destruct (negb (rc =? 0)); [done|]. apply bind_ok in H as (z & w2 & Hk & H).
  apply bind_ok in H as ([rc' p'] & w3 & Hd & H).
  apply (keeps_ok (R := mute) (X := nowhere)) in Hd; [|apply keeps_str_destroy].
  destruct (negb (rc' =? 0)); [done|]. injection H as -> <-. eauto 10.
Qed.

(** No [return] statement is reached. *)
Definition no_return (x : exit) : Prop := ∀ z, x ≠ Finally z.

Lemma no_return_leave z : no_return (Leave z).
Proof. done. Qed.

Lemma no_return_catch : no_return Catch.
Proof. done. Qed.

#[export] Hint Resolve no_return_leave no_return_catch : keeps.

Lemma body_ok b w w' : keeps talks no_return b → body b w = Ok 0 w' → b w = Ok tt w'.
Proof.
  intros Hb. specialize (Hb w). unfold body, labels, kept in *. destruct (b w) as [[] w1|[z|z|] w1| |]; simpl; try done.
  - intros H. by injection H as <-.
  - by destruct Hb as [_ []%(λ H, H z eq_refl)].
Qed.

(** A copied literal is what the string then holds. *)
Lemma store_ok c i new w w' : store c i new w = Ok tt w' →
  ∃ b o blk, c = Some (CBlk b o) ∧ blocks w !! b = Some blk ∧ 0 ≤ o + i ∧
    o + i + Z.of_nat (length new) ≤ Z.of_nat (length (bdata blk)) ∧
    w' = upd_blocks <[b := Block (splice (bdata blk) (Z.to_nat (o + i)) new) (bheap blk)]> w.
Proof.
  unfold store. destruct c as [[b o|]|]; try done. destruct (blocks w !! b) as [blk|] eqn:Hb; [|done].
  case_bool_decide as Hl; [|done]. intros H. injection H as <-. exists b, o, blk. naive_solver.
Qed.

Lemma set_obj_ok {A} (sel : world → gmap loc A) upd p f w w' : set_obj sel upd p f w = Ok tt w' →
  ∃ l a, p = Some l ∧ sel w !! l = Some a ∧ w' = upd <[l := f a]> w.
Proof.
  unfold set_obj. destruct p as [l|]; [|done]. destruct (sel w !! l) as [a|] eqn:Ha; [|done].
  intros H. injection H as <-. eauto.
Qed.

Lemma deref_ok {A} (sel : world → gmap loc A) p w a w' :
  deref_obj sel p w = Ok a w' → ∃ l, p = Some l ∧ sel w !! l = Some a ∧ w' = w.
Proof.
  unfold deref_obj. destruct p as [l|]; [|done]. destruct (sel w !! l) as [a'|] eqn:Ha; [|done].
  intros H. injection H as -> <-. eauto.
Qed.

(** What one more write of a buffer leaves in it. *)
Lemma spliced_text cs o bs :
  0 ≤ o → (Z.to_nat o + S (length bs) ≤ length cs)%nat → nonul bs →
  scan_nul (drop (Z.to_nat o) (splice (splice cs (Z.to_nat (o + 0)) (Some <$> bs))
    (Z.to_nat (o + Z.of_nat (length bs))) [Some NUL])) = Some bs.
Proof.
  intros Ho Hl Hn. rewrite <- (take_drop (Z.to_nat o) cs). set (l := take _ cs). set (k := drop _ cs).
  assert (length l = Z.to_nat o) as Hlen by (unfold l; rewrite length_take; lia).
  assert (S (length bs) ≤ length k)%nat as Hk by (unfold k; rewrite length_drop; lia).
  replace (Z.to_nat (o + 0)) with (length l + 0)%nat by lia.
  replace (Z.to_nat (o + Z.of_nat (length bs))) with (length l + length bs)%nat by lia.
  rewrite !splice_app_r, <- Hlen, drop_app_length.
  pose proof (append_cells [] bs k) as Ha. simpl in Ha.
  rewrite Ha by lia. by apply scan_cells_of.
Qed.

Lemma wp_run {A} (c : M A) Q E w a w' : wp c Q E w → c w = Ok a w' → Q a w'.
Proof. unfold wp. intros H Hr. by rewrite Hr in H. Qed.

Lemma path_of_cells w l s b o blk t :
  strs w !! l = Some s → str_value s = Some (CBlk b o) → blocks w !! b = Some blk → 0 ≤ o →
  scan_nul (drop (Z.to_nat o) (bdata blk)) = Some t → path_of (Some l) w = Ok t w.
Proof.
  intros Hs Hv Hb Ho Ht. unfold path_of, get_str, deref_obj, mbind, M_bind. rewrite Hs. unfold c_str. rewrite Hv.
  replace (cstr_at w (CBlk b o)) with (Some t); [done|]. unfold cstr_at, cells_at.
  rewrite (proj2 (Z.ltb_ge _ _)) by done. by rewrite Hb.
Qed.

Lemma cstr_literal w t : nonul t → cstr_at w (CLit t 0) = Some t.
Proof. intros Ht. unfold cstr_at. simpl. rewrite <- (app_nil_r (cells_of t)). by apply scan_cells_of. Qed.

(** Take a run apart into the runs of its steps. *)
Ltac run_steps := repeat match goal with
  | H : (_ ≫= _) _ = Ok _ _ |- _ => apply bind_ok in H as (? & ? & ? & H)
  | H : deref_obj _ _ _ = Ok _ _ |- _ => apply deref_ok in H as (? & ? & ? & ?)
  | H : set_obj _ _ _ _ _ = Ok ?u _ |- _ => destruct u; apply set_obj_ok in H as (? & ? & ? & ? & ?)
  | H : store _ _ _ _ = Ok ?u _ |- _ => destruct u; apply store_ok in H as (? & ? & ? & ? & ? & ? & ? & ?)
  end.

Lemma str_ncpy_literal_ok p t w w' :
  nonul t → t ≠ [] → str_ncpy p (Some (CLit t 0)) (Z.of_nat (length t)) w = Ok 0 w' → path_of p w' = Ok t w'.
Proof.
  intros Ht Hne. unfold str_ncpy. replace (Z.of_nat (length t) =? 0) with false
    by (destruct t; [done|]; by rewrite (proj2 (Z.eqb_neq _ _))).
  unfold get_str, mod_str, memset1. intros H%func_ok; [|apply keeps_body; keeps_go].
  apply body_ok in H; [|keeps_go].
  do 6 apply bind_ok in H as (? & ? & _ & H). apply bind_ok in H as (cs & w4 & Hcs & H).
  assert (cs = Some <$> t) as ->.
  { refine (wp_run _ (λ cs _, cs = Some <$> t) no_exit _ _ _ _ Hcs).
    apply (wp_read_cstr _ _ t); [by apply cstr_literal|lia|]. by rewrite Nat2Z.id, take_ge. }
  run_steps. simplify_map_eq.
  rewrite length_fmap, length_splice in * by (rewrite length_fmap; lia).
  eapply path_of_cells; [apply lookup_insert_eq|exact H1|apply lookup_insert_eq|lia|].
  apply spliced_text; [lia| |done]. lia.
Qed.

Lemma str_cpy_literal_ok p t w w' :
  nonul t → t ≠ [] → Z.of_nat (length t) < STRING_MAX →
  str_cpy p (Some (CLit t 0)) w = Ok 0 w' → path_of p w' = Ok t w'.
Proof.
  intros Ht Hne Hmax. unfold str_cpy. intros H%func_ok; [|apply keeps_body; unfold get_str, require; keeps_go].
  apply body_ok in H; [|unfold get_str, require; keeps_go].
  apply bind_ok in H as (d & w1 & Hd & H). apply bind_ok in H as ([] & w2 & Hq & H).
  apply bind_ok in H as (n & w3 & Hn%try_out_ok & H%try_ok).
  assert (n = Z.of_nat (length t)) as ->.
  { apply (wp_run _ _ no_exit _ _ _ (cbuf_len_ok w2 _ _ no_exit (cstr_literal w2 t Ht) Hmax)) in Hn. naive_solver. }
  by eapply str_ncpy_literal_ok.
Qed.
