(* ===== verification/PidFacts.v ===== *)
(** The pidfile of a program (process.c): what [pidfile_stat], [pidfile_kill]
    and [pidfile_create] ask of the system when the file exists. *)

From S2P Require Import Prelude Types Machine Wp StringOps StringFacts StringMore ListOps ListRep.
From S2P Require Import ListFacts PasswdOps FileOps FileFacts UidMapOps NumberFacts NetFacts FileRead ProcessOps Traces.

Open Scope Z_scope.

Section pidfile.
Context `{Site} (t : bytes).

Definition pid_path : bytes := NC_IPCDIR ++ B "/" ++ t ++ B ".pid".

Context (Hsite : nonul NC_IPCDIR) (Hlen : Z.of_nat (length pid_path) ≤ STRING_MAX).

Lemma pidfile_path_ok w q : str_rep w q t →
  wp (pidfile_path (Some q)) (λ o w', o = pid_path ∧ w' = w) no_exit w.
Proof. intros Hq. wp_next. eapply wp_path_of; [exact Hq|]. by apply wp_ret. Qed.

Lemma pid_path_nonul w q : str_rep w q t → nonul pid_path.
Proof.
  intros Hq. unfold pid_path. rewrite !nonul_app. split; [exact Hsite|].
  split; [by apply (bool_decide_unpack _)|]. split; [by eapply str_rep_nonul|by apply (bool_decide_unpack _)].
Qed.

Lemma pid_path_ne : pid_path ≠ [].
Proof. unfold pid_path. destruct NC_IPCDIR; done. Qed.

(** The path of the pidfile is printed into a fresh string. *)
Lemma print_path_ok w q l E :
  ready w → str_rep w l [] → str_rep w q t → l ≠ q →
  wp (str_sprintf (Some l) (pidfile_path (Some q)))
    (λ r w', r = 0 ∧ str_rep w' l pid_path ∧ sstep {[l]} w w') E w.
Proof.
  intros Hr Hl Hq Hne. eapply str_sprintf_ok; [done|exact Hl|by eapply pid_path_nonul|exact Hlen|].
  intros w' S. apply pidfile_path_ok. eapply fstep_rep; [exact Hr|by apply sstep_fstep| |exact Hq].
  by apply not_elem_of_singleton_2.
Qed.

Lemma pidfile_stat_ok w q v x s rest E :
  ready w → str_rep w q t → vars (net w) !! v = Some x → answers (sys w) = s :: rest →
  wp (pidfile_stat (Some v) (Some q)) (λ z w', z = 0 ∧ fstep ∅ w w' ∧
    vars (net w') !! v = Some (if sys_ret s =? 0 then 1 else 0) ∧
    sys w' = heard (stat_call pid_path) s (sys w)) E w.
Proof.
  intros Hr Hq Hv Ha. apply wp_func. wp_next. wp_call str_new_ok.
  intros [r p] w1 (-> & l & -> & Hl & Hl1 & S1). cbn [Z.eqb negb]. apply wp_labels.
  assert (l ≠ q) as Hlq by (pose proof (str_rep_lt _ _ _ (proj1 Hr) Hq); intros ->; lia).
  pose proof (sstep_fstep _ _ _ S1) as F1. destruct S1 as (R1 & _ & [_ _ _ _ Hs1 Hn1]).
  wp_next. apply wp_try. eapply wp_conseq.
  { apply (print_path_ok w1 q l); [done|done| |done]. eapply fstep_rep; [exact Hr|exact F1|apply not_elem_of_empty|exact Hq]. }
  intros z w2 (-> & Hl2 & S2). pose proof (sstep_fstep _ _ _ S2) as F2.
  destruct S2 as (R2 & _ & [_ _ _ _ Hs2 Hn2]). cbn [Z.eqb].
  wp_next. wp_next. eapply wp_path_of; [exact Hl2|]. eapply wp_syscall_eq; [by rewrite Hs2, Hs1|].
  eapply (wp_set_obj (λ w, vars (net w))); [cbn; by rewrite Hn2, Hn1|]. set (w3 := in_net _ _ _).
  assert (fstep ∅ w2 w3) as F3.
  { apply (fstep_trans _ _ (upd_sys (heard (stat_call pid_path) s) w2)); [by apply fstep_sys|].
    split; [by apply ready_net, ready_sys|]. split; try done. intros. by left. }
  wp_next. eapply wp_conseq.
  { apply (str_destroy_ok w3 l pid_path); [apply F3|]. eapply fstep_rep; [exact R2|exact F3|apply not_elem_of_empty|exact Hl2]. }
  intros [r p'] w4 (-> & -> & _ & S4). apply wp_ret. pose proof (sstep_fstep _ _ _ S4) as F4.
  destruct S4 as (R4 & _ & [_ _ _ _ Hs4 Hn4]). split; [done|]. split; [|split].
  - apply (fstep_fresh ∅ l); [done|done|]. rewrite union_empty_r_L.
    eapply fstep_trans; [eapply fstep_mono; [apply empty_subseteq|exact F1]|].
    eapply fstep_trans; [exact F2|]. eapply fstep_trans; [eapply fstep_mono; [apply empty_subseteq|exact F3]|exact F4].
  - rewrite Hn4. apply lookup_insert_eq.
  - rewrite Hs4. cbn. by rewrite Hs2, Hs1.
Qed.

(** A local variable: [Q] must not depend on the variables. *)
Lemma wp_local_var w k (Q : Z → world → Prop) E :
  ready w →
  (∀ v w1, vars (net w1) !! v = Some 0 → fstep ∅ w w1 → sys w1 = sys w →
     wp (k (Some v)) (λ z w2, ready w2 ∧ ∀ w3, fstep ∅ w2 w3 → sys w3 = sys w2 → Q z w3)
       (λ x w2, ready w2 ∧ ∀ w3, fstep ∅ w2 w3 → sys w3 = sys w2 → E x w3) w1) →
  wp (local_var k) Q E w.
Proof.
  intros Hr Hk. set (w1 := in_net upd_vars <[next_loc w := 0]> (upd_next Pos.succ w)).
  assert (fstep ∅ w w1) as F1.
  { destruct Hr as [Hwf Hoom].
    split; [split; [split|done]|split]; simpl; try done; try (intros; apply Hwf; lia); try apply Hwf.
    - intros p b Ho. apply (wf_own_bound w Hwf) in Ho. lia.
    - lia.
    - intros p b Ho. by left. }
  specialize (Hk (next_loc w) w1 (lookup_insert_eq _ _ _) F1 eq_refl).
  assert (∀ f w2, ready w2 → fstep ∅ w2 (in_net upd_vars f w2)) as Hvars.
  { intros f w2 R2. split; [by apply ready_net|]. split; try done. intros. by left. }
  unfold wp, local_var, pop_var, mbind, M_bind, fresh_loc, modify in *.
  change (in_net upd_vars <[next_loc w := 0]> (upd_next Pos.succ w)) with w1.
  destruct (k (Some (next_loc w)) w1) as [z w2|x w2| |]; try done; destruct Hk as [R2 HQ]; apply HQ; auto.
Qed.

(** The replies while a pidfile with the number [pid] is read. *)
Record pid_replies (pid : Z) (op st rd : sysret) : Prop := {
  pr_pid : 0 ≤ pid < 2 ^ 32;
  pr_open : 0 ≤ sys_ret op;
  pr_stat : stat_reply st;
  pr_size : 0 ≤ st_size (sys_stat st) < STRING_MAX;
  pr_read : read_reply (st_size (sys_stat st)) rd;
  pr_data : 0 ≤ sys_ret rd ∧ sys_data rd = format_u pid ++ [LF]
}.

(** The signal was sent, or there is no such process. *)
Definition kill_reply (k : sysret) : Prop := 0 ≤ sys_ret k ∨ sys_errno k = ESRCH.

Definition kill_call (pid sig : Z) : call_t := ("kill", [AInt (to_signed 32 pid); AInt sig]).
Definition unlink_call (p : bytes) : call_t := ("unlink", [AStr p]).

(** The calls of [pidfile_kill], latest first. *)
Definition kill_calls (pid sig : Z) (op st rd : sysret) : list call_t :=
  [unlink_call pid_path; kill_call pid sig] ++ reads pid_path op st rd ++ [stat_call pid_path].

Lemma chomp_number n : 0 ≤ n < 2 ^ 32 → chomp (format_u n ++ [LF]) = format_u n.
Proof.
  intros Hn. unfold chomp. rewrite chomp1_snoc. apply chomp1_other. intros Hl.
  pose proof (format_u_digits n Hn) as Hd. rewrite forallb_forall in Hd.
  apply last_Some_elem_of, list_elem_of_In, Hd in Hl. done.
Qed.

(** The part after the pidfile was read into [d]. *)
Lemma send_and_remove_ok w a d pid sig k u rest :
  ready w → str_rep w a pid_path → str_rep w d (format_u pid ++ [LF]) → a ≠ d → 0 ≤ pid < 2 ^ 32 →
  answers (sys w) = k :: u :: rest → kill_reply k →
  wp (try_ (str_chomp (Some d));;
      pid ← try_out (str_to_uint32 (Some d));
      r ← syscall "kill" [AInt (to_signed 32 (default 0 pid)); AInt sig];
      when (sys_ret r <? 0) (
        e ← get_errno;
        when (negb ((e =? 0) || (e =? ESRCH))) (throw_errno "kill(2)"));;
      p ← path_of (Some a);
      checked "unlink" [AStr p])
    (λ _ w', 0 ≤ sys_ret u ∧ fstep {[d]} w w' ∧ str_rep w' d (format_u pid) ∧
      trace (sys w') = [unlink_call pid_path; kill_call pid sig] ++ trace (sys w) ∧ answers (sys w') = rest)
    (λ x w', x = Catch ∧ sys_ret u < 0 ∧ fstep {[d]} w w' ∧ str_rep w' d (format_u pid) ∧
      trace (sys w') = [unlink_call pid_path; kill_call pid sig] ++ trace (sys w) ∧ answers (sys w') = rest) w.
Proof.
  intros Hr Hp Hd Hne Hpid Ha Hk. wp_next. apply wp_try. eapply wp_conseq; [by apply (str_chomp_ok w d)|].
  intros z w1 (-> & Hd1 & S1). rewrite chomp_number in Hd1 by done. cbn [Z.eqb].
  pose proof (sstep_fstep _ _ _ S1) as F1. destruct S1 as (R1 & _ & [_ _ _ _ Hs1 _]).
  wp_next. wp_next. eapply wp_conseq; [by apply str_to_uint32_print_ok|]. intros r w2 (-> & ->).
  cbn beta iota. cbn [default].
  set (w2 := upd_sys no_error w1). assert (fstep {[d]} w w2) as F2.
  { eapply fstep_trans; [exact F1|]. eapply fstep_mono; [apply empty_subseteq|by apply fstep_sys]. }
  wp_next. eapply (wp_syscall_eq w2 _ _ k (u :: rest)); [cbn; by rewrite Hs1|]. set (w3 := upd_sys _ w2).
  assert (fstep {[d]} w w3) as F3.
  { eapply fstep_trans; [exact F2|]. eapply fstep_mono; [apply empty_subseteq|apply fstep_sys, F2]. }
  wp_next. eapply (wp_conseq _ (λ _ w', w' = w3)).
  { apply wp_when; [intros Hneg|done]. wp_next. apply wp_ret_errno. cbn [errno w3 sys upd_sys heard].
    rewrite Hneg. destruct Hk as [Hk|Hk]; [apply Z.ltb_lt in Hneg; lia|]. rewrite Hk. by apply wp_when. }
  intros _ ? ->. wp_next. eapply wp_path_of.
  { eapply fstep_rep; [exact Hr|exact F3|by apply not_elem_of_singleton_2|exact Hp]. }
  wp_next. eapply (wp_syscall_eq w3 _ _ u rest); [cbn; by rewrite Hs1, Ha|]. set (w4 := upd_sys _ w3).
  assert (fstep {[d]} w w4 ∧ str_rep w4 d (format_u pid) ∧
    trace (sys w4) = [unlink_call pid_path; kill_call pid sig] ++ trace (sys w) ∧ answers (sys w4) = rest) as Hfin.
  { split; [|split; [exact Hd1|split; cbn; [by rewrite Hs1|by rewrite Hs1, Ha]]]. eapply fstep_trans; [exact F3|].
    eapply fstep_mono; [apply empty_subseteq|apply fstep_sys, F3]. }
  apply wp_when; intros Hneg; [apply wp_leave|]; apply Z.ltb_lt in Hneg || apply Z.ltb_ge in Hneg; done.
Qed.

(** The end of a function with two strings. *)
Definition destroy_two (p q : ptr) : M unit :=
  '(rc, _) ← str_destroy p; when (negb (rc =? 0)) (leave (Leave (-1)));;
  '(rc, _) ← str_destroy q; when (negb (rc =? 0)) (leave (Leave (-1))).

Lemma destroy_two_ok w a d ta td E :
  ready w → str_rep w a ta → str_rep w d td → a ≠ d →
  wp (destroy_two (Some a) (Some d)) (λ _ w', fstep ({[d]} ∪ {[a]}) w w' ∧ sys w' = sys w) E w.
Proof.
  intros Hr Ha Hd Hne. wp_next. eapply wp_conseq; [by apply (str_destroy_ok w a ta)|].
  intros [r ?] w1 (-> & -> & _ & S1). pose proof (sstep_fstep _ _ _ S1) as F1.
  destruct S1 as (R1 & _ & [_ _ _ _ Hs1 _]). wp_next. apply wp_when; [done|intros _].
  wp_next. eapply wp_conseq.
  { apply (str_destroy_ok w1 d td); [done|]. eapply fstep_rep; [exact Hr|exact F1|by apply not_elem_of_singleton_2|exact Hd]. }
  intros [r ?] w2 (-> & -> & _ & S2). pose proof (sstep_fstep _ _ _ S2) as F2.
  destruct S2 as (R2 & _ & [_ _ _ _ Hs2 _]). apply wp_when; [done|intros _]. split; [|by rewrite Hs2].
  eapply fstep_trans; [eapply fstep_mono; [apply union_subseteq_r|exact F1]|].
  eapply fstep_mono; [apply union_subseteq_l|exact F2].
Qed.

(** Two strings that did not exist before need not be mentioned. *)
Lemma fstep_two a d w w' :
  ready w → (next_loc w ≤ a)%positive → (next_loc w ≤ d)%positive → fstep ({[d]} ∪ {[a]}) w w' → fstep ∅ w w'.
Proof.
  intros Hr Ha Hd F. apply (fstep_fresh ∅ a); [done|done|]. rewrite union_empty_r_L.
  by apply (fstep_fresh _ d).
Qed.

(** The part of [pidfile_kill] that has both of its strings. *)
Lemma kill_body_ok w a d pid sig op st rd cl k u rest E :
  ready w → str_rep w a pid_path → str_rep w d [] → a ≠ d →
  answers (sys w) = op :: st :: rd :: cl :: k :: u :: rest → pid_replies pid op st rd → kill_reply k →
  wp (labels (
        try_ (file_read (Some d) (Some a));;
        try_ (str_chomp (Some d));;
        pid ← try_out (str_to_uint32 (Some d));
        r ← syscall "kill" [AInt (to_signed 32 (default 0 pid)); AInt sig];
        when (sys_ret r <? 0) (
          e ← get_errno;
          when (negb ((e =? 0) || (e =? ESRCH))) (throw_errno "kill(2)"));;
        p ← path_of (Some a);
        checked "unlink" [AStr p]) (mret tt) (destroy_two (Some a) (Some d)))
    (λ z w', z = (if sys_ret u <? 0 then -1 else 0) ∧ fstep ({[d]} ∪ {[a]}) w w' ∧
      trace (sys w') = ([unlink_call pid_path; kill_call pid sig] ++ reads pid_path op st rd) ++ trace (sys w) ∧
      answers (sys w') = rest) E w.
Proof.
  intros Hr Ha Hd Had Han [P1 P2 P3 P4 P5 [P6 P7]] Hk.
  apply wp_labels. wp_next. apply wp_try. eapply wp_conseq.
  { eapply (file_read_ok w d [] a pid_path op st rd cl); try done. apply pid_path_ne. }
  intros z w1 (-> & Hd1 & F1 & Ht1 & Ha1). rewrite (proj2 (Z.ltb_ge _ _) P6) in *. cbn [Z.eqb].
  unfold read_text in Hd1. rewrite (proj2 (Z.ltb_ge _ _) P6), P7 in Hd1. assert (ready w1) as R1 by apply F1.
  assert (str_rep w1 a pid_path) as Hp1
    by (eapply fstep_rep; [exact Hr|exact F1|by apply not_elem_of_singleton_2|exact Ha]).
  assert (∀ z w2, fstep {[d]} w1 w2 → str_rep w2 d (format_u pid) →
    trace (sys w2) = [unlink_call pid_path; kill_call pid sig] ++ trace (sys w1) → answers (sys w2) = rest →
    wp (destroy_two (Some a) (Some d)) (λ _ w', z = z :> Z ∧ fstep ({[d]} ∪ {[a]}) w w' ∧
      trace (sys w') = ([unlink_call pid_path; kill_call pid sig] ++ reads pid_path op st rd) ++ trace (sys w) ∧
      answers (sys w') = rest) E w2) as Hend.
  { intros z w2 F2 Hd2 Ht2 Ha2. eapply wp_conseq.
    { eapply (destroy_two_ok w2 a d); [apply F2| |exact Hd2|done].
      eapply fstep_rep; [exact R1|exact F2|by apply not_elem_of_singleton_2|exact Hp1]. }
    intros _ w3 [F3 Hs3]. split; [done|]. split; [|by rewrite Hs3, Ht2, Ht1, <- app_assoc].
    eapply fstep_trans; [eapply fstep_mono; [apply union_subseteq_l|exact (fstep_trans _ _ _ _ F1 F2)]|exact F3]. }
  eapply wp_mono; [by apply (send_and_remove_ok w1 a d pid sig k u rest)| |].
  - intros _ w2 (Hu & F2 & Hd2 & Ht2 & Ha2). rewrite (proj2 (Z.ltb_ge _ _)) by done. by apply (Hend 0).
  - intros x w2 (-> & Hu & F2 & Hd2 & Ht2 & Ha2). rewrite (proj2 (Z.ltb_lt _ _)) by done. by apply (Hend (-1)).
Qed.

Lemma pidfile_kill_ok w q sig pid s op st rd cl k u rest E :
  ready w → str_rep w q t → answers (sys w) = s :: op :: st :: rd :: cl :: k :: u :: rest →
  sys_ret s = 0 → pid_replies pid op st rd → kill_reply k →
  wp (pidfile_kill (Some q) sig) (λ z w', z = (if sys_ret u <? 0 then -1 else 0) ∧ fstep ∅ w w' ∧
    trace (sys w') = kill_calls pid sig op st rd ++ trace (sys w) ∧ answers (sys w') = rest) E w.
Proof.
  intros Hr Hq Ha Hs0 HP Hk. apply wp_func, wp_local_var; [done|]. intros v w1 Hv F1 Hs1.
  assert (∀ p x w2, fstep ∅ w w2 → str_rep w p x → str_rep w2 p x) as Hkeep
    by (intros p x w2 F; apply (fstep_rep ∅); [done|done|apply not_elem_of_empty]).
  wp_next. apply wp_try. eapply wp_conseq; [eapply (pidfile_stat_ok w1 q v 0 s); [apply F1|by apply Hkeep|done|by rewrite Hs1]|].
  intros z w2 (-> & F2 & Hv2 & Hs2). cbn [Z.eqb]. rewrite Hs0 in Hv2.
  wp_next. eapply (wp_deref (λ w, vars (net w))); [exact Hv2|]. cbn [Z.eqb].
  pose proof (fstep_trans _ _ _ _ F1 F2) as F02.
  wp_next. eapply wp_conseq; [apply str_new_ok, F2|]. intros [r ?] w3 (-> & a & -> & Hla & Ha3 & S3). cbn [Z.eqb negb].
  pose proof (sstep_fstep _ _ _ S3) as F3. destruct S3 as (R3 & _ & [_ _ _ _ Hs3 _]).
  pose proof (fstep_trans _ _ _ _ F02 F3) as F03.
  pose proof (str_rep_lt _ _ _ (proj1 Hr) Hq) as Hlq. pose proof (fr_next _ _ _ (proj2 F02)) as Hn02.
  pose proof (fr_next _ _ _ (proj2 F3)) as Hn3.
  wp_next. apply wp_try. eapply wp_conseq; [apply (print_path_ok w3 q a); [done|exact Ha3|by apply Hkeep|intros ->; lia]|].
  intros z w4 (-> & Ha4 & S4). cbn [Z.eqb]. pose proof (sstep_fstep _ _ _ S4) as F4.
  destruct S4 as (R4 & _ & [_ _ _ _ Hs4 _]). pose proof (str_rep_lt _ _ _ (proj1 R4) Ha4) as Hla4.
  pose proof (fr_next _ _ _ (proj2 F4)) as Hn4.
  wp_next. eapply wp_conseq; [by apply str_new_ok|]. intros [r ?] w5 (-> & d & -> & Hld & Hd5 & S5). cbn [Z.eqb negb].
  pose proof (sstep_fstep _ _ _ S5) as F5. destruct S5 as (R5 & _ & [_ _ _ _ Hs5 _]).
  assert (sys w5 = heard (stat_call pid_path) s (sys w)) as Hs by (by rewrite Hs5, Hs4, Hs3, Hs2, Hs1).
  eapply wp_conseq.
  { apply (kill_body_ok w5 a d pid sig op st rd cl k u rest); try done; [|intros ->; lia|by rewrite Hs; cbn; rewrite Ha].
    eapply fstep_rep; [exact R4|exact F5|apply not_elem_of_empty|exact Ha4]. }
  intros z w6 (-> & F6 & Ht6 & Ha6). split; [apply F6|]. intros w' F' Hs'. split; [done|]. split.
  - apply (fstep_two a d); [done|lia|lia|].
    eapply fstep_trans; [eapply fstep_mono; [apply empty_subseteq|exact F03]|].
    eapply fstep_trans; [eapply fstep_mono; [apply union_subseteq_r|exact F4]|].
    eapply fstep_trans; [eapply fstep_mono; [apply empty_subseteq|exact F5]|].
    eapply fstep_trans; [exact F6|eapply fstep_mono; [apply empty_subseteq|exact F']].
  - rewrite Hs', Ht6, Ha6, Hs. unfold kill_calls. by rewrite <- !app_assoc.
Qed.

(** Two strings that live while [k] runs. *)
Definition held (a d : loc) (w : world) : Prop :=
  ready w ∧ (∃ ta, str_rep w a ta) ∧ ∃ td, str_rep w d td.

Lemma wp_manual_strs w k (Q : Z → world → Prop) E :
  ready w →
  (∀ a d w1, a ≠ d → (next_loc w ≤ a)%positive → (next_loc w ≤ d)%positive →
     str_rep w1 a [] → str_rep w1 d [] → sstep ∅ w w1 →
     let after z w2 := held a d w2 ∧ ∀ w3, fstep ({[d]} ∪ {[a]}) w2 w3 → sys w3 = sys w2 → Q z w3 in
     wp (k (Some a) (Some d)) (λ _ w2, after 0 w2) (λ x w2,
       match x with Leave z => E (Leave z) w2 | Finally z => after z w2 | Catch => after (-1) w2 end) w1) →
  wp (manual_strs k) Q E w.
Proof.
  intros Hr Hk. wp_next. wp_call str_new_ok. intros [r ?] w1 (-> & a & -> & Hla & Ha1 & S1). cbn [Z.eqb negb].
  pose proof (sstep_ready _ _ _ S1) as R1. wp_next. wp_call str_new_ok.
  intros [r ?] w2 (-> & d & -> & Hld & Hd2 & S2). cbn [Z.eqb negb].
  pose proof (str_rep_lt _ _ _ (proj1 R1) Ha1). pose proof (sstep_next _ _ _ S1).
  assert (a ≠ d) as Hne by (intros ->; lia).
  assert (str_rep w2 a []) as Ha2 by (eapply fstep_rep; [exact R1|by apply sstep_fstep|apply not_elem_of_empty|exact Ha1]).
  specialize (Hk a d w2 Hne Hla ltac:(lia) Ha2 Hd2 (sstep_trans _ _ _ _ S1 S2)). cbv zeta in Hk.
  assert (∀ z w3, held a d w3 → (∀ w4, fstep ({[d]} ∪ {[a]}) w3 w4 → sys w4 = sys w3 → Q z w4) →
    wp (destroy_two (Some a) (Some d)) (λ _ w4, Q z w4) E w3) as Hend.
  { intros z w3 (R3 & [ta Ha3] & td & Hd3) HQ. eapply wp_conseq; [by eapply destroy_two_ok|].
    intros _ w4 [F4 Hs4]. by apply HQ. }
  apply wp_labels. eapply wp_mono; [exact Hk| |].
  - intros _ w3 [Hh HQ]. by apply Hend.
  - intros [z|z|] w3; [done| |]; intros [Hh HQ]; by apply Hend.
Qed.

(** What [pidfile_create] does once it knows whether there is a pidfile. *)
Definition create_rest (v path pid_str program : ptr) : M unit :=
  e ← get_var v;
  when (negb (e =? 0)) (
    r ← pidfile_kill program 0;
    when (r =? 0) (throw "another instance is already running"));;
  pid ← syscall "getpid" [];
  try_ (str_sprintf pid_str (mret (format_u (sys_ret pid) ++ [LF])));;
  try_ (file_write path pid_str).

Definition exit_code (x : exit) : Z := match x with Leave z | Finally z => z | Catch => -1 end.

Lemma pidfile_create_rule w q s rest (P : Z → system → Prop) E :
  ready w → str_rep w q t → answers (sys w) = s :: rest →
  (∀ v a d w1, a ≠ d → (next_loc w ≤ a)%positive → (next_loc w ≤ d)%positive → ready w1 →
     str_rep w1 a pid_path → str_rep w1 d [] → str_rep w1 q t →
     vars (net w1) !! v = Some (if sys_ret s =? 0 then 1 else 0) →
     sys w1 = heard (stat_call pid_path) s (sys w) →
     let after z w2 := P z (sys w2) ∧ fstep ({[d]} ∪ {[a]}) w1 w2 ∧ held a d w2 in
     wp (create_rest (Some v) (Some a) (Some d) (Some q)) (λ _ w2, after 0 w2) (λ x w2, after (exit_code x) w2) w1) →
  wp (pidfile_create (Some q)) (λ z w', P z (sys w') ∧ fstep ∅ w w') E w.
Proof.
  intros Hr Hq Ha Hrest. apply wp_func, wp_local_var; [done|]. intros v w1 Hv F1 Hs1.
  pose proof (str_rep_lt _ _ _ (proj1 Hr) Hq) as Hlq. pose proof (fr_next _ _ _ (proj2 F1)) as Hn1.
  assert (str_rep w1 q t) as Hq1 by (by apply (fstep_rep ∅ w w1); [| |apply not_elem_of_empty|]).
  apply wp_manual_strs; [apply F1|]. intros a d w2 Hne Hla Hld Ha2 Hd2 S2. cbv zeta.
  pose proof (sstep_fstep _ _ _ S2) as F2. destruct S2 as (R2 & _ & [_ _ _ _ Hs2 Hn2]).
  assert (str_rep w2 q t) as Hq2 by (by apply (fstep_rep ∅ w1 w2); [apply F1| |apply not_elem_of_empty|]).
  wp_next. apply wp_try. eapply wp_conseq; [apply (print_path_ok w2 q a); [done..|intros ->; lia]|].
  intros z w3 (-> & Ha3 & S3). cbn [Z.eqb]. pose proof (sstep_fstep _ _ _ S3) as F3.
  destruct S3 as (R3 & _ & [_ _ _ _ Hs3 Hn3]).
  assert (∀ p x, p ≠ a → str_rep w2 p x → str_rep w3 p x) as Hkeep
    by (intros p x Hp; apply (fstep_rep {[a]}); [done|done|by apply not_elem_of_singleton_2]).
  wp_next. apply wp_try. eapply wp_conseq.
  { eapply (pidfile_stat_ok w3 q v 0 s rest); [done|apply Hkeep; [intros ->; lia|done]|by rewrite Hn3, Hn2|
      by rewrite Hs3, Hs2, Hs1]. }
  intros z w4 (-> & F4 & Hv4 & Hs4). cbn [Z.eqb].
  assert (∀ p x, str_rep w3 p x → str_rep w4 p x) as Hkeep4
    by (intros p x; apply (fstep_rep ∅); [done|done|apply not_elem_of_empty]).
  assert (∀ w5, fstep ({[d]} ∪ {[a]}) w4 w5 → fstep ∅ w w5) as Hforget.
  { intros w5 F5. apply (fstep_two a d); [done|lia|lia|].
    eapply fstep_trans; [eapply fstep_mono; [apply empty_subseteq|exact (fstep_trans _ _ _ _ F1 F2)]|].
    eapply fstep_trans; [eapply fstep_mono; [apply union_subseteq_r|exact F3]|].
    eapply fstep_trans; [eapply fstep_mono; [apply empty_subseteq|exact F4]|exact F5]. }
  assert (∀ X w5 w6 z, X ⊆ {[d]} ∪ {[a]} → P z (sys w5) ∧ fstep ({[d]} ∪ {[a]}) w4 w5 ∧ held a d w5 →
    fstep X w5 w6 → sys w6 = sys w5 → P z (sys w6) ∧ fstep ({[d]} ∪ {[a]}) w4 w6) as Hclosed.
  { intros X w5 w6 z HX (HP & F5 & _) F6 Hs6. split; [by rewrite Hs6|].
    eapply fstep_trans; [exact F5|by eapply fstep_mono]. }
  assert (∀ z w5, P z (sys w5) ∧ fstep ({[d]} ∪ {[a]}) w4 w5 ∧ held a d w5 →
    held a d w5 ∧ ∀ w6, fstep ({[d]} ∪ {[a]}) w5 w6 → sys w6 = sys w5 →
    ready w6 ∧ ∀ w7, fstep ∅ w6 w7 → sys w7 = sys w6 → P z (sys w7) ∧ fstep ∅ w w7) as Hdone.
  { intros z w5 H5. split; [apply H5|]. intros w6 F6 Hs6. split; [apply F6|]. intros w7 F7 Hs7.
    destruct (Hclosed _ _ _ _ (reflexivity _) H5 F6 Hs6) as [HP F46]. split; [by rewrite Hs7|].
    apply Hforget. eapply fstep_trans; [exact F46|eapply fstep_mono; [apply empty_subseteq|exact F7]]. }
  assert (str_rep w4 a pid_path ∧ str_rep w4 d [] ∧ str_rep w4 q t) as (Ha4 & Hd4 & Hq4).
  { split_and!; apply Hkeep4; [done| |]; apply Hkeep; [by intros ->|done|intros ->; lia|done]. }
  specialize (Hrest v a d w4 Hne ltac:(lia) ltac:(lia) (proj1 F4) Ha4 Hd4 Hq4 Hv4 ltac:(by rewrite Hs4, Hs3, Hs2, Hs1)).
  cbv zeta in Hrest. eapply wp_mono; [exact Hrest| |].
  - intros [] w5 H5. by apply Hdone.
  - intros x w5 H5. destruct x as [y|y|]; cbn [exit_code] in H5; [|by apply Hdone..].
    split; [apply H5|]. intros w6 F6 Hs6.
    destruct (Hclosed ∅ _ _ _ (empty_subseteq _) H5 F6 Hs6) as [HP F46]. split; [done|by apply Hforget].
Qed.

(** A pidfile that exists is taken for a running program. *)
Lemma pidfile_create_refuses_ok w q pid s1 s2 op st rd cl k u rest E :
  ready w → str_rep w q t → answers (sys w) = s1 :: s2 :: op :: st :: rd :: cl :: k :: u :: rest →
  sys_ret s1 = 0 → sys_ret s2 = 0 → pid_replies pid op st rd → kill_reply k → 0 ≤ sys_ret u →
  wp (pidfile_create (Some q)) (λ z w', (z = -1 ∧
    trace (sys w') = kill_calls pid 0 op st rd ++ stat_call pid_path :: trace (sys w) ∧
    answers (sys w') = rest) ∧ fstep ∅ w w') E w.
Proof.
  intros Hr Hq Ha H1 H2 HP Hk Hu.
  apply (pidfile_create_rule w q s1 _ (λ z s, z = -1 ∧
    trace s = kill_calls pid 0 op st rd ++ stat_call pid_path :: trace (sys w) ∧ answers s = rest) E Hr Hq Ha).
  intros v a d w1 Hne _ _ R1 Ha1 Hd1 Hq1 Hv1 Hs1. cbv zeta. rewrite H1 in Hv1.
  wp_next. eapply (wp_deref (λ w, vars (net w))); [exact Hv1|]. cbn [Z.eqb negb when].
  wp_next. wp_next. eapply wp_conseq.
  { eapply (pidfile_kill_ok w1 q 0 pid s2 op st rd cl k u rest); try done. by rewrite Hs1; cbn; rewrite Ha. }
  intros z w2 (-> & F2 & Ht2 & Ha2). rewrite (proj2 (Z.ltb_ge _ _)) by done. cbn [Z.eqb when].
  assert (∀ p x, str_rep w1 p x → str_rep w2 p x) as Hkeep
    by (intros p x; apply (fstep_rep ∅); [done|done|apply not_elem_of_empty]).
  apply wp_throw. cbn [exit_code]. split; [split; [done|]; by rewrite Ht2, Ha2, Hs1|].
  split; [eapply fstep_mono; [apply empty_subseteq|exact F2]|].
  split; [apply F2|]. split; eexists; by apply Hkeep.
Qed.

Lemma keeps_file_write p d : keeps talks leaving (file_write p d).
Proof.
  unfold file_write, file_puts, file_rename, two_paths, some_empty, str_empty, checked. keeps_go. apply keeps_auto_str.
  keeps_go; unfold get_str; keeps_go.
Qed.

(** The replies that remain are counted by the calls. *)
Lemma talks_answers w w' calls :
  talks w w' → trace (sys w') = calls ++ trace (sys w) → answers (sys w') = drop (length calls) (answers (sys w)).
Proof.
  intros [cs [Ha Ht]] Hc. rewrite Hc in Ht. apply app_inv_tail in Ht as ->. rewrite length_reverse, length_fmap, Ha.
  by rewrite drop_app_length' by (by rewrite length_fmap).
Qed.

Lemma wp_keeps {A} (c : M A) (R : world → world → Prop) X (Q : A → world → Prop) E w :
  keeps R X c → wp c Q E w → wp c (λ a w', Q a w' ∧ R w w') E w.
Proof. intros Hk. specialize (Hk w). unfold wp, kept in *. destruct (c w); naive_solver. Qed.

(** The text of a pidfile. *)
Definition pid_line (pid : Z) : bytes := format_u pid ++ [LF].

Lemma pid_line_ok pid : 0 ≤ pid < 2 ^ 32 →
  nonul (pid_line pid) ∧ pid_line pid ≠ [] ∧ Z.of_nat (length (pid_line pid)) ≤ STRING_MAX.
Proof.
  intros Hp. unfold pid_line. split_and!.
  - rewrite nonul_app. split; [|by repeat constructor]. apply Forall_forall. intros c Hc%list_elem_of_In.
    pose proof (format_u_digits pid Hp) as Hd. rewrite forallb_forall in Hd. by apply (isdigit_plain c), Hd.
  - by destruct (format_u pid).
  - rewrite length_app. unfold format_u. rewrite length_reverse. cbn [length].
    pose proof (length_digits_rev 10 (pid mod 2 ^ 32)). unfold STRING_MAX. lia.
Qed.

Lemma write_outcome_code p d tmp fd wr cl rn z calls :
  write_outcome p d tmp fd wr cl rn = (z, calls) → z ≠ 0 → z = -1.
Proof. unfold write_outcome, save_outcome. repeat case_match; naive_solver. Qed.

(** Without a pidfile the number of the process is written. *)
Lemma pidfile_create_writes_ok w q s g mk wr cl rn rest E :
  ready w → str_rep w q t → answers (sys w) = s :: g :: mk :: wr :: cl :: rn :: rest →
  sys_ret s ≠ 0 → 0 ≤ sys_ret g < 2 ^ 32 → nonul (sys_data mk) → sys_data mk ≠ [] →
  Z.of_nat (length (sys_data mk)) < STRING_MAX →
  let '(z, calls) := write_outcome pid_path (pid_line (sys_ret g)) (sys_data mk)
    (sys_ret mk) (sys_ret wr) (sys_ret cl) (sys_ret rn) in
  wp (pidfile_create (Some q)) (λ r w', (r = z ∧
    trace (sys w') = calls ++ ("getpid", []) :: stat_call pid_path :: trace (sys w) ∧
    answers (sys w') = drop (length calls) (mk :: wr :: cl :: rn :: rest)) ∧ fstep ∅ w w') E w.
Proof.
  intros Hr Hq Ha Hs0 Hg M1 M2 M3. destruct (write_outcome _ _ _ _ _ _ _) as [z calls] eqn:Hout.
  apply (pidfile_create_rule w q s _ (λ r s, r = z ∧
    trace s = calls ++ ("getpid", []) :: stat_call pid_path :: trace (sys w) ∧
    answers s = drop (length calls) (mk :: wr :: cl :: rn :: rest)) E Hr Hq Ha).
  intros v a d w1 Hne _ _ R1 Ha1 Hd1 Hq1 Hv1 Hs1. cbv zeta. rewrite (proj2 (Z.eqb_neq _ _)) in Hv1 by done.
  destruct (pid_line_ok _ Hg) as (L1 & L2 & L3).
  wp_next. eapply (wp_deref (λ w, vars (net w))); [exact Hv1|]. cbn [Z.eqb negb when].
  wp_next. wp_next. eapply (wp_syscall_eq w1 _ _ g (mk :: wr :: cl :: rn :: rest)); [by rewrite Hs1; cbn; rewrite Ha|].
  set (w2 := upd_sys _ w1). assert (fstep ∅ w1 w2) as F2 by (by apply fstep_sys).
  wp_next. apply wp_try. eapply wp_conseq.
  { apply (str_sprintf_ok w2 d [] _ (pid_line (sys_ret g))); [apply F2| |done..|].
    - by apply (fstep_rep ∅ w1 w2); [| |apply not_elem_of_empty|].
    - intros w' _. by apply wp_ret. }
  intros r w3 (-> & Hd3 & S3). cbn [Z.eqb]. pose proof (sstep_fstep _ _ _ S3) as F3.
  destruct S3 as (R3 & _ & [_ _ _ _ Hs3 _]).
  assert (str_rep w3 a pid_path) as Ha3.
  { apply (fstep_rep {[d]} w2 w3); [apply F2|done|by apply not_elem_of_singleton_2|].
    by apply (fstep_rep ∅ w1 w2); [| |apply not_elem_of_empty|]. }
  assert (fstep ({[d]} ∪ {[a]}) w1 w3) as F13.
  { eapply fstep_trans; [eapply fstep_mono; [apply empty_subseteq|exact F2]|].
    eapply fstep_mono; [apply union_subseteq_l|exact F3]. }
  apply wp_try. eapply wp_conseq.
  { apply (wp_keeps _ talks leaving); [apply keeps_file_write|].
    apply (file_write_ok w3 a d pid_path (pid_line (sys_ret g)) mk wr cl rn rest); try done;
      [apply pid_path_ne|by rewrite Hs3; cbn; rewrite Hs1; cbn; rewrite Ha]. }
  intros r w4 [[Hrt F4] HT]. rewrite Hout in Hrt. injection Hrt as -> Ht.
  pose proof (talks_answers _ _ _ HT Ht) as Ha4. rewrite Hs3 in Ht, Ha4. cbn in Ht, Ha4.
  rewrite Hs1 in Ht, Ha4. cbn in Ht, Ha4. rewrite Ha in Ha4.
  assert (∀ p x, str_rep w3 p x → str_rep w4 p x) as Hkeep
    by (intros p x; apply (fstep_rep ∅); [done|done|apply not_elem_of_empty]).
  assert (fstep ({[d]} ∪ {[a]}) w1 w4 ∧ held a d w4) as [Hf Hh].
  { split; [eapply fstep_trans; [exact F13|eapply fstep_mono; [apply empty_subseteq|exact F4]]|].
    split; [apply F4|]. split; eexists; by apply Hkeep. }
  destruct (Z.eqb_spec z 0) as [->|Hz]; [by split_and!|].
  assert (z = -1) as -> by (apply (write_outcome_code _ _ _ _ _ _ _ _ _ Hout); done). by split_and!.
Qed.

End pidfile.
