(* ===== verification/StringRefine.v ===== *)
(** Strings as an abstract machine: any sequence of calls of string.c on the
    strings of a client behaves like assignments of texts to variables. *)

From S2P Require Import Prelude Types Machine Wp StringOps StringFacts StringMore EscapeFacts.

Open Scope Z_scope.

(** * Character by character *)

(** An assignment to one character of a text. *)
Lemma wp_set_char w p b l1 c l2 junk c' L (Q : unit → world → Prop) E :
  ready w → str_cells w p b (cells_of (l1 ++ c :: l2) ++ junk) L →
  (∀ w', str_cells w' p b (cells_of (l1 ++ c' :: l2) ++ junk) L → sstep {[p]} w w' → Q tt w') →
  wp (memset1 (Some (CBlk b 0)) (Z.of_nat (length l1)) c') Q E w.
Proof.
  intros Hr Hc HQ. eapply wp_store; [done|done|lia| |].
  - rewrite length_app, length_cells_of, length_app. simpl. lia.
  - intros w' Hc' S. apply HQ; [|done]. revert Hc'. rewrite Nat2Z.id, !cells_of_split, !fmap_app.
    cbn. rewrite <- !app_assoc.
    rewrite <- (length_fmap Some l1) at 1. rewrite <- (Nat.add_0_r (length (Some <$> l1))).
    by rewrite splice_app_r.
Qed.

Lemma toupper_nonul c : c ≠ NUL → toupper c ≠ NUL.
Proof. all_chars c; done. Qed.

Lemma str_to_upper_ok w p s E :
  ready w → str_rep w p s →
  wp (str_to_upper (Some p)) (λ r w', r = 0 ∧ str_rep w' p (toupper <$> s) ∧ sstep {[p]} w w') E w.
Proof.
  intros Hr (b & junk & Hc & Hn & Hl). apply wp_func_body. wp_next. eapply wp_get_str; [done|].
  cbn [str_len str_value].
  eapply wp_loop with (n := length s) (I := λ n i w', ∃ l1 l2, s = l1 ++ l2 ∧ n = length l2 ∧
    i = Z.of_nat (length l1) ∧ str_cells w' p b (cells_of ((toupper <$> l1) ++ l2) ++ junk)
      (Z.of_nat (length s)) ∧ sstep {[p]} w w').
  2: { exists [], s. split_and!; try done. by apply sstep_refl. }
  2: { lia. }
  intros n i w1 (l1 & l2 & -> & -> & -> & Hc1 & S1). rewrite length_app in *.
  destruct l2 as [|c l2].
  - rewrite (proj2 (Z.ltb_ge _ _)) by (simpl; lia). apply wp_ret. rewrite app_nil_r in *.
    split; [done|]. split; [|done]. eapply str_rep_of_cells.
    + rewrite length_fmap. simpl in Hc1. by rewrite Nat.add_0_r in Hc1.
    + apply Forall_fmap. eapply Forall_impl; [done|]. apply toupper_nonul.
    + rewrite length_fmap. simpl in *. lia.
  - rewrite (proj2 (Z.ltb_lt _ _)) by (simpl; lia). wp_next.
    assert (cstr_at w1 (CBlk b 0) = Some ((toupper <$> l1) ++ c :: l2)) as Hcs.
    { destruct Hc1 as [_ Hb]. unfold cstr_at. simpl. rewrite Hb. simpl. rewrite drop_0.
      apply scan_cells_of. apply nonul_app in Hn as [Hn1 Hn2]. apply nonul_app. split; [|done].
      apply Forall_fmap. eapply Forall_impl; [done|]. apply toupper_nonul. }
    eapply wp_load; [done|rewrite length_app, length_fmap; simpl; lia|]. intros a Ha.
    rewrite Nat2Z.id, <- app_assoc, lookup_app_r, length_fmap, Nat.sub_diag in Ha by (rewrite length_fmap; lia).
    injection Ha as <-. wp_next. rewrite <- (length_fmap toupper l1).
    eapply wp_set_char; [apply S1|exact Hc1|]. intros w2 Hc2 S2. apply wp_ret.
    exists (length l2). split; [simpl; lia|]. exists (l1 ++ [c]), l2.
    rewrite <- app_assoc, length_app, length_fmap, fmap_app, <- app_assoc. cbn [length fmap list_fmap app].
    split_and!; try done; [lia|by eapply sstep_trans].
Qed.

(** [str_translate] as it is: the first character is not looked at. *)
Definition subst_char (old new c : ascii) : ascii := if decide (c = old) then new else c.

Definition translated (old new : ascii) (s : bytes) : bytes :=
  match s with [] => [] | c :: r => c :: (subst_char old new <$> r) end.

(** The text when the characters up to position [i] have been seen. *)
Definition half (old new : ascii) (i : nat) (s : bytes) : bytes :=
  translated old new (take (S i) s) ++ drop (S i) s.

Lemma translated_snoc old new s c :
  s ≠ [] → translated old new (s ++ [c]) = translated old new s ++ [subst_char old new c].
Proof. destruct s; [done|]. intros _. simpl. by rewrite fmap_app. Qed.

Lemma length_translated old new s : length (translated old new s) = length s.
Proof. destruct s; simpl; by rewrite ?length_fmap. Qed.

Lemma translated_nonul old new s : new ≠ NUL → nonul s → nonul (translated old new s).
Proof.
  intros Hnew Hs. destruct s as [|c s]; [done|]. apply nonul_cons in Hs as [Hc Hs].
  apply nonul_cons. split; [done|]. apply Forall_fmap. eapply Forall_impl; [done|].
  intros a Ha. simpl. unfold subst_char. by case_decide.
Qed.

Lemma half_next old new i s c :
  s !! S i = Some c →
  half old new i s = translated old new (take (S i) s) ++ c :: drop (S (S i)) s ∧
  half old new (S i) s =
    translated old new (take (S i) s) ++ subst_char old new c :: drop (S (S i)) s.
Proof.
  intros Hc. unfold half. split; [by rewrite (drop_S s c (S i))|].
  rewrite (take_S_r s (S i) c Hc), translated_snoc, <- app_assoc; [done|].
  destruct s; [done|]. done.
Qed.

Lemma half_nonul old new i s : new ≠ NUL → nonul s → nonul (half old new i s).
Proof.
  intros Hnew Hs. apply nonul_app. split; [|by apply nonul_drop].
  apply translated_nonul; [done|by apply nonul_take].
Qed.

Lemma length_half old new i s : length (half old new i s) = length s.
Proof. unfold half. rewrite length_app, length_translated, <- length_app. by rewrite take_drop. Qed.

Lemma half_end old new i s : (length s ≤ S i)%nat → half old new i s = translated old new s.
Proof. intros H. unfold half. by rewrite take_ge, drop_ge, app_nil_r by lia. Qed.

Lemma half_0 old new s : half old new 0 s = s.
Proof. by destruct s. Qed.

Lemma cells_cstr w p b s junk L :
  str_cells w p b (cells_of s ++ junk) L → nonul s → cstr_at w (CBlk b 0) = Some s.
Proof.
  intros [_ Hb] Hn. unfold cstr_at. simpl. rewrite Hb. simpl. rewrite drop_0.
  by apply scan_cells_of.
Qed.

Lemma str_translate_ok w p s old new E :
  ready w → str_rep w p s → char_of_int old ≠ NUL → char_of_int new ≠ NUL →
  wp (str_translate (Some p) old new) (λ r w', r = 0 ∧
    str_rep w' p (translated (char_of_int old) (char_of_int new) s) ∧ sstep {[p]} w w') E w.
Proof.
  intros Hr (b & junk & Hc & Hn & Hl) Hold Hnew. set (o := char_of_int old) in *.
  set (n := char_of_int new) in *. apply wp_func_body. wp_next. eapply wp_get_str; [done|].
  cbn [str_value]. wp_next. apply wp_non_null. wp_next. eapply wp_cells.
  { destruct Hc as [_ Hb]. simpl. by rewrite Hb. }
  rewrite drop_0.
  eapply wp_loop with (n := length s) (I := λ m i w', ∃ j, i = Z.of_nat j ∧ (j ≤ length s)%nat ∧
    m = (length s - j)%nat ∧ str_cells w' p b (cells_of (half o n j s) ++ junk)
      (Z.of_nat (length s)) ∧ sstep {[p]} w w').
  2: { exists 0%nat. rewrite half_0. split_and!; [done|lia|lia|done|by apply sstep_refl]. }
  2: { cbn [bdata]. rewrite length_app, length_cells_of. lia. }
  intros m i w1 (j & -> & Hj & -> & Hc1 & S1).
  pose proof (cells_cstr _ _ _ _ _ _ Hc1 (half_nonul o n j s Hnew Hn)) as Hcs.
  pose proof (length_half o n j s) as Hlh. wp_next.
  eapply wp_load; [done|rewrite Hlh; lia|]. intros a Ha. rewrite Nat2Z.id in Ha.
  destruct (decide (j = length s)) as [->|Hne].
  { rewrite lookup_app_r, Hlh, Nat.sub_diag in Ha by lia. injection Ha as <-.
    rewrite decide_True by done. apply wp_ret. split; [done|]. split; [|done].
    rewrite half_end in Hc1 by lia. eapply str_rep_of_cells.
    - by rewrite length_translated.
    - by apply translated_nonul.
    - by rewrite length_translated. }
  rewrite lookup_app_l in Ha by lia. rewrite decide_False.
  2: { intros ->. pose proof (half_nonul o n j s Hnew Hn) as Hh.
       by apply (Forall_lookup_1 _ _ _ _ Hh) in Ha. }
  wp_next. eapply wp_load; [done|rewrite Hlh; lia|]. intros a' Ha'.
  replace (Z.to_nat (Z.of_nat j + 1)) with (S j) in Ha' by lia.
  assert (∀ w2, str_cells w2 p b (cells_of (half o n (S j) s) ++ junk) (Z.of_nat (length s)) →
    sstep {[p]} w1 w2 → ∃ n' : nat, (n' < length s - j)%nat ∧ ∃ j', Z.of_nat j + 1 = Z.of_nat j' ∧
      (j' ≤ length s)%nat ∧ n' = (length s - j')%nat ∧
      str_cells w2 p b (cells_of (half o n j' s) ++ junk) (Z.of_nat (length s)) ∧ sstep {[p]} w w2) as Hnext.
  { intros w2 Hc2 S2. exists (length s - S j)%nat. split; [lia|]. exists (S j).
    split_and!; [lia|lia|done|done|by eapply sstep_trans]. }
  destruct (decide (S j = length s)) as [Hend|Hmid].
  - rewrite lookup_app_r, Hlh, Hend, Nat.sub_diag in Ha' by lia. injection Ha' as <-.
    wp_next. apply wp_when; rewrite bool_decide_eq_true || rewrite bool_decide_eq_false.
    { intros Heq. by destruct Hold. }
    intros _. apply wp_ret. apply Hnext; [|apply sstep_refl, S1].
    rewrite half_end in Hc1 |- * by lia. done.
  - destruct (lookup_lt_is_Some_2 s (S j)) as [c Hsc]; [lia|].
    destruct (half_next o n j s c Hsc) as [Hh Hh'].
    assert (length (translated o n (take (S j) s)) = S j) as Hlt
      by (rewrite length_translated, length_take; lia).
    rewrite lookup_app_l, Hh, lookup_app_r, Hlt, Nat.sub_diag in Ha' by lia. injection Ha' as <-.
    wp_next. unfold subst_char in Hh'.
    apply wp_when; rewrite ?bool_decide_eq_true, ?bool_decide_eq_false; intros Heq.
    + rewrite decide_True in Hh' by done. rewrite Hh in Hc1.
      replace (Z.of_nat j + 1) with (Z.of_nat (length (translated o n (take (S j) s)))) by lia.
      eapply wp_set_char; [apply S1|exact Hc1|]. intros w2 Hc2 S2. apply wp_ret. rewrite Hlt.
      replace (Z.of_nat (S j)) with (Z.of_nat j + 1) by lia. apply Hnext; [by rewrite Hh'|done].
    + rewrite decide_False in Hh' by done. apply wp_ret.
      apply Hnext; [by rewrite Hh', <- Hh|apply sstep_refl, S1].
Qed.

(** * The calls *)

(** [p] and [q] are strings of the client, texts are literals. *)
Inductive sop :=
| SCpy (p : loc) (t : bytes) | SNcpy (p : loc) (t : bytes) (n : Z) | SCopy (p q : loc)
| SMove (p q : loc) | SCat (p : loc) (t : bytes) | SPutc (p : loc) (c : Z)
| SAppend (p q : loc) | SPrepend (p q : loc) | STruncate (p : loc) | STruncateAt (p : loc) (n : Z)
| SChomp (p : loc) | SUpper (p : loc) | STranslate (p : loc) (old new : Z)
| SEscape (p q : loc) | SFormat (p : loc) (out : bytes).

Definition scall (c : sop) : M Z :=
  match c with
  | SCpy p t => str_cpy (Some p) (Some (CLit t 0))
  | SNcpy p t n => str_ncpy (Some p) (Some (CLit t 0)) n
  | SCopy p q => str_copy (Some p) (Some q)
  | SMove p q => str_move (Some p) (Some q)
  | SCat p t => str_cat (Some p) (Some (CLit t 0))
  | SPutc p c => str_putc (Some p) c
  | SAppend p q => str_append (Some p) (Some q)
  | SPrepend p q => str_prepend (Some p) (Some q)
  | STruncate p => str_truncate (Some p)
  | STruncateAt p n => str_truncate_at (Some p) n
  | SChomp p => str_chomp (Some p)
  | SUpper p => str_to_upper (Some p)
  | STranslate p old new => str_translate (Some p) old new
  | SEscape p q => str_escape (Some p) (Some q)
  | SFormat p out => str_sprintf (Some p) (mret out)
  end.

Fixpoint scalls (cs : list sop) : M (list Z) :=
  match cs with
  | [] => mret []
  | c :: cs => r ← scall c; rs ← scalls cs; mret (r :: rs)
  end.

(** * The abstract machine *)

Abbreviation env := (gmap loc bytes).

Definition text (m : env) (q : loc) : bytes := default [] (m !! q).

Definition env_step (c : sop) (m : env) : Z * env :=
  match c with
  | SCpy p t | SFormat p t => (0, <[p := t]> m)
  | SNcpy p t n => (0, <[p := take (Z.to_nat n) t]> m)
  | SCopy p q => (0, <[p := text m q]> m)
  | SMove p q => (0, <[p := text m q]> (<[q := []]> m))
  | SCat p t => (0, <[p := text m p ++ t]> m)
  | SPutc p c => (0, <[p := text m p ++ if decide (char_of_int c = NUL) then [] else [char_of_int c]]> m)
  | SAppend p q => (0, <[p := text m p ++ text m q]> m)
  | SPrepend p q => (0, <[p := text m q ++ text m p]> m)
  | STruncate p => (0, <[p := []]> m)
  | STruncateAt p n =>
      if Z.of_nat (length (text m p)) <? n then (-1, m)
      else (0, <[p := take (Z.to_nat n) (text m p)]> m)
  | SChomp p => (0, <[p := chomp (text m p)]> m)
  | SUpper p => (0, <[p := toupper <$> text m p]> m)
  | STranslate p old new =>
      (0, <[p := translated (char_of_int old) (char_of_int new) (text m p)]> m)
  | SEscape p q => (0, <[p := escape (text m q)]> m)
  end.

Fixpoint env_run (cs : list sop) (m : env) : list Z * env :=
  match cs with
  | [] => ([], m)
  | c :: cs =>
      let '(r, m') := env_step c m in
      let '(rs, m'') := env_run cs m' in (r :: rs, m'')
  end.

Definition has (m : env) (q : loc) : Prop := is_Some (m !! q).
Definition small (n : nat) : Prop := Z.of_nat n < STRING_MAX.

(** What a call asks of the state it starts in. *)
Definition sadmissible (c : sop) (m : env) : Prop :=
  match c with
  | SCpy p t | SFormat p t => has m p ∧ nonul t ∧ small (length t)
  | SNcpy p t n => has m p ∧ nonul t ∧ small (length t) ∧ 0 ≤ n ≤ Z.of_nat (length t)
  | SCopy p q | SMove p q => has m p ∧ has m q ∧ p ≠ q
  | SCat p t => has m p ∧ nonul t ∧ small (length (text m p) + length t)
  | SPutc p c => has m p ∧ small (S (length (text m p)))
  | SAppend p q | SPrepend p q =>
      has m p ∧ has m q ∧ p ≠ q ∧ small (length (text m p) + length (text m q))
  | STruncate p | SChomp p | SUpper p => has m p
  | STruncateAt p n => has m p ∧ 0 ≤ n
  | STranslate p old new => has m p ∧ char_of_int old ≠ NUL ∧ char_of_int new ≠ NUL
  | SEscape p q => has m p ∧ has m q ∧ p ≠ q ∧ small (3 * length (text m q))
  end.

Fixpoint all_sadmissible (cs : list sop) (m : env) : Prop :=
  match cs with
  | [] => True
  | c :: cs => sadmissible c m ∧ all_sadmissible cs (snd (env_step c m))
  end.

#[export] Instance has_dec m q : Decision (has m q).
Proof. unfold has. apply _. Defined.
#[export] Instance small_dec n : Decision (small n).
Proof. unfold small. apply _. Defined.
#[export] Instance sadmissible_dec c m : Decision (sadmissible c m).
Proof. destruct c; simpl; apply _. Defined.
#[export] Instance all_sadmissible_dec cs m : Decision (all_sadmissible cs m).
Proof. revert m. induction cs; intros m'; simpl; apply _. Defined.

(** * The simulation *)

(** The memory holds the texts of [m]. *)
Definition holds (w : world) (m : env) : Prop := ready w ∧ ∀ q t, m !! q = Some t → str_rep w q t.

Lemma holds_has w m q : holds w m → has m q → str_rep w q (text m q).
Proof. intros [_ H] [t Ht]. unfold text. rewrite Ht. by apply H. Qed.

Lemma holds_step X w w' m m' :
  holds w m → sstep X w w' →
  (∀ q t, m' !! q = Some t → m !! q = Some t ∧ q ∉ X ∨ str_rep w' q t) → holds w' m'.
Proof.
  intros [Hr H] S Hm'. split; [apply S|]. intros q t Hq. destruct (Hm' q t Hq) as [[Ht Hn]|]; [|done].
  eapply sstep_rep; [apply Hr|done|done|by apply H].
Qed.

Lemma holds_assign w w' m p t :
  holds w m → sstep {[p]} w w' → str_rep w' p t → holds w' (<[p := t]> m).
Proof.
  intros H S Ht. eapply holds_step; [done|exact S|]. intros q u.
  rewrite lookup_insert_Some. intros [[<- <-]|[Hne Hq]]; [by right|left]. set_solver.
Qed.

Lemma scall_simulates c w m E :
  holds w m → sadmissible c m →
  wp (scall c) (λ r w', r = fst (env_step c m) ∧ holds w' (snd (env_step c m))) E w.
Proof.
  intros H. pose proof (proj1 H) as Hr. pose proof (holds_has w m) as Hh.
  destruct c; simpl; unfold small; intros Hc; destruct_and?.
  - wp_call str_cpy_ok; [by apply cstr_at_lit|done|]. intros r w' (-> & ? & S).
    split; [done|by eapply holds_assign].
  - wp_call str_ncpy_ok; [by apply cstr_at_lit|done|lia|]. intros r w' (-> & ? & S).
    split; [done|by eapply holds_assign].
  - wp_call str_copy_ok. intros r w' (-> & ? & S). split; [done|by eapply holds_assign].
  - wp_call str_move_ok. intros r w' (-> & ? & ? & S). split; [done|].
    eapply holds_step; [done|exact S|]. intros x t. rewrite !lookup_insert_Some.
    intros [[<- <-]|[? [[<- <-]|[? ?]]]]; [by right|by right|left]. set_solver.
  - wp_call str_cat_ok; [by apply cstr_at_lit|done|]. intros r w' (-> & ? & S).
    split; [done|by eapply holds_assign].
  - wp_call str_putc_ok. intros r w' (-> & ? & S). split; [done|by eapply holds_assign].
  - wp_call str_append_ok. intros r w' (-> & ? & S). split; [done|by eapply holds_assign].
  - wp_call str_prepend_ok. intros r w' ((-> & ?) & S). split; [done|by eapply holds_assign].
  - wp_call str_truncate_ok. intros r w' (-> & ? & S). split; [done|by eapply holds_assign].
  - destruct (Z.ltb_spec (Z.of_nat (length (text m p))) n).
    + unfold wp. by rewrite (str_truncate_at_error _ _ (text m p)) by auto.
    + wp_call str_truncate_at_ok. intros r w' (-> & ? & S). split; [done|by eapply holds_assign].
  - wp_call str_chomp_ok. intros r w' (-> & ? & S). split; [done|by eapply holds_assign].
  - wp_call str_to_upper_ok. intros r w' (-> & ? & S). split; [done|by eapply holds_assign].
  - wp_call str_translate_ok. intros r w' (-> & ? & S). split; [done|by eapply holds_assign].
  - wp_call str_escape_ok; [lia|]. intros r w' ((-> & ?) & S). split; [done|by eapply holds_assign].
  - wp_call str_sprintf_ok; [lia|by intros; apply wp_ret|]. intros r w' (-> & ? & S).
    split; [done|by eapply holds_assign].
Qed.

Lemma scalls_simulate cs w m E :
  holds w m → all_sadmissible cs m →
  wp (scalls cs) (λ rs w', rs = fst (env_run cs m) ∧ holds w' (snd (env_run cs m))) E w.
Proof.
  revert w m. induction cs as [|c cs IH]; intros w m H; simpl.
  { intros _. by apply wp_ret. }
  intros [Hc Hcs]. apply wp_bind. eapply wp_conseq; [by eapply scall_simulates|].
  intros r w1 [-> H1]. apply wp_bind. eapply wp_conseq; [by eapply IH|].
  intros rs w2 [-> H2]. apply wp_ret.
  destruct (env_step c m) as [r m']. simpl in *. by destruct (env_run cs m').
Qed.
