(* ===== verification/StringOom.v ===== *)
(** Strings when the allocator fails: the operations that keep every string
    well formed whichever calls of the allocator fail, and what they leave. *)

From S2P Require Import Prelude Types Machine Wp StringOps StringFacts StringMore StringRefine.

Open Scope Z_scope.

(** * The allocator of a run *)

(** The same memory with another allocator. *)
Definition with_oom (f : nat → bool) (w : world) : world :=
  mk_world (blocks w) (strs w) (ents w) (lists w) (hashes w) (files w) (next_loc w) (allocs w) f (sys w) (net w).

Definition res_map {A} (g : world → world) (r : res A) : res A :=
  match r with Ok a w => Ok a (g w) | Exit x w => Exit x (g w) | Crash e => Crash e | NoFuel => NoFuel end.

(** From [w] the computation does the same with the allocator [f]. *)
Definition same_at {A} (f : nat → bool) (c : M A) (w : world) : Prop :=
  c (with_oom f w) = res_map (with_oom f) (c w).

Definition kept_allocs (w : world) {A} (r : res A) : Prop :=
  match r with Ok _ w' | Exit _ w' => allocs w' = allocs w ∧ oom w' = oom w | _ => True end.

(** A computation that does not call the allocator. *)
Definition calm {A} (c : M A) : Prop := ∀ f w, same_at f c w ∧ kept_allocs w (c w).

Create HintDb calm.

Lemma calm_same {A} f (c : M A) w : calm c → same_at f c w.
Proof. intros H. apply H. Qed.

Lemma same_bind {A B} f (c : M A) (k : A → M B) w :
  same_at f c w → (∀ a w', c w = Ok a w' → same_at f (k a) w') → same_at f (c ≫= k) w.
Proof. unfold same_at, mbind, M_bind. intros ->. destruct (c w); simpl; auto. Qed.

Lemma same_func f m w : same_at f m w → same_at f (func m) w.
Proof. unfold same_at, func. intros ->. by destruct (m w) as [?|[] ?| |]. Qed.

Lemma same_body f b w : same_at f b w → same_at f (body b) w.
Proof. unfold same_at, body, labels. intros ->. by destruct (b w) as [?|[] ?| |]. Qed.

Lemma same_try f c w : same_at f c w → same_at f (try_ c) w.
Proof. intros H. apply same_bind; [done|]. intros r w' _. by destruct (r =? 0). Qed.

Lemma calm_bind {A B} (c : M A) (k : A → M B) : calm c → (∀ a, calm (k a)) → calm (c ≫= k).
Proof.
  intros Hc Hk f w. destruct (Hc f w) as [Hs Ha]. split; [by apply same_bind; [|intros; apply Hk]|].
  unfold mbind, M_bind in *. destruct (c w) as [a w1| | |]; try done. destruct (Hk a f w1) as [_ Ha'].
  unfold kept_allocs in *. destruct Ha as [<- <-]; by destruct (k a w1).
Qed.

Lemma calm_func m : calm m → calm (func m).
Proof.
  intros H f w. destruct (H f w) as [Hs Ha]. split; [by apply same_func|].
  unfold kept_allocs, func in *. by destruct (m w) as [?|[] ?| |].
Qed.

Lemma calm_body b : calm b → calm (body b).
Proof.
  intros H f w. destruct (H f w) as [Hs Ha]. split; [by apply same_body|].
  unfold kept_allocs, body, labels in *. by destruct (b w) as [?|[] ?| |].
Qed.

Lemma calm_ret {A} (a : A) : calm (mret a).
Proof. done. Qed.
Lemma calm_leave {A} x : calm (@leave A x).
Proof. done. Qed.
Lemma calm_crash {A} e : calm (@crash_with A e).
Proof. done. Qed.
Lemma calm_get_str p : calm (get_str p).
Proof. intros f w. unfold same_at, kept_allocs, get_str, deref_obj. destruct p as [l|]; [|done]. by simpl; destruct (strs w !! l). Qed.
Lemma calm_mod_str p g : calm (mod_str p g).
Proof. intros f w. unfold same_at, kept_allocs, mod_str, set_obj. destruct p as [l|]; [|done]. by simpl; destruct (strs w !! l). Qed.
Lemma calm_cells c : calm (cells c).
Proof. intros f w. unfold same_at, kept_allocs, cells. destruct c as [b o|s o]; simpl; by repeat case_match. Qed.
Lemma calm_c_str c : calm (c_str c).
Proof.
  intros f w. unfold same_at, kept_allocs, c_str. destruct c as [c|]; [|done].
  change (cstr_at (with_oom f w) c) with (cstr_at w c). by destruct (cstr_at w c).
Qed.
Lemma calm_store c i new : calm (store c i new).
Proof. intros f w. unfold same_at, kept_allocs, store. destruct c as [[b o|]|]; simpl; try done. by repeat case_match. Qed.
Lemma calm_non_null {A} (c : option A) : calm (non_null c).
Proof. by destruct c. Qed.
Lemma calm_try c : calm c → calm (try_ c).
Proof. intros H. apply calm_bind; [done|]. intros r. by destruct (r =? 0). Qed.
Lemma calm_loop {A B} n (g : A → M (A + B)) a : (∀ a, calm (g a)) → calm (loop n g a).
Proof.
  intros Hg. revert a. induction n as [|n IH]; intros a; [done|]. cbn [loop]. apply calm_bind; [done|].
  intros [a'|b]; [apply IH|apply calm_ret].
Qed.

#[export] Hint Resolve calm_ret calm_leave calm_crash calm_get_str calm_mod_str calm_cells calm_c_str calm_store
  calm_non_null : calm.

Ltac calm_step :=
  match goal with
  | |- ∀ _, _ => intros
  | |- calm _ => solve [eauto 3 with calm]
  | |- calm (mbind _ _) => apply calm_bind
  | |- calm (func _) => apply calm_func
  | |- calm (body _) => apply calm_body
  | |- calm (try_ _) => apply calm_try
  | |- calm (loop _ _ _) => apply calm_loop
  | |- calm (match ?x with _ => _ end) => destruct x
  | |- calm (when _ _) => unfold when
  | |- calm (require _) => unfold require
  end.
Ltac calm_go := repeat calm_step.

Lemma calm_read_cells c n : calm (read_cells c n).
Proof. unfold read_cells. calm_go. Qed.
Lemma calm_load c i : calm (load c i).
Proof. unfold load. calm_go. Qed.
Lemma calm_strlen c : calm (strlen c).
Proof. unfold strlen. calm_go. Qed.
#[export] Hint Resolve calm_read_cells calm_load calm_strlen : calm.

Lemma calm_truncate p : calm (str_truncate p).
Proof. unfold str_truncate, memset1. calm_go. Qed.
Lemma calm_set_len p n : calm (str_set_len p n).
Proof. unfold str_set_len, memset1. calm_go. Qed.
Lemma calm_truncate_at p n : calm (str_truncate_at p n).
Proof. unfold str_truncate_at, memset1. calm_go. Qed.
Lemma calm_chomp p : calm (str_chomp p).
Proof. unfold str_chomp, str_get_terminator, memset1. calm_go. Qed.
Lemma calm_to_upper p : calm (str_to_upper p).
Proof. unfold str_to_upper, memset1. calm_go. Qed.
Lemma calm_translate p old new : calm (str_translate p old new).
Proof. unfold str_translate, memset1. calm_go. Qed.
Lemma calm_cbuf_len c : calm (cbuf_len c).
Proof. unfold cbuf_len. calm_go. Qed.
#[export] Hint Resolve calm_truncate calm_set_len calm_cbuf_len : calm.

(** * From a reliable allocator to any *)

Definition reliable (w : world) : world := with_oom (λ _, false) w.

(** What [sstep] says without the promise about the allocator. *)
Definition wstep (X : gset loc) (w w' : world) : Prop := wf w' ∧ frame X w w' ∧ same_rest w w'.

Lemma wf_with_oom f w : wf (with_oom f w) ↔ wf w.
Proof. by split; intros []; split. Qed.

Lemma reliable_ready w : wf w → ready (reliable w).
Proof. intros H. split; [by apply wf_with_oom|done]. Qed.

Lemma wstep_reliable X w w' : sstep X (reliable w) (reliable w') → wstep X w w'.
Proof.
  intros ([Hwf%wf_with_oom _] & [] & []). split; [done|]. by split; split.
Qed.

Lemma wstep_failed X w : wf w → wstep X w (upd_allocs S w).
Proof.
  intros []. split; [by split|]. split; [split|by split]; try done. intros q b H. by left.
Qed.

Lemma wstep_rep X w w' p bs : wf w → wstep X w w' → p ∉ X → str_rep w p bs → str_rep w' p bs.
Proof. intros ? (_ & F & _). by apply str_rep_frame. Qed.

Lemma wp_reliable {A} (c : M A) (Q : A → world → Prop) E w :
  same_at (λ _, false) c w → wp c Q no_exit (reliable w) → wp c (λ a w', Q a (reliable w')) E w.
Proof. unfold same_at, wp. fold (reliable w). intros ->. by destruct (c w). Qed.

(** * The operations that allocate *)

Definition fails (w : world) : Prop := oom w (allocs w) = true.
Definition told (f : nat → bool) (w : world) : Prop := f (allocs w) = oom w (allocs w).

Lemma same_malloc f n w : told f w → same_at f (malloc n) w.
Proof.
  intros H. unfold same_at, malloc, allocator, mbind, M_bind. cbn -[replicate]. rewrite H.
  by destruct (oom w (allocs w)).
Qed.

Lemma same_realloc f c n w : told f w → same_at f (realloc c n) w.
Proof.
  intros H. unfold realloc. destruct c as [c|]; [|by apply same_malloc].
  apply same_bind; [apply calm_cells|]. intros old w' Hw.
  assert (w' = w) as -> by (revert Hw; unfold cells; destruct (cells_at w c); congruence).
  apply same_bind; [by apply same_malloc|]. intros [v|] w1 _; [|done].
  apply same_bind; [|intros; by apply calm_bind; [apply calm_store|]].
  unfold same_at, free. destruct c as [b o|]; simpl; [|done]. by repeat case_match.
Qed.

Section one.
Context (w : world) (p b : loc) (cs : list cell) (L n : Z).
Context (Hc : str_cells w p b cs L) (Hn : 0 < n ≤ STRING_MAX).

Lemma resize_same f :
  (Z.of_nat (length cs) < n → told f w) → same_at f (str_resize (Some p) n) w.
Proof.
  intros H. apply same_func, same_body. destruct Hc as [Hs Hb].
  rewrite (proj2 (Z.eqb_neq _ _)), (proj2 (Z.ltb_ge STRING_MAX _)) by lia.
  apply same_bind; [done|]. intros [] w1 [= ->]. apply same_bind; [done|]. intros [] w2 [= ->].
  apply same_bind; [apply calm_get_str|]. intros s w3. unfold get_str, deref_obj. rewrite Hs.
  intros [= <- <-]. cbn [str_size str_value]. destruct (Z.ltb_spec (Z.of_nat (length cs)) n); [|done].
  apply same_bind; [by apply same_realloc, H|]. intros c w4 _.
  apply calm_bind; [calm_go|]. unfold memset1. calm_go.
Qed.

Lemma resize_fails :
  fails w → Z.of_nat (length cs) < n → str_resize (Some p) n w = Ok (-1) (upd_allocs S w).
Proof.
  intros Hf Hlt. destruct Hc as [Hs Hb]. unfold str_resize, func, body, labels.
  rewrite (proj2 (Z.eqb_neq _ _)), (proj2 (Z.ltb_ge STRING_MAX _)) by lia.
  unfold mbind at 1, M_bind at 1, when at 1, mret at 1, M_ret at 1.
  unfold mbind at 1, M_bind at 1, when at 1, mret at 1, M_ret at 1.
  unfold mbind at 1, M_bind at 1, get_str, deref_obj. rewrite Hs. cbn [str_size str_value].
  rewrite (proj2 (Z.ltb_lt _ _)) by done. unfold when at 1, mbind at 1, M_bind at 1, realloc, mbind at 1, M_bind at 1.
  unfold cells, cells_at. rewrite Hb. cbn -[replicate]. unfold mbind, M_bind, malloc, allocator, mbind, M_bind.
  cbn. unfold fails in Hf. by rewrite Hf.
Qed.
End one.

Lemma when_ok (b : bool) x w w' : when b (leave x) w = Ok tt w' → b = false ∧ w' = w.
Proof. destruct b; [done|]. by intros [= ->]. Qed.

Lemma get_str_ok w p s a w' : strs w !! p = Some s → get_str (Some p) w = Ok a w' → a = s ∧ w' = w.
Proof. unfold get_str, deref_obj. intros -> [= <- <-]. done. Qed.

Lemma strlen_run w c s l w' : cstr_at w c = Some s → strlen (Some c) w = Ok l w' → l = Z.of_nat (length s) ∧ w' = w.
Proof. unfold strlen, mbind, M_bind, c_str. intros -> [= <- <-]. done. Qed.

(** What is left of [r] and [t] when an operation may have run out of memory. *)
Definition or_failed (p : loc) (t u : bytes) (w : world) (r : Z) (w' : world) : Prop :=
  wstep {[p]} w w' ∧ (r = 0 ∧ str_rep w' p t ∨ r = -1 ∧ str_rep w' p u).

Section cat.
Context (w : world) (p b : loc) (bs s : bytes) (junk : list cell) (c : cptr).
Context (Hc : str_cells w p b (cells_of bs ++ junk) (Z.of_nat (length bs))) (Hs : cstr_at w c = Some s).
Context (Hlen : Z.of_nat (length bs + length s) < STRING_MAX).
Let room : Z := Z.of_nat (length bs) + Z.of_nat (length s) + 1.

Lemma cat_same f :
  (s ≠ [] → Z.of_nat (length (cells_of bs ++ junk)) < room → told f w) → same_at f (str_cat (Some p) (Some c)) w.
Proof.
  intros H. unfold STRING_MAX in *. apply same_func, same_body, same_bind; [apply calm_strlen|].
  intros l w1 [-> ->]%(strlen_run _ _ _ _ _ Hs).
  apply same_bind; [by destruct s|]. intros [] w1 [H0 ->]%when_ok. apply Z.eqb_neq in H0.
  apply same_bind; [unfold when; by case_match|]. intros [] w2 [_ ->]%when_ok.
  apply same_bind; [apply calm_get_str|]. intros d w3 [-> ->]%(get_str_ok _ _ _ _ _ (proj1 Hc)).
  cbn [str_len str_size]. rewrite size_t_small by lia. fold room.
  apply same_bind; [unfold when; by case_match|]. intros [] w4 [_ ->]%when_ok.
  apply same_bind.
  - destruct (Z.ltb_spec (Z.of_nat (length (cells_of bs ++ junk))) room) as [Hlt|]; [|done].
    apply same_try. eapply resize_same; [done|unfold room, STRING_MAX; lia|]. intros _. apply H; [by destruct s|done].
  - intros [] w5 _. unfold memset1. apply calm_same. calm_go.
Qed.

Lemma cat_fails :
  fails w → s ≠ [] → Z.of_nat (length (cells_of bs ++ junk)) < room →
  str_cat (Some p) (Some c) w = Ok (-1) (upd_allocs S w).
Proof.
  intros Hf Hne Hlt. unfold STRING_MAX in *.
  assert (wp (str_cat (Some p) (Some c)) (λ r w', r = -1 ∧ w' = upd_allocs S w) no_exit w) as Hw.
  { apply wp_func_body. wp_next. eapply wp_strlen; [done|]. wp_next.
    apply wp_when; [intros H%Z.eqb_eq; destruct s; [done|simpl in H; lia]|intros _].
    wp_next. apply wp_when; [unfold STRING_MAX; lia|intros _]. wp_next. eapply wp_get_str; [done|].
    cbn [str_len str_size]. rewrite size_t_small by lia. fold room.
    wp_next. apply wp_when; [unfold room; lia|intros _]. wp_next.
    rewrite (proj2 (Z.ltb_lt _ _)) by done. apply wp_try. unfold wp.
    rewrite (resize_fails w p b _ _ room Hc); [done|unfold room, STRING_MAX; lia|done|done]. }
  apply wp_ok in Hw as (r & w' & Hrun & -> & ->). done.
Qed.
End cat.

Lemma told_lucky w : ¬ fails w → told (λ _, false) w.
Proof. unfold fails, told. by destruct (oom w (allocs w)). Qed.

#[export] Instance fails_dec w : Decision (fails w).
Proof. unfold fails. apply _. Defined.

Lemma str_cat_any w p bs c s E :
  wf w → str_rep w p bs → cstr_at w c = Some s → not_in w {[p]} c → Z.of_nat (length bs + length s) < STRING_MAX →
  wp (str_cat (Some p) (Some c)) (or_failed p (bs ++ s) bs w) E w.
Proof.
  intros Hr Hp Hs Hnot Hlen. pose proof Hp as (b & junk & Hc & Hn & Hl).
  destruct (decide (fails w ∧ s ≠ [] ∧
    Z.of_nat (length (cells_of bs ++ junk)) < Z.of_nat (length bs) + Z.of_nat (length s) + 1)) as [(H1 & H2 & H3)|Hno].
  - unfold wp. erewrite cat_fails; [|done..]. split; [by apply wstep_failed|]. by right.
  - eapply wp_conseq.
    + apply wp_reliable; [eapply cat_same; [done..|]; intros; apply told_lucky; naive_solver|].
      by apply (str_cat_ok (reliable w) p bs c s); [by apply reliable_ready|..].
    + intros r w' (-> & Hp' & S). split; [by apply wstep_reliable|]. by left.
Qed.

Lemma str_putc_any w p bs c E :
  wf w → str_rep w p bs → Z.of_nat (S (length bs)) < STRING_MAX →
  wp (str_putc (Some p) c)
    (or_failed p (bs ++ if decide (char_of_int c = NUL) then [] else [char_of_int c]) bs w) E w.
Proof.
  intros Hr Hp Hl. apply wp_func_body, wp_try.
  eapply wp_conseq; [eapply (str_cat_any w p bs _ _ _ Hr Hp (cstr_at_char w _)); [done|]|].
  { case_decide; simpl; lia. }
  intros r w' (S & [[-> H]|[-> H]]); (split; [done|]); [by left|by right].
Qed.

Lemma str_append_any w p q bs s E :
  wf w → str_rep w p bs → str_rep w q s → p ≠ q → Z.of_nat (length bs + length s) < STRING_MAX →
  wp (str_append (Some p) (Some q)) (or_failed p (bs ++ s) bs w) E w.
Proof.
  intros Hr Hp Hq Hne Hl. apply wp_func_body. wp_next. apply wp_when; [rewrite bool_decide_eq_true; congruence|intros _].
  destruct (str_rep_get _ _ _ Hq) as (b & sz & Hs & Hc & _). wp_next. eapply wp_deref; [done|]. apply wp_try.
  eapply wp_conseq; [eapply (str_cat_any w p bs); eauto|].
  - eapply str_rep_not_in; [done|done| |done]. by apply not_elem_of_singleton_2.
  - intros r w' (S & [[-> H]|[-> H]]); (split; [done|]); [by left|by right].
Qed.

(** A string is emptied before its buffer is extended. *)
Section ncpy.
Context (w : world) (p b : loc) (bs s : bytes) (junk : list cell) (c : cptr) (n : Z).
Context (Hr : wf w) (Hc : str_cells w p b (cells_of bs ++ junk) (Z.of_nat (length bs))).
Context (Hs : cstr_at w c = Some s) (Hnot : not_in w {[p]} c) (Hn : 0 ≤ n ≤ Z.of_nat (length s)) (Hm : n < STRING_MAX).

Lemma truncate_any E :
  wp (str_truncate (Some p)) (λ r w', r = 0 ∧ wstep {[p]} w w' ∧ allocs w' = allocs w ∧ oom w' = oom w ∧
    ∃ cs, str_cells w' p b (Some NUL :: cs) 0 ∧ length (Some NUL :: cs) = length (cells_of bs ++ junk)) E w.
Proof.
  destruct (cells_of bs ++ junk) as [|x cs] eqn:Hcs.
  { apply (f_equal length) in Hcs. rewrite length_app, length_cells_of in Hcs. done. }
  pose proof (proj2 (calm_truncate (Some p) (λ _, false) w)) as Hk. unfold kept_allocs in Hk.
  assert (wp (str_truncate (Some p)) (λ r w', (r = 0 ∧ str_cells (reliable w') p b (Some NUL :: cs) 0 ∧
    sstep {[p]} (reliable w) (reliable w'))) E w) as Hw.
  { apply (wp_reliable _ (λ r v, r = 0 ∧ str_cells v p b (Some NUL :: cs) 0 ∧ sstep {[p]} (reliable w) v));
      [apply calm_same, calm_truncate|].
    apply (str_truncate_cells (reliable w) p b x cs (Z.of_nat (length bs))); [by apply reliable_ready|done]. }
  unfold wp in *. destruct (str_truncate (Some p) w); try done. destruct Hw as (-> & Hc' & S), Hk.
  split_and!; try done; [by apply wstep_reliable|]. by exists cs.
Qed.

Lemma ncpy_same f :
  (n ≠ 0 → Z.of_nat (length (cells_of bs ++ junk)) < n + 1 → told f w) → same_at f (str_ncpy (Some p) (Some c) n) w.
Proof.
  intros H. apply same_func, same_body, same_bind; [apply calm_get_str|].
  intros d w1 [-> ->]%(get_str_ok _ _ _ _ _ (proj1 Hc)).
  apply same_bind; [unfold when; by case_match|]. intros [] w2 [_ ->]%when_ok.
  apply same_bind; [unfold when; by case_match|]. intros [] w3 [_ ->]%when_ok.
  destruct (Z.eqb_spec n 0) as [->|Hne].
  { apply same_bind; [apply calm_same; calm_go|]. intros [] w4. unfold when, mbind, M_bind.
    by destruct (str_truncate (Some p) w). }
  apply same_bind; [done|]. intros [] w4 [_ ->]%(when_ok false Catch).
  apply same_bind; [apply calm_same; calm_go|]. intros [] w5 Ht.
  pose proof (truncate_any no_exit) as Hw. apply wp_ok in Hw as (r & w' & Hrun & -> & S & Ha & Ho & cs & Hc' & Hl).
  unfold try_, mbind, M_bind in Ht. rewrite Hrun in Ht. simpl in Ht. injection Ht as <-.
  apply same_bind; [|intros [] w6 _; unfold memset1; apply calm_same; calm_go].
  apply same_try. eapply resize_same; [done|lia|]. intros Hlt. unfold told. rewrite Ha, Ho. apply H; [done|].
  by rewrite <- Hl.
Qed.
End ncpy.

Lemma str_ncpy_any w p bs c s n E :
  wf w → str_rep w p bs → cstr_at w c = Some s → not_in w {[p]} c → 0 ≤ n ≤ Z.of_nat (length s) → n < STRING_MAX →
  wp (str_ncpy (Some p) (Some c) n) (or_failed p (take (Z.to_nat n) s) [] w) E w.
Proof.
  intros Hr Hp Hs Hnot Hn Hm. pose proof Hp as (b & junk & Hc & Hbs & Hl).
  destruct (decide (fails w ∧ n ≠ 0 ∧ Z.of_nat (length (cells_of bs ++ junk)) < n + 1)) as [(H1 & H2 & H3)|Hno].
  - apply wp_func_body. wp_next. eapply wp_get_str; [done|]. wp_next.
    apply wp_when; [rewrite bool_decide_eq_true; intros H; exfalso; eapply not_in_neq; eauto using str_cells_owns|intros _].
    wp_next. apply wp_when; [lia|intros _]. wp_next. apply wp_when; [intros ?%Z.eqb_eq; lia|intros _].
    wp_next. apply wp_try. eapply wp_conseq; [by eapply truncate_any|].
    intros r w1 (-> & S & Ha & Ho & cs & Hc' & Hlc). cbn [Z.eqb]. wp_next. apply wp_try. unfold wp at 1.
    rewrite (resize_fails w1 p b (Some NUL :: cs) 0 (n + 1)); [|done|lia|by unfold fails; rewrite Ha, Ho|by rewrite Hlc].
    cbn [Z.eqb Pos.eqb]. split.
    + destruct S as (Wf & F & R). destruct (wstep_failed {[p]} w1 Wf) as (Wf' & F' & R').
      split; [done|]. split; [by eapply frame_trans|by etrans].
    + right. split; [done|]. exists b, cs. split; [exact Hc'|]. split; [constructor|done].
  - eapply wp_conseq.
    + apply wp_reliable; [eapply ncpy_same; [done..|]; intros; apply told_lucky; naive_solver|].
      by apply (str_ncpy_ok (reliable w) p bs c s n); [by apply reliable_ready|..].
    + intros r w' (-> & Hp' & S). split; [by apply wstep_reliable|]. by left.
Qed.

Lemma str_cpy_any w p bs c s E :
  wf w → str_rep w p bs → cstr_at w c = Some s → not_in w {[p]} c → Z.of_nat (length s) < STRING_MAX →
  wp (str_cpy (Some p) (Some c)) (or_failed p s [] w) E w.
Proof.
  intros Hr Hrep Hs Hnot Hm. pose proof Hrep as (b & junk & Hc & Hbs & Hl).
  apply wp_func_body. wp_next. eapply wp_get_str; [done|]. wp_next. apply wp_require.
  { apply bool_decide_eq_true. eapply not_in_neq; eauto using str_cells_owns. }
  wp_next. wp_next. wp_call cbuf_len_ok. intros [r n] w1 (-> & -> & ->). cbn [Z.eqb].
  apply wp_ret. apply wp_try. eapply wp_conseq; [eapply str_ncpy_any; eauto; lia|].
  rewrite Nat2Z.id, take_ge by lia.
  intros r w' (S & [[-> H]|[-> H]]); (split; [done|]); [by left|by right].
Qed.

(** An operation that does not allocate is not affected. *)
Lemma calm_any c w (Q : Z → world → Prop) E :
  calm c → wp c Q no_exit (reliable w) → wp c (λ r w', Q r (reliable w')) E w.
Proof. intros Hc. apply wp_reliable, calm_same, Hc. Qed.

(** * Programs *)

(** The calls whose targets stay strings: not [str_copy] and the functions that
    use it, which drop the buffer before they ask for a new one, nor
    [str_sprintf], whose target then has no buffer. *)
Definition sturdy (c : sop) : bool :=
  match c with
  | SCpy _ _ | SNcpy _ _ _ | SCat _ _ | SPutc _ _ | SAppend _ _ | STruncate _ | STruncateAt _ _
  | SChomp _ | SUpper _ | STranslate _ _ _ => true
  | SCopy _ _ | SMove _ _ | SPrepend _ _ | SEscape _ _ | SFormat _ _ => false
  end.

(** What a call may do: what it is for, or fail; a copy that fails has emptied
    its target, an append has not touched it. *)
Definition outcomes (c : sop) (m : env) : list (Z * env) :=
  env_step c m ::
  match c with
  | SCpy p _ | SNcpy p _ _ => [(-1, <[p := []]> m)]
  | SCat _ _ | SPutc _ _ | SAppend _ _ => [(-1, m)]
  | _ => []
  end.

Fixpoint env_runs (cs : list sop) (m : env) : list (list Z * env) :=
  match cs with
  | [] => [([], m)]
  | c :: cs => '(r, m') ← outcomes c m; '(rs, m'') ← env_runs cs m'; [(r :: rs, m'')]
  end.

Fixpoint all_sturdy (cs : list sop) (m : env) : Prop :=
  match cs with
  | [] => True
  | c :: cs => sturdy c ∧ sadmissible c m ∧ Forall (λ o, all_sturdy cs (snd o)) (outcomes c m)
  end.

#[export] Instance all_sturdy_dec cs m : Decision (all_sturdy cs m).
Proof. revert m. induction cs; intros m; simpl; apply _. Defined.

(** The memory holds the texts of [m], whatever the allocator does. *)
Definition typed (w : world) (m : env) : Prop := wf w ∧ ∀ q t, m !! q = Some t → str_rep w q t.

Lemma typed_holds w m : typed w m → holds (reliable w) m.
Proof. intros [Hw H]. split; [by apply reliable_ready|exact H]. Qed.

Lemma holds_typed w m : holds (reliable w) m → typed w m.
Proof. intros [[Hw%wf_with_oom _] H]. by split. Qed.

Lemma typed_assign w w' m p t : typed w m → wstep {[p]} w w' → str_rep w' p t → typed w' (<[p := t]> m).
Proof.
  intros [Hw H] S Ht. split; [apply S|]. intros q u. rewrite lookup_insert_Some. intros [[<- <-]|[Hne Hq]]; [done|].
  eapply wstep_rep; [done|done|by apply not_elem_of_singleton_2|by apply H].
Qed.

Lemma or_failed_assign w m p t u r w' :
  typed w m → or_failed p t u w r w' →
  r = 0 ∧ typed w' (<[p := t]> m) ∨ r = -1 ∧ typed w' (<[p := u]> m).
Proof. intros H (S & [[-> Ht]|[-> Ht]]); [left|right]; (split; [done|]); by eapply typed_assign. Qed.

Lemma insert_text m p : has m p → <[p := text m p]> m = m.
Proof. intros [t Ht]. unfold text. rewrite Ht. by apply insert_id. Qed.

Lemma calm_survives c w m E :
  typed w m → calm (scall c) → sadmissible c m →
  wp (scall c) (λ r w', ∃ m', (r, m') ∈ outcomes c m ∧ typed w' m') E w.
Proof.
  intros H Hc Ha. eapply wp_conseq; [apply calm_any; [done|apply (scall_simulates c _ m); [by apply typed_holds|done]]|].
  intros r w' [-> Hw]. exists (snd (env_step c m)). split; [|by apply holds_typed].
  unfold outcomes. destruct (env_step c m). by left.
Qed.

Lemma scall_survives c w m E :
  typed w m → sturdy c → sadmissible c m →
  wp (scall c) (λ r w', ∃ m', (r, m') ∈ outcomes c m ∧ typed w' m') E w.
Proof.
  intros H Hst Ha. pose proof H as [Hw Hh]. assert (∀ q, has m q → str_rep w q (text m q)) as Hrep.
  { intros q [t Ht]. unfold text. rewrite Ht. by apply Hh. }
  assert (∀ p t u, has m p → wp (scall c) (or_failed p t u w) E w →
    (0, <[p := t]> m) ∈ outcomes c m → (-1, <[p := u]> m) ∈ outcomes c m →
    wp (scall c) (λ r w', ∃ m', (r, m') ∈ outcomes c m ∧ typed w' m') E w) as Hfin.
  { intros p t u Hp Hwp H1 H2. eapply wp_conseq; [exact Hwp|].
    intros r w' [[-> ?]|[-> ?]]%(or_failed_assign _ _ _ _ _ _ _ H); eauto. }
  destruct c; try done; simpl in Ha; unfold small in Ha; destruct_and?.
  - eapply (Hfin p); [done|eapply str_cpy_any; eauto; by apply cstr_at_lit|by left|right; by left].
  - eapply (Hfin p); [done|eapply str_ncpy_any; eauto; [by apply cstr_at_lit|lia]|by left|right; by left].
  - eapply (Hfin p); [done|eapply str_cat_any; eauto; by apply cstr_at_lit|by left|right]. rewrite insert_text by done. by left.
  - eapply (Hfin p); [done|eapply str_putc_any; eauto|by left|right]. rewrite insert_text by done. by left.
  - eapply (Hfin p); [done|by eapply str_append_any; eauto|by left|right]. rewrite insert_text by done. by left.
  - by apply calm_survives; [|apply calm_truncate|].
  - by apply calm_survives; [|apply calm_truncate_at|].
  - by apply calm_survives; [|apply calm_chomp|].
  - by apply calm_survives; [|apply calm_to_upper|].
  - by apply calm_survives; [|apply calm_translate|].
Qed.

Lemma scalls_survive cs w m E :
  typed w m → all_sturdy cs m →
  wp (scalls cs) (λ rs w', ∃ m', (rs, m') ∈ env_runs cs m ∧ typed w' m') E w.
Proof.
  revert w m. induction cs as [|c cs IH]; intros w m H; simpl.
  { intros _. apply wp_ret. exists m. split; [by left|done]. }
  intros (Hst & Hc & Hcs). apply wp_bind. eapply wp_conseq; [by eapply scall_survives|].
  intros r w1 (m1 & H1 & Hw1). rewrite Forall_forall in Hcs. apply wp_bind. eapply wp_conseq; [eapply IH; [done|apply (Hcs _ H1)]|].
  intros rs w2 (m2 & H2 & Hw2). apply wp_ret. exists m2. split; [|done].
  change ((r :: rs, m2) ∈ outcomes c m ≫= λ '(r, m'), env_runs cs m' ≫= λ '(rs, m''), [(r :: rs, m'')]).
  apply list_elem_of_bind. exists (r, m1). split; [|done]. apply list_elem_of_bind. exists (rs, m2). split; [by left|done].
Qed.
