(* ===== verification/Samples.v ===== *)
(** A concrete memory for examples: three strings, a list of two texts, a list
    of three, and an empty list; with a checker that decides well-formedness. *)

From S2P Require Import Prelude Types Machine Wp StringOps StringFacts ListOps HashOps ListRep.
From S2P Require Import ListRefine HashRep HashFacts HashRefine.

Open Scope Z_scope.

(** * Deciding well-formedness *)

Definition keys_below {A} (n : loc) (m : gmap loc A) : bool :=
  forallb (λ kv, (fst kv <? n)%positive) (map_to_list m).

Definition owner_of (ps : loc * string_t) : option (loc * loc) :=
  let '(p, s) := ps in
  match str_owner s, str_value s with true, Some (CBlk b _) => Some (p, b) | _, _ => None end.

Definition owners (w : world) : list (loc * loc) := omap owner_of (map_to_list (strs w)).

Definition wf_check (w : world) : bool :=
  keys_below (next_loc w) (strs w) && keys_below (next_loc w) (blocks w) &&
  keys_below (next_loc w) (ents w) && keys_below (next_loc w) (lists w) &&
  keys_below (next_loc w) (hashes w) &&
  bool_decide (NoDup (snd <$> owners w)) &&
  forallb (λ pb, (snd pb <? next_loc w)%positive) (owners w).

Lemma keys_below_spec {A} n (m : gmap loc A) l :
  keys_below n m = true → (n ≤ l)%positive → m !! l = None.
Proof.
  unfold keys_below. rewrite forallb_forall. intros H Hl.
  destruct (m !! l) as [a|] eqn:Ha; [|done].
  apply elem_of_map_to_list, list_elem_of_In, H in Ha. apply Pos.ltb_lt in Ha. simpl in Ha. lia.
Qed.

Lemma owners_spec w p b : owns w p b → (p, b) ∈ owners w.
Proof.
  intros (s & o & Hs & Ho & Hv). apply list_elem_of_omap. exists (p, s).
  split; [by apply elem_of_map_to_list|]. simpl. by rewrite Ho, Hv.
Qed.

Lemma nodup_snd_inj (l : list (loc * loc)) p1 p2 b :
  NoDup (snd <$> l) → (p1, b) ∈ l → (p2, b) ∈ l → p1 = p2.
Proof.
  induction l as [|[p c] l IH]; intros Hnd H1 H2; [by apply not_elem_of_nil in H1|].
  cbn in Hnd. apply NoDup_cons in Hnd as [Hc Hnd].
  assert (∀ q, (q, c) ∈ l → False) as Hno.
  { intros q Hq. apply Hc, list_elem_of_fmap. by exists (q, c). }
  apply elem_of_cons in H1 as [He1|H1], H2 as [He2|H2]; simplify_eq; try done.
  - by apply Hno in H2.
  - by apply Hno in H1.
  - by apply IH.
Qed.

Lemma wf_check_sound w : wf_check w = true → wf w.
Proof.
  unfold wf_check. rewrite !andb_true_iff, bool_decide_eq_true, forallb_forall.
  intros [[[[[[H1 H2] H3] H4] H5] H6] H7]. split; intros; try by eapply keys_below_spec.
  - eapply nodup_snd_inj; [exact H6|by apply owners_spec|by apply owners_spec].
  - match goal with H : owns _ _ _ |- _ => apply owners_spec, list_elem_of_In, H7 in H end.
    by apply Pos.ltb_lt.
Qed.

(** * The memory *)

(** Add a string at [p], with its text in the block [b]. *)
Definition put_str (p b : loc) (t : bytes) (w : world) : world :=
  upd_strs <[p := mk_string_t (Some (CBlk b 0)) (Z.of_nat (length t) + 1) (Z.of_nat (length t)) true]>
    (upd_blocks <[b := Block (cells_of t) true]> w).

(** Add a list at [l] with the entries [es]. *)
Fixpoint put_ents (p : ptr) (es : entries) (w : world) : world :=
  match es with
  | [] => w
  | (n, s) :: r =>
      upd_ents <[n := mk_list_entry_t (Some s) (hd_ptr r None) p]> (put_ents (Some n) r w)
  end.

Definition put_list (l : loc) (es : entries) (w : world) : world :=
  upd_lists <[l := mk_list_t (Z.of_nat (length es)) (hd_ptr es None) (last_ptr es None)]>
    (put_ents None es w).

(** Strings 1 ("foo"), 3 ("a;b"), 5 ("%"); the list 7 of "x" and "y z"; the
    list 8 of "c", "a", "b"; the empty list 9. *)
Definition ents7 : entries := [(10, 11); (12, 13)]%positive.
Definition ents8 : entries := [(20, 21); (22, 23); (24, 25)]%positive.

Definition sample : world :=
  put_str 1 2 (B "foo") $ put_str 3 4 (B "a;b") $ put_str 5 6 (B "%") $
  put_str 11 14 (B "x") $ put_str 13 15 (B "y z") $
  put_str 21 31 (B "c") $ put_str 23 32 (B "a") $ put_str 25 33 (B "b") $
  put_list 7 ents7 $ put_list 8 ents8 $ put_list 9 [] $ upd_next (λ _, 64%positive) empty_world.

Lemma sample_ready : ready sample.
Proof. split; [|done]. apply wf_check_sound. by vm_compute. Qed.

Lemma sample_str (p b : loc) (t : bytes) :
  strs sample !! p =
    Some (mk_string_t (Some (CBlk b 0)) (Z.of_nat (length t) + 1) (Z.of_nat (length t)) true) →
  blocks sample !! b = Some (Block (cells_of t) true) →
  nonul t → Z.of_nat (length t) ≤ STRING_MAX → str_rep sample p t.
Proof.
  intros Hs Hb Hn Hm. eapply (str_rep_of_cells _ _ b t []); [|done|done].
  rewrite app_nil_r. split; [|done]. rewrite Hs. do 2 f_equal.
  rewrite length_cells_of. lia.
Qed.

Ltac sample_text b := eapply (sample_str _ b); [done|done|by apply (bool_decide_unpack _)|done].

Lemma sample_1 : str_rep sample 1 (B "foo").
Proof. sample_text 2%positive. Qed.
Lemma sample_3 : str_rep sample 3 (B "a;b").
Proof. sample_text 4%positive. Qed.
Lemma sample_5 : str_rep sample 5 (B "%").
Proof. sample_text 6%positive. Qed.

Lemma sample_7 : list_rep true sample 7 ents7 [B "x"; B "y z"].
Proof.
  split; [done| |by apply (bool_decide_unpack _)|by apply (bool_decide_unpack _)| |done].
  - repeat (split; [by eexists|]). done.
  - repeat constructor; simpl; [sample_text 14%positive|sample_text 15%positive].
Qed.

Lemma sample_8 : list_rep true sample 8 ents8 [B "c"; B "a"; B "b"].
Proof.
  split; [done| |by apply (bool_decide_unpack _)|by apply (bool_decide_unpack _)| |done].
  - repeat (split; [by eexists|]). done.
  - repeat constructor; simpl;
      [sample_text 31%positive|sample_text 32%positive|sample_text 33%positive].
Qed.

Lemma sample_9 : list_rep true sample 9 [] [].
Proof. split; try done; constructor. Qed.

(** The same memory with another text in string 1. *)
Definition text_sample (t : bytes) : world := put_str 1 2 t sample.

Lemma text_sample_rep t :
  nonul t → Z.of_nat (length t) ≤ STRING_MAX → str_rep (text_sample t) 1 t.
Proof.
  intros Hn Hl. eapply (str_rep_of_cells _ 1 2 t []); [|done|done]. rewrite app_nil_r. split; [|done].
  replace (Z.of_nat (length (cells_of t))) with (Z.of_nat (length t) + 1)
    by (rewrite length_cells_of; lia). done.
Qed.

(** The client's view of the first list, and of an empty table at 40. *)
Definition sample_vars : gmap loc bytes := {[ 1%positive := B "foo"; 3%positive := B "a;b" ]}.

Lemma sample_vars_rep q t :
  sample_vars !! q = Some t → str_rep sample q t ∧ (q = 1 ∨ q = 3)%positive.
Proof.
  unfold sample_vars. rewrite lookup_insert_Some, lookup_singleton_Some.
  intros [[<- <-]|[_ [<- <-]]]; (split; [|auto]); [apply sample_1|apply sample_3].
Qed.

Lemma sample_implements : implements 7 sample (Model [B "x"; B "y z"] sample_vars).
Proof.
  split; [exact sample_ready|]. exists ents7. split; [exact sample_7|].
  intros q t [Ht Hq]%sample_vars_rep. split; [done|].
  destruct Hq as [-> | ->]; by apply (bool_decide_unpack _).
Qed.

Definition hsample : world := upd_hashes <[40%positive := mk_hash_t (replicate 256 None) 0]> sample.

Lemma hsample_implements : himplements 40 hsample (HModel ∅ sample_vars).
Proof.
  split; [split; [|done]; apply wf_check_sound; by vm_compute|].
  exists (replicate 256 None). split; [split; [done|apply table_rep_empty]|].
  intros q t Hq. split; [exact (proj1 (sample_vars_rep q t Hq))|].
  intros (i & o & Ho & Hin)%elem_of_all_of. apply lookup_replicate in Ho as [-> _]. done.
Qed.
