(* ===== verification/ListTheorems.v ===== *)
(** The properties of list.c, each with a witness on the memory of [Samples]. *)

From S2P Require Import Prelude Types Machine Wp StringOps StringFacts StringMore EscapeFacts.
From S2P Require Import ListOps ListRep ListFacts ListEdit ListSort ListText ListRefine.
From S2P Require Import Samples.

Open Scope Z_scope.

(** Two calls, one after the other. *)
Definition both (c d : M Z) : M (Z * Z) := x ← c; y ← d; mret (x, y).

Lemma wp_both c d Q E w :
  wp c (λ x w1, wp d (λ y w2, Q (x, y) w2) E w1) E w → wp (both c d) Q E w.
Proof.
  intros H. wp_next. eapply wp_conseq; [exact H|]. intros x w1 Hd. wp_next.
  eapply wp_conseq; [exact Hd|]. done.
Qed.

(** Small facts on sample data are decided by computation. *)
Ltac by_compute := first [done|by apply (bool_decide_unpack _)|by vm_compute].






(** C17: [list_move] makes the destination the list of the source's own entries, without copying, leaves the source a valid empty list, and touches no string but those the destination held before. *)
Theorem list_move_transfers w d es0 ss0 l es ss :
  ready w → list_rep true w d es0 ss0 → list_rep true w l es ss → d ≠ l →
  ent_locs es ## ent_locs es0 → str_locs es ## str_locs es0 →
  ∃ w', list_move (Some d) (Some l) w = Ok 0 w' ∧
    list_rep true w' d es ss ∧ list_rep true w' l [] [] ∧
    (∀ q t, q ∉ str_locs es0 → str_rep w q t → str_rep w' q t).
Proof.
  intros Hr Hd Hl Hne HN HX.
  destruct (wp_ok _ _ _ (list_move_ok true true w d es0 ss0 l es ss no_exit Hr Hd Hl Hne HN HX))
    as (r & w' & Hrun & -> & H1 & H2 & S). exists w'. split_and!; [done..|].
  intros q t Hq. by apply (lstep_rep _ _ _ _ _ _ _ Hr S).
Qed.

Lemma list_move_transfers_witness : ∃ w', list_move (Some 8%positive) (Some 7%positive) sample = Ok 0 w' ∧
  list_rep true w' 8 ents7 [B "x"; B "y z"] ∧ list_rep true w' 7 [] [] ∧
  (∀ q t, q ∉ str_locs ents8 → str_rep sample q t → str_rep w' q t).
Proof.
  apply (list_move_transfers sample 8 ents8 _ 7 ents7 _ sample_ready sample_8 sample_7); by_compute.
Defined.

(** C32: [list_merge] appends the entries of a non-empty source to the destination in order and empties the source; no text is copied or changed.  (The [prev] pointer of the first moved entry is not set, so the result is only known to be right in the forward direction.) *)
Theorem list_merge_appends w d es0 ss0 l es ss :
  ready w → list_rep true w d es0 ss0 → list_rep true w l es ss → d ≠ l → es ≠ [] →
  ent_locs es ## ent_locs es0 → str_locs es ## str_locs es0 →
  Z.of_nat (length es0 + length es) < 2 ^ 32 →
  ∃ w', list_merge (Some d) (Some l) w = Ok 0 w' ∧
    list_rep false w' d (es0 ++ es) (ss0 ++ ss) ∧ list_rep true w' l [] [] ∧
    (∀ q t, str_rep w q t → str_rep w' q t).
Proof.
  intros Hr Hd Hl Hne Hnil HN HX Hb.
  destruct (wp_ok _ _ _ (list_merge_ok w d es0 ss0 l es ss no_exit Hr (list_rep_weak _ _ _ _ _ Hd)
    (list_rep_weak _ _ _ _ _ Hl) Hne Hnil HN HX Hb)) as (r & w' & Hrun & -> & H1 & H2 & S).
  exists w'. split_and!; [done..|]. intros q t. apply (lstep_rep _ _ _ _ _ _ _ Hr S). set_solver.
Qed.

Lemma list_merge_appends_witness : ∃ w', list_merge (Some 8%positive) (Some 7%positive) sample = Ok 0 w' ∧
  list_rep false w' 8 (ents8 ++ ents7) [B "c"; B "a"; B "b"; B "x"; B "y z"] ∧
  list_rep true w' 7 [] [] ∧ (∀ q t, str_rep sample q t → str_rep w' q t).
Proof.
  apply (list_merge_appends sample 8 ents8 [B "c"; B "a"; B "b"] 7 ents7 [B "x"; B "y z"]
    sample_ready sample_8 sample_7); by_compute.
Defined.



(** [list_from_char] replaces the contents of a list by copies of its arguments, in order. *)
Lemma list_from_char_builds w l es ss ts :
  ready w → list_rep true w l es ss → Forall nonul ts →
  Forall (λ t : bytes, Z.of_nat (length t) < STRING_MAX) ts → Z.of_nat (length ts) < 2 ^ 32 →
  ∃ w' new, list_from_char (Some l) ((λ t, CLit t 0) <$> ts) w = Ok 0 w' ∧
    list_rep true w' l new ts ∧ (∀ q t, q ∉ str_locs es → str_rep w q t → str_rep w' q t).
Proof.
  intros Hr Hl Hn Hts Hmax.
  assert (Forall2 (readable w (str_locs es)) ((λ t, CLit t 0) <$> ts) ts) as Hargs
    by (clear Hts Hmax; induction Hn; constructor; [by apply readable_lit|done]).
  destruct (wp_ok _ _ _ (list_from_char_ok true w l es ss _ ts no_exit Hr Hl Hargs Hts Hmax))
    as (r & w' & Hrun & -> & (new & _ & Hnew) & S). exists w', new. split_and!; [done..|].
  intros q t Hq. by apply (lstep_rep _ _ _ _ _ _ _ Hr S).
Qed.

Lemma list_from_char_builds_witness : ∃ w' new,
  list_from_char (Some 8%positive) [CLit (B "p") 0; CLit [] 0; CLit (B "q") 0] sample = Ok 0 w' ∧
  list_rep true w' 8 new [B "p"; []; B "q"] ∧
  (∀ q t, q ∉ str_locs ents8 → str_rep sample q t → str_rep w' q t).
Proof.
  apply (list_from_char_builds sample 8 ents8 _ [B "p"; []; B "q"] sample_ready sample_8); by_compute.
Defined.

(** C33: [list_sort] (lexicographic) ends without an error, loses and invents no text, and moves the first item to the end as long as the first two items are out of order. *)
Theorem list_sort_rotates w l es ss flags :
  ready w → list_rep true w l es ss → Z.land flags SORT_NUMERIC = 0 → (2 ≤ length ss)%nat →
  let asc := Z.land flags SORT_DESCENDING =? 0 in
  ∃ w' es' j, list_sort (Some l) flags w = Ok 0 w' ∧ list_rep true w' l es' (rotate_by j ss) ∧
    rotate_by j ss ≡ₚ ss ∧ (j < length ss)%nat ∧ descends asc ss j ∧
    (∀ a b rest, rotate_by j ss = a :: b :: rest → out_of_order asc (strcmp a b) = false) ∧
    (∀ q t, str_rep w q t → str_rep w' q t).
Proof.
  intros Hr Hl Hf H2 asc.
  destruct (wp_ok _ _ _ (list_sort_ok w true l es ss flags no_exit Hr Hl Hf H2))
    as (r & w' & Hrun & (-> & j & es' & Hj & Hd & Hl' & Hfst) & S).
  exists w', es', j. split_and!; [done|done| |done..|].
  - unfold rotate_by. rewrite Permutation_app_comm. by rewrite take_drop.
  - intros q t. apply (lstep_rep _ _ _ _ _ _ _ Hr S). set_solver.
Qed.

Lemma list_sort_rotates_witness : ∃ w' es' j,
  list_sort (Some 8%positive) 0 sample = Ok 0 w' ∧
  list_rep true w' 8 es' (rotate_by j [B "c"; B "a"; B "b"]) ∧
  rotate_by j [B "c"; B "a"; B "b"] ≡ₚ [B "c"; B "a"; B "b"] ∧ (j < 3)%nat ∧
  descends true [B "c"; B "a"; B "b"] j ∧
  (∀ a b rest, rotate_by j [B "c"; B "a"; B "b"] = a :: b :: rest →
     out_of_order true (strcmp a b) = false) ∧
  (∀ q t, str_rep sample q t → str_rep w' q t).
Proof.
  apply (list_sort_rotates sample 8 ents8 _ 0 sample_ready sample_8); [by_compute|simpl; lia].
Defined.

(** A list whose first two items are in order is not sorted at all: [list_sort] leaves every item where it is, however the rest is ordered. *)
Lemma list_sort_stops_early w l es a b rest flags :
  ready w → list_rep true w l es (a :: b :: rest) → Z.land flags SORT_NUMERIC = 0 →
  out_of_order (Z.land flags SORT_DESCENDING =? 0) (strcmp a b) = false →
  ∃ w' es', list_sort (Some l) flags w = Ok 0 w' ∧ list_rep true w' l es' (a :: b :: rest).
Proof.
  intros Hr Hl Hf Hab.
  destruct (wp_ok _ _ _ (list_sort_ok w true l es _ flags no_exit Hr Hl Hf ltac:(simpl; lia)))
    as (r & w' & Hrun & (-> & j & es' & Hj & Hd & Hl' & _) & _).
  exists w', es'. split; [done|]. destruct j as [|j].
  - unfold rotate_by in Hl'. simpl in Hl'. by rewrite app_nil_r in Hl'.
  - rewrite (Hd 0%nat a b) in Hab; [done|lia|done|done].
Qed.

Lemma list_sort_stops_early_witness : ∃ w' es',
  list_sort (Some 8%positive) 1 sample = Ok 0 w' ∧ list_rep true w' 8 es' [B "c"; B "a"; B "b"].
Proof.
  apply (list_sort_stops_early sample 8 ents8 _ _ _ 1 sample_ready sample_8); by_compute.
Defined.



(** C35: [str_split] of a non-empty string replaces the contents of the list by the pieces of the text between the delimiters, after the end of the line is cut off, and leaves the text as it was. *)
Theorem str_split_pieces w l es ss q s d :
  ready w → list_rep true w l es ss → str_rep w q s → q ∉ str_locs es → s ≠ [] →
  char_of_int d ≠ NUL → Z.of_nat (length s) < STRING_MAX →
  ∃ w' new, str_split (Some l) (Some q) d w = Ok 0 w' ∧
    list_rep true w' l new (pieces d s) ∧ str_rep w' q s ∧
    (d ≠ int_of_char LF → join [char_of_int d] (pieces d s) = chomp s).
Proof.
  intros Hr Hl Hq Hqs Hs Hd Hmax.
  destruct (wp_ok _ _ _ (str_split_ok true w l es ss q s d no_exit Hr Hl Hq Hs Hd Hmax))
    as (r & w' & Hrun & (-> & new & Hnew & Hl') & S).
  exists w', new. split; [done|]. split; [done|]. split; [by eapply lstep_rep|].
  intros Hlf. unfold pieces, trim. rewrite (proj2 (Z.eqb_neq _ _) Hlf).
  rewrite <- (join_split (char_of_int d) (chomp s)) at 2. f_equal.
  generalize (split_on (char_of_int d) (chomp s)). clear. intros l.
  induction l as [|t l IH]; [done|]. cbn. by f_equal.
Qed.

Lemma str_split_pieces_witness : ∃ w' new,
  str_split (Some 7%positive) (Some 3%positive) 59 sample = Ok 0 w' ∧
  list_rep true w' 7 new [B "a"; B "b"] ∧ str_rep w' 3 (B "a;b") ∧
  (59 ≠ int_of_char LF → join [";"%char] [B "a"; B "b"] = B "a;b").
Proof.
  apply (str_split_pieces sample 7 ents7 _ 3 (B "a;b") 59 sample_ready sample_7 sample_3); by_compute.
Defined.

(** C7: [list_serialize] then [list_deserialize] rebuilds a list of non-empty texts. *)
Theorem deserialize_inverts_serialize w l es ss q bs l2 es2 ss2 :
  ready w → list_rep true w l es ss → str_rep w q bs → list_rep true w l2 es2 ss2 →
  q ∉ str_locs es → q ∉ str_locs es2 → ss ≠ [] → Forall (λ s, s ≠ [] ∧ nonul s) ss →
  Forall (λ s : bytes, 3 * Z.of_nat (length s) < STRING_MAX) ss →
  Z.of_nat (length (serialized ss)) + 1 < STRING_MAX →
  ∃ w' new, both (list_serialize (Some q) (Some l)) (list_deserialize (Some l2) (Some q)) w
      = Ok (0, 0) w' ∧ list_rep true w' l2 new ss.
Proof.
  intros Hr Hl Hq Hl2 Hqs Hqs2 Hss Hok Hsm Hmax.
  enough (wp (both (list_serialize (Some q) (Some l)) (list_deserialize (Some l2) (Some q)))
    (λ '(x, y) w', (x = 0 ∧ y = 0) ∧ ∃ new, list_rep true w' l2 new ss) no_exit w)
    as (xy & w' & Hrun & H)%wp_ok.
  { destruct xy as [x y]. destruct H as ((-> & ->) & new & ?). by exists w', new. }
  apply wp_both. eapply wp_conseq; [by eapply list_serialize_ok|].
  intros x w1 ((-> & Hq1) & S1).
  assert (list_rep true w1 l2 es2 ss2) as Hl21
    by (eapply list_rep_mono; [done|exact S1|done|set_solver..]).
  eapply wp_conseq; [eapply (list_deserialize_ok true w1 l2); [ready|done|done|done|done|done|lia]|].
  intros y w2 ((-> & new & _ & Hl22) & S2). split; [done|]. by exists new.
Qed.

Lemma deserialize_inverts_serialize_witness : ∃ w' new,
  both (list_serialize (Some 1%positive) (Some 7%positive)) (list_deserialize (Some 8%positive) (Some 1%positive)) sample
    = Ok (0, 0) w' ∧ list_rep true w' 8 new [B "x"; B "y z"].
Proof.
  apply (deserialize_inverts_serialize sample 7 ents7 [B "x"; B "y z"] 1 (B "foo") 8 ents8 _
    sample_ready sample_7 sample_1 sample_8); by_compute.
Defined.

(** Run calls that answer 0, then read a string. *)
Fixpoint run_all (cs : list (M Z)) (q : loc) : M bytes :=
  match cs with
  | [] => s ← get_str (Some q); c_str (str_value s)
  | c :: cs => r ← c; if r =? 0 then run_all cs q else crash_with Aborted
  end.

Definition result {A} (r : res A) : option A := match r with Ok a _ => Some a | _ => None end.

(** An empty text is not restored: after a round trip the list "a", "", "c" holds "a", "a", "c", because [str_unescape] leaves its result string alone when its source is empty. *)
Lemma serialize_loses_empty_text :
  result (run_all [list_from_char (Some 9%positive) [CLit (B "a") 0; CLit [] 0; CLit (B "c") 0];
    list_serialize (Some 1%positive) (Some 9%positive);
    list_deserialize (Some 9%positive) (Some 1%positive);
    str_join (Some 1%positive) (Some 9%positive) 44] 1 sample) = Some (B "a,a,c").
Proof. by vm_compute. Qed.
