(* ===== verification/HashTheorems.v ===== *)
(** The properties of hash.c, each with a witness on the memory of [Samples]. *)

From S2P Require Import Prelude Types Machine Wp StringOps StringFacts ListOps HashOps ListRep.
From S2P Require Import ListFacts HashRep HashFacts HashPairs HashRefine Samples ListTheorems.

Open Scope Z_scope.

(** C2: a client's program on a hash table, as a sequence of sets, gets, deletions, membership tests and truncations, gives exactly the results and final contents of the same program on a finite map, as long as no key is used that is also a value in its own slot. *)
Theorem hash_program_refines h w a cs :
  himplements h w a → all_hadmissible cs a →
  ∃ w', hcalls h cs w = Ok (fst (hmodel_run cs a)) w' ∧ himplements h w' (snd (hmodel_run cs a)).
Proof.
  intros Hi Hc. destruct (wp_ok _ _ _ (hcalls_simulate h cs w a no_exit Hi Hc))
    as (rs & w' & Hrun & -> & H). by exists w'.
Qed.

Definition var_of (a : hmodel) (q : loc) : bytes := default [] (hvars a !! q).

Definition sample_hash_program : list hcmd :=
  [HSet (B "k1") 1; HSet (B "k2") 3; HSet (B "1k") 3; HGet 3 (B "k1"); HSet (B "k1") 3;
   HExists (B "k3"); HDelete (B "k2"); HDelete (B "k2"); HExists (B "1k"); HGet 1 (B "1k");
   HTruncate; HGet 1 (B "k1")].

Lemma hash_program_refines_witness :
  let '(rs, a) := hmodel_run sample_hash_program (HModel ∅ sample_vars) in
  rs = [(0, None); (0, None); (0, None); (0, None); (0, None); (0, Some false); (0, None);
        (-1, None); (0, Some true); (0, None); (0, None); (-1, None)] ∧
  var_of a 1 = B "a;b" ∧ var_of a 3 = B "foo" ∧
  ∃ w', hcalls 40 sample_hash_program hsample = Ok rs w' ∧ himplements 40 w' a.
Proof.
  assert (all_hadmissible sample_hash_program (HModel ∅ sample_vars)) as Hc
    by (apply (bool_decide_unpack _); by vm_compute).
  pose proof (hash_program_refines 40 hsample _ sample_hash_program hsample_implements Hc) as H.
  destruct (hmodel_run sample_hash_program (HModel ∅ sample_vars)) as [rs a] eqn:Hrun.
  assert (fst (hmodel_run sample_hash_program (HModel ∅ sample_vars)) = rs) as Hrs by by rewrite Hrun.
  assert (snd (hmodel_run sample_hash_program (HModel ∅ sample_vars)) = a) as Ha by by rewrite Hrun.
  clear Hrun. split; [|split; [|split]]; [subst rs..| |exact H]; subst; by vm_compute.
Defined.

(** C12: [hash_get_keys] and [hash_get_values] replace a list by the keys and by the values of a table, each pair once and both in the same order, and leave the table as it is. *)
Theorem hash_lists_pairs w h tb m l k es old :
  ready w → hash_rep w h tb m → list_rep k w l es old →
  l ∉ tb_lists tb → ent_locs es ## tb_ents tb → str_locs es ## tb_strs tb → Z.of_nat (size m) < 2 ^ 32 →
  ∃ kvs, kvs ≡ₚ map_to_list m ∧
    (∃ w' es', hash_get_keys (Some l) (Some h) w = Ok 0 w' ∧ list_rep true w' l es' kvs.*1 ∧ hash_rep w' h tb m) ∧
    (∃ w' es', hash_get_values (Some l) (Some h) w = Ok 0 w' ∧ list_rep true w' l es' kvs.*2 ∧ hash_rep w' h tb m).
Proof.
  intros Hr HR HL Hl He Hs Hsize. exists (table_pairs tb). split; [by eapply pairs_map, HR|]. split.
  - destruct (wp_ok _ _ _ (hash_get_keys_ok w h tb m l k es old Hr HR HL Hl He Hs Hsize no_exit))
      as (r & w' & Hrun & -> & _ & HR' & es' & L'). eauto.
  - destruct (wp_ok _ _ _ (hash_get_values_ok w h tb m l k es old Hr HR HL Hl He Hs Hsize no_exit))
      as (r & w' & Hrun & -> & _ & HR' & es' & L'). eauto.
Qed.

(** The list 7 of [sample] as the only bucket of a table. *)
Definition one_bucket : bucket_t := Bucket 7 ents7 [(B "x", B "y z")].
Definition one_table : table := <[120%nat := Some one_bucket]> (replicate 256 None).
Definition table_sample : world := upd_hashes <[40%positive := mk_hash_t (bucket_ptrs one_table) 1]> sample.

Lemma one_table_parts : tb_lists one_table = {[7%positive]} ∧
  tb_ents one_table = ent_locs ents7 ∧ tb_strs one_table = str_locs ents7.
Proof. split_and!; apply (bool_decide_unpack _); by vm_compute. Qed.

Lemma hash_lists_pairs_witness : ∃ kvs w' es',
  kvs ≡ₚ [(B "x", B "y z")] ∧ hash_get_keys (Some 8%positive) (Some 40%positive) table_sample = Ok 0 w' ∧
  list_rep true w' 8 es' kvs.*1.
Proof.
  destruct one_table_parts as (P1 & P2 & P3).
  destruct (hash_lists_pairs table_sample 40 one_table (list_to_map (b_kvs one_bucket)) 8 true ents8
    [B "c"; B "a"; B "b"]) as (kvs & Hp & (w' & es' & Hrun & L & _) & _).
  - split; [apply wf_check_sound; by vm_compute|done].
  - split; [reflexivity|]. apply table_rep_one; [lia|]. split.
    + apply list_rep_upd_hashes, sample_7.
    + repeat constructor. apply not_elem_of_nil.
    + intros key [->|H]%elem_of_cons; [reflexivity|by apply not_elem_of_nil in H].
  - apply list_rep_upd_hashes, sample_8.
  - rewrite P1. by apply not_elem_of_singleton_2.
  - rewrite P2. apply (bool_decide_unpack _). by vm_compute.
  - rewrite P3. apply (bool_decide_unpack _). by vm_compute.
  - reflexivity.
  - exists kvs, w', es'. by split_and!.
Defined.

(** Looking up a key that is the value of another key in the same slot finds the value, and reading the entry after it dereferences a null pointer. *)
Lemma hash_get_of_value_crashes :
  (str_cpy (Some 1%positive) (Some (CLit (B "ba") 0)) ≫= λ _,
   hash_set (Some 40%positive) (Some (CLit (B "ab") 0)) (Some 1%positive) ≫= λ _,
   hash_get (Some 3%positive) (Some 40%positive) (Some (CLit (B "ba") 0))) hsample
  = Crash NullDeref.
Proof. by vm_compute. Qed.

(** Copying a table that has had a key dereferences a null pointer, because [hash_copy] never creates the buckets of the copy. *)
Lemma hash_copy_crashes :
  (hash_new None ≫= λ '(_, dest),
   hash_set (Some 40%positive) (Some (CLit (B "ab") 0)) (Some 1%positive) ≫= λ _,
   hash_copy dest (Some 40%positive)) hsample
  = Crash NullDeref.
Proof. by vm_compute. Qed.

(** [hash_from_char] with a key and a value fails, and with a key and two values stores the second. *)
Lemma hash_from_char_skips_first_value :
  result (hash_from_char (Some 40%positive) [CLit (B "k") 0; CLit (B "v") 0] hsample) = Some (-1) ∧
  result (run_all [hash_from_char (Some 40%positive) [CLit (B "k") 0; CLit (B "v") 0; CLit (B "u") 0];
    hash_get (Some 1%positive) (Some 40%positive) (Some (CLit (B "k") 0))] 1 hsample) = Some (B "u").
Proof. by vm_compute. Qed.
