(* ===== verification/StringTheorems.v ===== *)
(** The properties of string.c, each with a witness on the memory of [Samples]. *)

From S2P Require Import Prelude Types Machine Wp StringOps StringFacts StringMore EscapeFacts.
From S2P Require Import UidMapOps NumberFacts ListOps ListRep ListFacts StringRefine StringOom Samples ListTheorems.

Open Scope Z_scope.

Definition has_text (w : world) (p : loc) : Prop := ∃ bs, str_rep w p bs.









(** C6: [str_unescape] after [str_escape] gives the original text, for every non-empty text. *)
Theorem unescape_inverts_escape w p q r s :
  ready w → str_rep w q s → has_text w p → has_text w r → s ≠ [] → p ≠ q → r ≠ p →
  3 * Z.of_nat (length s) < STRING_MAX →
  ∃ w', both (str_escape (Some p) (Some q)) (str_unescape (Some r) (Some p)) w = Ok (0, 0) w' ∧
    str_rep w' r s.
Proof.
  intros Hr Hq [bp Hp] [br Hrr] Hs Hpq Hrp Hmax. pose proof (str_rep_nonul _ _ _ Hq) as Hn.
  enough (wp (both (str_escape (Some p) (Some q)) (str_unescape (Some r) (Some p)))
    (λ '(x, y) w', (x = 0 ∧ y = 0) ∧ str_rep w' r s) no_exit w) as (xy & w' & Hrun & H)%wp_ok.
  { destruct xy as [x y]. destruct H as ((-> & ->) & ?). by exists w'. }
  apply wp_both. wp_call str_escape_ok. intros x w1 ((-> & Hp1) & S1).
  assert (str_rep w1 r br) as Hr1 by (eapply sstep_rep; [apply Hr|done|set_solver|done]).
  wp_call (str_unescape_ok w1 r p br s); [apply S1|lia|]. intros y w2 ((-> & Hr2) & S2). done.
Qed.

Lemma unescape_inverts_escape_witness : ∃ w',
  both (str_escape (Some 1%positive) (Some 3%positive)) (str_unescape (Some 5%positive) (Some 1%positive)) sample
    = Ok (0, 0) w' ∧ str_rep w' 5 (B "a;b").
Proof.
  apply (unescape_inverts_escape sample 1 3 5 (B "a;b") sample_ready sample_3).
  - exists (B "foo"). exact sample_1.
  - exists (B "%"). exact sample_5.
  - done.
  - done.
  - done.
  - by vm_compute.
Defined.

(** What [str_escape] may emit: letters, digits, the marks "/_.-~" and the percent sign. *)
Definition uri_char (c : ascii) : bool := unreserved c || bool_decide (c = "%"%char).

Lemma escape1_uri c : forallb uri_char (escape1 c) = true.
Proof. all_chars c; reflexivity. Qed.

Lemma escape_uri s : forallb uri_char (escape s) = true.
Proof.
  induction s as [|c s IH]; [done|].
  change (escape (c :: s)) with (escape1 c ++ escape s). by rewrite forallb_app, escape1_uri, IH.
Qed.

Lemma escape_plain s : forallb unreserved s = true → escape s = s.
Proof.
  induction s as [|c s IH]; [done|]. cbn [forallb]. rewrite andb_true_iff. intros [Hc Hs].
  change (escape (c :: s)) with (escape1 c ++ escape s). unfold escape1. by rewrite Hc, IH.
Qed.

(** C36: the output of [str_escape] contains only URI-safe characters, is at most three times as long as the input and equals it when no character needs encoding; the source is not modified. *)
Theorem str_escape_output_is_safe w p q s :
  ready w → str_rep w q s → has_text w p → p ≠ q → 3 * Z.of_nat (length s) < STRING_MAX →
  ∃ w' out, str_escape (Some p) (Some q) w = Ok 0 w' ∧ str_rep w' p out ∧ str_rep w' q s ∧
    forallb uri_char out = true ∧ (length s ≤ length out ≤ 3 * length s)%nat ∧
    (forallb unreserved s = true → out = s).
Proof.
  intros Hr Hq [bp Hp] Hne Hmax.
  destruct (wp_ok _ _ _ (str_escape_ok w p q bp s no_exit Hr Hp Hq Hne Hmax))
    as (r & w' & Hrun & (-> & Hp') & S).
  exists w', (escape s). split_and!; [done|done| |apply escape_uri|apply length_escape..|apply escape_plain].
  eapply sstep_rep; [apply Hr|done|set_solver|done].
Qed.

Lemma str_escape_output_is_safe_witness : ∃ w' out,
  str_escape (Some 1%positive) (Some 3%positive) sample = Ok 0 w' ∧ str_rep w' 1 out ∧ str_rep w' 3 (B "a;b") ∧
  forallb uri_char out = true ∧ (3 ≤ length out ≤ 9)%nat ∧
  (forallb unreserved (B "a;b") = true → out = B "a;b").
Proof.
  apply (str_escape_output_is_safe sample 1 3 (B "a;b") sample_ready sample_3).
  - exists (B "foo"). exact sample_1.
  - done.
  - by vm_compute.
Defined.

(** [str_translate] replaces every occurrence of the old character except one in the first position, which it never looks at. *)
Lemma str_translate_skips_first w p c s old new :
  ready w → str_rep w p (c :: s) → char_of_int old ≠ NUL → char_of_int new ≠ NUL →
  ∃ w' s', str_translate (Some p) old new w = Ok 0 w' ∧ str_rep w' p (c :: s') ∧
    length s' = length s ∧
    (∀ i a, s !! i = Some a → a ≠ char_of_int old → s' !! i = Some a) ∧
    (∀ i, s !! i = Some (char_of_int old) → s' !! i = Some (char_of_int new)).
Proof.
  intros Hr Hp Ho Hn.
  destruct (wp_ok _ _ _ (str_translate_ok w p (c :: s) old new no_exit Hr Hp Ho Hn))
    as (r & w' & Hrun & -> & Hp' & S).
  exists w', (subst_char (char_of_int old) (char_of_int new) <$> s).
  split; [done|]. split; [done|]. split; [by rewrite length_fmap|].
  split; intros i; [intros a Hi Ha|intros Hi]; rewrite list_lookup_fmap, Hi; simpl; unfold subst_char.
  - by rewrite decide_False.
  - by rewrite decide_True.
Qed.

Lemma str_translate_skips_first_witness : ∃ w' s',
  str_translate (Some 3%positive) 97 122 sample = Ok 0 w' ∧ str_rep w' 3 ("a"%char :: s') ∧
  length s' = 2%nat ∧
  (∀ i a, B ";b" !! i = Some a → a ≠ char_of_int 97 → s' !! i = Some a) ∧
  (∀ i, B ";b" !! i = Some (char_of_int 97) → s' !! i = Some (char_of_int 122)).
Proof.
  apply (str_translate_skips_first sample 3 "a"%char (B ";b") 97 122 sample_ready sample_3);
    by_compute.
Defined.

(** [str_unescape] of a text that ends in a percent sign and one hexadecimal digit reads past the end of the text. *)
Lemma str_unescape_reads_past_end :
  (str_cpy (Some 5%positive) (Some (CLit (B "%4") 0)) ≫= λ _,
   str_unescape (Some 3%positive) (Some 5%positive)) sample = Crash BadAccess.
Proof. by vm_compute. Qed.

(** Copying a string made by the macro CSTRING, which stores the size in the length and the length in the size, writes past the end of the new buffer. *)
Lemma cstring_copy_overflows :
  local_str (CSTRING (B "abc")) (λ q, str_copy (Some 1%positive) q) sample = Crash BadAccess.
Proof. by vm_compute. Qed.

(** * Numbers *)

Lemma wp_set_errno z (Q : unit → world → Prop) E w :
  (∀ f, errno (f (sys w)) = z → Q tt (upd_sys f w)) → wp (set_errno z) Q E w.
Proof. intros H. by apply H. Qed.

(** C37: [str_to_uint32] reads back every 32-bit number that was printed with "%u". *)
Theorem str_to_uint32_reads_format_u w p n :
  0 ≤ n < 2 ^ 32 → str_rep w p (format_u n) →
  ∃ w', str_to_uint32 (Some p) w = Ok (0, Some n) w'.
Proof.
  intros Hn Hp. destruct (wp_ok _ _ _ (str_to_uint32_print_ok w p n no_exit Hn Hp))
    as (r & w' & Hrun & -> & _). by exists w'.
Qed.

Lemma str_to_uint32_reads_format_u_witness : ∃ w',
  str_to_uint32 (Some 1%positive) (text_sample (B "4294967295")) = Ok (0, Some 4294967295) w'.
Proof.
  apply (str_to_uint32_reads_format_u _ 1 4294967295); [lia|].
  apply text_sample_rep; by_compute.
Defined.

(** C38: [str_to_int] answers an error exactly when strtol(3) overflows or the number is above INT_MAX; a number in the range of int is stored as it is, and one below INT_MIN is stored as a different number without an error. *)
Theorem str_to_int_range w p s :
  str_rep w p s →
  let '(l, erange) := strtol s in
  ∃ w', str_to_int (Some p) w =
      Ok (if erange || (INT_MAX <? l) then (-1, None) else (0, Some (to_signed 32 l))) w' ∧
    (- 2 ^ 31 ≤ l ≤ INT_MAX → to_signed 32 l = l) ∧
    (l < - 2 ^ 31 → to_signed 32 l ≠ l).
Proof.
  intros Hp. destruct (strtol s) as [l er] eqn:Hs.
  assert (wp (str_to_int (Some p)) (λ r w', r =
    if er || (INT_MAX <? l) then (-1, None) else (0, Some (to_signed 32 l))) no_exit w) as Hw.
  { wp_next. apply wp_set_errno. intros f Hf.
    assert (str_rep (upd_sys f w) p s) as Hp1 by exact Hp.
    destruct (str_rep_get _ _ _ Hp1) as (b & sz & Hget & Hc & _).
    wp_next. eapply wp_deref; [done|]. wp_next. eapply wp_c_str; [done|]. rewrite Hs.
    destruct er; [done|]. wp_next. apply wp_ret. wp_next. unfold wp at 1, get_errno. simpl.
    rewrite Hf. simpl. by destruct (INT_MAX <? l). }
  destruct (wp_ok _ _ _ Hw) as (r & w' & Hrun & ->). exists w'. split; [done|].
  unfold to_signed, INT_MAX. change (2 ^ (32 - 1)) with (2 ^ 31). split.
  - intros Hl. destruct (Z.ltb_spec l 0).
    + replace (l mod 2 ^ 32) with (l + 2 ^ 32)
        by (rewrite <- (Z_mod_plus_full l 1), Z.mod_small; lia).
      rewrite (proj2 (Z.ltb_ge _ _)); lia.
    + rewrite Z.mod_small by lia. rewrite (proj2 (Z.ltb_lt _ _)); lia.
  - intros Hl. pose proof (Z.mod_pos_bound l (2 ^ 32) ltac:(lia)).
    destruct (Z.ltb_spec (l mod 2 ^ 32) (2 ^ 31)); lia.
Qed.

Lemma str_to_int_range_witness : ∃ w',
  str_to_int (Some 1%positive) (text_sample (B "-2147483649")) = Ok (0, Some 2147483647) w' ∧
  (- 2 ^ 31 ≤ -2147483649 ≤ INT_MAX → to_signed 32 (-2147483649) = -2147483649) ∧
  (-2147483649 < - 2 ^ 31 → to_signed 32 (-2147483649) ≠ -2147483649).
Proof.
  apply (str_to_int_range _ 1 (B "-2147483649")). apply text_sample_rep; by_compute.
Defined.

(** When malloc(3) fails, [str_copy] reports the error but has already freed the destination's buffer and kept its length: the next comparison dereferences a null pointer. *)
Lemma str_copy_out_of_memory w p q bs s c :
  str_rep w p bs → str_rep w q s → s ≠ [] → p ≠ q → oom w (allocs w) = true →
  ∃ w', str_copy (Some p) (Some q) w = Ok (-1) w' ∧
    strs w' !! p = Some (mk_string_t None 0 (Z.of_nat (length bs)) true) ∧
    str_cmp (Some p) c w' = Crash NullDeref.
Proof.
  intros (b & junk & [Hp Hb] & _) Hq Hne Hpq Hoom.
  destruct (str_rep_get _ _ _ Hq) as (bq & sz & Hq' & _ & Hsz).
  assert (wp (str_copy (Some p) (Some q)) (λ r w', r = -1 ∧
    strs w' !! p = Some (mk_string_t None 0 (Z.of_nat (length bs)) true)) no_exit w) as Hw.
  { apply wp_func_body. wp_next. apply wp_when; [intros [=]%bool_decide_eq_true; done|intros _].
    wp_next. eapply wp_deref; [done|]. simpl. wp_next.
    assert (0 < length s)%nat by (destruct s; [done|simpl; lia]).
    apply wp_when; [intros [H1|H1]%orb_true_iff; apply Z.eqb_eq in H1; lia|intros _].
    wp_next. eapply wp_deref; [done|]. simpl. wp_next.
    unfold wp at 1, free. simpl. rewrite Hb. simpl.
    wp_next. eapply wp_set_obj; [exact Hp|]. wp_next.
    unfold wp at 1, malloc, allocator, mbind, M_bind. simpl. rewrite Hoom. simpl.
    wp_next. eapply wp_set_obj; [apply lookup_insert_eq|]. cbn.
    split; [done|]. apply lookup_insert_eq. }
  destruct (wp_ok _ _ _ Hw) as (r & w' & Hrun & -> & Hs). exists w'. split; [done|]. split; [done|].
  unfold str_cmp, func, body, labels, get_str, deref_obj, mbind, M_bind. by rewrite Hs.
Qed.

(** The sample memory when the allocator always fails. *)
Definition starved : world :=
  mk_world (blocks sample) (strs sample) (ents sample) (lists sample) (hashes sample) (files sample)
    (next_loc sample) (allocs sample) (λ _, true) (sys sample) (net sample).

Lemma str_copy_out_of_memory_witness : ∃ w', str_copy (Some 1%positive) (Some 3%positive) starved = Ok (-1) w' ∧
  strs w' !! 1%positive = Some (mk_string_t None 0 3 true) ∧
  str_cmp (Some 1%positive) (Some (CLit (B "foo") 0)) w' = Crash NullDeref.
Proof.
  apply (str_copy_out_of_memory starved 1 3 (B "foo") (B "a;b"));
    by_compute || apply sample_1 || apply sample_3.
Defined.
