(* ===== verification/FileTheorems.v ===== *)
(** The properties of file.c and passwd.c, each with a witness on the memory of
    [Samples] and a system with given replies. *)

From S2P Require Import Prelude Types Machine Wp StringOps StringFacts StringMore ListOps.
From S2P Require Import ListRep.
From S2P Require Import ListFacts PasswdOps FileOps FileFacts FileRead Samples ListTheorems.

Open Scope Z_scope.

(** The sample memory with a file object at 50, on a system that replies [rs]. *)
Definition sample_file (fd : Z) : file_t := mk_file_t fd 0 (Some 5%positive) zero_stat false.

Definition asked (fd : Z) (rs : list sysret) : world :=
  upd_sys (λ _, mk_system rs [] 0) (upd_files <[50%positive := sample_file fd]> sample).

Lemma asked_ready fd rs : ready (asked fd rs).
Proof. apply ready_sys, ready_files, sample_ready. Qed.

Lemma asked_list fd rs k l es ss : list_rep k sample l es ss → list_rep k (asked fd rs) l es ss.
Proof. by apply list_rep_same. Qed.




(** C11: [file_ls] replaces the contents of the list by the names of the directory in the order of readdir_r(3), without "." if it comes first and ".." if it comes second; the directory is closed; a read error, which readdir_r(3) reports by a positive number, ends the listing as the end of the directory does. *)
Theorem file_ls_lists w l es old q p d a b names e c rest :
  ready w → list_rep true w l es old → str_rep w q p → q ∉ str_locs es →
  answers (sys w) =
    reply d :: entry_reply a :: entry_reply b :: map entry_reply names ++ e :: c :: rest →
  0 ≤ d → Forall file_name (a :: b :: names) → end_reply e → Z.of_nat (length names + 2) < 2 ^ 32 →
  ∃ w' es', file_ls (Some l) (Some q) w = Ok 0 w' ∧
    list_rep true w' l es' (unless (B ".") a ++ unless (B "..") b ++ names) ∧
    trace (sys w') = ("closedir", [AInt d]) ::
      replicate (length names + 3) (dir_call d) ++ ("opendir", [AStr p]) :: trace (sys w).
Proof.
  intros Hr Hl Hq Hqs Ha Hd Hns He Hmax.
  destruct (wp_ok _ _ _ (file_ls_ok w l es old q p d a b names e c rest no_exit Hr Hl Hq Hqs Ha Hd Hns He Hmax))
    as (r & w' & Hrun & -> & (es' & Hl') & Ht). by exists w', es'.
Qed.

(** A directory of three entries, the last read of which fails with EIO. *)
Definition dir_replies : list sysret :=
  [reply 4; entry_reply (B "."); entry_reply (B ".."); entry_reply (B "etc"); reply 5; reply 0].

Lemma file_ls_lists_witness : ∃ w' es',
  file_ls (Some 8%positive) (Some 1%positive) (asked (-1) dir_replies) = Ok 0 w' ∧
  list_rep true w' 8 es' [B "etc"] ∧
  trace (sys w') = [("closedir", [AInt 4]); dir_call 4; dir_call 4; dir_call 4; dir_call 4;
    ("opendir", [AStr (B "foo")])].
Proof.
  apply (file_ls_lists (asked (-1) dir_replies) 8 ents8 [B "c"; B "a"; B "b"] 1 (B "foo") 4 (B ".") (B "..")
    [B "etc"] (reply 5) (reply 0) []).
  - apply asked_ready.
  - apply asked_list, sample_8.
  - exact sample_1.
  - by_compute.
  - done.
  - done.
  - repeat constructor; by_compute.
  - split; [done|by left].
  - done.
Defined.

(** C28: [file_read] replaces the string by what a single read(2) gives, whatever the size of the file: a short read is taken for the whole file; when the read fails it answers -1, the string is empty and the descriptor is not closed. *)
Theorem file_read_reads_once w d old q p op s rd cl rest :
  ready w → str_rep w d old → str_rep w q p → p ≠ [] →
  answers (sys w) = op :: s :: rd :: cl :: rest → 0 ≤ sys_ret op → stat_reply s →
  0 ≤ st_size (sys_stat s) < STRING_MAX → read_reply (st_size (sys_stat s)) rd →
  ∃ w', file_read (Some d) (Some q) w = Ok (if sys_ret rd <? 0 then -1 else 0) w' ∧
    str_rep w' d (if sys_ret rd <? 0 then [] else sys_data rd) ∧
    trace (sys w') = (if sys_ret rd <? 0 then [] else [close_call (sys_ret op)]) ++
      [read_call (sys_ret op) (st_size (sys_stat s)); stat_call p; open_call p O_RDONLY 0] ++ trace (sys w).
Proof.
  intros Hr Hd Hq Hp Ha Hop Hs Hsz Hrd.
  destruct (wp_ok _ _ _ (file_read_ok w d old q p op s rd cl rest no_exit Hr Hd Hq Hp Ha Hop Hs Hsz Hrd))
    as (z & w' & Hrun & -> & Hd' & _ & Ht & _). exists w'. split; [done|]. split; [done|].
  rewrite Ht. unfold reads. by rewrite <- app_assoc.
Qed.

(** Three of the 4096 characters of a file. *)
Definition short_read : list sysret :=
  [reply 3; reply_stat (mk_stat_buf 33188 4096 0 0 0); reply_data 3 (B "abc"); reply 0].

Lemma file_read_reads_once_witness : ∃ w',
  file_read (Some 3%positive) (Some 1%positive) (asked (-1) short_read) = Ok 0 w' ∧
  str_rep w' 3 (B "abc") ∧
  trace (sys w') = [close_call 3; read_call 3 4096; stat_call (B "foo"); open_call (B "foo") 0 0].
Proof.
  apply (file_read_reads_once (asked (-1) short_read) 3 (B "a;b") 1 (B "foo") (reply 3)
    (reply_stat (mk_stat_buf 33188 4096 0 0 0)) (reply_data 3 (B "abc")) (reply 0) []).
  - apply asked_ready.
  - exact sample_3.
  - exact sample_1.
  - done.
  - done.
  - done.
  - split; [done|by eexists].
  - unfold STRING_MAX. cbn. lia.
  - split; [by_compute|done].
Defined.

(** * Attributes *)

(** The file types of stat(2), by the format bits of the mode. *)
Definition formats : list (Z * file_type_t) :=
  [(4096, FILE_IS_FIFO); (8192, FILE_IS_DEVICE); (16384, FILE_IS_DIRECTORY); (24576, FILE_IS_DEVICE);
   (32768, FILE_IS_REGULAR); (40960, FILE_IS_SYMLINK); (49152, FILE_IS_SOCKET)].

Lemma type_of_mode_format mode t :
  type_of_mode mode = Some t ↔ (S_IFMT mode, t) ∈ formats.
Proof.
  unfold type_of_mode, S_ISFIFO, S_ISCHR, S_ISDIR, S_ISBLK, S_ISREG, S_ISLNK, S_ISSOCK, formats.
  generalize (S_IFMT mode). intros f. rewrite !elem_of_cons, elem_of_nil. split.
  - intros H. repeat match type of H with
      | context [?a =? ?b] => destruct (Z.eqb_spec a b); subst; simpl in H
      end; simplify_eq; auto 10.
  - intros H. destruct_or? H; simplify_eq; done.
Qed.

Lemma stat_ok w q p r rest (Q : sysret → world → Prop) E :
  str_rep w q p → answers (sys w) = r :: rest →
  Q r (upd_sys (heard ("stat", [AStr p]) r) w) → wp (stat (Some q)) Q E w.
Proof.
  intros Hq Ha HQ. wp_next. eapply wp_path_of; [done|]. by eapply wp_syscall_eq.
Qed.

(** C40: [file_stat] stores the size and the mode and gives the type that the format bits of the mode denote, an error when they denote none; a missing file is no error, but leaves the old size and mode in the result. *)
Theorem file_stat_reports w q p r rest dest :
  str_rep w q p → answers (sys w) = r :: rest →
  ∃ w' rc d, file_stat dest (Some q) w = Ok (rc, d) w' ∧
    (0 ≤ sys_ret r → stat_size d = st_size (sys_stat r) ∧ stat_mode d = st_mode (sys_stat r) ∧
       (∀ t, (S_IFMT (st_mode (sys_stat r)), t) ∈ formats → rc = 0 ∧ stat_type d = t) ∧
       (S_IFMT (st_mode (sys_stat r)) ∉ formats.*1 → rc = -1)) ∧
    (sys_ret r < 0 → sys_errno r = ENOENT →
       rc = 0 ∧ stat_type d = FILE_IS_NONEXISTENT ∧ stat_size d = stat_size dest ∧ stat_mode d = stat_mode dest) ∧
    (sys_ret r < 0 → sys_errno r ≠ ENOENT → rc = -1 ∧ d = dest).
Proof.
  intros Hq Ha.
  set (w1 := upd_sys (heard ("stat", [AStr p]) r) w).
  assert (wp (file_stat dest (Some q)) (λ '(rc, d) _,
    if sys_ret r <? 0 then
      if sys_errno r =? ENOENT then rc = 0 ∧ d = mk_stat_t 0 (stat_owner dest) (stat_gid dest) (stat_group dest)
        (stat_size dest) (stat_mode dest) FILE_IS_NONEXISTENT else rc = -1 ∧ d = dest
    else stat_size d = st_size (sys_stat r) ∧ stat_mode d = st_mode (sys_stat r) ∧
      match type_of_mode (st_mode (sys_stat r)) with
      | Some t => rc = 0 ∧ stat_type d = t | None => rc = -1 end) no_exit w) as Hw.
  { wp_next. eapply stat_ok; [done|done|]. destruct (sys_ret r <? 0) eqn:Hs.
    - unfold wp, mbind, M_bind, get_errno. simpl. rewrite Hs. by destruct (sys_errno r =? ENOENT).
    - cbv zeta. destruct (type_of_mode _) eqn:Ht; by apply wp_ret. }
  apply wp_ok in Hw as ([rc d] & w' & Hrun & H). exists w', rc, d. split; [done|]. clear -H.
  split; [|split]; intros Hs; [rewrite (proj2 (Z.ltb_ge _ _)) in H by done| |];
    [|intros He; rewrite (proj2 (Z.ltb_lt _ _)) in H by done..].
  - destruct H as (-> & -> & H). split; [done|]. split; [done|]. split.
    + intros t Ht%type_of_mode_format. by rewrite Ht in H.
    + intros Hn. destruct (type_of_mode _) as [t|] eqn:Ht; [|done].
      destruct Hn. apply list_elem_of_fmap. exists (S_IFMT (st_mode (sys_stat r)), t).
      split; [done|by apply type_of_mode_format].
  - rewrite (proj2 (Z.eqb_eq _ _)) in H by done. by destruct H as [-> ->].
  - by rewrite (proj2 (Z.eqb_neq _ _)) in H.
Qed.

Definition a_file : sysret := reply_stat (mk_stat_buf 33188 4096 0 0 0).

Lemma file_stat_reports_witness : ∃ w' rc d,
  file_stat zero_stat (Some 1%positive) (asked (-1) [a_file]) = Ok (rc, d) w' ∧
  (0 ≤ 0 → stat_size d = 4096 ∧ stat_mode d = 33188 ∧
     (∀ t, (S_IFMT 33188, t) ∈ formats → rc = 0 ∧ stat_type d = t) ∧
     (S_IFMT 33188 ∉ formats.*1 → rc = -1)) ∧
  (0 < 0 → 0 = ENOENT →
     rc = 0 ∧ stat_type d = FILE_IS_NONEXISTENT ∧ stat_size d = 0 ∧ stat_mode d = 0) ∧
  (0 < 0 → 0 ≠ ENOENT → rc = -1 ∧ d = zero_stat).
Proof.
  apply (file_stat_reports (asked (-1) [a_file]) 1 (B "foo") a_file [] zero_stat sample_1). done.
Defined.

(** [file_is_symlink] never answers that a path is a symbolic link when the system follows links in stat(2), so that S_IFLNK does not occur in its results. *)
Lemma file_is_symlink_never w q p r rest :
  str_rep w q p → answers (sys w) = r :: rest → S_ISLNK (st_mode (sys_stat r)) = false →
  ∃ w', file_is_symlink (Some q) w = Ok (-1) w'.
Proof.
  intros Hq Ha Hl.
  assert (wp (file_is_symlink (Some q)) (λ z _, z = -1) no_exit w) as (z & w' & Hrun & ->)%wp_ok;
    [|by eexists].
  apply wp_func_body. wp_next. wp_next. wp_next. eapply stat_ok; [done|done|].
  destruct (sys_ret r <? 0) eqn:Hs.
  { unfold wp at 1, mbind, M_bind, get_errno. simpl. rewrite Hs. by destruct (sys_errno r =? ENOENT). }
  cbv zeta. destruct (type_of_mode _) as [t|] eqn:Ht; [|done]. apply wp_ret. simpl. apply wp_ret.
  rewrite bool_decide_eq_false_2; [done|]. simpl. intros ->.
  apply type_of_mode_format in Ht. unfold S_ISLNK in Hl. apply Z.eqb_neq in Hl. set_solver.
Qed.

Lemma file_is_symlink_never_witness :
  ∃ w', file_is_symlink (Some 1%positive) (asked (-1) [a_file]) = Ok (-1) w'.
Proof.
  apply (file_is_symlink_never (asked (-1) [a_file]) 1 (B "foo") a_file []); [exact sample_1|done|done].
Defined.

(** * File objects *)

(** A file that [file_open] could not open has the descriptor -1 and its close makes no system call; one that it opened has the path and the descriptor, which [file_close] gives back to the system and forgets, unless close(2) fails: then it stays open. *)
Lemma file_open_then_close w f o q p fp old flags mode r c rest :
  ready w → files w !! f = Some o → file_path o = Some fp → str_rep w fp old →
  str_rep w q p → p ≠ [] → fp ≠ q → answers (sys w) = r :: c :: rest →
  ∃ w' o', both (file_open (Some f) (Some q) flags mode) (file_close (Some f)) w =
      Ok (if sys_ret r <? 0 then (-1, 0) else (0, if sys_ret c <? 0 then -1 else 0)) w' ∧
    files w' !! f = Some o' ∧
    (file_fd o' = if sys_ret r <? 0 then -1 else if sys_ret c <? 0 then sys_ret r else -1) ∧
    trace (sys w') = (if sys_ret r <? 0 then [] else [("close", [AInt (sys_ret r)])]) ++
      ("open", [AStr p; AInt flags; AInt mode]) :: trace (sys w).
Proof.
  intros Hr Hf Hfp Hold Hq Hp Hne Ha.
  set (Q := λ (zz : Z * Z) w', zz = (if sys_ret r <? 0 then (-1, 0) else (0, if sys_ret c <? 0 then -1 else 0)) ∧
    ∃ o', files w' !! f = Some o' ∧
      (file_fd o' = if sys_ret r <? 0 then -1 else if sys_ret c <? 0 then sys_ret r else -1) ∧
      trace (sys w') = (if sys_ret r <? 0 then [] else [("close", [AInt (sys_ret r)])]) ++
        ("open", [AStr p; AInt flags; AInt mode]) :: trace (sys w)).
  assert (wp (both (file_open (Some f) (Some q) flags mode) (file_close (Some f))) Q no_exit w)
    as (zz & w' & Hrun & -> & o' & H)%wp_ok; [|by exists w', o'].
  apply wp_both. eapply wp_conseq; [by eapply file_open_ok|].
  intros z w1 (-> & R1 & Hf1 & _ & _ & Hs1). cbn beta. unfold Q, opened in *.
  destruct (sys_ret r <? 0) eqn:Hs.
  - unfold wp. rewrite (file_close_closed w1 f (set_file_fd (-1) o)) by done.
    split; [done|]. eexists. split; [done|]. by rewrite Hs1.
  - eapply wp_conseq; [eapply file_close_ok; [done|simpl; apply Z.ltb_ge in Hs; lia|by rewrite Hs1; simpl; rewrite Ha]|].
    intros z w2 (-> & Hf2 & Hs2). split; [done|]. eexists. split; [done|].
    rewrite Hs2, Hs1. split; [|done]. unfold closed. by destruct (sys_ret c <? 0).
Qed.

Lemma file_open_then_close_witness : ∃ w' o',
  both (file_open (Some 50%positive) (Some 1%positive) 0 0) (file_close (Some 50%positive))
    (asked (-1) [reply 3; reply_error 5]) = Ok (0, -1) w' ∧
  files w' !! 50%positive = Some o' ∧ file_fd o' = 3 ∧
  trace (sys w') = [("close", [AInt 3])] ++ [("open", [AStr (B "foo"); AInt 0; AInt 0])].
Proof.
  apply (file_open_then_close (asked (-1) [reply 3; reply_error 5]) 50 (sample_file (-1)) 1 (B "foo") 5 (B "%")
    0 0 (reply 3) (reply_error 5) []); try done.
  - apply asked_ready.
  - exact sample_5.
  - exact sample_1.
Defined.

(** [file_unlock] releases the lock in the system but leaves the object marked as locked; on a file that is not open it fails and calls fcntl(2) not at all. *)
Lemma file_unlock_stays_locked w f o pid r rest :
  files w !! f = Some o → answers (sys w) = pid :: r :: rest →
  ∃ z w' o', file_unlock (Some f) w = Ok z w' ∧ files w' !! f = Some o' ∧
    (file_fd o < 0 → z = -1 ∧ o' = o ∧ trace (sys w') = ("getpid", []) :: trace (sys w)) ∧
    (0 ≤ file_fd o → 0 ≤ sys_ret r → z = 0 ∧ file_locked o' = true ∧
       trace (sys w') = ("fcntl", [AInt (file_fd o); AInt F_SETLKW; AInt F_UNLCK; AInt (sys_ret pid)]) ::
         ("getpid", []) :: trace (sys w)).
Proof.
  intros Hf Ha.
  destruct (wp_ok _ _ _ (file_lock_ok w f o F_UNLCK pid r rest no_exit Hf Ha)) as (z & w' & Hrun & H).
  exists z, w'. destruct (Z.ltb_spec (file_fd o) 0).
  - destruct H as [-> ->]. exists o. split; [done|]. split; [done|]. split; [done|lia].
  - destruct H as (-> & Hf' & Ht). eexists. split; [done|]. split; [done|]. split; [lia|].
    intros _ Hs. by rewrite (proj2 (Z.ltb_ge _ _)).
Qed.

Lemma file_unlock_stays_locked_witness : ∃ z w' o',
  file_unlock (Some 50%positive) (asked 3 [reply 77; reply 0]) = Ok z w' ∧
  files w' !! 50%positive = Some o' ∧
  (3 < 0 → z = -1 ∧ o' = sample_file 3 ∧ trace (sys w') = [("getpid", [])]) ∧
  (0 ≤ 3 → 0 ≤ 0 → z = 0 ∧ file_locked o' = true ∧
     trace (sys w') = [("fcntl", [AInt 3; AInt F_SETLKW; AInt F_UNLCK; AInt 77]); ("getpid", [])]).
Proof.
  apply (file_unlock_stays_locked (asked 3 [reply 77; reply 0]) 50 (sample_file 3) (reply 77) (reply 0) []); done.
Defined.

(** [valid_pathname] accepts exactly the texts of at most 4096 characters all of which are in its list of legal characters, and changes nothing. *)
Lemma valid_pathname_decides w c s :
  cstr_at w c = Some s →
  ∃ z, valid_pathname (Some c) w = Ok z w ∧
    (z = 0 ↔ (length s ≤ 4096)%nat ∧ Forall legal_char s) ∧ (z = 0 ∨ z = -1).
Proof.
  intros Hs. destruct (wp_ok _ _ _ (valid_pathname_ok w c s no_exit Hs)) as (z & w' & Hrun & -> & Hz).
  exists z. split; [done|]. unfold PATH_MAX in Hz. case_decide as Hd; subst z.
  - split; [|by left]. split; [|done]. intros _. destruct Hd. split; [lia|done].
  - split; [|by right]. split; [done|]. intros [? ?]. destruct Hd. split; [lia|done].
Qed.

Lemma valid_pathname_decides_witness :
  ∃ z, valid_pathname (Some (CLit (B "/etc/x y") 0)) sample = Ok z sample ∧
    (z = 0 ↔ (8 ≤ 4096)%nat ∧ Forall legal_char (B "/etc/x y")) ∧ (z = 0 ∨ z = -1).
Proof. apply (valid_pathname_decides sample (CLit (B "/etc/x y") 0) (B "/etc/x y")). by_compute. Defined.

(** The object that [file_from_fd] fills names its path by a pointer to a variable that is gone when it returns: reading the path is an access to freed memory. *)
Lemma file_from_fd_dangles :
  (_ ← file_from_fd (Some 50%positive) 3; o ← get_file (Some 50%positive); path_of (file_path o))
    (asked (-1) []) = Crash BadAccess.
Proof. by vm_compute. Qed.

(** * Users and groups *)

(** [passwd_get_name_by_id] dereferences a null pointer when the user number is unknown. *)
Lemma passwd_get_name_of_unknown_crashes w name uid r rest :
  answers (sys w) = r :: rest → 0 ≤ sys_ret r → sys_names r = [] →
  passwd_get_name_by_id name uid w = Crash NullDeref.
Proof.
  intros Ha Hr Hn. unfold passwd_get_name_by_id, func, body, labels, mbind, M_bind, syscall.
  rewrite Ha. unfold when. by rewrite (proj2 (Z.ltb_ge _ _) Hr), Hn.
Qed.

Lemma passwd_get_name_of_unknown_crashes_witness :
  passwd_get_name_by_id (Some 1%positive) 4711 (asked (-1) [reply 0]) = Crash NullDeref.
Proof. apply (passwd_get_name_of_unknown_crashes _ _ _ (reply 0) []); done. Defined.

(** [group_get_name_by_id] does not look up the number when its result string happens to hold "root" or "wheel": it answers success and leaves that name. *)
Lemma group_name_of_root_not_looked_up w p name gid :
  str_rep w p name → name = B "root" ∨ name = B "wheel" →
  group_get_name_by_id (Some p) gid w = Ok 0 w.
Proof.
  intros Hp Hn.
  assert (wp (group_get_name_by_id (Some p) gid) (λ z w', z = 0 ∧ w' = w) no_exit w)
    as (z & w' & Hrun & -> & ->)%wp_ok; [|done].
  apply wp_func_body. wp_next. wp_next.
  eapply wp_conseq; [apply str_cmp_ok; [done|apply cstr_at_lit; by_compute]|]. intros z w1 (-> & ->). cbn beta.
  destruct Hn as [-> | ->]; [by apply wp_ret|]. simpl. wp_next. wp_next.
  eapply wp_conseq; [apply str_cmp_ok; [done|apply cstr_at_lit; by_compute]|]. intros z w1 (-> & ->). by apply wp_ret.
Qed.

Lemma group_name_of_root_not_looked_up_witness :
  group_get_name_by_id (Some 1%positive) 4711 (text_sample (B "wheel")) = Ok 0 (text_sample (B "wheel")).
Proof.
  apply (group_name_of_root_not_looked_up _ 1 (B "wheel")); [apply text_sample_rep; by_compute|by right].
Defined.
