(* ===== verification/TestOps.v ===== *)
(** test.c: the checks of the test harness, its table of tests and the driver
    that runs them.

    What the harness prints is not modelled, nor is its counter [num_tests],
    which nothing reads.  Replies: [mkdtemp] has the name of the directory in
    [sys_data]; [fopen] is negative for a null pointer. *)

From S2P Require Import Prelude Types Machine StringOps FileOps.

Open Scope Z_scope.

(** A literal of the source as an argument. *)
Definition lit (s : string) : option cptr := Some (CLit (B s) 0).

(** The name is printed. *)
Definition start_test (name : string) : M Z := mret 0.

Definition test_retval (rv wanted : Z) : M Z := func (body (
  when (negb (rv =? wanted)) (throw "test failed"))).

Definition test_strcmp (s1 s2 : option cptr) : M Z := func (body (
  a ← c_str s1;
  b ← c_str s2;
  when (negb (strcmp a b =? 0)) (throw "test failed"))).

Definition test_strncmp (s1 s2 : option cptr) (len : Z) : M Z := func (body (
  a ← c_str s1;
  b ← c_str s2;
  when (negb (strncmp a b len =? 0)) (throw "test failed"))).

Definition test_strstr (big little : option cptr) : M Z := func (body (
  a ← c_str big;
  b ← c_str little;
  when (negb (strstr a b)) (throw "test failed"))).

(** [test_strcmp(s->value, "...")] and similar checks on a whole string. *)
Definition expect_text (s : ptr) (t : string) : M unit :=
  o ← get_str s; try_ (test_strcmp (str_value o) (lit t)).

(** * The table of tests *)

Definition TESTS_MAX : Z := 25.

(** The arrays [test_name] and [test_func] up to [test_count]. *)
Definition test_table : Type := list (ptr * (ptr → M Z)).

(** The arrays have [TESTS_MAX + 1] elements; the index is not checked. *)
Definition register_test (tests : test_table) (name : option cptr) (fp : ptr → M Z) :
    M (Z * test_table) :=
  if Z.of_nat (length tests) <=? TESTS_MAX then
    '(rc, p) ← str_new None;
    if negb (rc =? 0) then mret (-1, tests) else
    rc ← str_cat p name;
    if negb (rc =? 0) then mret (-1, tests) else
    mret (0, tests ++ [(p, fp)])
  else crash_with BadAccess.

(** * The driver *)

Definition EXIT_FAILURE : Z := 1.

(** The message is printed before. *)
Definition test_failed : M unit := crash_with Aborted.

(** A file with the text [buf]; its name goes to [dest], padded to 15
    characters. *)
Definition write_tempfile (dest buf : option cptr) : M Z := func (body (
  f ← syscall "fopen" [AStr (B "tmp.file"); AStr (B "w")];
  when (sys_ret f <? 0) (return_ (-1));;
  text ← c_str buf;
  r ← syscall "fputs" [AStr text];
  when (sys_ret r <? 0) (return_ (-1));;
  r ← syscall "fclose" [];
  when (sys_ret r <? 0) (return_ (-1));;
  store dest 0 (take 15 ((Some <$> B "tmp.file") ++ replicate 15 (Some NUL))))).

(** A copy of a text on the heap. *)
Definition strdup (s : bytes) : M (option cptr) :=
  v ← malloc (Z.of_nat (length s) + 1);
  when (bool_decide (v ≠ None)) (store v 0 (cells_of s));;
  mret v.

(** The array [template] of 80 characters in the frame of a function. *)
Definition stack_array (s : bytes) : M (option cptr) :=
  b ← fresh_loc;
  modify (upd_blocks <[b := Block (take 80 (cells_of s ++ replicate 80 (Some NUL))) false]>);;
  mret (Some (CBlk b 0)).

(** Run the tests whose names are asked for. *)
Fixpoint run_tests (run_all : bool) (module : bytes) (env : ptr) (tests : test_table) : M unit :=
  match tests with
  | [] => mret tt
  | (name, fp) :: rest =>
      chosen ← (if run_all then mret true else
        o ← get_str name; t ← c_str (str_value o); mret (strcmp module t =? 0));
      when (chosen : bool) (
        rc ← fp env;
        when (rc <? 0) (crash_with (Exited EXIT_FAILURE)));;
      run_tests run_all module env rest
  end.

(** [getenv] gives the variables of the environment; [junk] is what the
    variable [env.tmpdir] holds when the function starts: it is not set. *)
Definition run_unit_tests (getenv : string → option bytes) (junk : ptr)
    (init_func cleanup_func : ptr → M Z) (tests : test_table) : M Z := func (
  let use_tmpdir := match getenv "TESTDIR" with Some _ => false | None => true end in
  tmpdir ← match getenv "TESTDIR" with
           | Some d => strdup d
           | None =>
               r ← syscall "mkdtemp" [AStr (B "/tmp/openmta.XXXXXXXXXX")];
               if sys_ret r <? 0 then crash_with (Exited EXIT_FAILURE) else stack_array (sys_data r)
           end;
  '(rc, env) ← str_new junk;
  if negb (rc =? 0) then throw "" else
  labels (
    try_ (str_cpy env tmpdir);;
    module ← match getenv "TEST" with Some m => mret m | None => crash_with NullDeref end;
    let run_all := strcmp module (B "all") =? 0 in
    when run_all (
      r ← init_func env;
      when (r <? 0) (throw "failed to initialize test environment"));;
    run_tests run_all module env tests;;
    when run_all (
      r ← cleanup_func env;
      when (r <? 0) (throw "failed to cleanup the test environment"));;
    when use_tmpdir (
      r ← file_rmdir env;
      when (r <? 0) (crash_with (Exited EXIT_FAILURE))))
  (mret tt)
  (free tmpdir;;
   '(rc, _) ← str_destroy env;
   when (negb (rc =? 0)) (leave (Leave (-1))))).
