(* ===== verification/SelfTest.v ===== *)
(** selftest.c: the test program of the library, function by function.  Its
    parts that need only memory are run on the model in [SelfTheorems]. *)

From S2P Require Import Prelude Types Machine StringOps RegexOps ListOps HashOps PasswdOps FileOps.
From S2P Require Import UidMapOps InetOps DnsOps SocketOps SessionOps ProcessOps TestOps.

Open Scope Z_scope.

(** * Strings *)

Definition check (b : bool) : M unit := when (negb b) (throw "error").

(** From [str_cpy()] to [str_cpy() - empty src]. *)
Definition str_tests_copy (str str2 : ptr) : M unit :=
  try_ (start_test "str_cpy()");;
  try_ (str_truncate str);;
  try_ (str_cpy str (lit "xyz"));;
  expect_text str "xyz";;
  try_ (start_test "str_cat())");;
  try_ (str_truncate str);;
  try_ (str_cat str (lit "test"));;
  o ← get_str str;
  try_ (test_retval (to_signed 32 (str_len o)) 4);;
  try_ (start_test "str_chomp() #1");;
  try_ (str_cpy str (Some (CLit (B "." ++ [CR; LF]) 0)));;
  try_ (str_chomp str);;
  expect_text str ".";;
  try_ (start_test "str_chomp() #2");;
  try_ (str_cpy str (Some (CLit (B "." ++ [LF]) 0)));;
  try_ (str_chomp str);;
  expect_text str ".";;
  try_ (start_test "str_chomp() #3");;
  try_ (str_cpy str (Some (CLit (B "." ++ [CR]) 0)));;
  try_ (str_chomp str);;
  expect_text str ".";;
  try_ (start_test "str_copy()");;
  try_ (str_truncate str);;
  try_ (str_cat str (lit "test"));;
  try_ (str_copy str2 str);;
  expect_text str2 "test";;
  try_ (start_test "str_ncpy()");;
  try_ (str_truncate str);;
  try_ (str_ncpy str (lit "abcd") 3);;
  expect_text str "abc";;
  try_ (start_test "str_cpy() - empty src");;
  try_ (str_cpy str (lit "abc"));;
  try_ (str_cpy str (lit ""));;
  expect_text str "".

(** From [str_escape()] to [str_cmp_terminator()]. *)
Definition str_tests_escape (str str2 : ptr) : M unit :=
  try_ (start_test "str_escape()");;
  try_ (str_cpy str (lit " . "));;
  try_ (str_escape str2 str);;
  expect_text str2 "%20.%20";;
  try_ (start_test "str_unescape()");;
  try_ (str_unescape str str2);;
  expect_text str " . ";;
  try_ (start_test "str_unescape() - query string");;
  try_ (str_cpy str (lit "a %27quoted%27 word"));;
  try_ (str_unescape str2 str);;
  expect_text str2 "a 'quoted' word";;
  try_ (start_test "str_unescape() - invalid input");;
  try_ (str_cpy str (lit "%"));;
  try_ (str_unescape str2 str);;
  expect_text str2 "%".

Definition str_tests_search (str : ptr) : M unit :=
  try_ (start_test "str_translate()");;
  try_ (str_cpy str (lit "a+b+c"));;
  try_ (str_translate str (int_of_char "+") (int_of_char " "));;
  expect_text str "a b c";;
  try_ (start_test "str_contains()");;
  try_ (str_cpy str (lit "foo bar baz"));;
  result ← try_out (str_contains str (lit "bar"));
  try_ (test_retval (if (result : bool) then 1 else 0) 1);;
  try_ (start_test "str_count()");;
  try_ (str_cpy str (lit "zzzaaazzz"));;
  sz ← try_out (str_count str (int_of_char "z"));
  when (negb (sz =? 6)) (throw "expecting 6; got %zu");;
  try_ (start_test "str_cmp_terminator()");;
  try_ (str_cpy str (Some (CLit (B "foo" ++ [LF]) 0)));;
  rc ← str_cmp_terminator str (int_of_char LF);
  try_ (test_retval rc 0).

(** From [str_to_int()] to [str_append()]. *)
Definition str_tests_edit (str str2 str3 : ptr) : M unit :=
  try_ (start_test "str_to_int()");;
  try_ (str_cpy str (lit "-36"));;
  i ← try_out (str_to_int str);
  check (bool_decide (i = Some (-36)));;
  try_ (start_test "str_divide()");;
  try_ (str_cpy str (lit "abc"));;
  try_ (str_divide str2 str3 str 1);;
  expect_text str2 "a";;
  expect_text str3 "c";;
  try_ (start_test "str_truncate_at()");;
  try_ (str_cpy str (lit "abc"));;
  try_ (str_truncate_at str 1);;
  expect_text str "a";;
  try_ (start_test "str_swap()");;
  try_ (str_cpy str (lit "abc"));;
  try_ (str_cpy str2 (lit "cba"));;
  try_ (str_swap str str2);;
  expect_text str "cba";;
  expect_text str2 "abc";;
  try_ (start_test "str_get_char()");;
  try_ (str_cpy str (lit "abc"));;
  c ← try_out (str_get_char str 1);
  check (bool_decide (c = Some "b"%char));;
  try_ (start_test "str_append()");;
  try_ (str_cpy str (lit "def"));;
  try_ (str_cpy str2 (lit "abc"));;
  try_ (str_prepend str str2);;
  expect_text str "abcdef".

Section regex.
Context `{Regex}.

(** Bool results are compared with [true] and [false] as integers. *)
Definition str_tests_match (str : ptr) : M unit :=
  try_ (start_test "str_match_regex()");;
  try_ (str_cpy str (lit "foo"));;
  result ← try_out (str_match_regex str (lit "(foo|bar)"));
  try_ (test_retval (if default false result then 1 else 0) 1);;
  try_ (str_cpy str (lit "baz"));;
  result ← try_out (str_match_regex str (lit "(foo|bar)"));
  try_ (test_retval (if default false result then 1 else 0) 0).

Definition str_run_tests : M Z := func (body (
  try_ (start_test "str_new()");;
  str ← try_out (str_new None);
  str2 ← try_out (str_new None);
  str3 ← try_out (str_new None);
  str_tests_copy str str2;;
  try_ (start_test "str_subst_regex()");;
  try_ (str_cpy str (lit "abcde"));;
  try_ (str_subst_regex str (lit "bcd") (lit ".NEW."));;
  expect_text str "a.NEW.e";;
  str_tests_escape str str2;;
  str_tests_search str;;
  str_tests_match str;;
  str_tests_edit str str2 str3;;
  try_ (start_test "str_destroy()");;
  '(rc, _) ← str_destroy str;
  try_ (mret rc))).

End regex.

(** * Lists *)

Definition text_lit (l : list string) : list cptr := (λ s, CLit (B s) 0) <$> l.

(** [list_compare(list, ..., szNULL);] *)
Definition expect_list (lst : ptr) (l : list string) : M unit := try_ (list_compare lst (text_lit l)).

(** Several calls of [list_cat]. *)
Definition list_cats (lst : ptr) (l : list string) : M unit := cat_all lst (text_lit l).

(** A text with line ends, which the source writes as \n, here as a bar. *)
Definition lines_lit (s : string) : option cptr :=
  Some (CLit ((λ c, if decide (c = "|"%char) then LF else c) <$> B s) 0).

(** From [str_join()] to [list_compare()]. *)
Definition list_tests_split (lst str : ptr) : M unit :=
  try_ (start_test "str_join()");;
  try_ (list_truncate lst);;
  list_cats lst ["foo"; "bar"];;
  try_ (str_join str lst (int_of_char " "));;
  expect_text str "foo bar";;
  try_ (start_test "str_split()");;
  try_ (str_cpy str (lit "foo bar baz"));;
  try_ (str_split lst str (int_of_char " "));;
  try_ (start_test "str_split() - trailing LF");;
  try_ (str_cpy str (lines_lit "foo|bar|baz|"));;
  try_ (str_split lst str (int_of_char LF));;
  expect_list lst ["foo"; "bar"; "baz"];;
  try_ (start_test "str_split() - multiple empty LF");;
  try_ (str_cpy str (lines_lit "||||"));;
  try_ (str_split lst str (int_of_char LF));;
  expect_list lst [""; ""; ""; ""];;
  try_ (start_test "str_split() - LF + empty item");;
  try_ (str_cpy str (lines_lit "GET / HTTP/1.0|User-Agent: Lynx||somedata|"));;
  try_ (str_split lst str (int_of_char LF));;
  expect_list lst ["GET / HTTP/1.0"; "User-Agent: Lynx"; ""; "somedata"];;
  try_ (start_test "str_split() - RFC2822 via SMTP");;
  try_ (str_cpy str (lines_lit "HELO a|DATA|To: You|From: Me|Subject: Test||Message here.|"));;
  try_ (str_split lst str (int_of_char LF));;
  expect_list lst ["HELO a"; "DATA"; "To: You"; "From: Me"; "Subject: Test"; ""; "Message here."].

(** From [list_compare()] to [list_truncate()]. *)
Definition list_tests_entries (lst str : ptr) : M unit :=
  try_ (start_test "list_compare()");;
  try_ (str_cpy str (lit "foo bar baz"));;
  try_ (str_split lst str (int_of_char " "));;
  expect_list lst ["foo"; "bar"; "baz"];;
  try_ (start_test "list_shift()");;
  try_ (list_shift str lst);;
  expect_list lst ["bar"; "baz"];;
  expect_text str "foo";;
  try_ (list_shift str lst);;
  try_ (str_cmp str (lit "bar"));;
  expect_list lst ["baz"];;
  try_ (list_shift str lst);;
  try_ (str_cmp str (lit "baz"));;
  try_ (str_cpy str (lit "foo bar baz"));;
  try_ (str_split lst str (int_of_char " "));;
  try_ (start_test "list_compare() #2");;
  expect_list lst ["foo"; "bar"; "baz"];;
  try_ (start_test "list_entry_get()");;
  ent ← try_out (list_entry_get lst 0);
  e ← get_ent ent;
  try_ (start_test "list_entry_get() - value matches");;
  expect_text (ent_value e) "foo";;
  try_ (start_test "list_entry_delete()");;
  try_ (list_entry_delete lst ent);;
  try_ (start_test "list_truncate()");;
  try_ (list_truncate lst).

(** From [list_move()] to [list_sort() - only one item]. *)
Definition list_tests_sort (lst list2 : ptr) : M unit :=
  try_ (start_test "list_move()");;
  try_ (list_truncate lst);;
  try_ (list_truncate list2);;
  list_cats lst ["a"; "b"; "c"];;
  try_ (list_move list2 lst);;
  expect_list list2 ["a"; "b"; "c"];;
  l ← get_list lst;
  when (negb (list_count l =? 0)) (throw "error");;
  try_ (start_test "list_sort() - ascending");;
  try_ (list_truncate lst);;
  list_cats lst ["c"; "a"; "b"];;
  try_ (list_sort lst (Z.lor SORT_ASCENDING SORT_LEXICOGRAPHIC));;
  expect_list lst ["a"; "b"; "c"];;
  try_ (start_test "list_sort() - descending");;
  try_ (list_truncate lst);;
  list_cats lst ["x"; "z"; "y"];;
  try_ (list_sort lst SORT_DESCENDING);;
  expect_list lst ["z"; "y"; "x"];;
  try_ (start_test "list_sort() - ascending numeric");;
  try_ (list_truncate lst);;
  list_cats lst ["99"; "100"];;
  try_ (list_sort lst (Z.lor SORT_ASCENDING SORT_NUMERIC));;
  expect_list lst ["99"; "100"];;
  try_ (start_test "list_sort() - only one item");;
  try_ (list_truncate lst);;
  list_cats lst ["100"];;
  try_ (list_sort lst (Z.lor SORT_ASCENDING SORT_NUMERIC));;
  expect_list lst ["100"].

(** From [list_find_substr()] to [list_from_char()]. *)
Definition list_tests_text (lst str : ptr) : M unit :=
  try_ (start_test "list_find_substr()");;
  try_ (list_truncate lst);;
  list_cats lst ["foo"; "bar"];;
  try_ (list_find_substr lst (lit "ba"));;
  try_ (list_find_substr lst (lit "bar"));;
  rc ← list_find_substr lst (lit "baz");
  when (rc =? 0) (throw "error");;
  try_ (start_test "list_serialize()");;
  try_ (list_truncate lst);;
  list_cats lst ["s p a c e"; "foo"; "bar"];;
  try_ (list_serialize str lst);;
  expect_text str "s%20p%20a%20c%20e foo bar";;
  try_ (start_test "list_deserialize()");;
  try_ (str_cpy str (lit "one%20two three"));;
  try_ (list_deserialize lst str);;
  expect_list lst ["one two"; "three"];;
  try_ (start_test "list_from_char()");;
  try_ (list_from_char lst (text_lit ["one"; "two"; "three"]));;
  expect_list lst ["one"; "two"; "three"].

(** The lists are created inside the function; all three objects are
    destroyed after [finally]. *)
Definition list_run_tests : M Z := func (
  '(rc, str) ← str_new None;
  if negb (rc =? 0) then throw "" else
  '(rc, lst) ← list_new None;
  if negb (rc =? 0) then throw "" else
  '(rc, list2) ← list_new None;
  if negb (rc =? 0) then throw "" else
  labels (
    list_tests_split lst str;;
    list_tests_entries lst str;;
    list_tests_sort lst list2;;
    list_tests_text lst str)
  (mret tt)
  ('(rc, _) ← str_destroy str;
   when (negb (rc =? 0)) (leave (Leave (-1)));;
   '(rc, _) ← list_destroy lst;
   when (negb (rc =? 0)) (leave (Leave (-1)));;
   '(rc, _) ← list_destroy list2;
   when (negb (rc =? 0)) (leave (Leave (-1))))).

(** * Hash tables *)

Definition hash_tests_values (hash ptr_ key data lst : ptr) : M unit :=
  try_ (hash_set hash (lit "key") data);;
  try_ (hash_truncate hash);;
  try_ (str_cpy data (lit "data"));;
  try_ (hash_set hash (lit "key") data);;
  try_ (hash_get ptr_ hash (lit "key"));;
  expect_text ptr_ "data";;
  try_ (hash_truncate hash);;
  try_ (str_cpy data (lit "more.new.data"));;
  try_ (hash_set hash (lit "key") data);;
  try_ (hash_get ptr_ hash (lit "key"));;
  expect_text ptr_ "more.new.data";;
  try_ (start_test "hash_get_keys()");;
  try_ (hash_truncate hash);;
  try_ (hash_set hash (lit "key1") data);;
  try_ (hash_get_keys lst hash);;
  expect_list lst ["key1"];;
  try_ (start_test "hash_get_values()");;
  try_ (hash_truncate hash);;
  try_ (str_cpy data (lit "more.new.data"));;
  try_ (hash_set hash (lit "key1") data);;
  try_ (hash_get_values lst hash);;
  expect_list lst ["more.new.data"].

Definition hash_tests_removal (hash ptr_ data : ptr) : M unit :=
  try_ (start_test "hash_delete()");;
  try_ (hash_truncate hash);;
  try_ (str_cpy data (lit "simple data"));;
  try_ (hash_set hash (lit "key") data);;
  try_ (hash_delete hash (lit "key"));;
  try_ (start_test "hash_truncate()");;
  try_ (hash_set hash (lit "key") data);;
  try_ (hash_truncate hash);;
  rc ← hash_get ptr_ hash (lit "key");
  when (rc =? 0) (throw "error").

Definition hash_run_tests : M Z :=
  func (auto_str (λ ptr_, auto_str (λ key, auto_str (λ data, auto_str (λ buf, auto_list (λ lst, body (
    try_ (str_cpy key (lit "key"));;
    try_ (str_cpy data (lit "data"));;
    hash ← try_out (hash_new None);
    hash_tests_values hash ptr_ key data lst;;
    hash_tests_removal hash ptr_ data;;
    try_ (start_test "hash_destroy()");;
    '(rc, _) ← hash_destroy hash;
    try_ (mret rc)))))))).

(** * The network *)

Definition auto_sock : (ptr → M Z) → M Z := auto_ socket_new socket_destroy.

Section network.
Context `{Regex, Resolver}.

(** The strings and lists of this function are not destroyed. *)
Definition dns_run_tests : M Z := func (local_var (λ port, body (
  domain ← try_out (str_new None);
  host ← try_out (str_new None);
  query ← try_out (str_new None);
  _ ← try_out (str_new None);
  result ← try_out (list_new None);
  try_ (start_test "dns_library_init()");;
  try_ dns_library_init;;
  try_ (start_test "host_get_name()");;
  try_ (host_get_name host);;
  try_ (start_test "dns_get_mx_list() - google.com");;
  try_ (str_cpy domain (lit "google.com"));;
  try_ (dns_get_mx_list result domain);;
  try_ (start_test "dns_get_nameservers()");;
  ns ← try_out (list_new None);
  try_ (dns_get_nameservers ns);;
  try_ (start_test "dns_get_txt_record()");;
  try_ (str_cpy query (lit "recvmail.org"));;
  try_ (dns_get_txt_record ns query);;
  try_ (start_test "dns_get_service_by_name()");;
  try_ (dns_get_service_by_name port (B "smtp") (B "tcp"));;
  n ← get_var port;
  when (negb (n =? 25)) (throw "%u")))).

End network.

(** The thread that answers [socket_client_test]. *)
Definition socket_server_test : M Z :=
  func (auto_sock (λ srv, auto_sock (λ client, auto_str (λ addr, body (
    try_ (socket_set_family srv PF_INET);;
    try_ (str_cpy addr (lit "127.0.0.1"));;
    try_ (socket_bind srv addr 1234);;
    try_ (socket_accept client srv);;
    try_ (socket_puts client (Some (CLit (B "hello" ++ [LF]) 0)))))))).

Definition socket_client_test : M Z :=
  func (auto_sock (λ sock, auto_str (λ addr, auto_str (λ buf, body (
    try_ (socket_set_family sock PF_INET);;
    try_ (str_cpy addr (lit "127.0.0.1"));;
    try_ (start_test "socket_connect()");;
    try_ (socket_connect sock addr 1234);;
    try_ (start_test "socket_readline()");;
    try_ (socket_readline buf sock)))))).

(** Without OpenSSL nothing is left of it. *)
Definition socket_init_library : M Z := func (body (mret tt)).

(** The thread that is created runs [socket_server_test]. *)
Definition socket_run_tests : M Z := func (local_var (λ match_,
  '(rc, buf) ← str_new None;
  if negb (rc =? 0) then throw "" else
  '(rc, lst) ← list_new None;
  if negb (rc =? 0) then throw "" else
  labels (
    try_ (start_test "socket_init_library()");;
    try_ socket_init_library;;
    try_ (start_test "socket_new()");;
    sock ← try_out (socket_new None);
    try_ (socket_set_family sock PF_INET);;
    try_ (start_test "socket_bind() loopback test");;
    try_ thread_create_detached;;
    _ ← syscall "sleep" [AInt 1];
    try_ socket_client_test;;
    try_ (start_test "dns_query_blocklist()");;
    try_ (list_from_char lst (text_lit ["bl.spamcop.net"; "sbl-xbl.spamhaus.org"]));;
    try_ (dns_ping_blocklist lst);;
    try_ (dns_query_blocklist match_ lst sock);;
    try_ (start_test "socket_close()");;
    try_ (socket_close sock);;
    try_ (start_test "socket_destroy()");;
    '(rc, _) ← socket_destroy sock;
    try_ (mret rc);;
    try_ (start_test "host_get_ifaddrs()");;
    try_ (host_get_ifaddrs lst PF_INET))
  (mret tt)
  ('(rc, _) ← str_destroy buf;
   when (negb (rc =? 0)) (leave (Leave (-1)));;
   '(rc, _) ← list_destroy lst;
   when (negb (rc =? 0)) (leave (Leave (-1)))))).

(** * Files *)

(** "%s/name" *)
Definition in_dir (tmpdir : ptr) (name : string) : M bytes :=
  d ← path_of tmpdir; mret (d ++ B "/" ++ B name).

Definition file_tests_names (tmpdir subdir pattern lst : ptr) : M unit :=
  try_ (start_test "file_mkdir()");;
  try_ (str_sprintf subdir (in_dir tmpdir "testdir"));;
  try_ (file_mkdir subdir);;
  try_ (start_test "file_rmdir()");;
  try_ (str_sprintf subdir (in_dir tmpdir "testdir"));;
  try_ (file_rmdir subdir);;
  try_ (start_test "file_glob()");;
  try_ (str_cpy pattern (lit "file.[oh]"));;
  try_ (file_glob lst pattern);;
  l ← get_list lst;
  try_ (test_retval (to_signed 32 (list_count l)) 1);;
  try_ (start_test "file_glob() - no matches");;
  try_ (str_cpy pattern (lit "FILE.NOT.FOUND"));;
  try_ (file_glob lst pattern);;
  l ← get_list lst;
  try_ (test_retval (to_signed 32 (list_count l)) 0);;
  try_ (start_test "file_exists()");;
  try_ (str_cpy pattern (lit "FILE.NOT.FOUND"));;
  exists_ ← try_out (file_exists pattern);
  when (default false exists_) (throw "file_exists() failed").

Section files.
Context `{Regex, Resolver}.

(** The copy is not read back: [file_write(buf, path2)] writes its name to a
    file "test". *)
Definition file_run_tests (tmpdir : ptr) : M Z := func (body (
  subdir ← try_out (str_new None);
  path ← try_out (str_new None);
  path2 ← try_out (str_new None);
  buf ← try_out (str_new None);
  pattern ← try_out (str_new None);
  lst ← try_out (list_new None);
  file_tests_names tmpdir subdir pattern lst;;
  try_ (start_test "file_copy()");;
  try_ (str_sprintf path (in_dir tmpdir "file1"));;
  try_ (str_sprintf path2 (in_dir tmpdir "file2"));;
  try_ (str_cpy buf (lit "test"));;
  try_ (file_write path buf);;
  try_ (file_copy path path2);;
  try_ (file_write buf path2);;
  expect_text buf "test";;
  try_ (file_unlink path);;
  try_ (file_unlink path2);;
  try_ (start_test "file_write() and file_read()");;
  try_ (str_sprintf path (in_dir tmpdir "fwfr"));;
  try_ (str_cpy buf (lit "test"));;
  try_ (file_write path buf);;
  try_ (str_truncate buf);;
  try_ (file_read buf path);;
  expect_text buf "test")).

(** * Users, threads, and the whole program *)

Definition passwd_run_tests : M Z := func (body (
  _ ← try_out (str_new None);
  user ← try_out (str_new None);
  group ← try_out (str_new None);
  try_ (start_test "passwd_get_id_by_name()");;
  try_ (str_cpy user (lit "root"));;
  uid ← try_out (passwd_get_id_by_name user);
  try_ (test_retval (to_signed 32 (default 1 uid)) 0);;
  try_ (start_test "passwd_exists() - nonexistent account");;
  try_ (str_cpy user (lit "r8-)t"));;
  found ← try_out (passwd_exists user);
  when (found : bool) (throw "");;
  try_ (start_test "group_get_id_by_name()");;
  try_ (str_cpy group (lit "daemon"));;
  gid ← try_out (group_get_id_by_name 1 group);
  try_ (test_retval (to_signed 32 gid) 1);;
  try_ (start_test "group_exists() - nonexistent account");;
  try_ (str_cpy group (lit "r8-)t"));;
  found ← try_out (group_exists group);
  when (found : bool) (throw "");;
  try_ (start_test "group_get_name_by_id()");;
  try_ (group_get_name_by_id group 1);;
  expect_text group "daemon")).

Definition thread_run_tests : M Z := func (body (
  _ ← try_out (str_new None);
  try_ (start_test "thread_library_init()");;
  try_ thread_library_init)).

Definition main : M Z := func (body (
  try_ thread_library_init;;
  cmd ← try_out (str_new None);
  conffile ← try_out (str_new None);
  try_ (str_cpy cmd (lit "rm -rf .check/"));;
  _ ← process_run_system cmd;
  tmpdir ← try_out (str_new None);
  try_ (str_cpy tmpdir (lit ".check"));;
  _ ← syscall "mkdir" [AStr (B ".check"); AInt 493];
  try_ (str_cpy conffile (lit ".check/nonexistent"));;
  try_ str_run_tests;;
  try_ list_run_tests;;
  try_ hash_run_tests;;
  try_ dns_run_tests;;
  try_ (file_run_tests tmpdir);;
  try_ passwd_run_tests;;
  try_ socket_run_tests;;
  try_ thread_run_tests;;
  try_ (str_cpy cmd (lit "rm -rf .check/"));;
  _ ← process_run_system cmd;
  mret tt)).

End files.
