(* ===== verification/RegexTheorems.v ===== *)
(** The property of the functions on regular expressions, with a witness. *)

From S2P Require Import Prelude Types Machine Wp StringOps StringFacts ListOps ListRep RegexOps RegexFacts Samples.

Open Scope Z_scope.

(** C14: [str_subst_regex] replaces the first match of the pattern, and only the first, by the replacement; without a match it succeeds and changes nothing; a pattern that does not compile and a failure of the matcher are errors that change nothing. *)
Theorem str_subst_regex_first `{RegexLaws} w q text pat repl :
  ready w → str_rep w q text → nonul pat → nonul repl →
  Z.of_nat (length text + length repl) < STRING_MAX →
  ∃ z w' t, str_subst_regex (Some q) (Some (CLit pat 0)) (Some (CLit repl 0)) w = Ok z w' ∧ str_rep w' q t ∧
    match regcomp pat (nc_flags 0) with
    | inl _ => z = -1 ∧ t = text
    | inr r =>
        (∀ so eo m, regexec r text = inr ((so, eo) :: m) →
           z = 0 ∧ t = take (Z.to_nat so) text ++ repl ++ drop (Z.to_nat eo) text) ∧
        (∀ e, regexec r text = inl e → t = text ∧ (z = 0 ↔ e = REG_NOMATCH))
    end.
Proof.
  intros Hr Hq Hp Hn Hmax.
  destruct (wp_ok _ _ _ (str_subst_regex_ok w q text pat repl no_exit Hr Hq Hp Hn Hmax))
    as (z & w' & Hrun & t & Ho & Hq' & _). exists z, w', t. split; [done|]. split; [done|].
  unfold subst_outcome in Ho. destruct (regcomp pat _) as [e|r]; [by simplify_eq|].
  destruct (regexec r text) as [e|[|[so eo] m]]; simplify_eq; (split; [intros ? ? ? [=]|intros ? [=]]); subst; try done.
  split; [done|]. by destruct (Z.eqb_spec e0 REG_NOMATCH).
Qed.

(** A matcher that finds the second character of "foo" and nothing else. *)
Definition foo_regex : Regex := {|
  regex_t := bytes;
  regcomp p flags := inr p;
  re_nsub r := 0;
  regexec r t := if bool_decide (t = B "foo") then inr (replicate 16 (1, 2)) else inl REG_NOMATCH
|}.

Lemma foo_laws : @RegexLaws foo_regex.
Proof.
  split; [done|..]; cbn -[replicate]; intros r s; case_bool_decide; try done.
  - by intros m [= <-].
  - intros so eo m. cbn. intros [= <- <- _]. subst s. cbn. lia.
Qed.

Lemma str_subst_regex_first_witness :
  ∃ z w' t, @str_subst_regex foo_regex (Some 1%positive) (Some (CLit (B "o") 0)) (Some (CLit (B "xy") 0)) sample = Ok z w' ∧
    str_rep w' 1 t ∧
    (∀ so eo m, @regexec foo_regex (B "o") (B "foo") = inr ((so, eo) :: m) →
       z = 0 ∧ t = take (Z.to_nat so) (B "foo") ++ B "xy" ++ drop (Z.to_nat eo) (B "foo")) ∧
    (∀ e, @regexec foo_regex (B "o") (B "foo") = inl e → t = B "foo" ∧ (z = 0 ↔ e = REG_NOMATCH)).
Proof.
  apply (@str_subst_regex_first foo_regex foo_laws sample 1 (B "foo") (B "o") (B "xy")).
  - exact sample_ready.
  - exact sample_1.
  - by apply (bool_decide_unpack _).
  - by apply (bool_decide_unpack _).
  - by vm_compute.
Defined.
