(* ===== verification/SelfTheorems.v ===== *)
(** The self tests of the library on the model: they pass on a fresh memory,
    and they survive the failure of any one allocation. *)

From S2P Require Import Prelude Types Machine StringOps RegexOps ListOps HashOps TestOps SelfTest.

Open Scope Z_scope.














