(* ===== verification/NetTheorems.v ===== *)
(** The properties of socket.c, session.c, dns.c, process.c and server.c, each
    with a witness on the memory of [Samples] extended by sockets and a session,
    and a system with given replies. *)

From S2P Require Import ListRefine HashRefine Samples ListTheorems.
From S2P Require Import Prelude Types Machine Wp StringOps StringFacts StringMore ListOps ListRep.
From S2P Require Import ListFacts ListText PasswdOps FileOps FileFacts UidMapOps InetOps DnsOps SocketOps.
From S2P Require Import SessionOps ProcessOps ServerOps NumberFacts NetFacts FileRead LineFacts SessionFacts DnsFacts PacketFacts PidFacts.

Open Scope Z_scope.

(** * The memory of the witnesses *)

(** A connected socket whose buffer is the list [l]; [fr] if its last line is
    incomplete. *)
Definition sample_socket (l : loc) (fr : bool) : socket_t :=
  mk_socket zero_addr (mk_addr AF_INET 0 16777343 []) CONNECT (-1) 0 (if fr then -1 else 0)
    (0, 0, 0) 0 6 PF_LOCAL (0, 0, 0) (Some l).

(** An open session of the user "foo", without groups, on the socket 50. *)
Definition sample_session (state handle : Z) : session_t :=
  mk_session (Some 1%positive) (Some 9%positive) None (Some 50%positive) 0 state 0 None None 0
    None None false handle.

(** The sockets 50 and 51, the variable 52 and the session 53. *)
Definition sample_net (o : socket_t) (s : session_t) (n : net_state) : net_state :=
  upd_vars <[52%positive := 7]> (upd_sessions <[53%positive := s]>
    (upd_socks <[50%positive := o]> (upd_socks <[51%positive := zero_socket]> n))).

Definition online (o : socket_t) (s : session_t) (rs : list sysret) : world :=
  upd_sys (λ _, mk_system rs [] 0) (upd_net (sample_net o s) sample).

Lemma online_ready o s rs : ready (online o s rs).
Proof. apply ready_sys, ready_net, sample_ready. Qed.

Lemma online_list o s rs k l es ss : list_rep k sample l es ss → list_rep k (online o s rs) l es ss.
Proof. by apply list_rep_same. Qed.

Lemma online_reader s rs fr :
  reader (online (sample_socket 7 fr) s rs) 50 7 ents7 fr (buffer_text fr [B "x"; B "y z"]).
Proof.
  exists (sample_socket 7 fr), (last_ptr ents7 None), [B "x"; B "y z"].
  split_and!; try done; [by destruct fr|apply list_buffer, online_list, sample_7|].
  repeat constructor; by apply (bool_decide_unpack _).
Qed.

(** * Reading lines *)





(** [n] calls of [socket_readline], and what they answer. *)
Fixpoint read_again (n : nat) (dest sock : ptr) : M (list Z) :=
  match n with
  | O => mret []
  | S n => r ← socket_readline dest sock; rs ← read_again n dest sock; mret (r :: rs)
  end.

(** C31: when a line is incomplete and the peer closes the connection, every further call of [socket_readline] fails; the unread text stays in the buffer, including the complete lines before the incomplete one, which are never handed out. *)
Theorem socket_readline_withholds_lines n w k l es u q rest :
  ready w → reader w k l es true u → answers (sys w) = replicate n (reply 0) ++ rest →
  ∃ w' o tl ss, read_again n q (Some k) w = Ok (replicate n (-1)) w' ∧
    socks (net w') !! k = Some o ∧ sock_read_buf o = Some l ∧ ((0 < n)%nat → sock_connected o = 0) ∧
    buffer_rep w' l tl es ss ∧ buffer_text true ss = u ∧ answers (sys w') = rest.
Proof.
  intros Hr (o & tl & ss & Hk & Hl & _ & Hfr & HB & _ & _ & ->).
  assert (sock_fragmented o ≠ 0) as Hf by (apply Z.eqb_neq, negb_true_iff; done). clear Hfr.
  revert w o Hr Hk Hl HB Hf. induction n as [|n IH]; intros w o Hr Hk Hl HB Hf Ha.
  { exists w, o, tl, ss. split_and!; try done. lia. }
  destruct (wp_ok _ _ _ (readline_eof w k o l _ q _ no_exit Hr Hk Hl (br_head _ _ _ _ _ HB) (or_intror Hf) Ha))
    as (r & w1 & Hrun & -> & w0 & S & Hq & Hk1 & _ & Ha1).
  assert (buffer_rep w1 l tl es ss) as HB1.
  { apply (buffer_rep_same w0); [apply Hq..|intros p t; by apply quiet_rep|].
    eapply buffer_rep_mono; [exact Hr|exact S|exact HB|apply not_elem_of_empty|apply disjoint_empty_r..]. }
  destruct (IH w1 (set_sock_connected o 0)) as (w' & o' & tl' & ss' & Hrun' & H1 & H2 & H3 & H4); try done.
  { eapply quiet_ready; [exact Hq|apply S]. }
  exists w', o', tl', ss'. split; [|split; [done|split; [done|split; [|done]]]].
  - cbn [read_again]. unfold mbind at 1, M_bind at 1. rewrite Hrun. unfold mbind, M_bind. by rewrite Hrun'.
  - intros _. destruct n as [|n]; [|apply H3; lia]. cbn in Hrun'. injection Hrun' as <-.
    rewrite Hk1 in H1. by injection H1 as <-.
Qed.

Lemma socket_readline_withholds_lines_witness :
  let w := online (sample_socket 7 true) (sample_session 2 0) [reply 0; reply 0] in
  ∃ w' o tl ss, read_again 2 (Some 1%positive) (Some 50%positive) w = Ok [-1; -1] w' ∧
    socks (net w') !! 50%positive = Some o ∧ sock_read_buf o = Some 7%positive ∧
    ((0 < 2)%nat → sock_connected o = 0) ∧ buffer_rep w' 7 tl ents7 ss ∧
    buffer_text true ss = B "x" ++ LF :: B "y z" ∧ answers (sys w') = [].
Proof.
  intros w. apply (socket_readline_withholds_lines 2 w 50 7 ents7 _ (Some 1%positive) []).
  - apply online_ready.
  - apply online_reader.
  - done.
Defined.

(** * Addresses *)

(** C24: [str_to_inet] of the text that [str_from_inet] makes of an address gives the address back, for every IPv4 address. *)
Theorem inet_text_round_trip w q bs a :
  ready w → str_rep w q bs → 0 ≤ a < 2 ^ 32 →
  ∃ w', str_from_inet (Some q) a w = Ok 0 w' ∧ str_rep w' q (inet_ntop a) ∧
    str_to_inet (Some q) w' = Ok (0, a) w'.
Proof.
  intros Hr Hq Ha. destruct (wp_ok _ _ _ (str_from_inet_ok w q bs a no_exit Hr Hq)) as (r & w' & Hrun & -> & Hq' & _).
  exists w'. split; [done|]. split; [done|].
  destruct (wp_ok _ _ _ (str_to_inet_ok w' q a no_exit Hq' Ha)) as ([r b] & w2 & Hrun2 & -> & -> & ->). done.
Qed.

Lemma inet_text_round_trip_witness : ∃ w',
  str_from_inet (Some 1%positive) 16777343 sample = Ok 0 w' ∧ str_rep w' 1 (inet_ntop 16777343) ∧
  str_to_inet (Some 1%positive) w' = Ok (0, 16777343) w'.
Proof. apply (inet_text_round_trip sample 1 (B "foo") 16777343); [exact sample_ready|exact sample_1|lia]. Defined.

(** * Writing *)

(** C30: [socket_put_str] makes one call of write(2) with the whole text and succeeds if and only if the call took all of it; a partial write is an error and is not resumed; an empty text is not written. *)
Theorem socket_put_str_writes_once w k o q s r rest :
  socks (net w) !! k = Some o → str_rep w q s → answers (sys w) = r :: rest →
  ∃ z w', socket_put_str (Some k) (Some q) w = Ok z w' ∧
    (z = 0 ↔ s = [] ∨ sys_ret r = Z.of_nat (length s)) ∧
    trace (sys w') = (if decide (s = []) then [] else [socket_write_call o s]) ++ trace (sys w) ∧
    net w' = net w.
Proof.
  intros Hk Hq Ha. destruct (str_rep_get _ _ _ Hq) as (b & sz & Hs & Hc & _).
  unfold socket_put_str, mbind, M_bind, get_str, deref_obj. rewrite Hs. cbn [str_value str_len].
  destruct (decide (s = [])) as [->|Hne].
  - exists 0, w. split; [done|]. split; [naive_solver|done].
  - destruct (wp_ok _ _ _ (socket_write_ok w k o (CBlk b 0) s r rest no_exit Hk Hc Hne Ha)) as (z & w' & Hrun & -> & ->).
    do 2 eexists. split; [exact Hrun|]. split; [|done].
    destruct (Z.eqb_spec (sys_ret r) (Z.of_nat (length s))); naive_solver.
Qed.

Lemma socket_put_str_writes_once_witness :
  let w := online (sample_socket 9 false) (sample_session 2 0) [reply 2] in
  ∃ z w', socket_put_str (Some 50%positive) (Some 1%positive) w = Ok z w' ∧
    (z = 0 ↔ B "foo" = [] ∨ 2 = 3) ∧
    trace (sys w') = [socket_write_call (sample_socket 9 false) (B "foo")] ++ [] ∧ net w' = net w.
Proof.
  intros w. apply (socket_put_str_writes_once w 50 (sample_socket 9 false) 1 (B "foo") (reply 2) []).
  - done.
  - exact sample_1.
  - done.
Defined.

(** * Accepting clients *)

(** C20: [socket_accept] ends: it repeats accept(2) as long as signals interrupt it, once for each interruption; then it succeeds with the socket of the client, which is connected and has the address of getpeername(2), or without a client if the connection was aborted, or it fails. *)
Theorem socket_accept_retries n w d k od ok r g rest :
  ready w → socks (net w) !! d = Some od → socks (net w) !! k = Some ok → d ≠ k →
  answers (sys w) = interruptions n ++ r :: g :: rest → (sys_ret r < 0 → sys_errno r ≠ EINTR) →
  ∃ w', socket_accept (Some d) (Some k) w = Ok (accept_result ok r g) w' ∧
    socks (net w') !! d = Some (client_of od ok r g) ∧
    trace (sys w') = accept_calls n ok r ++ trace (sys w).
Proof.
  intros Hr Hd Hk Hne Ha Herr.
  destruct (wp_ok _ _ _ (socket_accept_ok n d k od ok r g rest w no_exit Hr Hd Hk Hne Ha Herr))
    as (z & w' & Hrun & -> & H1 & H2). by exists w'.
Qed.

Lemma socket_accept_retries_witness :
  let w := online (sample_socket 9 false) (sample_session 2 0) (interruptions 2 ++ [reply 8; reply 0]) in
  ∃ w', socket_accept (Some 51%positive) (Some 50%positive) w =
      Ok (accept_result (sample_socket 9 false) (reply 8) (reply 0)) w' ∧
    socks (net w') !! 51%positive = Some (client_of zero_socket (sample_socket 9 false) (reply 8) (reply 0)) ∧
    trace (sys w') = accept_calls 2 (sample_socket 9 false) (reply 8) ++ [].
Proof.
  intros w. apply (socket_accept_retries 2 w 51 50 zero_socket (sample_socket 9 false) (reply 8) (reply 0) []).
  - apply online_ready.
  - done.
  - done.
  - done.
  - done.
  - cbn. lia.
Defined.

(** * Sessions *)

(** The registration of several controllers. *)
Fixpoint register_all (cs : list session_controller_t) : M (list (Z * option Z)) :=
  match cs with
  | [] => mret []
  | c :: cs => r ← session_controller_register c; rs ← register_all cs; mret (r :: rs)
  end.

(** The table of controllers has ten slots, of which the first is not used. *)
Definition table_ok (n : net_state) : Prop :=
  1 ≤ CONTROLLER_COUNT n ≤ CONTROLLER_MAX ∧ length (CONTROLLER n) = Z.to_nat CONTROLLER_MAX.

Definition slot (n : net_state) (h : Z) : option session_controller_t := CONTROLLER n !! Z.to_nat h.

(** C18: registrations keep the table of controllers well formed; they hand out consecutive handles until the table is full and fail from then on; every handle denotes its controller for good, so later registrations never replace an earlier one. *)
Theorem registrations_keep_handles cs w :
  table_ok (net w) →
  let c := CONTROLLER_COUNT (net w) in
  ∃ w', register_all cs w = Ok ((λ i, if Z.of_nat i + c <? CONTROLLER_MAX then (0, Some (Z.of_nat i + c))
                                      else (-1, None)) <$> seq 0 (length cs)) w' ∧
    table_ok (net w') ∧ c ≤ CONTROLLER_COUNT (net w') ∧
    (∀ h, 0 ≤ h < c → slot (net w') h = slot (net w) h) ∧
    (∀ i ctl, cs !! i = Some ctl → Z.of_nat i + c < CONTROLLER_MAX →
       Z.of_nat i + c < CONTROLLER_COUNT (net w') ∧ slot (net w') (Z.of_nat i + c) = Some ctl).
Proof.
  revert w. induction cs as [|ctl cs IH]; intros w Hok c.
  { exists w. split; [done|]. split; [done|]. split; [lia|]. split; [done|]. intros i x Hi. by rewrite lookup_nil in Hi. }
  pose proof Hok as [Hc Hlen]. fold c in Hc. unfold CONTROLLER_MAX in *.
  cbn [register_all length seq fmap list_fmap]. unfold mbind, M_bind. rewrite register_ok. unfold CONTROLLER_MAX. fold c.
  destruct (Z.leb_spec 10 c) as [Hfull|Hfree].
  - destruct (IH w Hok) as (w' & Hrun & Hok' & Hle & Hold & Hnew). fold c in Hrun, Hle, Hold, Hnew.
    exists w'. rewrite Hrun. split; [|split; [done|split; [done|split; [done|]]]].
    + rewrite (proj2 (Z.ltb_ge _ _)) by lia. do 2 f_equal. rewrite <- fmap_S_seq, <- list_fmap_compose.
      apply list_fmap_ext. intros _ i _. cbn [compose]. rewrite !(proj2 (Z.ltb_ge _ _)) by lia. done.
    + intros i x _ Hi. lia.
  - set (w1 := registered c ctl w).
    assert (CONTROLLER_COUNT (net w1) = c + 1) as Hc1 by (cbn; rewrite Z.mod_small; lia).
    assert (∀ h, 0 ≤ h → h ≠ c → slot (net w1) h = slot (net w) h) as Hother.
    { intros h Hh Hhc. unfold slot. cbn. apply list_lookup_insert_ne. lia. }
    destruct (IH w1) as (w' & Hrun & Hok' & Hle & Hold & Hnew).
    { split; [rewrite Hc1; unfold CONTROLLER_MAX; lia|]. cbn. by rewrite length_insert. }
    rewrite Hc1 in *. exists w'. rewrite Hrun. split; [|split; [done|split; [lia|split]]].
    + rewrite (proj2 (Z.ltb_lt _ _)) by lia. do 2 f_equal. rewrite <- fmap_S_seq, <- list_fmap_compose.
      apply list_fmap_ext. intros _ i _. cbn [compose].
      by replace (Z.of_nat (S i) + c) with (Z.of_nat i + (c + 1)) by lia.
    + intros h Hh. rewrite Hold by lia. apply Hother; lia.
    + intros [|i] x Hx Hi; cbn in Hx.
      * injection Hx as <-. split; [lia|]. rewrite Hold by lia. unfold slot. cbn.
        apply list_lookup_insert_eq. rewrite Hlen. unfold CONTROLLER_MAX. lia.
      * replace (Z.of_nat (S i) + c) with (Z.of_nat i + (c + 1)) in * by lia. by apply Hnew.
Qed.

Definition two_controllers : list session_controller_t :=
  [mk_controller 1 2 0 0 0 0 0; mk_controller 3 4 0 0 0 0 0].

Lemma registrations_keep_handles_witness :
  table_ok initial_net ∧
  ∃ w', register_all two_controllers empty_world = Ok [(0, Some 1); (0, Some 2)] w' ∧
    table_ok (net w') ∧ 1 ≤ CONTROLLER_COUNT (net w') ∧
    (∀ h, 0 ≤ h < 1 → slot (net w') h = slot initial_net h) ∧
    (∀ i ctl, two_controllers !! i = Some ctl → Z.of_nat i + 1 < CONTROLLER_MAX →
       Z.of_nat i + 1 < CONTROLLER_COUNT (net w') ∧ slot (net w') (Z.of_nat i + 1) = Some ctl).
Proof.
  assert (table_ok initial_net) as H by (split; cbn; unfold CONTROLLER_MAX; lia).
  split; [exact H|]. exact (registrations_keep_handles two_controllers empty_world H).
Defined.

(** [session_controller_invoke] calls the hook of the controller whose handle the session has, with the session and the argument, and fails exactly when the hook answers other than 0; an optional hook that is not set succeeds, a mandatory one is a null pointer that is called; a session with the handle 0 has no hooks. *)
Lemma session_hooks_dispatch `{Hooks} s o f arg w :
  sessions (net w) !! s = Some o → table_ok (net w) →
  0 ≤ s_controller_handle o < CONTROLLER_COUNT (net w) → 0 ≤ f < SESSION_HOOK_MAX →
  ∃ ctl fn optional, slot (net w) (s_controller_handle o) = Some ctl ∧ hook_of ctl f = Some (fn, optional) ∧
    session_controller_invoke (Some s) f arg w =
      (if s_controller_handle o =? 0 then Ok 0 w
       else if fn =? 0 then if (optional : bool) then Ok 0 w else Crash NullDeref
       else hook_result (hook_code fn (Some s) arg w)).
Proof.
  intros Hs [Hc Hlen] Hh Hf.
  assert (is_Some (slot (net w) (s_controller_handle o))) as [ctl Hctl].
  { apply lookup_lt_is_Some. rewrite Hlen. lia. }
  assert (is_Some (hook_of ctl f)) as [[fn optional] Hhook].
  { unfold hook_of, SESSION_HOOK_MAX in *. repeat (case_match; [by eexists|]).
    repeat match goal with H : (f =? _) = false |- _ => apply Z.eqb_neq in H end.
    unfold SESSION_REQUEST_HANDLER, SESSION_RESPONSE_HANDLER, SESSION_INIT, SESSION_RESET,
      SESSION_TIMEOUT, SESSION_OVERLOAD, SESSION_DESTROY in *. lia. }
  exists ctl, fn, optional. split; [done|]. split; [done|]. destruct (Z.eqb_spec (s_controller_handle o) 0) as [H0|H0].
  - by eapply invoke_none.
  - eapply invoke_ok; [exact Hs|lia|exact Hctl|exact Hhook|lia].
Qed.

(** Hooks for the witnesses: the function 2 succeeds, all others answer 5. *)
Definition sample_hooks : Hooks := {| hook_code fn s arg := mret (if fn =? 2 then 0 else 5) |}.

Definition controlled : world :=
  upd_net (upd_table 3 [zero_controller; mk_controller 1 2 0 0 0 0 0; mk_controller 3 4 0 0 0 0 0;
      zero_controller; zero_controller; zero_controller; zero_controller; zero_controller;
      zero_controller; zero_controller])
    (online (sample_socket 9 false) (sample_session 2 1) []).

Lemma session_hooks_dispatch_witness : ∃ ctl fn optional,
  slot (net controlled) 1 = Some ctl ∧ hook_of ctl SESSION_REQUEST_HANDLER = Some (fn, optional) ∧
  @session_controller_invoke sample_hooks (Some 53%positive) SESSION_REQUEST_HANDLER NoArg controlled =
    (if 1 =? 0 then Ok 0 controlled
     else if fn =? 0 then if (optional : bool) then Ok 0 controlled else Crash NullDeref
     else hook_result (@hook_code sample_hooks fn (Some 53%positive) NoArg controlled)).
Proof.
  apply (@session_hooks_dispatch sample_hooks 53 (sample_session 2 1) SESSION_REQUEST_HANDLER NoArg controlled).
  - done.
  - split; cbn; unfold CONTROLLER_MAX; lia.
  - cbn. lia.
  - unfold SESSION_REQUEST_HANDLER, SESSION_HOOK_MAX. lia.
Defined.

(** C19: [session_close] of an open session closes its descriptor once, forgets the user and the groups, and ends in the state SESSION_CLOSED, in which closing again does nothing; when close(2) fails the session keeps its state, so that it can be closed again. *)
Theorem session_close_once w s u g k o ok t ss c rest :
  ready w → open_session w s u g k o t ss → socks (net w) !! k = Some ok → 0 ≤ sock_fd ok →
  answers (sys w) = c :: rest →
  ∃ z w' o', session_close (Some s) w = Ok z w' ∧ sessions (net w') !! s = Some o' ∧
    trace (sys w') = close_call (sock_fd ok) :: trace (sys w) ∧ str_rep w' u [] ∧
    list_rep true w' g [] [] ∧
    if sys_ret c <? 0 then z = -1 ∧ o' = o
    else z = 0 ∧ s_session_state o' = SESSION_CLOSED ∧ socks (net w') !! k = Some (set_sock_fd ok (-1)) ∧
      session_close (Some s) w' = Ok 0 w'.
Proof.
  intros Hr Ho Hk Hfd Ha.
  destruct (wp_ok _ _ _ (session_close_ok w s u g k o ok t ss c rest no_exit Hr Ho Hk Hfd Ha))
    as (z & w' & Hrun & -> & _ & Hu & Hg & Hk' & Hs' & Hsys).
  unfold close_socket in Hk'. do 3 eexists. split; [exact Hrun|]. split; [exact Hs'|]. rewrite Hsys.
  split; [done|]. split; [done|]. split; [done|]. destruct (sys_ret c <? 0); [done|].
  split; [done|]. split; [done|]. split; [done|]. by eapply session_close_closed.
Qed.

Lemma sample_open state handle rs :
  state ≠ SESSION_UNDEF → state ≠ SESSION_CLOSED →
  open_session (online (sample_socket 9 false) (sample_session state handle) rs) 53 1 9 50
    (sample_session state handle) (B "foo") [].
Proof.
  intros H1 H2. split_and!; try done; [exact sample_1|]. exists []. split; [|apply not_elem_of_empty].
  apply online_list, sample_9.
Qed.

Lemma session_close_once_witness :
  let w := online (sample_socket 9 false) (sample_session SESSION_READ 0) [reply 0] in
  ∃ z w' o', session_close (Some 53%positive) w = Ok z w' ∧ sessions (net w') !! 53%positive = Some o' ∧
    trace (sys w') = [close_call 6] ∧ str_rep w' 1 [] ∧ list_rep true w' 9 [] [] ∧
    (z = 0 ∧ s_session_state o' = SESSION_CLOSED ∧
     socks (net w') !! 50%positive = Some (set_sock_fd (sample_socket 9 false) (-1)) ∧
     session_close (Some 53%positive) w' = Ok 0 w').
Proof.
  intros w. apply (session_close_once w 53 1 9 50 (sample_session SESSION_READ 0) (sample_socket 9 false)
    (B "foo") [] (reply 0) []).
  - apply online_ready.
  - by apply sample_open.
  - done.
  - done.
  - done.
Defined.

Definition state_greeting (s : loc) (o : session_t) (w : world) : world :=
  upd_net (upd_sessions <[s := set_session_state SESSION_GREETING o]>) w.

(** C23: after the greeting, [session_handler] does not return once the peer has closed the connection and no complete line is left: whatever the bound on the number of requests, each read that reports the end of the file leaves the session waiting for a request, so the thread spins for ever. *)
Theorem session_handler_never_ends `{Hooks} fuel m w w2 s o k l rest :
  sessions (net w) !! s = Some o → session_greeting (Some s) (state_greeting s o w) = Ok 0 w2 →
  waiting w2 s k l → answers (sys w2) = replicate m (reply 0) ++ rest → (fuel ≤ m)%nat →
  session_handler fuel (Some s) w = NoFuel.
Proof. intros Hs Hg Hw Ha Hle. by eapply handler_eof. Qed.

Definition hung_up (n : nat) : world :=
  online (sample_socket 9 false) (sample_session SESSION_OPEN 0) (replicate n (reply 0)).

Definition greeted (n : nat) : world :=
  upd_net (upd_sessions <[53%positive := sample_session SESSION_READ 0]>)
    (state_greeting 53 (sample_session SESSION_OPEN 0) (hung_up n)).

Lemma session_handler_never_ends_witness :
  @session_handler sample_hooks 100 (Some 53%positive) (hung_up 1000) = NoFuel.
Proof.
  apply (@session_handler_never_ends sample_hooks 100 1000 (hung_up 1000) (greeted 1000) 53
    (sample_session SESSION_OPEN 0) 50 9 []).
  - done.
  - reflexivity.
  - split; [do 2 apply ready_net; apply online_ready|].
    exists (sample_session SESSION_READ 0), (sample_socket 9 false), (mk_list_t 0 None None).
    split_and!; try done. by left.
  - by rewrite app_nil_r.
  - lia.
Defined.

(** [session_is_loopback] compares texts: it accepts a client if and only if the text of its address is not before "127.0.0.1" in the order of strcmp(3), so that it takes every client whose address starts with an octet of 128 or more for local. *)
Lemma session_is_loopback_compares_texts w s k o ok :
  ready w → sessions (net w) !! s = Some o → s_sock o = Some k → socks (net w) !! k = Some ok →
  let a := sin_addr (sock_remote ok) in
  ∃ r w', session_is_loopback (Some s) w = Ok r w' ∧
    (r = 0 ↔ 0 ≤ strcmp (inet_ntop a) (B "127.0.0.1")) ∧ (128 ≤ octet a 0 → r = 0).
Proof.
  intros Hr Hs Hk Hok a.
  destruct (wp_ok _ _ _ (session_is_loopback_ok w s k o ok no_exit Hr Hs Hk Hok)) as (r & w' & Hrun & ->).
  fold a. do 2 eexists. split; [exact Hrun|]. fold a. split.
  - destruct (Z.ltb_spec (strcmp (inet_ntop a) (B "127.0.0.1")) 0); lia.
  - intros H. by rewrite (high_address a H).
Qed.

Definition far_socket : socket_t :=
  set_sock_remote (sample_socket 9 false) (mk_addr AF_INET 0 3232235777 []).

Lemma session_is_loopback_compares_texts_witness :
  let w := online far_socket (sample_session SESSION_READ 0) [] in
  ∃ r w', session_is_loopback (Some 53%positive) w = Ok r w' ∧
    (r = 0 ↔ 0 ≤ strcmp (inet_ntop 3232235777) (B "127.0.0.1")) ∧ (128 ≤ octet 3232235777 0 → r = 0).
Proof.
  intros w. apply (session_is_loopback_compares_texts w 53 50 (sample_session SESSION_READ 0) far_socket).
  - apply online_ready.
  - done.
  - done.
  - done.
Defined.

(** * Block lists *)

(** C22: [dns_query_blocklist] looks up the address of the client with its octets in reverse order under each domain of the list, in the order of the list and up to the first domain that knows it; the result tells whether there is one. *)
Theorem dns_query_blocklist_reverses w v k l o kl es ss x :
  let a := sin_addr (sock_remote o) in
  ready w → vars (net w) !! v = Some x → socks (net w) !! k = Some o → list_rep kl w l es ss →
  (length ss ≤ length (answers (sys w)))%nat →
  Forall (λ d : bytes, Z.of_nat (length (reversed a ++ B "." ++ d)) ≤ STRING_MAX) ss →
  ∃ w', dns_query_blocklist (Some v) (Some l) (Some k) w = Ok 0 w' ∧
    vars (net w') !! v = Some (if fst (listed ss (answers (sys w))) then 1 else 0) ∧
    trace (sys w') = lookups (reversed a) (snd (listed ss (answers (sys w)))) ++ trace (sys w).
Proof.
  intros a Hr Hv Hk Hl Hlen Hmax.
  destruct (wp_ok _ _ _ (query_blocklist_ok w v k l o kl es ss x no_exit Hr Hv Hk Hl Hlen Hmax))
    as (r & w' & Hrun & -> & H1 & H2). by exists w'.
Qed.

Lemma dns_query_blocklist_reverses_witness :
  let w := online (sample_socket 9 false) (sample_session 2 0) [reply_error 1; reply 0] in
  ∃ w', dns_query_blocklist (Some 52%positive) (Some 7%positive) (Some 50%positive) w = Ok 0 w' ∧
    vars (net w') !! 52%positive = Some 1 ∧
    trace (sys w') = [lookup_call (B "1.0.0.127.y z"); lookup_call (B "1.0.0.127.x")].
Proof.
  intros w. apply (dns_query_blocklist_reverses w 52 50 7 (sample_socket 9 false) true ents7 [B "x"; B "y z"] 7).
  - apply online_ready.
  - done.
  - done.
  - apply online_list, sample_7.
  - cbn. lia.
  - repeat constructor; by vm_compute.
Defined.

(** * Mail exchangers *)







(** * Processes *)

(** C25: [process_create] calls fork(2) until it succeeds or fails for another reason than EAGAIN, with a pause after each failure and at most 31 times, and tells the number of the child to its caller. *)
Theorem process_create_retries n v x f r rest w :
  vars (net w) !! v = Some x → answers (sys w) = busy n (r :: rest) → (n ≤ 30)%nat →
  last_attempt n r → sys_ret r ≠ 0 →
  ∃ z w', process_create (Some v) f w = Ok z w' ∧
    (if sys_ret r <? 0 then z = -1 ∧ vars (net w') !! v = Some x
     else z = 0 ∧ vars (net w') !! v = Some (sys_ret r)) ∧
    trace (sys w') = fork_call :: concat (replicate n wait_calls) ++ trace (sys w) ∧
    answers (sys w') = rest.
Proof.
  intros Hv Ha Hn Hlast H0.
  destruct (wp_ok _ _ _ (process_create_ok n v x f r rest w no_exit Hv Ha Hn Hlast H0))
    as (z & w' & Hrun & -> & H1 & H2 & H3). do 2 eexists. split; [exact Hrun|].
  by destruct (sys_ret r <? 0).
Qed.

Lemma process_create_retries_witness :
  let w := online (sample_socket 9 false) (sample_session 2 0) (busy 30 [reply_error EAGAIN]) in
  ∃ z w', process_create (Some 52%positive) (mret 0) w = Ok z w' ∧
    (z = -1 ∧ vars (net w') !! 52%positive = Some 7) ∧
    trace (sys w') = fork_call :: concat (replicate 30 wait_calls) ++ [] ∧ answers (sys w') = [].
Proof.
  intros w. apply (process_create_retries 30 52 7 (mret 0) (reply_error EAGAIN) [] w).
  - done.
  - done.
  - lia.
  - by right.
  - done.
Defined.


(** The number 42 of a process that is gone. *)
Definition stale_replies : list sysret :=
  [reply 0; reply 3; reply_stat (mk_stat_buf 33188 3 0 0 0); reply_data 3 (B "42" ++ [LF]); reply 0;
   reply_error ESRCH; reply 0].

Definition var_run : Site := {| NC_IPCDIR := B "/var/run" |}.

Lemma stale_ok : pid_replies 42 (reply 3) (reply_stat (mk_stat_buf 33188 3 0 0 0)) (reply_data 3 (B "42" ++ [LF])).
Proof. split; cbn; try (unfold STRING_MAX; lia); [split; [done|by eexists]|split; [by_compute|done]|split; [lia|by_compute]]. Qed.


(** C27: [pidfile_create] takes a pidfile that exists for a running program, also when the process is gone: its test with the signal 0 removes the file and succeeds, so the new instance is refused and is left without a pidfile. *)
Theorem pidfile_create_refuses_stale `{Site} t w q pid s1 s2 op st rd cl k u rest :
  nonul NC_IPCDIR → Z.of_nat (length (pid_path t)) ≤ STRING_MAX →
  ready w → str_rep w q t → answers (sys w) = s1 :: s2 :: op :: st :: rd :: cl :: k :: u :: rest →
  sys_ret s1 = 0 → sys_ret s2 = 0 → pid_replies pid op st rd → kill_reply k → 0 ≤ sys_ret u →
  ∃ w', pidfile_create (Some q) w = Ok (-1) w' ∧
    trace (sys w') = unlink_call (pid_path t) :: kill_call pid 0 ::
      reads (pid_path t) op st rd ++ stat_call (pid_path t) :: stat_call (pid_path t) :: trace (sys w).
Proof.
  intros Hsite Hlen Hr Hq Ha H1 H2 HP Hk Hu.
  destruct (wp_ok _ _ _ (pidfile_create_refuses_ok t Hsite Hlen w q pid s1 s2 op st rd cl k u rest no_exit
    Hr Hq Ha H1 H2 HP Hk Hu)) as (z & w' & Hrun & (-> & Ht & _) & _).
  exists w'. split; [done|]. rewrite Ht. unfold kill_calls. by rewrite <- !app_assoc.
Qed.

Lemma pidfile_create_refuses_stale_witness :
  let w := online (sample_socket 9 false) (sample_session 2 0) (reply 0 :: stale_replies) in
  ∃ w', @pidfile_create var_run (Some 1%positive) w = Ok (-1) w' ∧
    trace (sys w') = [unlink_call (B "/var/run/foo.pid"); kill_call 42 0; close_call 3; read_call 3 3;
      stat_call (B "/var/run/foo.pid"); open_call (B "/var/run/foo.pid") 0 0; stat_call (B "/var/run/foo.pid");
      stat_call (B "/var/run/foo.pid")].
Proof.
  intros w. apply (@pidfile_create_refuses_stale var_run (B "foo") w 1 42 (reply 0) (reply 0) (reply 3)
    (reply_stat (mk_stat_buf 33188 3 0 0 0)) (reply_data 3 (B "42" ++ [LF])) (reply 0) (reply_error ESRCH) (reply 0) []).
  - by_compute.
  - by vm_compute.
  - apply online_ready.
  - exact sample_1.
  - done.
  - done.
  - done.
  - exact stale_ok.
  - by right.
  - done.
Defined.

(** C39: The pidfile round trip: without a pidfile [pidfile_create] writes the number of the process to a temporary file, closes it and renames it to the pidfile; when the pidfile later holds the bytes that were written, [pidfile_kill] sends its signal to that process and removes the file. *)
Theorem pidfile_round_trip `{Site} t w q s g mk wr cl rn sig s' op st rd cl' k u rest :
  nonul NC_IPCDIR → Z.of_nat (length (pid_path t)) ≤ STRING_MAX → ready w → str_rep w q t →
  answers (sys w) = s :: g :: mk :: wr :: cl :: rn :: s' :: op :: st :: rd :: cl' :: k :: u :: rest →
  sys_ret s ≠ 0 → 0 ≤ sys_ret g < 2 ^ 31 → file_name (sys_data mk) →
  Forall (λ r, 0 ≤ sys_ret r) [mk; wr; cl; rn; op; rd] → sys_ret s' = 0 → stat_reply st →
  0 ≤ st_size (sys_stat st) < STRING_MAX → read_reply (st_size (sys_stat st)) rd → kill_reply k →
  ∃ d w1, pidfile_create (Some q) w = Ok 0 w1 ∧
    trace (sys w1) = rename_call (sys_data mk) (pid_path t) :: close_call (sys_ret mk) ::
      write_call (sys_ret mk) d :: mk_call :: ("getpid", []) :: stat_call (pid_path t) :: trace (sys w) ∧
    (sys_data rd = d → ∃ w2, pidfile_kill (Some q) sig w1 = Ok (if sys_ret u <? 0 then -1 else 0) w2 ∧
      trace (sys w2) = unlink_call (pid_path t) :: kill_call (sys_ret g) sig ::
        reads (pid_path t) op st rd ++ stat_call (pid_path t) :: trace (sys w1)).
Proof.
  intros Hsite Hlen Hr Hq Ha Hs Hg (M1 & M2 & M3)
    [H1 [H2 [H3 [H4 [H5 [H6 _]%Forall_cons]%Forall_cons]%Forall_cons]%Forall_cons]%Forall_cons]%Forall_cons Hs' Hst Hsz Hrd Hk.
  assert (0 ≤ sys_ret g < 2 ^ 32) as Hg' by lia.
  pose proof (pidfile_create_writes_ok t Hsite Hlen w q s g mk wr cl rn _ no_exit Hr Hq Ha Hs Hg' M2 M1 M3) as Hw.
  unfold write_outcome, save_outcome in Hw. rewrite !(proj2 (Z.ltb_ge _ _)) in Hw by done.
  apply wp_ok in Hw as (r & w1 & Hrun & (-> & Ht & Ha1) & F). exists (pid_line (sys_ret g)), w1.
  split; [done|]. split; [done|]. intros Hd.
  destruct (wp_ok _ _ _ (pidfile_kill_ok t Hsite Hlen w1 q sig (sys_ret g) s' op st rd cl' k u rest no_exit
    (proj1 F) ltac:(by apply (fstep_rep ∅ w w1); [| |apply not_elem_of_empty|]) Ha1 Hs'
    ltac:(by split) Hk)) as (z & w2 & Hrun2 & -> & _ & Ht2 & _).
  exists w2. split; [done|]. rewrite Ht2. unfold kill_calls. by rewrite <- !app_assoc.
Qed.

(** Process 42 writes its pidfile and is then sent the signal 15. *)
Definition pid_session : list sysret :=
  [reply_error ENOENT; reply 42; reply_data 3 (B "tmp1"); reply 3; reply 0; reply 0;
   reply 0; reply 3; reply_stat (mk_stat_buf 33188 3 0 0 0); reply_data 3 (B "42" ++ [LF]); reply 0; reply 0; reply 0].

Lemma pidfile_round_trip_witness :
  let w := online (sample_socket 9 false) (sample_session 2 0) pid_session in
  ∃ d w1, @pidfile_create var_run (Some 1%positive) w = Ok 0 w1 ∧
    trace (sys w1) = [rename_call (B "tmp1") (B "/var/run/foo.pid"); close_call 3; write_call 3 d; mk_call;
      ("getpid", []); stat_call (B "/var/run/foo.pid")] ∧
    (B "42" ++ [LF] = d → ∃ w2, @pidfile_kill var_run (Some 1%positive) 15 w1 = Ok 0 w2 ∧
      trace (sys w2) = unlink_call (B "/var/run/foo.pid") :: kill_call 42 15 ::
        [close_call 3; read_call 3 3; stat_call (B "/var/run/foo.pid"); open_call (B "/var/run/foo.pid") 0 0;
         stat_call (B "/var/run/foo.pid")] ++ trace (sys w1)).
Proof.
  intros w. apply (@pidfile_round_trip var_run (B "foo") w 1 (reply_error ENOENT) (reply 42) (reply_data 3 (B "tmp1"))
    (reply 3) (reply 0) (reply 0) 15 (reply 0) (reply 3) (reply_stat (mk_stat_buf 33188 3 0 0 0))
    (reply_data 3 (B "42" ++ [LF])) (reply 0) (reply 0) (reply 0) []).
  - by_compute.
  - by vm_compute.
  - apply online_ready.
  - exact sample_1.
  - done.
  - done.
  - cbn; lia.
  - split; [done|]. split; by_compute.
  - by repeat constructor.
  - done.
  - split; [done|by eexists].
  - cbn; unfold STRING_MAX; lia.
  - split; [by_compute|done].
  - by left.
Defined.

(** * The server *)

(** When a client cannot be accepted, or its descriptor is over the limit, [server_accept] fails in the state that [session_accept] left: the session is not destroyed and the descriptor stays open. *)
Lemma server_accept_leaks `{Hooks} srv v s o1 z w w1 w2 w3 o k c :
  session_new None w = Ok (0, Some s) w1 → servers (net w1) !! srv = Some v →
  sessions (net w1) !! s = Some o1 →
  session_controller_invoke (Some s) SESSION_INIT NoArg
    (upd_net (upd_sessions <[s := set_session_handle (srv_controller_handle v) o1]>) w1) = Ok 0 w2 →
  session_accept (Some s) (Some srv) w2 = Ok z w3 →
  sessions (net w3) !! s = Some o → s_sock o = Some k → socks (net w3) !! k = Some c →
  z ≠ 0 ∨ MAX_CLIENT_COUNT ≤ sock_fd c →
  server_accept (Some srv) w = Ok (-1) w3.
Proof.
  intros Hnew Hv Hs Hinit Hacc Ho Hk Hc Hz. unfold server_accept, func.
  unfold mbind at 1, M_bind at 1. rewrite Hnew. cbn [Z.eqb negb]. unfold labels.
  unfold mbind at 1, M_bind at 1, get_server, deref_obj. rewrite Hv.
  unfold mbind at 1, M_bind at 1, mod_session, set_obj. rewrite Hs.
  change (in_net upd_sessions ?f w1) with (upd_net (upd_sessions f) w1).
  unfold mbind at 1, M_bind at 1, try_ at 1, mbind at 1, M_bind at 1. rewrite Hinit. cbn [Z.eqb].
  unfold mbind at 1, M_bind at 1, mret at 1, M_ret at 1.
  unfold mbind at 1, M_bind at 1, try_ at 1, mbind at 1, M_bind at 1. rewrite Hacc.
  destruct (Z.eqb_spec z 0) as [->|Hne]; [|done]. cbn [Z.eqb].
  unfold mbind at 1, M_bind at 1, mret at 1, M_ret at 1.
  unfold mbind at 1, M_bind at 1, get_session, deref_obj. rewrite Ho.
  unfold mbind at 1, M_bind at 1, get_sock, deref_obj. rewrite Hk, Hc.
  destruct Hz as [Hz|Hz]; [done|]. by rewrite (proj2 (Z.leb_le _ _) Hz).
Qed.

(** A server with the three strings of the sample. *)
Definition sample_server : server_t :=
  set_srv_strings (Some 1%positive) (Some 1%positive) (Some 1%positive) (Some 1%positive) zero_server.

(** The state in which a call ends. *)
Definition after {A} (c : M A) (w : world) : world :=
  match c w with Ok _ w' => w' | _ => w end.

(** A server on the socket 50; the next client gets the descriptor 10000. *)
Definition crowded : world :=
  upd_net (upd_servers <[60%positive := set_srv_sock (Some 50%positive) sample_server]>)
    (online (set_sock_family (sample_socket 9 false) PF_INET) (sample_session SESSION_READ 0)
      [reply 0; reply 10000; reply 0; reply 0; reply 0]).

Definition crowded_new : world := after (session_new None) crowded.
Definition new_session : session_t := default zero_session (sessions (net crowded_new) !! next_loc crowded).
Definition crowded_init : world :=
  upd_net (upd_sessions <[next_loc crowded := set_session_handle 0 new_session]>) crowded_new.
Definition crowded_end : world :=
  after (session_accept (Some (next_loc crowded)) (Some 60%positive)) crowded_init.
Definition kept_session : session_t := default zero_session (sessions (net crowded_end) !! next_loc crowded).
Definition kept_socket : socket_t :=
  default zero_socket (socks (net crowded_end) !! default 1%positive (s_sock kept_session)).

Lemma server_accept_leaks_witness :
  sock_fd kept_socket = 10000 ∧
  @server_accept sample_hooks (Some 60%positive) crowded = Ok (-1) crowded_end.
Proof.
  split; [by vm_compute|].
  apply (@server_accept_leaks sample_hooks 60 (set_srv_sock (Some 50%positive) sample_server)
    (next_loc crowded) new_session 0 crowded crowded_new crowded_init crowded_end kept_session
    (default 1%positive (s_sock kept_session)) kept_socket).
  - vm_compute. reflexivity.
  - vm_compute. reflexivity.
  - vm_compute. reflexivity.
  - vm_compute. reflexivity.
  - vm_compute. reflexivity.
  - vm_compute. reflexivity.
  - vm_compute. reflexivity.
  - vm_compute. reflexivity.
  - right. by vm_compute.
Defined.

(** * The multiplexer *)

(** When poll(2) reports descriptors but none of them can be read, as after a hangup or an error, the traversal of the descriptors does not stop at the end of the array and reads the element after the last. *)
Lemma examine_overruns `{Hooks} handler revents i w :
  0 < i → (∀ n, (n < length handler)%nat → pollfd_bit (nth n revents NUL) POLLIN = false) →
  Forall (server_texts w) handler → examine handler revents i w = Crash BadAccess.
Proof. apply examine_overrun. Qed.

Definition with_server : world :=
  upd_net (upd_servers <[60%positive := sample_server]>)
    (online (sample_socket 9 false) (sample_session SESSION_READ 0) []).

Lemma examine_overruns_witness :
  @examine sample_hooks [Some 60%positive] [char_of_int POLLHUP] 1 with_server = Crash BadAccess.
Proof.
  apply (@examine_overruns sample_hooks).
  - lia.
  - intros [|n] Hn; [done|cbn in Hn; lia].
  - repeat constructor. exists 60%positive, sample_server. do 4 exists 1%positive. do 4 exists (B "foo").
    split_and!; try done; exact sample_1.
Defined.

(** C21: when poll(2) answers i and no descriptor has an error, [examine] accepts a client on the first i servers that can be read, in the order of the array and whatever each attempt returns, and answers i; when fewer than i can be read, it accepts on all of them and then reads the element after the last. *)
Theorem examine_accepts_ready `{Hooks} handler revents i w :
  Forall no_errors revents → 0 ≤ i →
  examine handler revents i w =
    (let ready := readable_servers handler revents in
     accept_all (take (Z.to_nat i) ready);;
     if i <=? Z.of_nat (length ready) then mret i else crash_with BadAccess) w.
Proof.
  intros Hev Hi. rewrite (examine_accept_rest _ _ _ _ Hev Hi). unfold accept_rest. by rewrite Z.sub_0_r.
Qed.

Lemma examine_accepts_ready_witness :
  @examine sample_hooks [Some 60; Some 61; Some 62]%positive [char_of_int POLLIN; NUL; char_of_int POLLIN] 1 with_server =
    (_ ← @server_accept sample_hooks (Some 60%positive); mret 1) with_server.
Proof.
  rewrite (@examine_accepts_ready sample_hooks); [|repeat (apply Forall_cons_2; [repeat split|]); apply Forall_nil_2|lia].
  change (readable_servers _ _) with [Some 60%positive; Some 62%positive].
  change (take _ _) with [Some 60%positive]. unfold accept_all, mbind, M_bind.
  destruct (@server_accept sample_hooks (Some 60%positive) with_server); reflexivity.
Defined.
