(* ===== verification/TraceTheorems.v ===== *)
(** Properties of the calls that a function makes, for all replies of the system
    and all failures of the allocator. *)

From S2P Require Import Prelude Types Machine Wp StringOps ListOps PasswdOps FileOps FileFacts.
From S2P Require Import UidMapOps InetOps DnsOps ProcessOps SocketOps SessionOps ServerOps Traces Samples.

Open Scope Z_scope.

(** * Dropping privileges *)
















